(* ===== verification/_CoqProject ===== *)
-Q . S2P
Prelude.v
Libc.v
Elftool.v
ElfHeap.v
ElfLoad.v
ElfSym.v
ToyElf.v
ElfExamples.v
Kernel.v
ToyKernel.v
SdbState.v
SdbBreak.v
SdbRun.v
SdbSession.v
SdbInspect.v
SdbMaps.v
SdbMain.v
SdbInv.v
SdbTest.v
SdbTrace.v
SdbExamples.v
SdbSessionExample.v
MiniSig.v
MiniMem.v
MiniCall.v
MiniErrno.v
MiniSignal.v
MiniProgs.v
MiniExamples.v
Fsmon.v
FsmonLog.v
FsmonText.v
FsmonCalls.v
FsmonClient.v
FsmonProgs.v
FsmonExamples.v
Netstat.v
NetstatParse.v
NetstatLines.v
NetstatOwner.v
NetstatMain.v
NetstatSystem.v
NetstatExamples.v
