(* ===== verification/Prelude.v ===== *)
(** * Verification of the homeworks of "Advanced UNIX Programming"

    The repository holds four programs.  Each is modelled by a group of files;
    the names of the definitions are those of the C functions.

    - hw4, sdb: a debugger on ptrace.  [elftool.c] loads the tables of an ELF
      file into a heap ([Elftool]); [sdb.h] keeps ten breakpoints and runs the
      traced program ([SdbState] the structures and the calls of the kernel,
      [SdbBreak] setting, planting, listing and deleting breakpoints, [SdbRun]
      start, cont and run, [SdbSession] these commands from one breakpoint to the
      next, [SdbTrace] sessions of commands, [SdbInspect] load, vmmap, registers,
      disassembly and dump); [main.c] is the command loop ([SdbMain]), [test.c]
      a test without it ([SdbTest]).
    - hw3, libmini: a small C library: system-call wrappers, perror and sleep
      ([MiniCall]), the error numbers ([MiniErrno]), memory functions
      ([MiniMem]), signal sets ([MiniSig]), sigaction, signal, setjmp and longjmp
      ([MiniSignal]); and the two programs of hw3 that jump ([MiniProgs]).
    - hw2, fsmon: a preloaded library that calls the real functions and logs
      them ([Fsmon]; [FsmonCalls] puts its functions behind the calls of a
      program); the programs of hw2/testcases are interaction trees of calls
      ([FsmonClient], [FsmonProgs]).
    - hw1, netstat: reads /proc/net, finds the owners of the sockets in /proc
      and prints two lists ([Netstat], for hw1_utils.h and main.cpp).

    ** How the programs are modelled

    A C function is a function in the monad [M] of this file: it takes the state
    and returns a result with the new state, or ends in another way: undefined
    behaviour of a kind [ub] names, blocking in the kernel, exit, exec, or the
    bound of a loop.  [Undef] is used where the C standard gives no meaning, so
    a theorem that a call returns also says that it has a meaning.  Integers are
    [Z] with the conversions to their width written out ([wrap64], [wrap32],
    [sint]).  [Libc] models what the sources use of <string.h> and <stdio.h>:
    strtok, strchr, the conversions of sscanf and printf.

    What is outside the sources is a class.  [ElfEnv] is libelf, open, pread and
    malloc, any of which may fail.  [Kernel] is ptrace, waitpid, fork, exec and
    files; [KernelLaws] is their documented behaviour: peek reads the eight bytes
    poke wrote and poke changes no other, a PTRACE_SETREGS that is accepted sets
    the general registers - the kernel may refuse it, and keeps flags of its own
    - and neither touches the other's part; [WaitLaws] that a stop of a
    tracee that was not resumed is reported once and the end of a process is
    final.  [Capstone] is the disassembler and [CapstoneLaws] the shape of an
    instruction: its bytes, as many as its size.
    [MiniKernel] and [SignalKernel] are the system calls of libmini;
    [Terminal] is what descriptor 1 of libmini has received.  [RealLib] is the C
    library below fsmon, [CompleteLib] one that has every function and a log that
    can be opened, [TypedLib] says that a result has its declared type,
    [IntAbi] what a caller makes of a result declared int, and [ClientLib] that
    the programs cannot name the log and that open looks at its mode only when it
    may create a file.  [ProcFs] is what netstat sees of /proc, by the number of
    the look, of its uninitialised variables, and of getopt_long and inet_ntop.  Concrete instances ([ToyElf],
    [ToyKernel], the Examples files) satisfy the laws; the theorems are applied
    to them, and sessions are run on them.

    ** Fuel

    [wait_loop] and [main_loop] are bounded by a number of iterations:
    [cont_and_run_end] shows that three iterations are enough once the program
    goes on and that more make no difference, since the loop never resumes the
    program; [eof_never_returns] that no number of lines is enough at the end
    of the input.  [elf_free_strtab] is bounded by the
    number of cells, [elf_free_strtab_frees] shows that to be enough.
    [load_function] of fsmon recurses only when libc lacks a function; one level
    is enough on a complete library.  [nanosleep] of libmini is bounded since it
    calls itself for ever ([nanosleep_never_returns]).  The programs of
    hw2/testcases have no bound, their loops are those of the tree; [yields] says
    that some number of steps runs them to their end.  Eleven rounds are enough
    for jmp1 and two for jmp2.

    ** What is proved

    - sdb, breakpoints ([SdbBreak], [SdbRun], [SdbInspect]): the memory of the
      traced program is its own bytes overlaid with 0xcc at the breakpoints
      ([patch_all_overlay]); setting, hitting, deleting and disassembling keep
      that view ([set_break_adds], [delete_restores], [disasm_reads_program]).
      [SdbSession] composes the debugger with the program, which may write
      outside the breakpoints: run and cont end at a breakpoint
      ([run_stops_at_breakpoint], [cont_stops_at_breakpoint]), and from there the
      next cont steps over it, plants it again and ends at the next one
      ([patch_all_steps_over], [cont_continues_from_breakpoint]).  These hold for
      breakpoints eight bytes apart in readable words; a report that does not fit
      bytes_str or the array of instructions is shown to overrun them.  Every
      other report of waitpid is in [cont_and_run_end].  [SdbInv]: the
      object is well formed in every state the command loop reaches
      ([reachable_wf]), and at the end of the test program ([test_keeps_wf]).
      [SdbTrace]: through a whole session, in any order of the commands, what the
      memory shows ([session_shows]); [SdbSessionExample] is a session of eight
      commands.
    - sdb, inspection and input ([SdbInspect], [SdbMaps], [SdbMain]): a register
      the kernel let be set is read back, dumps and maps show what is there, the base address of
      a position-independent program, operands that fit their buffers.
    - elftool ([ElfHeap], [ElfLoad], [ElfSym]): open, load and close touch only
      live cells and leave no file open, and the tables are those of the file, on
      any file and whatever fails, but for the headers libelf does not give
      and symbol tables that do not fit, which [load_fault] names; symbols decode
      to their fields.
    - libmini: wrappers follow the system-call convention, the signal sets
      refine finite sets, perror says what the header says of a number, longjmp
      returns to where setjmp was called, memory functions do what they promise;
      jmp1 and jmp2 write what they should.
    - fsmon ([FsmonLog], [FsmonText], [FsmonCalls]): every monitored function is
      transparent but for the types it declares - read and write give an int,
      open has no mode - and logs one line; the names and texts that are logged.
      Hence a program under the monitor is the program on the library as these
      types show it ([monitored_client_same]), and one whose calls can be
      logged and lose nothing ends as without it ([monitored_client_returns]).
    - netstat ([NetstatParse], [NetstatLines], [NetstatOwner], [NetstatMain],
      [NetstatSystem]): the lines of /proc/net are parsed back, the scan of
      /proc finds the owners, the selection is a filter, and on a system of
      owned sockets, IPv4 and IPv6, main prints the listing computed from the
      system and, for IPv6 addresses and port 0, from what the stack held
      ([main_lists]); the options in any order ([options_independent]).
    - Where the code goes wrong, the theorem says how: a full table, a command
      without operand, breakpoints in position-independent programs or a byte
      apart, a breakpoint reached by si, a stop for a signal, a report too
      long, a failed load, symbols never freed, headers libelf does not give,
      perror after a prefix, results cut to an int, IPv6 addresses, sockets
      without owner, directories that cannot be read.

    ** What is not modelled

    [elf_perror], which only prints and is called nowhere; memset of libmini,
    which is declared and never defined; start.asm, which calls main and exit;
    the test programs of hw3 about alarms, whose point is when the kernel
    delivers a signal.  The stat call of netstat has no
    effect and is left out. *)
#[global] Set Warnings "-clear-no-such-hyp".
From Stdlib Require Export Ascii ZArith Lia.
From stdpp Require Export base tactics numbers list strings gmap.

#[global] Open Scope Z_scope.
#[global] Set Default Goal Selector "!".

(** * Prelude: the monad, total correctness, machine integers, lists *)

(** ** Ways a C program can fail to return *)

(** The undefined behaviours the sources can run into. *)
Inductive ub : Type :=
  | NullDeref      (** a null pointer is dereferenced *)
  | InvalidAccess  (** a dangling pointer is dereferenced or freed again *)
  | OutOfBounds    (** an array is accessed outside its bounds *)
  | Uninit         (** an automatic object is read before it is written *)
  | BadShift       (** a shift count is negative or too large *)
  | Overflow       (** a signed operation overflows *)
  | BadFormat.     (** a printf directive and its argument do not match *)

(** How a call ends: it returns, it is undefined, it blocks in the kernel for
    ever, the loop bound of the model is reached, or the process is gone. *)
Inductive outcome (A : Type) : Type :=
  | Ret (a : A)
  | Undef (u : ub)
  | Blocks
  | NoFuel
  | Exits (code : Z)
  | Execs (path : string).
Arguments Ret {A} _.
Arguments Undef {A} _.
Arguments Blocks {A}.
Arguments NoFuel {A}.
Arguments Exits {A} _.
Arguments Execs {A} _.

#[export] Instance ub_eq_dec : EqDecision ub.
Proof. solve_decision. Defined.
#[export] Instance outcome_eq_dec `{EqDecision A} : EqDecision (outcome A).
Proof. solve_decision. Defined.

(** ** Failing computations without state *)

#[export] Instance outcome_ret : MRet outcome := λ A a, Ret a.
#[export] Instance outcome_bind : MBind outcome := λ A B f o,
  match o with
  | Ret a => f a
  | Undef u => Undef u
  | Blocks => Blocks
  | NoFuel => NoFuel
  | Exits c => Exits c
  | Execs p => Execs p
  end.

(** ** The state and failure monad *)

Definition M (S A : Type) : Type := S → outcome (A * S).

#[export] Instance M_ret S : MRet (M S) := λ A a s, Ret (a, s).
#[export] Instance M_bind S : MBind (M S) := λ A B f m s,
  match m s with
  | Ret (a, s') => f a s'
  | Undef u => Undef u
  | Blocks => Blocks
  | NoFuel => NoFuel
  | Exits c => Exits c
  | Execs p => Execs p
  end.

Definition get {S} : M S S := λ s, Ret (s, s).
Definition gets {S A} (f : S → A) : M S A := λ s, Ret (f s, s).
Definition modify {S} (f : S → S) : M S unit := λ s, Ret (tt, f s).
Definition undef {S A} (u : ub) : M S A := λ _, Undef u.
Definition blocks {S A} : M S A := λ _, Blocks.
Definition no_fuel {S A} : M S A := λ _, NoFuel.
Definition exits {S A} (c : Z) : M S A := λ _, Exits c.
Definition execs {S A} (p : string) : M S A := λ _, Execs p.

(** A computation that does not use the state. *)
Definition pure {S A} (o : outcome A) : M S A := λ s, o ≫= λ a, Ret (a, s).
(** A value the code reads: [None] stands for an object never written. *)
Definition read_init {S A} (o : option A) : M S A :=
  match o with Some a => mret a | None => undef Uninit end.
(** A pointer the code dereferences: [None] is the null pointer. *)
Definition deref {S A} (o : option A) : M S A :=
  match o with Some a => mret a | None => undef NullDeref end.

(** [a[i]] of an array. *)
Definition at_index {S A} (a : list A) (i : nat) : M S A :=
  match a !! i with Some x => mret x | None => undef OutOfBounds end.

(** [for] loops over a list of indices, left by [break] or [return] as soon as
    the body yields [Some]. *)
Fixpoint for_each {S A R} (l : list A) (body : A → M S (option R)) : M S (option R) :=
  match l with
  | [] => mret None
  | x :: l => r ← body x; match r with Some v => mret (Some v) | None => for_each l body end
  end.

Lemma for_each_app {S A R} (l1 l2 : list A) (body : A → M S (option R)) s :
  for_each (l1 ++ l2) body s
  = (for_each l1 body ≫= λ r, match r with Some v => mret (Some v) | None => for_each l2 body end) s.
Proof.
  revert s. induction l1 as [|x l1 IH]; intros s; [done|]. cbn [app for_each].
  unfold mbind, M_bind in *. by destruct (body x s) as [[[v|] s1]| | | | |].
Qed.

(** ** Total correctness *)

(** [wp m Q s]: from [s] the call [m] returns, with a result and a state that
    satisfy [Q]. *)
Definition wp {S A} (m : M S A) (Q : A → S → Prop) (s : S) : Prop :=
  match m s with Ret (a, s') => Q a s' | _ => False end.

Section wp_rules.
Context {S A B : Type}.
Implicit Types (m : M S A) (s : S).

Lemma wp_returns m Q s : wp m Q s ↔ ∃ a s', m s = Ret (a, s') ∧ Q a s'.
Proof.
  unfold wp. split.
  - destruct (m s) as [[a s']| | | | |]; naive_solver.
  - intros (a & s' & -> & HQ). exact HQ.
Qed.

Lemma wp_intro m Q s a s' : m s = Ret (a, s') → Q a s' → wp m Q s.
Proof. unfold wp. by intros ->. Qed.

Lemma wp_ret (a : A) (Q : A → S → Prop) s : Q a s → wp (mret a) Q s.
Proof. done. Qed.

Lemma wp_bind (m : M S A) (f : A → M S B) Q s :
  wp m (λ a, wp (f a) Q) s → wp (m ≫= f) Q s.
Proof.
  unfold wp, mbind, M_bind. destruct (m s) as [[a s']| | | | |]; done.
Qed.

Lemma wp_mono m (P Q : A → S → Prop) s :
  wp m P s → (∀ a s', P a s' → Q a s') → wp m Q s.
Proof. unfold wp. destruct (m s) as [[a s']| | | | |]; naive_solver. Qed.

Lemma wp_get (Q : S → S → Prop) s : Q s s → wp get Q s.
Proof. done. Qed.
Lemma wp_gets (f : S → A) (Q : A → S → Prop) s : Q (f s) s → wp (gets f) Q s.
Proof. done. Qed.
Lemma wp_modify (f : S → S) (Q : unit → S → Prop) s :
  Q tt (f s) → wp (modify f) Q s.
Proof. done. Qed.
Lemma wp_deref (a : A) (Q : A → S → Prop) s : Q a s → wp (deref (Some a)) Q s.
Proof. done. Qed.
Lemma wp_read_init (a : A) (Q : A → S → Prop) s :
  Q a s → wp (read_init (Some a)) Q s.
Proof. done. Qed.
End wp_rules.

(** [wp_or E m Q s]: [m] returns with [Q], or has no defined behaviour for one
    of the reasons [E] names. *)
Definition wp_or {S A} (E : ub → Prop) (m : M S A) (Q : A → S → Prop) (s : S) : Prop :=
  match m s with Ret (a, s') => Q a s' | Undef u => E u | _ => False end.

Section wp_or_rules.
Context {S A B : Type}.
Implicit Types (m : M S A) (s : S) (E : ub → Prop).

Lemma wp_or_wp E m Q s : wp m Q s → wp_or E m Q s.
Proof. unfold wp, wp_or. by destruct (m s) as [[a s']| | | | |]. Qed.
Lemma wp_or_bind E m (f : A → M S B) Q s :
  wp_or E m (λ a, wp_or E (f a) Q) s → wp_or E (m ≫= f) Q s.
Proof. unfold wp_or, mbind, M_bind. by destruct (m s) as [[a s']| | | | |]. Qed.
Lemma wp_or_bind_wp E m (f : A → M S B) Q s :
  wp m (λ a, wp_or E (f a) Q) s → wp_or E (m ≫= f) Q s.
Proof. intros Hm. by apply wp_or_bind, wp_or_wp. Qed.
Lemma wp_or_undef E m Q s u : m s = Undef u → E u → wp_or E m Q s.
Proof. unfold wp_or. by intros ->. Qed.
Lemma wp_or_mono (E E' : ub → Prop) m (P Q : A → S → Prop) s :
  wp_or E m P s → (∀ u, E u → E' u) → (∀ a s', P a s' → Q a s') → wp_or E' m Q s.
Proof. unfold wp_or. destruct (m s) as [[a s']| | | | |]; naive_solver. Qed.
Lemma wp_or_none E m Q s : (∀ u, ¬ E u) → wp_or E m Q s → wp m Q s.
Proof. unfold wp, wp_or. destruct (m s) as [[a s']| | | | |]; naive_solver. Qed.
End wp_or_rules.

Create HintDb wp discriminated.
#[export] Hint Resolve wp_ret wp_bind wp_get wp_gets wp_modify wp_deref wp_read_init : wp.

(** The loop rule: [I] holds of the elements already visited and the state. *)
Lemma wp_for_each {S A R} (l : list A) (body : A → M S (option R))
    (I : list A → S → Prop) (Q : option R → S → Prop) s :
  I [] s →
  (∀ visited x rest s, l = visited ++ x :: rest → I visited s →
     wp (body x) (λ r s', match r with
                          | Some v => Q (Some v) s'
                          | None => I (visited ++ [x]) s'
                          end) s) →
  (∀ s, I l s → Q None s) →
  wp (for_each l body) Q s.
Proof.
  intros H0 Hstep Hend.
  cut (∀ rest visited s, l = visited ++ rest → I visited s → wp (for_each rest body) Q s).
  { intros H. by apply (H l []). }
  clear s H0. induction rest as [|x rest IH]; intros visited s Hl HI; simpl.
  - apply wp_ret, Hend. by rewrite Hl, app_nil_r.
  - apply wp_bind. eapply wp_mono; [by eapply Hstep|].
    intros [v|] s' Hs'; simpl; [by apply wp_ret|].
    apply IH with (visited ++ [x]); [|done]. by rewrite <-app_assoc.
Qed.

(** A bind whose first call is known to return runs the rest. *)
Lemma bind_Ret {S A B} (m : M S A) (f : A → M S B) s a s' :
  m s = Ret (a, s') → (m ≫= f) s = f a s'.
Proof. unfold mbind, M_bind. by intros ->. Qed.

(** A bind that returns: both calls returned. *)
Lemma bind_inv {S A B} (m : M S A) (k : A → M S B) s r :
  (m ≫= k) s = Ret r → ∃ a s1, m s = Ret (a, s1) ∧ k a s1 = Ret r.
Proof. unfold mbind, M_bind. destruct (m s) as [[a s1]| | | | |]; [|discriminate..]. eauto. Qed.

Lemma ret_bind {S A B} (a : A) (f : A → M S B) s : (mret a ≫= f) s = f a s.
Proof. done. Qed.

Lemma get_bind {S A} (k : S → M S A) s : (get ≫= k) s = k s s.
Proof. done. Qed.
Lemma modify_bind {S A} f (k : unit → M S A) s : (modify f ≫= k) s = k tt (f s).
Proof. done. Qed.

(** Reading a value that was written; the two steps at once. *)
Lemma read_Some_bind {S A B} (a : A) (f : A → M S B) s : (read_init (Some a) ≫= f) s = f a s.
Proof. done. Qed.

Lemma bind_Undef {S A B} (m : M S A) (f : A → M S B) s u :
  m s = Undef u → (m ≫= f) s = Undef u.
Proof. unfold mbind, M_bind. by intros ->. Qed.

Lemma bind_assoc_M {S A B C} (m : M S A) (f : A → M S B) (g : B → M S C) s :
  ((m ≫= f) ≫= g) s = (m ≫= λ a, f a ≫= g) s.
Proof. unfold mbind, M_bind. by destruct (m s) as [[a s']| | | | |]. Qed.

(** ** What a computation leaves alone *)

(** Whenever [m] returns, the part [f] of the state is as it was. *)
Section frame.
Context {S X : Type} (f : S → X).

Definition frame {A} (m : M S A) : Prop := ∀ s a s', m s = Ret (a, s') → f s' = f s.

Lemma frame_ret {A} (a : A) : frame (mret a).
Proof. intros s b s' E. by injection E as <- <-. Qed.
Lemma frame_bind {A B} (m : M S A) (k : A → M S B) : frame m → (∀ a, frame (k a)) → frame (m ≫= k).
Proof. intros Hm Hk s b s' (a & s1 & E1 & E2)%bind_inv. by rewrite (Hk _ _ _ _ E2), (Hm _ _ _ E1). Qed.
Lemma frame_undef {A} u : frame (undef u : M S A).
Proof. done. Qed.
Lemma frame_exits {A} c : frame (exits c : M S A).
Proof. done. Qed.
Lemma frame_execs {A} p : frame (execs p : M S A).
Proof. done. Qed.
Lemma frame_read {A} (o : option A) : frame (read_init o).
Proof. destruct o; [apply frame_ret|apply frame_undef]. Qed.
Lemma frame_deref {A} (o : option A) : frame (deref o).
Proof. destruct o; [apply frame_ret|apply frame_undef]. Qed.
Lemma frame_get : frame get.
Proof. intros s a s' E. by injection E as <- <-. Qed.
Lemma frame_gets {A} (g : S → A) : frame (gets g).
Proof. intros s a s' E. by injection E as <- <-. Qed.
Lemma frame_pure {A} (o : outcome A) : frame (pure o).
Proof.
  intros s a s' E. unfold pure, mbind, outcome_bind in E. destruct o; [|discriminate..]. by injection E as <- <-.
Qed.
Lemma frame_at {A} (l : list A) i : frame (at_index l i).
Proof. unfold at_index. destruct (l !! i); [apply frame_ret|apply frame_undef]. Qed.
Lemma frame_for_each {A R} (l : list A) (body : A → M S (option R)) :
  (∀ i, frame (body i)) → frame (for_each l body).
Proof.
  intros Hb. induction l as [|x l IH]; [apply frame_ret|]. cbn [for_each].
  apply frame_bind; [apply Hb|]. intros [v|]; [apply frame_ret|apply IH].
Qed.
End frame.

Create HintDb frame discriminated.
#[export] Hint Resolve frame_ret frame_undef frame_exits frame_execs frame_read frame_deref frame_get frame_gets
  frame_pure frame_at : frame.
(** Splits a call into the calls it makes. *)
Ltac frame := repeat (intros; cbv beta zeta;
  first [ solve [auto with frame nocore]
        | apply frame_bind
        | apply frame_for_each
        | match goal with |- frame _ (match ?x with _ => _ end) => destruct x end ]).

(** [if]s and decisions in the code. *)
Ltac wp_step :=
  first
    [ apply wp_bind | apply wp_ret | apply wp_get | apply wp_gets | apply wp_modify
    | apply wp_deref | apply wp_read_init ].
Ltac wp_steps := repeat (wp_step; cbn beta iota).

(** ** Machine integers *)

(** Unsigned 64-bit and 32-bit arithmetic wraps around. *)
Definition wrap64 (z : Z) : Z := z mod 2 ^ 64.
Definition wrap32 (z : Z) : Z := z mod 2 ^ 32.
(** Conversion to a signed type of [n] bits (two's complement, as gcc does). *)
Definition sint (n : Z) (z : Z) : Z :=
  let m := z mod 2 ^ n in if m <? 2 ^ (n - 1) then m else m - 2 ^ n.

Lemma wrap64_small z : 0 ≤ z < 2 ^ 64 → wrap64 z = z.
Proof. apply Z.mod_small. Qed.
Lemma wrap64_range z : 0 ≤ wrap64 z < 2 ^ 64.
Proof. apply Z.mod_pos_bound. lia. Qed.
Lemma wrap32_small z : 0 ≤ z < 2 ^ 32 → wrap32 z = z.
Proof. apply Z.mod_small. Qed.
Lemma wrap32_range z : 0 ≤ wrap32 z < 2 ^ 32.
Proof. apply Z.mod_pos_bound. lia. Qed.

Lemma sint_id n z : 0 < n → - 2 ^ (n - 1) ≤ z < 2 ^ (n - 1) → sint n z = z.
Proof.
  intros Hn Hz. unfold sint.
  assert (2 ^ n = 2 * 2 ^ (n - 1)) as E.
  { rewrite <-Z.pow_succ_r by lia. f_equal. lia. }
  destruct (decide (0 ≤ z)).
  - rewrite Z.mod_small by lia. destruct (Z.ltb_spec z (2 ^ (n - 1))); lia.
  - replace (z mod 2 ^ n) with (z + 2 ^ n).
    + destruct (Z.ltb_spec (z + 2 ^ n) (2 ^ (n - 1))); lia.
    + apply Z.mod_unique_pos with (-1); lia.
Qed.

Lemma sint_range n z : 0 < n → - 2 ^ (n - 1) ≤ sint n z < 2 ^ (n - 1).
Proof.
  intros Hn. unfold sint.
  assert (2 ^ n = 2 * 2 ^ (n - 1)) as E.
  { rewrite <-Z.pow_succ_r by lia. f_equal. lia. }
  pose proof (Z.mod_pos_bound z (2 ^ n) ltac:(lia)).
  destruct (Z.ltb_spec (z mod 2 ^ n) (2 ^ (n - 1))); lia.
Qed.

Create Rewrite HintDb words.
#[export] Hint Rewrite wrap64_small wrap32_small using lia : words.

(** ** Bytes of a 64-bit word, little endian *)

Definition byte_of (w i : Z) : Z := Z.land (Z.shiftr w (8 * i)) 255.
Definition word_bytes (w : Z) : list Z := map (byte_of w) [0; 1; 2; 3; 4; 5; 6; 7].
Definition bytes_word (bs : list Z) : Z := foldr (λ b acc, b + 256 * acc) 0 bs.

Lemma byte_of_testbit w i j :
  0 ≤ i → 0 ≤ j → Z.testbit (byte_of w i) j = (j <? 8) && Z.testbit w (8 * i + j).
Proof.
  intros Hi Hj. unfold byte_of. change 255 with (Z.ones 8).
  rewrite Z.land_spec, Z.shiftr_spec, Z.testbit_ones_nonneg by lia.
  rewrite andb_comm. do 2 f_equal; lia.
Qed.

Lemma byte_of_range w i : 0 ≤ i → 0 ≤ byte_of w i < 256.
Proof.
  intros Hi. unfold byte_of. change 255 with (Z.ones 8).
  rewrite Z.land_ones by lia. apply Z.mod_pos_bound. lia.
Qed.

Lemma byte_of_0 w : byte_of w 0 = Z.land w 255.
Proof. unfold byte_of. by rewrite Z.mul_0_r, Z.shiftr_0_r. Qed.

Lemma bytes_word_bytes w : 0 ≤ w < 2 ^ 64 → bytes_word (word_bytes w) = w.
Proof.
  intros Hw. unfold word_bytes, bytes_word. simpl. unfold byte_of.
  change 255 with (Z.ones 8).
  rewrite !Z.land_ones, !Z.shiftr_div_pow2 by lia. Z.to_euclidean_division_equations. lia.
Qed.

Lemma length_word_bytes w : length (word_bytes w) = 8%nat.
Proof. done. Qed.

(** ** Lists *)

(** [seq_Z n] is [0; 1; ...; n-1]: the indices of a [for(i = 0; i < n; ++i)]. *)
Definition indices (n : nat) : list nat := seq 0 n.

Lemma indices_prefix n visited i rest :
  indices n = visited ++ i :: rest → visited = seq 0 i ∧ i = length visited ∧ (i < n)%nat.
Proof.
  unfold indices. intros E.
  assert (length visited = i) as Hi.
  { pose proof (f_equal (λ l, l !! length visited) E) as H. simpl in H.
    rewrite list_lookup_middle in H by done. apply lookup_seq in H. lia. }
  assert (i < n)%nat as Hn.
  { pose proof (f_equal length E) as H. rewrite length_seq, length_app in H. simpl in H. lia. }
  split_and!; [|done..].
  pose proof (f_equal (take (length visited)) E) as H.
  rewrite take_app_length in H. rewrite <-H, take_seq, Hi. f_equal. lia.
Qed.
