(* ===== verification/Libc.v ===== *)
(** * The part of the C standard library the programs use

    Strings are NUL-terminated in C; here a [string] is the text before the
    terminator.  The file defines the functions of <string.h>, <ctype.h> and
    <stdio.h> the sources call: [strtok] run to its end, [strchr], [basename],
    the conversions of [sscanf], and a [printf] that interprets the format
    string with the flags, widths and length modifiers that occur in the
    sources.  Integer arguments are cut to the size the directive reads, as a
    64-bit System V variadic call does. *)
From S2P Require Import Prelude.

(** ** Characters *)

Definition code (c : ascii) : Z := Z.of_N (Ascii.N_of_ascii c).
Definition chr (z : Z) : ascii := Ascii.ascii_of_N (Z.to_N (z mod 256)).

Definition isspace (c : ascii) : bool := (code c =? 32) || ((9 <=? code c) && (code c <=? 13)).
Definition isdigit (c : ascii) : bool := (48 <=? code c) && (code c <=? 57).
Definition isprint (z : Z) : bool := (32 <=? z) && (z <=? 126).

(** The value of a digit in bases up to 16. *)
Definition digit_val (c : ascii) : option Z :=
  let z := code c in
  if (48 <=? z) && (z <=? 57) then Some (z - 48)
  else if (97 <=? z) && (z <=? 102) then Some (z - 87)
  else if (65 <=? z) && (z <=? 70) then Some (z - 55)
  else None.

Definition digit_char (upper : bool) (d : Z) : ascii :=
  chr (if d <? 10 then 48 + d else if upper then 55 + d else 87 + d).

(** ** <string.h> *)

Fixpoint has_char (c : ascii) (s : string) : bool :=
  match s with
  | EmptyString => false
  | String x s => bool_decide (x = c) || has_char c s
  end.

(** [strchr]: the text before the first [c] and the text after it. *)
Fixpoint split_at (c : ascii) (s : string) : option (string * string) :=
  match s with
  | EmptyString => None
  | String x s =>
      if bool_decide (x = c) then Some (EmptyString, s)
      else '(l, r) ← split_at c s; Some (String x l, r)
  end.

(** The tokens the calls [strtok(s, delims)], [strtok(NULL, delims)], ...
    yield until they yield NULL.  [cur] is the token being read. *)
Fixpoint strtok_from (delims s cur : string) : list string :=
  match s with
  | EmptyString => if bool_decide (cur = EmptyString) then [] else [cur]
  | String x s =>
      if has_char x delims
      then (if bool_decide (cur = EmptyString) then [] else [cur])
             ++ strtok_from delims s EmptyString
      else strtok_from delims s (cur +:+ String x EmptyString)
  end.
Definition strtok_all (s delims : string) : list string := strtok_from delims s EmptyString.

(** [basename] of <libgen.h>. *)
Fixpoint strip_slashes (s : string) : string :=
  match s with
  | EmptyString => EmptyString
  | String x s =>
      let t := strip_slashes s in
      if bool_decide (x = "/"%char) && bool_decide (t = EmptyString) then EmptyString else String x t
  end.
Fixpoint after_last_slash (s : string) : string :=
  match s with
  | EmptyString => EmptyString
  | String x s' =>
      if has_char "/" s' then after_last_slash s'
      else if bool_decide (x = "/"%char) then s' else s
  end.
Definition basename (s : string) : string :=
  if bool_decide (s = EmptyString) then "."
  else let t := strip_slashes s in
       if bool_decide (t = EmptyString) then "/" else after_last_slash t.

(** ** Numerals *)

(** The digits of [n] in base [b], before [acc]; 64 digits are enough for
    every 64-bit number in every base. *)
Fixpoint digits_from (fuel : nat) (upper : bool) (b n : Z) (acc : string) : string :=
  match fuel with
  | O => acc
  | S fuel =>
      if n <? b then String (digit_char upper n) acc
      else digits_from fuel upper b (n / b) (String (digit_char upper (n mod b)) acc)
  end.
Definition to_digits (upper : bool) (b n : Z) : string := digits_from 64 upper b n EmptyString.

(** Reads the digits at the head of [s]: their value after [acc] and the rest. *)
Fixpoint eat_digits (b acc : Z) (s : string) : Z * string :=
  match s with
  | EmptyString => (acc, s)
  | String c s' =>
      match digit_val c with
      | Some d => if d <? b then eat_digits b (acc * b + d) s' else (acc, s)
      | None => (acc, s)
      end
  end.

(** ** [sscanf] *)

Fixpoint skip_space (s : string) : string :=
  match s with
  | EmptyString => EmptyString
  | String c s' => if isspace c then skip_space s' else s
  end.

(** One [%s]: skips space, takes the characters up to the next space. *)
Fixpoint take_word (s : string) : string * string :=
  match s with
  | EmptyString => (EmptyString, EmptyString)
  | String c s' =>
      if isspace c then (EmptyString, s)
      else let '(w, r) := take_word s' in (String c w, r)
  end.
Definition scan_s (s : string) : option (string * string) :=
  let '(w, r) := take_word (skip_space s) in
  if bool_decide (w = EmptyString) then None else Some (w, r).

Definition starts_with_digit (b : Z) (s : string) : bool :=
  match s with
  | String c _ => match digit_val c with Some d => d <? b | None => false end
  | EmptyString => false
  end.

(** The sign and the [0x] prefix in front of a numeral. *)
Definition eat_sign (s : string) : bool * string :=
  match s with
  | String c s' =>
      if bool_decide (c = "-"%char) then (true, s')
      else if bool_decide (c = "+"%char) then (false, s') else (false, s)
  | EmptyString => (false, s)
  end.
Definition eat_0x (b : Z) (s : string) : option string :=
  match s with
  | String c0 (String cx s') =>
      if (b =? 16) && bool_decide (c0 = "0"%char)
         && (bool_decide (cx = "x"%char) || bool_decide (cx = "X"%char))
      then Some s' else None
  | _ => None
  end.

(** A numeral: sign and magnitude; [None] when the conversion fails and the
    object it should fill is left alone. *)
Definition scan_num (b : Z) (s : string) : option (bool * Z) :=
  let '(neg, s) := eat_sign (skip_space s) in
  match eat_0x b s with
  | Some s => Some (neg, fst (eat_digits b 0 s))
  | None => if starts_with_digit b s then Some (neg, fst (eat_digits b 0 s)) else None
  end.

(** The same with what follows the numeral. *)
Definition scan_num_rest (b : Z) (s : string) : option (bool * Z * string) :=
  let '(neg, s) := eat_sign (skip_space s) in
  match eat_0x b s with
  | Some s => let '(m, r) := eat_digits b 0 s in Some (neg, m, r)
  | None => if starts_with_digit b s then let '(m, r) := eat_digits b 0 s in Some (neg, m, r) else None
  end.

(** The value [strtoull] gives to sign and magnitude: it saturates. *)
Definition strtoull_value (x : bool * Z) : Z :=
  let '(neg, m) := x in
  if 2 ^ 64 <=? m then 2 ^ 64 - 1 else if neg then wrap64 (- m) else m.
(** The value [strtoll] gives. *)
Definition strtoll_value (x : bool * Z) : Z :=
  let '(neg, m) := x in
  if neg then Z.max (- 2 ^ 63) (- m) else Z.min (2 ^ 63 - 1) m.

Definition scan_llx (s : string) : option Z := strtoull_value <$> scan_num 16 s.
Definition scan_llu (s : string) : option Z := strtoull_value <$> scan_num 10 s.
Definition scan_x (s : string) : option Z := (wrap32 ∘ strtoull_value) <$> scan_num 16 s.
Definition scan_d (s : string) : option Z := (sint 32 ∘ strtoll_value) <$> scan_num 10 s.

(** ** [printf] *)

Inductive arg : Type :=
  | AInt (z : Z)        (** an integer or a pointer *)
  | AStr (s : string).  (** a [char *] *)

Record directive : Type := Directive {
  d_left : bool;    (** flag [-] *)
  d_zero : bool;    (** flag [0] *)
  d_width : nat;
  d_long : bool;    (** length modifier [l] or [ll]: 64 bits *)
}.

Fixpoint repeat_char (n : nat) (c : ascii) : string :=
  match n with O => EmptyString | S n => String c (repeat_char n c) end.

Definition pad (d : directive) (numeric : bool) (s : string) : string :=
  let k := (d_width d - String.length s)%nat in
  if d_left d then s +:+ repeat_char k " "
  else if d_zero d && numeric then repeat_char k "0" +:+ s
  else repeat_char k " " +:+ s.

Definition signed_text (z : Z) : string :=
  if z <? 0 then "-" +:+ to_digits false 10 (- z) else to_digits false 10 z.

(** The text one conversion prints. *)
Definition convert (d : directive) (conv : ascii) (a : arg) : option string :=
  let size := if d_long d then 64 else 32 in
  match a with
  | AInt z =>
      if bool_decide (conv = "d"%char) then Some (pad d true (signed_text (sint size z)))
      else if bool_decide (conv = "u"%char) then Some (pad d true (to_digits false 10 (z mod 2 ^ size)))
      else if bool_decide (conv = "x"%char) then Some (pad d true (to_digits false 16 (z mod 2 ^ size)))
      else if bool_decide (conv = "X"%char) then Some (pad d true (to_digits true 16 (z mod 2 ^ size)))
      else if bool_decide (conv = "c"%char) then Some (pad d false (String (chr z) EmptyString))
      else None
  | AStr s => if bool_decide (conv = "s"%char) then Some (pad d false s) else None
  end.

(** The text [printf(fmt, args...)] prints; [None] is a mismatch between the
    directives and the arguments. *)
Fixpoint format_from (dir : option directive) (fmt : string) (args : list arg) : option string :=
  match fmt, dir with
  | EmptyString, None => Some EmptyString
  | EmptyString, Some _ => None
  | String c fmt, None =>
      if bool_decide (c = "%"%char) then format_from (Some (Directive false false 0 false)) fmt args
      else String c <$> format_from None fmt args
  | String c fmt, Some d =>
      if bool_decide (c = "%"%char) then String c <$> format_from None fmt args
      else if bool_decide (c = "-"%char) then
        format_from (Some (Directive true (d_zero d) (d_width d) (d_long d))) fmt args
      else if bool_decide (c = "0"%char) && bool_decide (d_width d = 0%nat) then
        format_from (Some (Directive (d_left d) true 0 (d_long d))) fmt args
      else if isdigit c then
        format_from (Some (Directive (d_left d) (d_zero d)
          (10 * d_width d + Z.to_nat (code c - 48)) (d_long d))) fmt args
      else if bool_decide (c = "l"%char) then
        format_from (Some (Directive (d_left d) (d_zero d) (d_width d) true)) fmt args
      else match args with
           | [] => None
           | a :: args =>
               t ← convert d c a; r ← format_from None fmt args; Some (t +:+ r)
           end
  end.
Definition format (fmt : string) (args : list arg) : option string := format_from None fmt args.

Definition newline : string := String (chr 10) EmptyString.

(** * Lemmas *)

(** ** Characters and texts *)

Fixpoint all_chars (P : ascii → bool) (s : string) : bool :=
  match s with EmptyString => true | String c s => P c && all_chars P s end.

Definition is_hex (c : ascii) : bool := bool_decide (is_Some (digit_val c)).

Lemma all_chars_app P s t : all_chars P (s +:+ t) = all_chars P s && all_chars P t.
Proof. induction s as [|c s IH]; [done|]. simpl. by rewrite <-andb_assoc, <-IH. Qed.

Lemma has_char_all P c s : all_chars P s = true → P c = false → has_char c s = false.
Proof.
  intros Hs Hc. induction s as [|x s IH]; [done|]. simpl in *.
  apply andb_true_iff in Hs as [Hx Hs]. rewrite IH by done.
  rewrite bool_decide_eq_false_2; [done|]. intros ->. congruence.
Qed.

(** A property of all 256 characters, by running through them. *)
Lemma ascii_ind_N (P : ascii → bool) :
  forallb (λ n, P (Ascii.ascii_of_nat n)) (seq 0 256) = true → ∀ c, P c = true.
Proof.
  intros H c. rewrite forallb_forall in H. specialize (H (Ascii.nat_of_ascii c)).
  rewrite Ascii.ascii_nat_embedding in H. apply H, in_seq.
  pose proof (Ascii.nat_ascii_bounded c). lia.
Qed.

Lemma is_hex_not_space c : is_hex c = true → isspace c = false.
Proof.
  assert (negb (is_hex c) || negb (isspace c) = true) as H by (revert c; apply ascii_ind_N; reflexivity).
  intros Hc. rewrite Hc in H. by destruct (isspace c).
Qed.

Lemma is_hex_ne c x : is_hex c = true → is_hex x = false → c ≠ x.
Proof. congruence. Qed.

(** ** Numerals: printing and reading back *)

Lemma digit_val_char {up} d : 0 ≤ d < 16 → digit_val (digit_char up d) = Some d.
Proof.
  intros Hd.
  assert (d ∈ [0;1;2;3;4;5;6;7;8;9;10;11;12;13;14;15]) as H.
  { apply list_elem_of_In. simpl. lia. }
  repeat (apply list_elem_of_In in H as [<-|H%list_elem_of_In]; [by destruct up|]). by apply not_elem_of_nil in H.
Qed.

Lemma is_hex_digit {up} d : 0 ≤ d < 16 → is_hex (digit_char up d) = true.
Proof. intros Hd. unfold is_hex. rewrite digit_val_char by done. by apply bool_decide_eq_true_2. Qed.

Lemma digits_from_hex {up} fuel b n acc :
  1 < b ≤ 16 → 0 ≤ n → all_chars is_hex acc = true → all_chars is_hex (digits_from fuel up b n acc) = true.
Proof.
  intros Hb. revert n acc. induction fuel as [|fuel IH]; intros n acc Hn Hacc; simpl; [done|].
  destruct (Z.ltb_spec n b).
  - simpl. by rewrite is_hex_digit by lia.
  - pose proof (Z.mod_pos_bound n b). apply IH; [apply Z.div_pos; lia|].
    simpl. by rewrite is_hex_digit by lia.
Qed.

Lemma digits_from_nonempty {up} fuel b n acc : fuel ≠ O → digits_from fuel up b n acc ≠ EmptyString.
Proof.
  revert n acc. induction fuel as [|fuel IH]; intros n acc Hf; [done|]. simpl.
  destruct (n <? b); [done|]. destruct fuel as [|fuel]; [done|]. by apply IH.
Qed.

Lemma to_digits_hex {up} b n : 1 < b ≤ 16 → 0 ≤ n → all_chars is_hex (to_digits up b n) = true.
Proof. intros. by apply digits_from_hex. Qed.

Lemma to_digits_nonempty {up} b n : to_digits up b n ≠ EmptyString.
Proof. by apply digits_from_nonempty. Qed.

Lemma eat_digits_from {up} fuel b n acc :
  1 < b ≤ 16 → 0 ≤ n < b ^ Z.of_nat fuel →
  eat_digits b 0 (digits_from fuel up b n acc) = eat_digits b n acc.
Proof.
  intros Hb. revert n acc. induction fuel as [|fuel IH]; intros n acc Hn; simpl.
  - simpl in Hn. by replace n with 0 by lia.
  - rewrite Nat2Z.inj_succ, Z.pow_succ_r in Hn by lia. destruct (Z.ltb_spec n b) as [Hlt|Hge].
    + simpl. rewrite digit_val_char by lia. rewrite (proj2 (Z.ltb_lt n b)) by lia. done.
    + rewrite IH.
      * pose proof (Z.mod_pos_bound n b). simpl. rewrite digit_val_char by lia.
        rewrite (proj2 (Z.ltb_lt (n mod b) b)) by lia. f_equal.
        rewrite (Z.div_mod n b) at 3 by lia. lia.
      * split; [apply Z.div_pos; lia|]. apply Z.div_lt_upper_bound; lia.
Qed.

Lemma eat_to_digits {up} b n :
  1 < b ≤ 16 → 0 ≤ n < 2 ^ 64 → eat_digits b 0 (to_digits up b n) = (n, EmptyString).
Proof.
  intros Hb Hn. unfold to_digits. rewrite eat_digits_from; [done|done|].
  split; [lia|]. apply Z.lt_le_trans with (2 ^ 64); [lia|].
  apply Z.pow_le_mono_l. lia.
Qed.

(** A text of hexadecimal digits has no sign and no prefix. *)
Lemma eat_sign_hex s : all_chars is_hex s = true → eat_sign (skip_space s) = (false, s).
Proof.
  destruct s as [|c s]; [done|]. simpl. intros [Hc _]%andb_true_iff.
  rewrite is_hex_not_space by done. simpl.
  rewrite !bool_decide_eq_false_2 by (by apply is_hex_ne). done.
Qed.

Lemma eat_0x_hex b s : all_chars is_hex s = true → eat_0x b s = None.
Proof.
  destruct s as [|c [|d s]]; [done..|]. cbn. intros [_ [Hd _]%andb_true_iff]%andb_true_iff.
  rewrite (bool_decide_eq_false_2 (d = _)) by (by apply is_hex_ne).
  rewrite (bool_decide_eq_false_2 (d = _)) by (by apply is_hex_ne).
  by rewrite andb_false_r.
Qed.

Lemma starts_to_digits {up} b n : 1 < b ≤ 16 → 0 ≤ n < 2 ^ 64 → starts_with_digit b (to_digits up b n) = true.
Proof.
  intros Hb Hn. pose proof (eat_to_digits (up := up) b n Hb Hn) as E.
  pose proof (to_digits_nonempty (up := up) b n) as Hne.
  destruct (to_digits up b n) as [|c s]; [done|]. simpl in *.
  destruct (digit_val c) as [d|]; [|congruence]. destruct (d <? b); [done|]. congruence.
Qed.

Lemma scan_num_digits {up} b n :
  1 < b ≤ 16 → 0 ≤ n < 2 ^ 64 → scan_num b (to_digits up b n) = Some (false, n).
Proof.
  intros Hb Hn. unfold scan_num.
  rewrite eat_sign_hex by (apply to_digits_hex; lia).
  rewrite eat_0x_hex by (apply to_digits_hex; lia).
  by rewrite starts_to_digits, eat_to_digits.
Qed.

Lemma scan_num_fst b s : scan_num b s = fst <$> scan_num_rest b s.
Proof.
  unfold scan_num, scan_num_rest. destruct (eat_sign (skip_space s)) as [neg r].
  destruct (eat_0x b r) as [r'|]; [by destruct (eat_digits b 0 r')|].
  destruct (starts_with_digit b r); [by destruct (eat_digits b 0 r)|done].
Qed.

(** Any text of hexadecimal digits is a numeral in base 16. *)
Lemma starts_hex s : s ≠ EmptyString → all_chars is_hex s = true → starts_with_digit 16 s = true.
Proof.
  destruct s as [|c s]; [done|]. simpl. intros _ [Hc _]%andb_true_iff. revert c Hc.
  assert (∀ c, negb (is_hex c) || match digit_val c with Some d => d <? 16 | None => false end = true) as H.
  { apply ascii_ind_N. reflexivity. }
  intros c Hc. specialize (H c). by rewrite Hc in H.
Qed.

Lemma scan_num_hex s :
  s ≠ EmptyString → all_chars is_hex s = true → scan_num 16 s = Some (false, fst (eat_digits 16 0 s)).
Proof.
  intros Hne Hs. unfold scan_num. by rewrite eat_sign_hex, eat_0x_hex, starts_hex.
Qed.

(** Eight digits at least, as the kernel pads addresses. *)
Definition hex8 (n : Z) : string := pad (Directive false true 8 true) true (to_digits false 16 n).

Lemma eat_zeros k s : eat_digits 16 0 (repeat_char k "0" +:+ s) = eat_digits 16 0 s.
Proof. induction k as [|k IH]; [done|]. simpl. exact IH. Qed.

Lemma zeros_hex k : all_chars is_hex (repeat_char k "0") = true.
Proof. induction k as [|k IH]; [done|]. simpl. exact IH. Qed.

Lemma hex8_hex n : 0 ≤ n → all_chars is_hex (hex8 n) = true.
Proof.
  intros Hn. unfold hex8, pad. simpl d_left. simpl d_zero. cbv iota beta. simpl andb. cbv iota.
  by rewrite all_chars_app, zeros_hex, to_digits_hex by lia.
Qed.

Lemma hex8_nonempty n : hex8 n ≠ EmptyString.
Proof.
  unfold hex8, pad. simpl d_left. simpl d_zero. cbv iota beta. simpl andb. cbv iota.
  destruct (_ - _)%nat; [|done]. apply to_digits_nonempty.
Qed.

Lemma eat_hex8 n : 0 ≤ n < 2 ^ 64 → eat_digits 16 0 (hex8 n) = (n, EmptyString).
Proof.
  intros Hn. unfold hex8, pad. simpl d_left. simpl d_zero. cbv iota beta. simpl andb. cbv iota.
  rewrite eat_zeros. by apply eat_to_digits.
Qed.

Lemma scan_llx_hex8 n : 0 ≤ n < 2 ^ 64 → scan_llx (hex8 n) = Some n.
Proof.
  intros Hn. unfold scan_llx. rewrite scan_num_hex by (apply hex8_nonempty || (apply hex8_hex; lia)).
  rewrite eat_hex8 by done. simpl. destruct (Z.leb_spec (2 ^ 64) n); [lia|done].
Qed.

Lemma scan_x_hex8 n : 0 ≤ n < 2 ^ 32 → scan_x (hex8 n) = Some n.
Proof.
  intros Hn. unfold scan_x. rewrite scan_num_hex by (apply hex8_nonempty || (apply hex8_hex; lia)).
  rewrite eat_hex8 by lia. simpl. destruct (Z.leb_spec (2 ^ 64) n); [lia|].
  f_equal. by apply wrap32_small.
Qed.

Lemma scan_llx_digits n : 0 ≤ n < 2 ^ 64 → scan_llx (to_digits false 16 n) = Some n.
Proof.
  intros Hn. unfold scan_llx. rewrite scan_num_digits by lia. simpl.
  destruct (Z.leb_spec (2 ^ 64) n); [lia|done].
Qed.

(** ** Tokens *)

Lemma string_app_nil_r (s : string) : s +:+ EmptyString = s.
Proof. induction s as [|c s IH]; [done|]. change (String c (s +:+ EmptyString) = String c s). by rewrite IH. Qed.
Lemma string_app_length (s t : string) :
  String.length (s +:+ t) = (String.length s + String.length t)%nat.
Proof.
  induction s as [|c s IH]; [done|].
  change (String.length (String c (s +:+ t)) = S (String.length s + String.length t)).
  simpl. by rewrite IH.
Qed.
Lemma string_app_assoc (s t u : string) : s +:+ t +:+ u = (s +:+ t) +:+ u.
Proof. induction s as [|c s IH]; [done|]. change (String c (s +:+ t +:+ u) = String c ((s +:+ t) +:+ u)). by rewrite IH. Qed.

(** The characters of [t] that are not separators end up in the token. *)
Definition no_delim (delims t : string) : bool := all_chars (λ c, negb (has_char c delims)) t.

Lemma strtok_from_app delims t s cur :
  no_delim delims t = true →
  strtok_from delims (t +:+ s) cur = strtok_from delims s (cur +:+ t).
Proof.
  revert cur. induction t as [|c t IH]; intros cur Ht.
  - by rewrite string_app_nil_r.
  - unfold no_delim in Ht. simpl in Ht. apply andb_true_iff in Ht as [Hc Ht].
    change (String c t +:+ s) with (String c (t +:+ s)). simpl.
    apply negb_true_iff in Hc. rewrite Hc, IH by done.
    f_equal. by rewrite <-string_app_assoc.
Qed.

(** A token, a separator, and the rest. *)
Lemma strtok_token delims t c s :
  t ≠ EmptyString → no_delim delims t = true → has_char c delims = true →
  strtok_all (t +:+ String c s) delims = t :: strtok_all s delims.
Proof.
  intros Hne Ht Hc. unfold strtok_all. rewrite strtok_from_app by done. simpl.
  rewrite Hc, bool_decide_eq_false_2; [done|].
  change (t ≠ EmptyString). done.
Qed.

Lemma strtok_sep delims c s :
  has_char c delims = true → strtok_all (String c s) delims = strtok_all s delims.
Proof. intros Hc. unfold strtok_all. simpl. by rewrite Hc. Qed.

Lemma split_at_app c s t :
  has_char c s = false → split_at c (s +:+ String c t) = Some (s, t).
Proof.
  induction s as [|x s IH]; intros Hs.
  - simpl. by rewrite bool_decide_eq_true_2.
  - change (String x s +:+ String c t) with (String x (s +:+ String c t)). simpl in *.
    apply orb_false_iff in Hs as [Hx Hs]. rewrite Hx, IH by done. done.
Qed.

Lemma has_char_hex c s : all_chars is_hex s = true → is_hex c = false → has_char c s = false.
Proof. apply has_char_all. Qed.

(** Hexadecimal digits are not separators, if no separator is one. *)
Lemma no_delim_hex delims s :
  all_chars (λ c, negb (is_hex c)) delims = true → all_chars is_hex s = true → no_delim delims s = true.
Proof.
  intros Hd Hs. unfold no_delim. induction s as [|c s IH]; [done|]. simpl in *.
  apply andb_true_iff in Hs as [Hc Hs]. rewrite IH by done.
  rewrite (has_char_all _ _ _ Hd); [done|]. by rewrite Hc.
Qed.

Lemma no_delim_app delims s t : no_delim delims (s +:+ t) = no_delim delims s && no_delim delims t.
Proof. apply all_chars_app. Qed.

(** The last token runs to the end of the text or to its last separator. *)
Lemma strtok_last delims t c :
  t ≠ EmptyString → no_delim delims t = true → has_char c delims = true →
  strtok_all (t +:+ String c EmptyString) delims = [t].
Proof. intros. by rewrite strtok_token. Qed.

Lemma strtok_spaces delims k s :
  has_char " " delims = true → strtok_all (repeat_char k " " +:+ s) delims = strtok_all s delims.
Proof. intros Hc. induction k as [|k IH]; [done|]. simpl. rewrite <-IH. by apply strtok_sep. Qed.

(** ** Words of a command line *)

Definition is_word (w : string) : bool :=
  negb (bool_decide (w = EmptyString)) && all_chars (λ c, negb (isspace c)) w.

Lemma take_word_app w t :
  all_chars (λ c, negb (isspace c)) w = true →
  take_word (w +:+ t) = let '(x, r) := take_word t in (w +:+ x, r).
Proof.
  induction w as [|c w IH].
  - intros _. change (EmptyString +:+ t) with t. by destruct (take_word t).
  - intros [Hc Hw]%andb_true_iff. apply negb_true_iff in Hc.
    change (String c w +:+ t) with (String c (w +:+ t)). cbn [take_word].
    rewrite Hc, (IH Hw). by destruct (take_word t).
Qed.

Lemma scan_s_word w c t :
  is_word w = true → isspace c = true → scan_s (w +:+ String c t) = Some (w, String c t).
Proof.
  intros [Hne Hw]%andb_true_iff Hc. apply negb_true_iff, bool_decide_eq_false in Hne.
  assert (take_word (w +:+ String c t) = (w, String c t)) as E.
  { rewrite take_word_app by done. cbn [take_word]. rewrite Hc. cbv beta iota. by rewrite string_app_nil_r. }
  destruct w as [|x w]; [done|]. pose proof Hw as [Hx _]%andb_true_iff.
  apply negb_true_iff in Hx.
  assert (skip_space (String x w +:+ String c t) = String x w +:+ String c t) as Es.
  { change (String x w +:+ String c t) with (String x (w +:+ String c t)).
    cbn [skip_space]. by rewrite Hx. }
  unfold scan_s. rewrite Es, E. by rewrite bool_decide_eq_false_2.
Qed.

Lemma scan_s_space c t : isspace c = true → scan_s (String c t) = scan_s t.
Proof. intros Hc. unfold scan_s. cbn [skip_space]. by rewrite Hc. Qed.

Lemma hex_not_spaces s :
  all_chars is_hex s = true → all_chars (λ c, negb (isspace c)) s = true.
Proof.
  induction s as [|c s IH]; [done|]. simpl. intros [Hc Hs]%andb_true_iff.
  by rewrite is_hex_not_space, IH.
Qed.

(** How many digits a number has. *)
Lemma length_digits_from {up} fuel b n acc (k : nat) :
  1 < b → 0 ≤ n < b ^ Z.of_nat k → (0 < k)%nat →
  (String.length (digits_from fuel up b n acc) ≤ k + String.length acc)%nat.
Proof.
  intros Hb. revert n acc k. induction fuel as [|fuel IH]; intros n acc k Hn Hk; simpl; [lia|].
  destruct (Z.ltb_spec n b); [simpl; lia|].
  destruct k as [|[|k]]; [lia|rewrite Z.pow_1_r in Hn; lia|].
  etransitivity; [apply (IH _ _ (S k))|simpl; lia]; [|lia].
  rewrite Nat2Z.inj_succ, Z.pow_succ_r in Hn by lia.
  split; [apply Z.div_pos; lia|]. apply Z.div_lt_upper_bound; lia.
Qed.

Lemma signed_text_length z k :
  (0 < k)%nat → 0 ≤ z < 10 ^ Z.of_nat k → (String.length (signed_text z) ≤ k)%nat.
Proof.
  intros Hk Hz. unfold signed_text. rewrite (proj2 (Z.ltb_ge _ _)) by lia. unfold to_digits.
  pose proof (length_digits_from (up := false) 64 10 z EmptyString k ltac:(lia) Hz Hk) as Hl.
  change (String.length EmptyString) with 0%nat in Hl. lia.
Qed.

Lemma length_digits_from_ge fuel b n acc (k : nat) :
  1 < b → b ^ Z.of_nat k ≤ n → (k < fuel)%nat →
  (k + String.length acc < String.length (digits_from fuel false b n acc))%nat.
Proof.
  intros Hb. revert n acc k. induction fuel as [|fuel IH]; intros n acc k Hn Hk; simpl; [lia|].
  destruct k as [|k].
  - destruct (Z.ltb_spec n b); [simpl; lia|]. destruct fuel as [|fuel]; [simpl; lia|].
    etransitivity; [|apply (IH _ _ O)]; [simpl; lia| |lia].
    change (b ^ Z.of_nat 0) with 1. apply Z.div_le_lower_bound; lia.
  - rewrite Nat2Z.inj_succ, Z.pow_succ_r in Hn by lia.
    pose proof (Z.pow_pos_nonneg b (Z.of_nat k) ltac:(lia) ltac:(lia)).
    destruct (Z.ltb_spec n b); [nia|].
    eapply Nat.le_lt_trans; [|apply (IH _ _ k)]; [simpl; lia| |lia].
    apply Z.div_le_lower_bound; lia.
Qed.

(** After the blanks comes a character that is not one. *)
Lemma skip_space_head s :
  match skip_space s with EmptyString => True | String c _ => isspace c = false end.
Proof. induction s as [|c s IH]; [done|]. cbn [skip_space]. by destruct (isspace c) eqn:E. Qed.
