(* ===== verification/Elftool.v ===== *)
(** * hw4/elftool: the ELF loader

    The heap objects of elftool.h as records, the functions of elftool.c as
    monadic definitions over an explicit C heap.  libelf, [open] and [pread]
    are the class [ElfEnv]. *)
From S2P Require Import Prelude Libc.

(** ** Data (elftool.h) *)

Definition loc : Type := positive.

Record elf_phdr_t : Type := ElfPhdr {
  ph_type : Z; ph_offset : Z; ph_vaddr : Z; ph_paddr : Z;
  ph_filesz : Z; ph_memsz : Z; ph_flags : Z; ph_align : Z }.

Record elf_shdr_t : Type := ElfShdr {
  sh_name : Z; sh_type : Z; sh_flags : Z; sh_addr : Z; sh_offset : Z;
  sh_size : Z; sh_link : Z; sh_info : Z; sh_addralign : Z; sh_entsize : Z }.

Record elf_strtab_t : Type := ElfStrtab {
  st_id : Z; st_datasize : Z; st_data : option loc; st_next : option loc }.

Record elf_symbol_t : Type := ElfSymbol {
  sy_name : Z; sy_info : Z; sy_other : Z; sy_shndx : Z; sy_value : Z;
  sy_size : Z; sy_bind : Z; sy_type : Z; sy_visibility : Z }.

Record elf_symtab_t : Type := ElfSymtab {
  sm_count : Z; sm_strtab : option loc; sm_symbol : option loc }.

Record elf_handle_t : Type := ElfHandle {
  e_fd : Z; e_elf : option loc;
  e_clazz : Z; e_phnum : Z; e_shnum : Z; e_shstrndx : Z; e_entrypoint : Z;
  e_phdr : option loc; e_shdr : option loc; e_strtab : option loc;
  e_sym : option loc; e_dsym : option loc; e_type : Z }.

(** What libelf hands out: its headers hold unsigned fields of either class. *)
Record Elf_Ehdr : Type := ElfEhdr {
  eh_type : Z; eh_phnum : Z; eh_shnum : Z; eh_shstrndx : Z; eh_entry : Z }.

(** Constants of <elf.h> and <errno.h>. *)
Definition ELFCLASS32 : Z := 1.
Definition ELFCLASS64 : Z := 2.
Definition SHT_SYMTAB : Z := 2.
Definition SHT_STRTAB : Z := 3.
Definition SHT_DYNSYM : Z := 11.
Definition EINVAL : Z := 22.
Definition ENOTSUP : Z := 95.
Definition ESRCH : Z := 3.

(** ** The C heap *)

Inductive cell : Type :=
  | CHandle (h : elf_handle_t)
  | CPhdr (a : list elf_phdr_t)
  | CShdr (a : list elf_shdr_t)
  | CStrtab (n : elf_strtab_t)
  | CBytes (b : list Z)
  | CSymtab (t : elf_symtab_t)
  | CSyms (a : list elf_symbol_t)
  | CElf (file : string).           (** libelf's descriptor, ended by [elf_end] *)

(** The loader's part of the process: the heap and the next address the
    allocator hands out (never used twice), the open files, [errno], and the
    flag and the version [elf_init] sets. *)
Record cmem : Type := Cmem {
  m_heap : gmap loc cell;
  m_next : loc;
  m_fds : gmap Z string;
  m_errno : Z;
  m_initialized : Z;
  m_version : option Z }.

Definition set_heap (h : gmap loc cell) (m : cmem) : cmem :=
  Cmem h (m_next m) (m_fds m) (m_errno m) (m_initialized m) (m_version m).
Definition set_fds (f : gmap Z string) (m : cmem) : cmem :=
  Cmem (m_heap m) (m_next m) f (m_errno m) (m_initialized m) (m_version m).
Definition set_errno (e : Z) : M cmem unit := modify (λ m,
  Cmem (m_heap m) (m_next m) (m_fds m) e (m_initialized m) (m_version m)).

(** ** The environment: [malloc]'s success, the system calls, libelf *)

Class ElfEnv : Type := {
  malloc_ok : loc → Z → bool;                (** allocation of that many bytes *)
  sys_open : string → gmap Z string → option Z;
  sys_pread : string → Z → Z → list Z;       (** file, size, offset *)
  lib_begin : string → bool;                 (** [elf_begin] on an open file *)
  lib_getident : string → option (list Z);
  elf32_getehdr : string → option Elf_Ehdr;
  elf64_getehdr : string → option Elf_Ehdr;
  elf32_getphdr : string → option (list elf_phdr_t);
  elf64_getphdr : string → option (list elf_phdr_t);
  lib_scns : string → list Z;                (** the indices [elf_nextscn] visits *)
  elf32_getshdr : string → Z → option elf_shdr_t;
  elf64_getshdr : string → Z → option elf_shdr_t;
  (** the contents [malloc] leaves in the objects the code does not clear *)
  junk_shdr : loc → Z → elf_shdr_t;
  junk_strtab : loc → option loc }.

Section elftool.
Context `{ElfEnv}.
Implicit Types (e : option loc).

Definition malloc (size : Z) (c : cell) : M cmem (option loc) := λ m,
  if malloc_ok (m_next m) size
  then Ret (Some (m_next m),
            Cmem (<[m_next m := c]> (m_heap m)) (Pos.succ (m_next m))
              (m_fds m) (m_errno m) (m_initialized m) (m_version m))
  else Ret (None, m).

(** [free(p)] of a pointer the code has tested: [p] must be allocated. *)
Definition free (l : loc) : M cmem unit := λ m,
  match m_heap m !! l with
  | Some _ => Ret (tt, set_heap (delete l (m_heap m)) m)
  | None => Undef InvalidAccess
  end.
(** [if(p) free(p)] *)
Definition free_opt (p : option loc) : M cmem unit :=
  match p with Some l => free l | None => mret tt end.

Definition load (l : loc) : M cmem cell := λ m,
  match m_heap m !! l with Some c => Ret (c, m) | None => Undef InvalidAccess end.
Definition store (l : loc) (c : cell) : M cmem unit := λ m,
  match m_heap m !! l with
  | Some _ => Ret (tt, set_heap (<[l := c]> (m_heap m)) m)
  | None => Undef InvalidAccess
  end.

Definition load_handle (l : loc) : M cmem elf_handle_t :=
  c ← load l; match c with CHandle h => mret h | _ => undef InvalidAccess end.
Definition store_handle (l : loc) (h : elf_handle_t) : M cmem unit := store l (CHandle h).
Definition load_shdrs (l : loc) : M cmem (list elf_shdr_t) :=
  c ← load l; match c with CShdr a => mret a | _ => undef InvalidAccess end.
Definition load_node (l : loc) : M cmem elf_strtab_t :=
  c ← load l; match c with CStrtab n => mret n | _ => undef InvalidAccess end.
Definition load_bytes (l : loc) : M cmem (list Z) :=
  c ← load l; match c with CBytes b => mret b | _ => undef InvalidAccess end.
Definition elf_file (l : loc) : M cmem string :=
  c ← load l; match c with CElf f => mret f | _ => undef InvalidAccess end.

(** [close(fd)] *)
Definition sys_close (fd : Z) : M cmem unit := modify (λ m, set_fds (delete fd (m_fds m)) m).
Definition pread (fd : Z) (size off : Z) : M cmem (option (list Z)) :=
  m ← get;
  mret (f ← m_fds m !! fd; Some (sys_pread f size off)).

(** Updates of the handle's pointers. *)
Definition with_phdr (p : option loc) (h : elf_handle_t) : elf_handle_t :=
  ElfHandle (e_fd h) (e_elf h) (e_clazz h) (e_phnum h) (e_shnum h) (e_shstrndx h)
    (e_entrypoint h) p (e_shdr h) (e_strtab h) (e_sym h) (e_dsym h) (e_type h).
Definition with_shdr (p : option loc) (h : elf_handle_t) : elf_handle_t :=
  ElfHandle (e_fd h) (e_elf h) (e_clazz h) (e_phnum h) (e_shnum h) (e_shstrndx h)
    (e_entrypoint h) (e_phdr h) p (e_strtab h) (e_sym h) (e_dsym h) (e_type h).
Definition with_strtab (p : option loc) (h : elf_handle_t) : elf_handle_t :=
  ElfHandle (e_fd h) (e_elf h) (e_clazz h) (e_phnum h) (e_shnum h) (e_shstrndx h)
    (e_entrypoint h) (e_phdr h) (e_shdr h) p (e_sym h) (e_dsym h) (e_type h).
Definition with_sym (p : option loc) (h : elf_handle_t) : elf_handle_t :=
  ElfHandle (e_fd h) (e_elf h) (e_clazz h) (e_phnum h) (e_shnum h) (e_shstrndx h)
    (e_entrypoint h) (e_phdr h) (e_shdr h) (e_strtab h) p (e_dsym h) (e_type h).
Definition with_dsym (p : option loc) (h : elf_handle_t) : elf_handle_t :=
  ElfHandle (e_fd h) (e_elf h) (e_clazz h) (e_phnum h) (e_shnum h) (e_shstrndx h)
    (e_entrypoint h) (e_phdr h) (e_shdr h) (e_strtab h) (e_sym h) p (e_type h).
Definition with_elf_fd (p : option loc) (fd : Z) (h : elf_handle_t) : elf_handle_t :=
  ElfHandle fd p (e_clazz h) (e_phnum h) (e_shnum h) (e_shstrndx h)
    (e_entrypoint h) (e_phdr h) (e_shdr h) (e_strtab h) (e_sym h) (e_dsym h) (e_type h).

(** ** elftool.c *)

Definition elf_init : M cmem Z :=
  modify (λ m,
    Cmem (m_heap m) (m_next m) (m_fds m) 0 1
      (if m_initialized m <=? 0 then Some 1 else m_version m)) ≫= λ _, mret 0.

(** The label [err_quit] of [elf_open]. *)
Definition elf_open_quit (fd : Z) (elf e : option loc) : M cmem (option loc) :=
  free_opt elf ≫= λ _,                       (* elf_end(elf) *)
  (if 0 <=? fd then sys_close fd else mret tt) ≫= λ _,
  free_opt e ≫= λ _,
  mret None.

(** The handle the headers of one class fill in. *)
Definition handle_of_ehdr (clazz : Z) (eh : Elf_Ehdr) (fd : Z) (elf : option loc) : elf_handle_t :=
  ElfHandle fd elf clazz (eh_phnum eh) (eh_shnum eh) (eh_shstrndx eh)
    (sint 64 (eh_entry eh)) None None None None None (eh_type eh).

Definition elf_open (filename : string) : M cmem (option loc) :=
  m ← get;
  match sys_open filename (m_fds m) with
  | None => mret None
  | Some fd =>
      modify (set_fds (<[fd := filename]> (m_fds m))) ≫= λ _,
      elf ← (if lib_begin filename then malloc 0 (CElf filename) else mret None);
      match elf with
      | None => elf_open_quit fd None None
      | Some _ =>
          match lib_getident filename with
          | None => elf_open_quit fd elf None
          | Some ident =>
              (* malloc, then memset to 0 and fd = -1 *)
              e ← malloc 96 (CHandle (ElfHandle (-1) None 0 0 0 0 0 None None None None None 0));
              match e with
              | None => elf_open_quit fd elf None
              | Some l =>
                  c ← at_index ident 4;
                  if c =? 1 then
                    eh ← deref (elf32_getehdr filename);
                    store_handle l (handle_of_ehdr ELFCLASS32 eh fd elf) ≫= λ _, mret e
                  else if c =? 2 then
                    eh ← deref (elf64_getehdr filename);
                    store_handle l (handle_of_ehdr ELFCLASS64 eh fd elf) ≫= λ _, mret e
                  else
                    set_errno ENOTSUP ≫= λ _, elf_open_quit fd elf e
              end
          end
      end
  end.

(** The loop of [elf_free_strtab]; [fuel] bounds the nodes it visits. *)
Fixpoint elf_free_strtab (fuel : nat) (curr : option loc) : M cmem unit :=
  match curr with
  | None => mret tt
  | Some l =>
      match fuel with
      | O => no_fuel
      | S fuel =>
          n ← load_node l;
          free_opt (st_data n) ≫= λ _,
          free l ≫= λ _,
          elf_free_strtab fuel (st_next n)
      end
  end.

(** The nodes on the heap bound the length of any list on it. *)
Definition free_strtab (p : option loc) : M cmem unit :=
  m ← get; elf_free_strtab (size (m_heap m)) p.

(** [if(e->f) { free(e->f); e->f = NULL; }] for a field [f] of the handle. *)
Definition free_field (l : loc) (f : elf_handle_t → option loc)
    (clear : elf_handle_t → elf_handle_t) (release : option loc → M cmem unit) : M cmem unit :=
  h ← load_handle l;
  match f h with
  | Some p => release (Some p) ≫= λ _, store_handle l (clear h)
  | None => mret tt
  end.

Definition free_tables (l : loc) : M cmem unit :=
  free_field l e_dsym (with_dsym None) free_opt ≫= λ _,
  free_field l e_sym (with_sym None) free_opt ≫= λ _,
  free_field l e_strtab (with_strtab None) free_strtab ≫= λ _,
  free_field l e_shdr (with_shdr None) free_opt ≫= λ _,
  free_field l e_phdr (with_phdr None) free_opt.

Definition elf_close (e : option loc) : M cmem Z :=
  match e with
  | None => mret 0
  | Some l =>
      free_tables l ≫= λ _,
      free_field l e_elf (λ h, with_elf_fd None (e_fd h) h) free_opt ≫= λ _,
      h ← load_handle l;
      (if 0 <=? e_fd h
       then sys_close (e_fd h) ≫= λ _, store_handle l (with_elf_fd (e_elf h) (-1) h)
       else mret tt) ≫= λ _,
      free l ≫= λ _,
      mret 0
  end.

Definition valid_class (h : elf_handle_t) : bool :=
  (e_clazz h =? ELFCLASS32) || (e_clazz h =? ELFCLASS64).

(** libelf's descriptor of an open handle. *)
Definition handle_file (h : elf_handle_t) : M cmem string :=
  p ← deref (e_elf h); elf_file p.

(** The bodies of the macros [ITER_PHDR] and [ASSIGN_SHDR]: every field is
    converted to [long long]. *)
Definition copy_phdr (p : elf_phdr_t) : elf_phdr_t :=
  ElfPhdr (sint 64 (ph_type p)) (sint 64 (ph_offset p)) (sint 64 (ph_vaddr p))
    (sint 64 (ph_paddr p)) (sint 64 (ph_filesz p)) (sint 64 (ph_memsz p))
    (sint 64 (ph_flags p)) (sint 64 (ph_align p)).
Definition copy_shdr (s : elf_shdr_t) : elf_shdr_t :=
  ElfShdr (sint 64 (sh_name s)) (sint 64 (sh_type s)) (sint 64 (sh_flags s))
    (sint 64 (sh_addr s)) (sint 64 (sh_offset s)) (sint 64 (sh_size s))
    (sint 64 (sh_link s)) (sint 64 (sh_info s)) (sint 64 (sh_addralign s))
    (sint 64 (sh_entsize s)).

(** [for(i = 0; i < e->phnum; i++) phdr[i] = p[i]] *)
Fixpoint iter_phdr (p : list elf_phdr_t) (ixs : list nat) : M cmem (list elf_phdr_t) :=
  match ixs with
  | [] => mret []
  | i :: ixs =>
      x ← at_index p i; r ← iter_phdr p ixs; mret (copy_phdr x :: r)
  end.

Definition elf_load_phdr (l : loc) : M cmem (option loc) :=
  h ← load_handle l;
  match e_phdr h with
  | Some p => mret (Some p)
  | None =>
      if e_phnum h <=? 0 then mret None
      else if negb (valid_class h) then mret None
      else
        phdr ← malloc (64 * e_phnum h) (CPhdr []);
        match phdr with
        | None => mret None
        | Some a =>
            f ← handle_file h;
            p ← deref (if e_clazz h =? ELFCLASS32 then elf32_getphdr f else elf64_getphdr f);
            r ← iter_phdr p (indices (Z.to_nat (e_phnum h)));
            store a (CPhdr r) ≫= λ _,
            store_handle l (with_phdr phdr h) ≫= λ _,
            mret phdr
        end
  end.

(** The [while] over [elf_nextscn]. *)
Fixpoint assign_shdrs (clazz shnum : Z) (f : string) (scns : list Z)
    (shdr : list elf_shdr_t) : M cmem (list elf_shdr_t) :=
  match scns with
  | [] => mret shdr
  | scn :: scns =>
      let idx := Z.to_nat (scn mod shnum) in
      s ← deref (if clazz =? ELFCLASS32 then elf32_getshdr f scn else elf64_getshdr f scn);
      _ ← at_index shdr idx;
      assign_shdrs clazz shnum f scns (<[idx := copy_shdr s]> shdr)
  end.

Definition elf_load_shdr (l : loc) : M cmem (option loc) :=
  h ← load_handle l;
  match e_shdr h with
  | Some p => mret (Some p)
  | None =>
      if e_shnum h <=? 0 then mret None
      else if negb (valid_class h) then mret None
      else
        shdr ← malloc (80 * e_shnum h) (CShdr []);
        match shdr with
        | None => mret None
        | Some a =>
            f ← handle_file h;
            r ← assign_shdrs (e_clazz h) (e_shnum h) f (lib_scns f)
                  ((junk_shdr a ∘ Z.of_nat) <$> indices (Z.to_nat (e_shnum h)));
            store a (CShdr r) ≫= λ _,
            store_handle l (with_shdr shdr h) ≫= λ _,
            mret shdr
        end
  end.

(** One iteration of the loop of [elf_load_strtab]: [inl] is the list so far,
    [inr] the jump to [err_quit]. *)
Definition load_strtab_step (h : elf_handle_t) (shdr : list elf_shdr_t)
    (strtab : option loc) (i : nat) : M cmem (option loc + unit) :=
  s ← at_index shdr i;
  if negb (sh_type s =? SHT_STRTAB) then mret (inl strtab)
  else
    curr ← malloc 24 (CStrtab (ElfStrtab (Z.of_nat i) (sint 32 (sh_size s)) None None));
    match curr with
    | None => mret (inr tt)
    | Some c =>
        data ← malloc (wrap64 (sh_size s)) (CBytes []);
        store c (CStrtab (ElfStrtab (Z.of_nat i) (sint 32 (sh_size s)) data None)) ≫= λ _,
        match data with
        | None => mret (inr tt)
        | Some d =>
            r ← pread (e_fd h) (wrap64 (sh_size s)) (sh_offset s);
            let bytes := default [] r in
            store d (CBytes bytes) ≫= λ _,
            if negb (from_option (λ b, Z.of_nat (length b)) (-1) r =? sh_size s)
            then mret (inr tt)
            else
              store c (CStrtab (ElfStrtab (Z.of_nat i) (sint 32 (sh_size s)) data strtab))
              ≫= λ _, mret (inl curr)
        end
    end.

Fixpoint load_strtab_loop (h : elf_handle_t) (shdr : list elf_shdr_t)
    (ixs : list nat) (strtab : option loc) : M cmem (option loc * bool) :=
  match ixs with
  | [] => mret (strtab, true)
  | i :: ixs =>
      r ← load_strtab_step h shdr strtab i;
      match r with
      | inl strtab => load_strtab_loop h shdr ixs strtab
      | inr _ => mret (strtab, false)
      end
  end.

Definition elf_load_strtab (l : loc) : M cmem (option loc) :=
  h ← load_handle l;
  match e_strtab h with
  | Some p => mret (Some p)
  | None =>
      shdr ← elf_load_shdr l;
      match shdr with
      | None => mret None
      | Some _ =>
          h ← load_handle l;
          a ← deref (e_shdr h);
          shdr ← load_shdrs a;
          '(strtab, ok) ← load_strtab_loop h shdr (indices (Z.to_nat (e_shnum h))) None;
          if (ok : bool) then
            store_handle l (with_strtab strtab h) ≫= λ _, mret strtab
          else
            m ← get;
            free_strtab strtab ≫= λ _,
            set_errno (m_errno m) ≫= λ _,
            mret None
      end
  end.

(** ** Symbol tables *)

(** [n] little-endian bytes at offset [off] of the raw table. *)
Definition le_at (raw : list Z) (off : Z) (n : nat) : Z :=
  bytes_word (take n (drop (Z.to_nat off) raw)).

(** [Elf32_Sym] and [Elf64_Sym] as <elf.h> lays them out. *)
Definition sizeof_sym (clazz : Z) : Z := if clazz =? ELFCLASS32 then 16 else 24.
Definition assign_sym (clazz : Z) (raw : list Z) (i : Z) : elf_symbol_t :=
  let o := sizeof_sym clazz * i in
  let '(name, info, other, shndx, value, size) :=
    if clazz =? ELFCLASS32
    then (le_at raw o 4, le_at raw (o + 12) 1, le_at raw (o + 13) 1,
          le_at raw (o + 14) 2, le_at raw (o + 4) 4, le_at raw (o + 8) 4)
    else (le_at raw o 4, le_at raw (o + 4) 1, le_at raw (o + 5) 1,
          le_at raw (o + 6) 2, le_at raw (o + 8) 8, le_at raw (o + 16) 8) in
  ElfSymbol (sint 32 name) info other shndx (sint 64 value) (sint 64 size)
    (Z.shiftr info 4) (Z.land info 15) (Z.land other 3).

(** The search of the string table the section header links to. *)
Fixpoint find_strtab (fuel : nat) (link : Z) (tab : option loc) : M cmem (option loc) :=
  match tab with
  | None => mret None
  | Some t =>
      match fuel with
      | O => no_fuel
      | S fuel =>
          n ← load_node t;
          if link =? st_id n then mret (Some t) else find_strtab fuel link (st_next n)
      end
  end.

(** The label [err_quit]: only the table itself is freed. *)
Definition load_symtab_quit (p : loc) : M cmem (option loc) :=
  m ← get; free p ≫= λ _, set_errno (m_errno m) ≫= λ _, mret None.

Definition elf_load_symtab_internal (l : loc) (shdr : elf_shdr_t) : M cmem (option loc) :=
  s1 ← elf_load_shdr l;
  match s1 with
  | None => mret None
  | Some _ =>
      s2 ← elf_load_strtab l;
      match s2 with
      | None => mret None
      | Some _ =>
          m ← get;
          symtab ← malloc 24 (CSymtab (ElfSymtab 0 (junk_strtab (m_next m)) None));
          match symtab with
          | None => mret None
          | Some p =>
              h ← load_handle l;
              if negb (valid_class h) then set_errno EINVAL ≫= λ _, mret None
              else
                found ← find_strtab (size (m_heap m)) (sh_link shdr) (e_strtab h);
                (* what was not found is what malloc left there *)
                match (match found with Some t => Some t | None => junk_strtab p end) with
                | None => load_symtab_quit p
                | Some t =>
                    let count := sint 32 (wrap64 (sh_size shdr) / sizeof_sym (e_clazz h)) in
                    symbol ← malloc (wrap64 (40 * count + sh_size shdr)) (CSyms []);
                    store p (CSymtab (ElfSymtab count (Some t) symbol)) ≫= λ _,
                    match symbol with
                    | None => load_symtab_quit p
                    | Some y =>
                        (* the raw table is read behind the [count] symbols *)
                        (if (count <? 0) || (2 ^ 64 <=? 40 * count + wrap64 (sh_size shdr))
                         then undef OutOfBounds else mret tt) ≫= λ _,
                        r ← pread (e_fd h) (wrap64 (sh_size shdr)) (sh_offset shdr);
                        if negb (from_option (λ b, Z.of_nat (length b)) (-1) r =? sh_size shdr)
                        then load_symtab_quit p
                        else
                          store y (CSyms ((assign_sym (e_clazz h) (default [] r) ∘ Z.of_nat)
                                            <$> indices (Z.to_nat count))) ≫= λ _,
                          mret (Some p)
                    end
                end
          end
      end
  end.

(** The first section of a type. *)
Fixpoint find_section (ty : Z) (shdr : list elf_shdr_t) (ixs : list nat)
  : M cmem (option elf_shdr_t) :=
  match ixs with
  | [] => mret None
  | i :: ixs =>
      s ← at_index shdr i;
      if sh_type s =? ty then mret (Some s) else find_section ty shdr ixs
  end.

Definition elf_load_symtab (l : loc) : M cmem (option loc) :=
  h ← load_handle l;
  match e_sym h with
  | Some p => mret (Some p)
  | None =>
      s ← elf_load_shdr l;
      match s with
      | None => mret None
      | Some a =>
          shdr ← load_shdrs a;
          found ← find_section SHT_SYMTAB shdr (indices (Z.to_nat (e_shnum h)));
          match found with
          | None => mret None
          | Some s =>
              sym ← elf_load_symtab_internal l s;
              h ← load_handle l;
              store_handle l (with_sym sym h) ≫= λ _, mret sym
          end
      end
  end.

Definition elf_load_dsymtab (l : loc) : M cmem (option loc) :=
  h ← load_handle l;
  match e_dsym h with
  | Some p => mret (Some p)
  | None =>
      s ← elf_load_shdr l;
      match s with
      | None => mret None
      | Some a =>
          shdr ← load_shdrs a;
          found ← find_section SHT_DYNSYM shdr (indices (Z.to_nat (e_shnum h)));
          match found with
          | None => mret None
          | Some s =>
              sym ← elf_load_symtab_internal l s;
              h ← load_handle l;
              store_handle l (with_dsym sym h) ≫= λ _, mret sym
          end
      end
  end.

Definition elf_load_all (l : loc) : M cmem Z :=
  p ← elf_load_phdr l;
  s ← (match p with None => mret None | Some _ => elf_load_shdr l end);
  t ← (match s with None => mret None | Some _ => elf_load_strtab l end);
  match t with
  | Some _ =>
      elf_load_symtab l ≫= λ _,       (* optional, no check *)
      elf_load_dsymtab l ≫= λ _,      (* optional, no check *)
      mret 0
  | None => free_tables l ≫= λ _, mret (-1)
  end.

End elftool.
