(* ===== verification/ElfHeap.v ===== *)
(** * The loader's use of the heap

    What a handle owns, and that elftool.c opens, fills and releases it without
    touching anything else: no cell is used after it was freed, none is freed
    twice, and [elf_close] releases exactly what the handle owns. *)
From S2P Require Import Prelude Libc Elftool.

(** ** Lists of string tables *)

(** [strtabs hp p ls ns]: from [p] hangs a list of the nodes [ns], each
    with the bytes of its table; [ls] are the addresses of its cells, each node
    before its data. *)
Inductive strtabs (hp : gmap loc cell) : option loc → list loc → list (elf_strtab_t * list Z) → Prop :=
  | strtabs_nil : strtabs hp None [] []
  | strtabs_cons l n d b ls ns :
      hp !! l = Some (CStrtab n) → st_data n = Some d → hp !! d = Some (CBytes b) →
      strtabs hp (st_next n) ls ns →
      strtabs hp (Some l) (l :: d :: ls) ((n, b) :: ns).

Lemma strtabs_frame hp hp' p ls ns :
  strtabs hp p ls ns → (∀ x, x ∈ ls → hp' !! x = hp !! x) → strtabs hp' p ls ns.
Proof.
  intros Hp. revert hp'. induction Hp as [|l n d b ls ns Hl Hd Hb Hp IH]; intros hp' Hag; [constructor|].
  econstructor; [|done| |].
  - rewrite Hag; [done|set_solver].
  - rewrite Hag; [done|set_solver].
  - apply IH. intros x Hx. apply Hag. set_solver.
Qed.

Lemma strtabs_live hp p ls ns : strtabs hp p ls ns → ∀ x, x ∈ ls → is_Some (hp !! x).
Proof.
  induction 1 as [|l n d b ls ns Hl Hd Hb Hp IH]; intros x; [set_solver|].
  intros [->|[->|Hx]%elem_of_cons]%elem_of_cons; eauto.
Qed.

Lemma strtabs_length hp p ls ns : strtabs hp p ls ns → length ls = (2 * length ns)%nat.
Proof. induction 1; simpl; lia. Qed.

(** Distinct cells of the heap are no more than its size. *)
Lemma live_length (hp : gmap loc cell) ls :
  NoDup ls → (∀ x, x ∈ ls → is_Some (hp !! x)) → (length ls ≤ size hp)%nat.
Proof.
  intros Hnd Hl. rewrite <-(size_list_to_set (C := gset loc)), <-size_dom by done.
  apply subseteq_size. intros x Hx. apply elem_of_list_to_set in Hx. by apply elem_of_dom, Hl.
Qed.

(** ** Releasing cells *)

Definition frees (hp : gmap loc cell) (ls : list loc) : gmap loc cell := foldr delete hp ls.

Lemma lookup_frees hp ls x : frees hp ls !! x = if decide (x ∈ ls) then None else hp !! x.
Proof.
  induction ls as [|l ls IH]; cbn [frees foldr].
  - by rewrite decide_False by set_solver.
  - destruct (decide (x = l)) as [->|Hne].
    + rewrite lookup_delete_eq, decide_True by set_solver. done.
    + rewrite lookup_delete_ne by done. fold (frees hp ls). rewrite IH.
      destruct (decide (x ∈ ls)); [by rewrite decide_True by set_solver|].
      by rewrite decide_False by set_solver.
Qed.

Lemma frees_cons hp l ls : frees hp (l :: ls) = frees (delete l hp) ls.
Proof.
  apply map_eq. intros x. rewrite !lookup_frees.
  destruct (decide (x = l)) as [->|Hne].
  - rewrite lookup_delete_eq, decide_True by set_solver. by destruct (decide _).
  - rewrite lookup_delete_ne by done. destruct (decide (x ∈ ls)).
    + by rewrite decide_True by set_solver.
    + by rewrite decide_False by set_solver.
Qed.

Lemma frees_other hp ls x : x ∉ ls → frees hp ls !! x = hp !! x.
Proof. intros Hx. rewrite lookup_frees. by rewrite decide_False. Qed.

Section heap.
Context `{ElfEnv}.

Lemma load_eq l c m : m_heap m !! l = Some c → load l m = Ret (c, m).
Proof. unfold load. by intros ->. Qed.
Lemma load_node_eq l n m : m_heap m !! l = Some (CStrtab n) → load_node l m = Ret (n, m).
Proof. intros Hl. unfold load_node. by erewrite bind_Ret by (by apply load_eq). Qed.
Lemma load_handle_eq l h m : m_heap m !! l = Some (CHandle h) → load_handle l m = Ret (h, m).
Proof. intros Hl. unfold load_handle. by erewrite bind_Ret by (by apply load_eq). Qed.
Lemma load_shdrs_eq l a m : m_heap m !! l = Some (CShdr a) → load_shdrs l m = Ret (a, m).
Proof. intros Hl. unfold load_shdrs. by erewrite bind_Ret by (by apply load_eq). Qed.
Lemma elf_file_eq l f m : m_heap m !! l = Some (CElf f) → elf_file l m = Ret (f, m).
Proof. intros Hl. unfold elf_file. by erewrite bind_Ret by (by apply load_eq). Qed.
Lemma free_eq l m : is_Some (m_heap m !! l) → free l m = Ret (tt, set_heap (delete l (m_heap m)) m).
Proof. unfold free. by intros [c ->]. Qed.
Lemma store_eq l c m :
  is_Some (m_heap m !! l) → store l c m = Ret (tt, set_heap (<[l := c]> (m_heap m)) m).
Proof. unfold store. by intros [c' ->]. Qed.

Lemma set_heap_heap hp m : m_heap (set_heap hp m) = hp.
Proof. done. Qed.
Lemma set_heap_twice hp hp' m : set_heap hp (set_heap hp' m) = set_heap hp m.
Proof. done. Qed.

(** The whole list is released, and nothing else. *)
Lemma elf_free_strtab_spec fuel p ls ns m :
  strtabs (m_heap m) p ls ns → NoDup ls → (length ns ≤ fuel)%nat →
  elf_free_strtab fuel p m = Ret (tt, set_heap (frees (m_heap m) ls) m).
Proof.
  revert p ls ns m. induction fuel as [|fuel IH]; intros p ls ns m Hp Hnd Hlen;
    destruct Hp as [|l n d b ls ns Hl Hd Hb Hp].
  - simpl. by destruct m.
  - simpl in Hlen. lia.
  - simpl. by destruct m.
  - cbn [elf_free_strtab]. apply NoDup_cons in Hnd as [Hnl Hnd].
    apply NoDup_cons in Hnd as [Hndd Hnd].
    erewrite bind_Ret by (by apply load_node_eq). rewrite Hd. cbn [free_opt].
    erewrite bind_Ret by (apply free_eq; by rewrite Hb).
    erewrite bind_Ret.
    2:{ apply free_eq. rewrite set_heap_heap, lookup_delete_ne; [by rewrite Hl|set_solver]. }
    rewrite set_heap_heap, set_heap_twice.
    rewrite (IH _ ls ns); [|by apply (strtabs_frame (m_heap m)); [|
      intros x Hx; rewrite set_heap_heap, !lookup_delete_ne by set_solver]|done|simpl in Hlen; lia].
    rewrite set_heap_heap, set_heap_twice, <-frees_cons. do 3 f_equal.
    by rewrite !frees_cons, delete_delete.
Qed.

Lemma free_strtab_spec p ls ns m :
  strtabs (m_heap m) p ls ns → NoDup ls →
  free_strtab p m = Ret (tt, set_heap (frees (m_heap m) ls) m).
Proof.
  intros Hp Hnd. unfold free_strtab. rewrite (bind_Ret get _ _ _ _ eq_refl).
  apply (elf_free_strtab_spec _ _ _ ns); [done..|].
  pose proof (live_length _ _ Hnd (strtabs_live _ _ _ _ Hp)).
  rewrite (strtabs_length _ _ _ _ Hp) in *. lia.
Qed.

(** [elf_free_strtab] ends within as many steps as there are cells, frees
    every node and its data exactly once, and touches nothing else. *)
Theorem elf_free_strtab_frees p ls ns m :
  strtabs (m_heap m) p ls ns → NoDup ls →
  ∃ m', free_strtab p m = Ret (tt, m') ∧ m_fds m' = m_fds m ∧
    ∀ x, m_heap m' !! x = if decide (x ∈ ls) then None else m_heap m !! x.
Proof.
  intros Hp Hnd. eexists. split; [by apply (free_strtab_spec p ls ns)|]. split; [done|].
  apply lookup_frees.
Qed.

(** ** What a handle owns *)

(** The addresses of the cells of the handle [h] at [l]; the list of string
    tables has the cells [ls].  The arrays of symbols are not among them:
    nothing in elftool.c frees them. *)
Definition owned (l : loc) (h : elf_handle_t) (ls : list loc) : list loc :=
  l :: option_list (e_dsym h) ++ option_list (e_sym h) ++ ls
    ++ option_list (e_shdr h) ++ option_list (e_phdr h) ++ option_list (e_elf h).

Record owns (hp : gmap loc cell) (l : loc) (h : elf_handle_t) (ls : list loc)
    (ns : list (elf_strtab_t * list Z)) : Prop := Owns {
  ow_handle : hp !! l = Some (CHandle h);
  ow_elf a : e_elf h = Some a → ∃ f, hp !! a = Some (CElf f);
  ow_phdr a : e_phdr h = Some a → ∃ p, hp !! a = Some (CPhdr p);
  ow_shdr a : e_shdr h = Some a → ∃ s, hp !! a = Some (CShdr s) ∧ length s = Z.to_nat (e_shnum h);
  ow_sym a : e_sym h = Some a → ∃ t, hp !! a = Some (CSymtab t);
  ow_dsym a : e_dsym h = Some a → ∃ t, hp !! a = Some (CSymtab t);
  ow_strtab : strtabs hp (e_strtab h) ls ns;
  ow_nodup : NoDup (owned l h ls) }.

(** [p'] is [p] or has been cleared. *)
Definition shrunk (p p' : option loc) : Prop := p' = p ∨ p' = None.

Lemma shrunk_sublist p p' : shrunk p p' → option_list p' `sublist_of` option_list p.
Proof. intros [->| ->]; [done|apply sublist_nil_l]. Qed.
Lemma shrunk_Some p p' a : shrunk p p' → p' = Some a → p = Some a.
Proof. intros [->| ->]; congruence. Qed.

Lemma elem_of_option_list (p : option loc) a : a ∈ option_list p ↔ p = Some a.
Proof. destruct p; set_solver. Qed.

(** Clearing pointers of the handle, and forgetting the cells they led to. *)
Lemma owns_shrink hp hp' l h h' ls ls' ns ns' :
  owns hp l h ls ns → hp' !! l = Some (CHandle h') →
  (∀ x, x ∈ owned l h' ls' → x ≠ l → hp' !! x = hp !! x) →
  shrunk (e_elf h) (e_elf h') → shrunk (e_phdr h) (e_phdr h') → shrunk (e_shdr h) (e_shdr h') →
  shrunk (e_sym h) (e_sym h') → shrunk (e_dsym h) (e_dsym h') → e_shnum h' = e_shnum h →
  (e_strtab h' = e_strtab h ∧ ls' = ls ∧ ns' = ns ∨ e_strtab h' = None ∧ ls' = [] ∧ ns' = []) →
  owns hp' l h' ls' ns'.
Proof.
  intros Ho Hl Hag Hself Hsph Hssh Hssy Hsds Hnum Hstr.
  assert (owned l h' ls' `sublist_of` owned l h ls) as Hsub.
  { unfold owned. apply sublist_skip. repeat apply sublist_app; try by apply shrunk_sublist.
    destruct Hstr as [(_ & -> & _)|(_ & -> & _)]; [done|apply sublist_nil_l]. }
  assert (NoDup (owned l h' ls')) as Hnd by (eapply sublist_NoDup; [apply Ho|done]).
  assert (∀ x, x ∈ owned l h' ls' → x ∈ tail (owned l h' ls') → hp' !! x = hp !! x) as Hag'.
  { intros x Hx Hx'. apply Hag; [done|]. intros ->. by apply NoDup_cons in Hnd as [? _]. }
  split; [done|..|done].
  1-5: intros a Ha; rewrite Hag' by (unfold owned; simpl; rewrite Ha; set_solver).
  - eapply ow_elf, shrunk_Some; done.
  - eapply ow_phdr, shrunk_Some; done.
  - rewrite Hnum. eapply ow_shdr, shrunk_Some; done.
  - eapply ow_sym, shrunk_Some; done.
  - eapply ow_dsym, shrunk_Some; done.
  - destruct Hstr as [(-> & -> & ->)|(-> & -> & ->)]; [|constructor].
    eapply strtabs_frame; [apply Ho|]. intros x Hx. apply Hag'; unfold owned; set_solver.
Qed.

(** ** Releasing what a handle owns *)

(** From [hp] to [hp'] the cells [gone] were released and, the handle apart,
    nothing else changed. *)
Definition released (hp hp' : gmap loc cell) (l : loc) (gone : list loc) : Prop :=
  ∀ x, x ≠ l → hp' !! x = if decide (x ∈ gone) then None else hp !! x.

Lemma released_nil hp l : released hp hp l [].
Proof. intros x _. by rewrite decide_False by apply not_elem_of_nil. Qed.
Lemma released_app hp hp' hp'' l a b :
  released hp hp' l a → released hp' hp'' l b → released hp hp'' l (a ++ b).
Proof.
  intros Ha Hb x Hx. rewrite (Hb x Hx), (Ha x Hx).
  destruct (decide (x ∈ b)); [by rewrite decide_True by (apply elem_of_app; by right)|].
  destruct (decide (x ∈ a)); [by rewrite decide_True by (apply elem_of_app; by left)|].
  by rewrite decide_False by (rewrite elem_of_app; tauto).
Qed.

(** One statement of [free_tables]: the field [f] is released and cleared. *)
Definition clears (l : loc) (h' : elf_handle_t) (ls' : list loc) (ns' : list (elf_strtab_t * list Z))
    (gone : list loc) (m m' : cmem) : Prop :=
  (m_fds m' = m_fds m ∧ m_next m' = m_next m) ∧ owns (m_heap m') l h' ls' ns' ∧
  released (m_heap m) (m_heap m') l gone.

Lemma free_field_spec l f clear rel m h ls ns gone ls' ns' :
  owns (m_heap m) l h ls ns →
  (f h = None → clear h = h ∧ gone = [] ∧ ls' = ls ∧ ns' = ns) →
  (∀ a, f h = Some a → rel (Some a) m = Ret (tt, set_heap (frees (m_heap m) gone) m)) →
  owned l h ls ≡ₚ gone ++ owned l (clear h) ls' →
  shrunk (e_elf h) (e_elf (clear h)) → shrunk (e_phdr h) (e_phdr (clear h)) →
  shrunk (e_shdr h) (e_shdr (clear h)) → shrunk (e_sym h) (e_sym (clear h)) →
  shrunk (e_dsym h) (e_dsym (clear h)) → e_shnum (clear h) = e_shnum h →
  (e_strtab (clear h) = e_strtab h ∧ ls' = ls ∧ ns' = ns
   ∨ e_strtab (clear h) = None ∧ ls' = [] ∧ ns' = []) →
  wp (free_field l f clear rel) (λ _ m', clears l (clear h) ls' ns' gone m m') m.
Proof.
  intros Ho Hnone Hrel Hperm ???????. unfold free_field.
  assert (∀ x, x ∈ owned l (clear h) ls' → x ∉ gone) as Hkeep.
  { pose proof (ow_nodup _ _ _ _ _ Ho) as Hnd. rewrite Hperm in Hnd.
    apply NoDup_app in Hnd as (_ & Hdisj & _). naive_solver. }
  apply wp_bind. eapply wp_intro; [apply load_handle_eq, Ho|].
  destruct (f h) as [a|] eqn:Hf.
  - apply wp_bind. eapply wp_intro; [by apply Hrel|].
    assert (l ∉ gone) as Hl by (apply Hkeep; by left).
    eapply wp_intro.
    { apply store_eq. rewrite set_heap_heap, frees_other by done. eexists. apply Ho. }
    rewrite set_heap_heap, set_heap_twice. split; [done|]. split.
    + eapply owns_shrink; try done; simpl.
      * by rewrite lookup_insert_eq.
      * intros x Hx Hxl. rewrite lookup_insert_ne, frees_other by auto. done.
    + intros x Hx. simpl. by rewrite lookup_insert_ne, lookup_frees by done.
  - destruct Hnone as (-> & -> & -> & ->); [done|]. apply wp_ret.
    split; [done|]. split; [done|apply released_nil].
Qed.

Lemma free_opt_frees a m :
  is_Some (m_heap m !! a) → free_opt (Some a) m = Ret (tt, set_heap (frees (m_heap m) [a]) m).
Proof. apply free_eq. Qed.

(** The handle after the tables are gone. *)
Definition without_tables (h : elf_handle_t) : elf_handle_t :=
  with_phdr None (with_shdr None (with_strtab None (with_sym None (with_dsym None h)))).

(** The cells of the tables, in the order they are released. *)
Definition table_cells (h : elf_handle_t) (ls : list loc) : list loc :=
  option_list (e_dsym h) ++ option_list (e_sym h) ++ ls
    ++ option_list (e_shdr h) ++ option_list (e_phdr h).

(** A field whose object is one cell. *)
Lemma free_one_spec l f clear m h ls ns :
  owns (m_heap m) l h ls ns →
  (f h = None → clear h = h) →
  (∀ a, f h = Some a → is_Some (m_heap m !! a)) →
  owned l h ls ≡ₚ option_list (f h) ++ owned l (clear h) ls →
  shrunk (e_elf h) (e_elf (clear h)) → shrunk (e_phdr h) (e_phdr (clear h)) →
  shrunk (e_shdr h) (e_shdr (clear h)) → shrunk (e_sym h) (e_sym (clear h)) →
  shrunk (e_dsym h) (e_dsym (clear h)) → e_shnum (clear h) = e_shnum h →
  e_strtab (clear h) = e_strtab h →
  wp (free_field l f clear free_opt) (λ _ m', clears l (clear h) ls ns (option_list (f h)) m m') m.
Proof.
  intros Ho Hnone Hlive Hperm ???????.
  eapply (free_field_spec l f clear _ m h ls ns); try done.
  - intros E. rewrite E in *. auto.
  - intros a Ha. rewrite Ha. by apply free_opt_frees, Hlive.
  - by left.
Qed.

Ltac free_one Ho h :=
  eapply free_one_spec; [exact Ho| | | | first [by left|by right].. | done | done];
  [ intros E; clear Ho; destruct h; simpl in *; by subst
  | intros a Ha;
    (destruct (ow_dsym _ _ _ _ _ Ho a Ha) as [? ->] || destruct (ow_sym _ _ _ _ _ Ho a Ha) as [? ->]
     || destruct (ow_shdr _ _ _ _ _ Ho a Ha) as (? & -> & _) || destruct (ow_phdr _ _ _ _ _ Ho a Ha) as [? ->]);
    by eexists
  | unfold owned; simpl; solve_Permutation ].

Lemma free_dsym_spec l m h ls ns :
  owns (m_heap m) l h ls ns →
  wp (free_field l e_dsym (with_dsym None) free_opt)
    (λ _ m', clears l (with_dsym None h) ls ns (option_list (e_dsym h)) m m') m.
Proof. intros Ho. free_one Ho h. Qed.

Lemma free_sym_spec l m h ls ns :
  owns (m_heap m) l h ls ns →
  wp (free_field l e_sym (with_sym None) free_opt)
    (λ _ m', clears l (with_sym None h) ls ns (option_list (e_sym h)) m m') m.
Proof. intros Ho. free_one Ho h. Qed.

Lemma free_shdr_spec l m h ls ns :
  owns (m_heap m) l h ls ns →
  wp (free_field l e_shdr (with_shdr None) free_opt)
    (λ _ m', clears l (with_shdr None h) ls ns (option_list (e_shdr h)) m m') m.
Proof. intros Ho. free_one Ho h. Qed.

Lemma free_phdr_spec l m h ls ns :
  owns (m_heap m) l h ls ns →
  wp (free_field l e_phdr (with_phdr None) free_opt)
    (λ _ m', clears l (with_phdr None h) ls ns (option_list (e_phdr h)) m m') m.
Proof. intros Ho. free_one Ho h. Qed.

Lemma free_strtab_field_spec l m h ls ns :
  owns (m_heap m) l h ls ns →
  wp (free_field l e_strtab (with_strtab None) free_strtab)
    (λ _ m', clears l (with_strtab None h) [] [] ls m m') m.
Proof.
  intros Ho. pose proof (ow_strtab _ _ _ _ _ Ho) as Hs.
  eapply (free_field_spec l _ _ _ m h ls ns ls [] []); [exact Ho| | | |by left..|done|by right].
  - intros E. rewrite E in Hs. inversion Hs; subst. destruct h; simpl in *; by subst.
  - intros a Ha. rewrite <-Ha. eapply free_strtab_spec; [done|].
    eapply sublist_NoDup; [apply (ow_nodup _ _ _ _ _ Ho)|]. unfold owned.
    apply sublist_cons. do 2 apply sublist_inserts_l. by apply sublist_inserts_r.
  - unfold owned; simpl. solve_Permutation.
Qed.

Lemma clears_trans l m m1 m2 h1 ls1 ns1 h2 ls2 ns2 a b :
  clears l h1 ls1 ns1 a m m1 → clears l h2 ls2 ns2 b m1 m2 → clears l h2 ls2 ns2 (a ++ b) m m2.
Proof.
  intros (? & ? & ?) (? & ? & ?). split; [intuition congruence|]. split; [done|by eapply released_app].
Qed.

Lemma free_tables_spec l m h ls ns :
  owns (m_heap m) l h ls ns →
  wp (free_tables l) (λ _ m', clears l (without_tables h) [] [] (table_cells h ls) m m') m.
Proof.
  intros Ho. unfold free_tables, table_cells.
  apply wp_bind. eapply wp_mono; [by eapply free_dsym_spec|]. intros [] m1 H1.
  apply wp_bind. eapply wp_mono; [eapply free_sym_spec, H1|]. intros [] m2 H2.
  apply wp_bind. eapply wp_mono; [eapply free_strtab_field_spec, H2|]. intros [] m3 H3.
  apply wp_bind. eapply wp_mono; [eapply free_shdr_spec, H3|]. intros [] m4 H4.
  eapply wp_mono; [eapply free_phdr_spec, H4|]. intros [] m5 H5.
  do 3 (eapply clears_trans; [eassumption|]). eapply clears_trans; eassumption.
Qed.

Lemma free_elf_spec l m h ls ns :
  owns (m_heap m) l h ls ns →
  wp (free_field l e_elf (λ h, with_elf_fd None (e_fd h) h) free_opt)
    (λ _ m', clears l (with_elf_fd None (e_fd h) h) ls ns (option_list (e_elf h)) m m') m.
Proof.
  intros Ho. eapply (free_one_spec l _ (λ h, with_elf_fd None (e_fd h) h));
    [exact Ho| | | |first [by left|by right]..|done|done].
  - intros E. clear Ho. destruct h; simpl in *; by subst.
  - intros a Ha. destruct (ow_elf _ _ _ _ _ Ho a Ha) as [? ->]. by eexists.
  - unfold owned; simpl. solve_Permutation.
Qed.

Lemma elf_close_spec l m h ls ns :
  owns (m_heap m) l h ls ns →
  wp (elf_close (Some l))
    (λ r m', r = 0 ∧
       (∀ x, m_heap m' !! x = if decide (x ∈ owned l h ls) then None else m_heap m !! x) ∧
       m_fds m' = if 0 <=? e_fd h then delete (e_fd h) (m_fds m) else m_fds m) m.
Proof.
  intros Ho. unfold elf_close.
  apply wp_bind. eapply wp_mono; [by eapply free_tables_spec|]. intros [] m1 H1.
  apply wp_bind. eapply wp_mono; [eapply free_elf_spec, H1|]. intros [] m2 H2.
  pose proof (clears_trans _ _ _ _ _ _ _ _ _ _ _ _ H1 H2) as ([Hfd _] & Ho2 & Hrel).
  apply wp_bind. eapply wp_intro; [apply load_handle_eq, Ho2|].
  assert (∀ hp : gmap loc cell, (∀ x, x ≠ l → hp !! x = m_heap m2 !! x) → ∀ x,
    delete l hp !! x = if decide (x ∈ owned l h ls) then None else m_heap m !! x) as Hfinal.
  { intros hp Hhp x. destruct (decide (x = l)) as [->|Hx].
    - rewrite lookup_delete_eq, decide_True; [done|]. by left.
    - rewrite lookup_delete_ne, Hhp, (Hrel x Hx) by done.
      unfold owned, table_cells, without_tables. simpl. apply decide_ext. set_solver. }
  apply wp_bind. cbn [e_fd with_elf_fd without_tables with_phdr with_shdr with_strtab with_sym with_dsym].
  destruct (0 <=? e_fd h).
  - apply wp_bind. eapply wp_intro; [done|]. eapply wp_intro.
    { apply store_eq. eexists. apply Ho2. }
    apply wp_bind. eapply wp_intro.
    { apply free_eq. rewrite set_heap_heap, lookup_insert_eq. by eexists. }
    apply wp_ret. split_and!; [done| |simpl; by rewrite Hfd].
    apply Hfinal. intros x Hx. simpl. by rewrite lookup_insert_ne by done.
  - apply wp_ret, wp_bind. eapply wp_intro; [apply free_eq; eexists; apply Ho2|].
    apply wp_ret. split_and!; [done| |done]. by apply Hfinal.
Qed.

(** C16. [elf_close] of a handle, complete or not, returns 0 after it freed each
    cell the handle owns exactly once and closed its descriptor; every other
    cell is as it was, the arrays of symbols among them, which nothing in the
    loader ever frees. *)
Theorem elf_close_releases l m h ls ns :
  owns (m_heap m) l h ls ns →
  wp (elf_close (Some l))
    (λ r m', r = 0 ∧
       (∀ x, m_heap m' !! x = if decide (x ∈ owned l h ls) then None else m_heap m !! x) ∧
       m_fds m' = if 0 <=? e_fd h then delete (e_fd h) (m_fds m) else m_fds m) m.
Proof. apply elf_close_spec. Qed.

(** ** Allocation *)

(** The allocator has not handed out the addresses from [m_next] on. *)
Definition fresh_next (m : cmem) : Prop := ∀ x : loc, (m_next m ≤ x)%positive → m_heap m !! x = None.

Definition allocated (c : cell) (m : cmem) : cmem :=
  Cmem (<[m_next m := c]> (m_heap m)) (Pos.succ (m_next m)) (m_fds m) (m_errno m)
    (m_initialized m) (m_version m).

Lemma fresh_allocated c m : fresh_next m → fresh_next (allocated c m).
Proof.
  intros Hf x Hx. simpl in *. rewrite lookup_insert_ne by lia. apply Hf. lia.
Qed.

Lemma wp_malloc size c (Q : option loc → cmem → Prop) m :
  Q None m → Q (Some (m_next m)) (allocated c m) → wp (malloc size c) Q m.
Proof. unfold wp, malloc. by destruct (malloc_ok _ _). Qed.

(** ** Opening *)

(** What open(2) and libelf promise about the file [f]. *)
Record openable (f : string) : Prop := Openable {
  op_fd fds fd : sys_open f fds = Some fd → 0 ≤ fd ∧ fds !! fd = None;
  op_ident id : lib_getident f = Some id → (4 < length id)%nat;
  op_ehdr32 id : lib_getident f = Some id → id !! 4%nat = Some 1 → is_Some (elf32_getehdr f);
  op_ehdr64 id : lib_getident f = Some id → id !! 4%nat = Some 2 → is_Some (elf64_getehdr f) }.

(** The header of the class the file says it has. *)
Definition file_ehdr (f : string) (clazz : Z) : option Elf_Ehdr :=
  if clazz =? ELFCLASS32 then elf32_getehdr f else elf64_getehdr f.

(** The state after a successful [elf_open]. *)
Record opened (f : string) (m : cmem) (l : loc) (h : elf_handle_t) (m' : cmem) : Prop := Opened {
  od_owns : owns (m_heap m') l h [] [];
  od_next : (m_next m ≤ m_next m')%positive;
  od_new x : x ∈ owned l h [] → m_heap m !! x = None;
  od_old x : x ∉ owned l h [] → m_heap m' !! x = m_heap m !! x;
  od_fd : 0 ≤ e_fd h ∧ m_fds m !! e_fd h = None ∧ m_fds m' = <[e_fd h := f]> (m_fds m);
  od_class : valid_class h = true;
  od_tables : e_phdr h = None ∧ e_shdr h = None ∧ e_strtab h = None ∧ e_sym h = None ∧ e_dsym h = None;
  od_file : ∃ a, e_elf h = Some a ∧ m_heap m' !! a = Some (CElf f);
  od_header : ∃ id eh, lib_getident f = Some id ∧ id !! 4%nat = Some (e_clazz h) ∧
    file_ehdr f (e_clazz h) = Some eh ∧ h = handle_of_ehdr (e_clazz h) eh (e_fd h) (e_elf h) }.

Lemma set_fds_undo m fd f :
  m_fds m !! fd = None → delete fd (<[fd := f]> (m_fds m)) = m_fds m.
Proof. apply delete_insert_id. Qed.

(** [err_quit] undoes what was done. *)
Lemma elf_open_quit_spec fd elf e m :
  0 ≤ fd → NoDup (option_list elf ++ option_list e) →
  (∀ x, x ∈ option_list elf ++ option_list e → is_Some (m_heap m !! x)) →
  wp (elf_open_quit fd elf e)
    (λ r m', r = None ∧ m_fds m' = delete fd (m_fds m) ∧ m_next m' = m_next m ∧
       ∀ x, m_heap m' !! x =
         if decide (x ∈ option_list elf ++ option_list e) then None else m_heap m !! x) m.
Proof.
  intros Hfd Hnd Hlive. unfold elf_open_quit. rewrite (proj2 (Z.leb_le _ _)) by done.
  assert (∀ p m, (∀ x, x ∈ option_list p → is_Some (m_heap m !! x)) →
    free_opt p m = Ret (tt, set_heap (frees (m_heap m) (option_list p)) m)) as Hfree.
  { intros [a|] m0 H0; [apply free_opt_frees, H0; by left|]. by destruct m0. }
  apply wp_bind. eapply wp_intro; [apply Hfree; intros x Hx; apply Hlive, elem_of_app; by left|].
  apply wp_bind. eapply wp_intro; [done|].
  apply wp_bind. eapply wp_intro.
  { apply Hfree. intros x Hx. simpl. rewrite frees_other.
    - apply Hlive, elem_of_app. by right.
    - apply NoDup_app in Hnd as (_ & Hd & _). intros Hx'. by apply (Hd x). }
  apply wp_ret. split_and!; [done..|]. intros x. simpl. rewrite !lookup_frees.
  destruct (decide (x ∈ option_list e)), (decide (x ∈ option_list elf));
    rewrite ?decide_True, ?decide_False by (rewrite ?elem_of_app; tauto); done.
Qed.

(** Nothing is left behind. *)
Definition undone (m m' : cmem) : Prop := m_fds m' = m_fds m ∧ ∀ x, m_heap m' !! x = m_heap m !! x.

Definition opened_or_undone (f : string) (m : cmem) (r : option loc) (m' : cmem) : Prop :=
  fresh_next m' ∧
  match r with None => undone m m' | Some l => ∃ h, opened f m l h m' end.

(** The failure exits of [elf_open]: [m1] is the state when the jump is taken. *)
Lemma open_quit_undoes f m m1 fd elf e :
  fresh_next m → 0 ≤ fd → m_fds m !! fd = None → m_fds m1 = <[fd := f]> (m_fds m) →
  NoDup (option_list elf ++ option_list e) →
  (∀ x, x ∈ option_list elf ++ option_list e → is_Some (m_heap m1 !! x) ∧ m_heap m !! x = None) →
  (∀ x, x ∉ option_list elf ++ option_list e → m_heap m1 !! x = m_heap m !! x) →
  (m_next m ≤ m_next m1)%positive →
  wp (elf_open_quit fd elf e) (opened_or_undone f m) m1.
Proof.
  intros Hfresh Hfd Hunused Hfds Hnd Hnew Hold Hnext.
  eapply wp_mono; [apply elf_open_quit_spec; [done..|by apply Hnew]|].
  intros r m' (-> & Hf & Hn & Hh).
  assert (∀ x, m_heap m' !! x = m_heap m !! x) as Hsame.
  { intros x. rewrite Hh. destruct (decide _) as [Hx|Hx]; [by symmetry; apply Hnew|by apply Hold]. }
  split; [|split].
  - intros x Hx. rewrite Hsame. apply Hfresh. lia.
  - by rewrite Hf, Hfds, set_fds_undo.
  - done.
Qed.

(** The handle cell after the header was read. *)
Lemma open_finishes f m m1 fd elf l clazz eh id :
  lib_getident f = Some id → id !! 4%nat = Some clazz → file_ehdr f clazz = Some eh →
  fresh_next m → 0 ≤ fd → m_fds m !! fd = None → m_fds m1 = <[fd := f]> (m_fds m) →
  clazz = ELFCLASS32 ∨ clazz = ELFCLASS64 →
  elf = m_next m → l = Pos.succ (m_next m) → m_next m1 = Pos.succ l →
  (∃ c, m_heap m1 = <[l := c]> (<[elf := CElf f]> (m_heap m))) →
  wp (store_handle l (handle_of_ehdr clazz eh fd (Some elf)) ≫= λ _, mret (Some l))
    (opened_or_undone f m) m1.
Proof.
  intros Hid Hid4 Hehdr Hfresh Hfd Hunused Hfds Hcl -> -> Hnext [c Hheap].
  set (l := Pos.succ (m_next m)). assert (l ≠ m_next m) as Hne by lia.
  apply wp_bind. eapply wp_intro.
  { apply store_eq. rewrite Hheap, lookup_insert_eq. by eexists. }
  apply wp_ret. split.
  - intros x Hx. simpl in *. rewrite Hnext in Hx. rewrite Hheap.
    rewrite !lookup_insert_ne by lia. apply Hfresh. lia.
  - exists (handle_of_ehdr clazz eh fd (Some (m_next m))). split.
    + split; simpl; try done.
      * by rewrite lookup_insert_eq.
      * intros a [= <-]. exists f. rewrite lookup_insert_ne, Hheap by done.
        by rewrite lookup_insert_ne, lookup_insert_eq by done.
      * constructor.
      * apply NoDup_cons. split; [set_solver|]. apply NoDup_singleton.
    + simpl. lia.
    + intros x Hx. apply Hfresh. unfold owned in Hx. simpl in Hx.
      apply elem_of_cons in Hx as [->|Hx%list_elem_of_singleton]; subst; lia.
    + intros x Hx. unfold owned in Hx. simpl in *. rewrite Hheap.
      rewrite !lookup_insert_ne by set_solver. done.
    + done.
    + by destruct Hcl as [-> | ->].
    + done.
    + exists (m_next m). split; [done|]. simpl. rewrite lookup_insert_ne, Hheap by done.
      by rewrite lookup_insert_ne, lookup_insert_eq by done.
    + by exists id, eh.
Qed.

Lemma elf_open_spec f m :
  openable f → fresh_next m → wp (elf_open f) (opened_or_undone f m) m.
Proof.
  intros Hop Hfresh. unfold elf_open. apply wp_bind, wp_get.
  destruct (sys_open f (m_fds m)) as [fd|] eqn:Hopen; [|apply wp_ret; by split].
  destruct (op_fd _ Hop _ _ Hopen) as [Hfd Hunused].
  apply wp_bind, wp_modify. set (m1 := set_fds _ m).
  assert (fresh_next m1) as Hf1 by done.
  apply wp_bind. destruct (lib_begin f).
  2:{ apply wp_ret. apply open_quit_undoes; first [done|apply NoDup_nil_2|simpl; lia|set_solver]. }
  apply wp_malloc.
  { apply open_quit_undoes; first [done|apply NoDup_nil_2|simpl; lia|set_solver]. }
  set (m2 := allocated (CElf f) m1). change (m_next m1) with (m_next m) in *.
  assert (wp (elf_open_quit fd (Some (m_next m)) None) (opened_or_undone f m) m2) as Hquit.
  { apply open_quit_undoes; try done; simpl; [apply NoDup_singleton| | |lia].
    - intros x ->%list_elem_of_singleton. rewrite lookup_insert_eq. split; [by eexists|]. apply Hfresh. lia.
    - intros x Hx. rewrite lookup_insert_ne by set_solver. done. }
  destruct (lib_getident f) as [id|] eqn:Hid; [|done].
  apply wp_bind, wp_malloc; [done|]. change (m_next m2) with (Pos.succ (m_next m)).
  set (m3 := allocated _ m2). set (l := Pos.succ (m_next m)).
  pose proof (op_ident _ Hop _ Hid) as Hlen.
  destruct (lookup_lt_is_Some_2 id 4 Hlen) as [c Hc].
  assert (∀ clazz eh, clazz = ELFCLASS32 ∨ clazz = ELFCLASS64 → c = clazz →
    file_ehdr f clazz = Some eh →
    wp (store_handle l (handle_of_ehdr clazz eh fd (Some (m_next m))) ≫= λ _, mret (Some l))
      (opened_or_undone f m) m3) as Hfinish.
  { intros clazz eh Hcl -> Heh. by eapply (open_finishes f m m3 fd _ _ _ _ id); try done; eexists. }
  apply wp_bind. unfold at_index. rewrite Hc. apply wp_ret.
  destruct (Z.eqb_spec c 1) as [->|_].
  { destruct (op_ehdr32 _ Hop _ Hid Hc) as [eh Heh]. rewrite Heh.
    apply wp_bind, wp_deref, Hfinish; [by left|done|done]. }
  destruct (Z.eqb_spec c 2) as [->|_].
  { destruct (op_ehdr64 _ Hop _ Hid Hc) as [eh Heh]. rewrite Heh.
    apply wp_bind, wp_deref, Hfinish; [by right|done|done]. }
  apply wp_bind, wp_modify. apply open_quit_undoes; try done; simpl.
  - apply NoDup_cons. split; [set_solver by lia|]. apply NoDup_singleton.
  - intros x [->|Hx%list_elem_of_singleton]%elem_of_cons.
    + rewrite lookup_insert_ne, lookup_insert_eq by lia. split; [by eexists|]. apply Hfresh. lia.
    + subst x. rewrite lookup_insert_eq. split; [by eexists|]. apply Hfresh. lia.
  - intros x Hx. rewrite !lookup_insert_ne by set_solver. done.
  - lia.
Qed.

(** C15. [elf_open] is all or nothing: it returns a handle that owns its cell,
    libelf's descriptor and an open file and has no table yet, or, whatever
    failed, null with the heap and the open files as they were. *)
Theorem elf_open_all_or_nothing f m :
  openable f → fresh_next m → wp (elf_open f) (opened_or_undone f m) m.
Proof. apply elf_open_spec. Qed.

(** Opening a file and closing it again, whether the open succeeds or not,
    leaves no cell allocated and no file open. *)
Theorem elf_open_close f m :
  openable f → fresh_next m →
  wp (p ← elf_open f; elf_close p) (λ r m', r = 0 ∧ undone m m') m.
Proof.
  intros Hop Hfresh. apply wp_bind. eapply wp_mono; [by apply elf_open_spec|].
  intros [l|] m1 [Hf1 Ho]; [|by apply wp_ret].
  destruct Ho as [h [Hown _ Hnew Hold (Hfd & Hunused & Hfds) _ _ _ _]].
  eapply wp_mono; [by eapply elf_close_spec|]. intros r m2 (-> & Hheap & Hf2).
  rewrite (proj2 (Z.leb_le _ _) Hfd), Hfds, set_fds_undo in Hf2 by done.
  split; [done|]. split; [done|]. intros x. rewrite Hheap.
  destruct (decide _) as [Hx|Hx]; [by rewrite Hnew|by apply Hold].
Qed.

End heap.
