(* ===== verification/ElfLoad.v ===== *)
(** * Loading the tables of a file

    The tables elftool.c builds: which sections become string tables and in
    which order, what a symbol is decoded to, and that [elf_load_all] keeps the
    heap in order on every path, failures of the allocator and short reads
    included. *)
From S2P Require Import Prelude Libc Elftool ElfHeap.

Section load.
Context `{ElfEnv}.

(** ** The state a loader runs in *)

(** The handle [h] at [l] is open on the file [f]. *)
Record held (f : string) (m : cmem) (l : loc) (h : elf_handle_t) (ls : list loc)
    (ns : list (elf_strtab_t * list Z)) : Prop := Held {
  hd_fresh : fresh_next m;
  hd_owns : owns (m_heap m) l h ls ns;
  hd_fd : m_fds m !! e_fd h = Some f;
  hd_file : ∃ a, e_elf h = Some a ∧ m_heap m !! a = Some (CElf f);
  hd_class : valid_class h = true }.

(** The program headers of the class of the file, and its section headers. *)
Definition file_phdrs (f : string) (clazz : Z) : option (list elf_phdr_t) :=
  if clazz =? ELFCLASS32 then elf32_getphdr f else elf64_getphdr f.
Definition file_shdr (f : string) (clazz scn : Z) : option elf_shdr_t :=
  if clazz =? ELFCLASS32 then elf32_getshdr f scn else elf64_getshdr f scn.

(** Everything but the handle cell stays as it was. *)
Definition keeps (m m' : cmem) (l : loc) : Prop :=
  m_fds m' = m_fds m ∧ (m_next m ≤ m_next m')%positive ∧
  ∀ x : loc, x ≠ l → (x < m_next m)%positive → m_heap m' !! x = m_heap m !! x.

Lemma keeps_refl m l : keeps m m l.
Proof. by split_and!. Qed.
Lemma keeps_trans m m1 m2 l : keeps m m1 l → keeps m1 m2 l → keeps m m2 l.
Proof.
  intros (? & ? & Ha) (? & ? & Hb). split_and!; [congruence|lia|].
  intros x Hx Hlt. rewrite Hb, Ha by (done || lia). done.
Qed.

(** A cell that is there is below the next address. *)
Lemma live_below m x c : fresh_next m → m_heap m !! x = Some c → (x < m_next m)%positive.
Proof.
  intros Hf Hx. destruct (decide (x < m_next m)%positive) as [|Hge]; [done|].
  rewrite Hf in Hx by lia. done.
Qed.

Lemma owned_live hp l h ls ns x : owns hp l h ls ns → x ∈ owned l h ls → is_Some (hp !! x).
Proof.
  intros Ho. unfold owned. rewrite elem_of_cons, !elem_of_app, !elem_of_option_list.
  intros [->|[Hx|[Hx|[Hx|[Hx|[Hx|Hx]]]]]].
  - eexists. apply Ho.
  - destruct (ow_dsym _ _ _ _ _ Ho _ Hx) as [? ->]. by eexists.
  - destruct (ow_sym _ _ _ _ _ Ho _ Hx) as [? ->]. by eexists.
  - by eapply strtabs_live; [apply Ho|].
  - destruct (ow_shdr _ _ _ _ _ Ho _ Hx) as (? & -> & _). by eexists.
  - destruct (ow_phdr _ _ _ _ _ Ho _ Hx) as [? ->]. by eexists.
  - destruct (ow_elf _ _ _ _ _ Ho _ Hx) as [? ->]. by eexists.
Qed.

(** The owned cells are below the next address. *)
Lemma held_below f m l h ls ns x : held f m l h ls ns → x ∈ owned l h ls → (x < m_next m)%positive.
Proof.
  intros Hh Hx. destruct (owned_live _ _ _ _ _ _ (hd_owns _ _ _ _ _ _ Hh) Hx) as [c Hc].
  eapply live_below; [apply Hh|done].
Qed.

(** ** Adding to what a handle owns *)

(** A pointer of the new handle is the old one or leads to a new cell. *)
Definition grown (hp' : gmap loc cell) (P : cell → Prop) (p p' : option loc) : Prop :=
  p' = p ∨ ∃ a c, p' = Some a ∧ hp' !! a = Some c ∧ P c.

Lemma grown_same hp' P p : grown hp' P p p.
Proof. by left. Qed.

Lemma owns_grow hp hp' l h h' ls ls' ns ns' new :
  owns hp l h ls ns → hp' !! l = Some (CHandle h') →
  (∀ x, x ∈ owned l h ls → x ≠ l → hp' !! x = hp !! x) →
  owned l h' ls' ≡ₚ new ++ owned l h ls → NoDup new → (∀ x, x ∈ new → hp !! x = None) →
  e_elf h' = e_elf h → e_shnum h' = e_shnum h →
  grown hp' (λ c, ∃ p, c = CPhdr p) (e_phdr h) (e_phdr h') →
  grown hp' (λ c, ∃ s, c = CShdr s ∧ length s = Z.to_nat (e_shnum h)) (e_shdr h) (e_shdr h') →
  grown hp' (λ c, ∃ t, c = CSymtab t) (e_sym h) (e_sym h') →
  grown hp' (λ c, ∃ t, c = CSymtab t) (e_dsym h) (e_dsym h') →
  strtabs hp' (e_strtab h') ls' ns' →
  owns hp' l h' ls' ns'.
Proof.
  intros Ho Hl Hag Hperm Hnd Hnew Helf Hnum Hph Hsh Hsy Hds Hst.
  pose proof (ow_nodup _ _ _ _ _ Ho) as Hnd0.
  assert (∀ x, x ∈ tail (owned l h ls) → hp' !! x = hp !! x) as Hag'.
  { intros x Hx. apply Hag; [by right|]. intros ->. by apply NoDup_cons in Hnd0 as [? _]. }
  unfold owned in Hag'; simpl in Hag'. setoid_rewrite elem_of_app in Hag'.
  repeat setoid_rewrite elem_of_app in Hag'. setoid_rewrite elem_of_option_list in Hag'.
  split; [done|..|done|].
  - rewrite Helf. intros a Ha. rewrite Hag' by tauto. by apply (ow_elf _ _ _ _ _ Ho).
  - destruct Hph as [->|(b & c & -> & Hb & p & ->)]; [|by intros a [= <-]; eexists].
    intros a Ha. rewrite Hag' by tauto. by apply (ow_phdr _ _ _ _ _ Ho).
  - rewrite Hnum. destruct Hsh as [->|(b & c & -> & Hb & s & -> & Hs)]; [|by intros a [= <-]; eexists].
    intros a Ha. rewrite Hag' by tauto. by apply (ow_shdr _ _ _ _ _ Ho).
  - destruct Hsy as [->|(b & c & -> & Hb & t & ->)]; [|by intros a [= <-]; eexists].
    intros a Ha. rewrite Hag' by tauto. by apply (ow_sym _ _ _ _ _ Ho).
  - destruct Hds as [->|(b & c & -> & Hb & t & ->)]; [|by intros a [= <-]; eexists].
    intros a Ha. rewrite Hag' by tauto. by apply (ow_dsym _ _ _ _ _ Ho).
  - rewrite Hperm. apply NoDup_app. split_and!; [done| |done].
    intros x Hx Hx'. destruct (owned_live _ _ _ _ _ _ Ho Hx') as [c Hc]. by rewrite Hnew in Hc.
Qed.

(** ** The two header tables *)

(** The last steps of a loader of one array: the cell [a] was allocated in [m],
    is filled with [c], and the handle becomes [h']. *)
Definition installed (m : cmem) (c c0 : cell) (l : loc) (h' : elf_handle_t) : cmem :=
  set_heap (<[l := CHandle h']> (<[m_next m := c]> (m_heap (allocated c0 m)))) (allocated c0 m).

Lemma install_steps m c c0 l h h' :
  fresh_next m → m_heap m !! l = Some (CHandle h) →
  (store (m_next m) c ≫= λ _, store_handle l h' ≫= λ _, mret (Some (m_next m))) (allocated c0 m)
  = Ret (Some (m_next m), installed m c c0 l h').
Proof.
  intros Hf Hl. assert (l ≠ m_next m) as Hne.
  { pose proof (live_below _ _ _ Hf Hl). lia. }
  erewrite bind_Ret; [|apply store_eq; simpl; rewrite lookup_insert_eq; by eexists].
  erewrite bind_Ret; [done|]. unfold store_handle. rewrite store_eq; [done|].
  simpl. rewrite !lookup_insert_ne by done. by eexists.
Qed.

Lemma install_held f m c c0 l h h' ls ns :
  held f m l h ls ns →
  owned l h' ls ≡ₚ [m_next m] ++ owned l h ls →
  e_elf h' = e_elf h → e_shnum h' = e_shnum h → e_fd h' = e_fd h → e_clazz h' = e_clazz h →
  e_strtab h' = e_strtab h →
  (e_phdr h' = e_phdr h ∨ e_phdr h' = Some (m_next m) ∧ ∃ p, c = CPhdr p) →
  (e_shdr h' = e_shdr h ∨
   e_shdr h' = Some (m_next m) ∧ ∃ s, c = CShdr s ∧ length s = Z.to_nat (e_shnum h)) →
  e_sym h' = e_sym h → e_dsym h' = e_dsym h →
  held f (installed m c c0 l h') l h' ls ns ∧ keeps m (installed m c c0 l h') l ∧
  m_heap (installed m c c0 l h') !! m_next m = Some c.
Proof.
  intros Hh Hperm Helf Hnum Hfd Hcl Hst Hph Hsh Hsy Hds.
  pose proof (hd_fresh _ _ _ _ _ _ Hh) as Hf. pose proof (hd_owns _ _ _ _ _ _ Hh) as Ho.
  assert (l ≠ m_next m) as Hne.
  { pose proof (live_below _ _ _ Hf (ow_handle _ _ _ _ _ Ho)). lia. }
  assert (∀ x, x ≠ l → x ≠ m_next m → m_heap (installed m c c0 l h') !! x = m_heap m !! x) as Hold.
  { intros x Hxl Hxa. simpl. by rewrite !lookup_insert_ne by done. }
  assert (m_heap (installed m c c0 l h') !! m_next m = Some c) as Hc.
  { simpl. by rewrite lookup_insert_ne, lookup_insert_eq by done. }
  assert (∀ x, x ∈ owned l h ls → x ≠ m_next m) as Hbelow.
  { intros x Hx ->. pose proof (held_below _ _ _ _ _ _ _ Hh Hx). lia. }
  split_and!; [|split_and!; simpl; [done|lia|]|done].
  2:{ intros x Hx Hlt. by rewrite !lookup_insert_ne by lia. }
  split.
  - intros x Hx. simpl in *. rewrite !lookup_insert_ne by (pose proof (live_below _ _ _ Hf (ow_handle _ _ _ _ _ Ho)); lia).
    apply Hf. lia.
  - eapply (owns_grow (m_heap m) _ l h h' ls ls ns ns [m_next m]); try done.
    + simpl. by rewrite lookup_insert_eq.
    + intros x Hx Hxl. apply Hold; auto.
    + apply NoDup_singleton.
    + intros x ->%list_elem_of_singleton. apply Hf. lia.
    + destruct Hph as [E|[E [p ->]]]; [by left|right]. eauto 10.
    + destruct Hsh as [E|[E [s [-> Hs]]]]; [by left|right]. eauto 10.
    + by left.
    + by left.
    + rewrite Hst. eapply strtabs_frame; [apply Ho|]. intros x Hx.
      assert (x ∈ owned l h ls) as Hxo by (unfold owned; set_solver).
      apply Hold; [|by apply Hbelow]. intros ->.
      pose proof (ow_nodup _ _ _ _ _ Ho) as [Hl _]%NoDup_cons. set_solver.
  - rewrite Hfd. apply Hh.
  - destruct (hd_file _ _ _ _ _ _ Hh) as (a & Ha & Hfa). exists a. split; [congruence|].
    rewrite Hold; [done| |].
    + intros ->. rewrite (ow_handle _ _ _ _ _ Ho) in Hfa. discriminate.
    + apply Hbelow. unfold owned. rewrite Ha. set_solver.
  - unfold valid_class. rewrite Hcl. apply Hh.
Qed.

Lemma iter_phdr_spec p n i m :
  (i + n ≤ length p)%nat → iter_phdr p (seq i n) m = Ret (copy_phdr <$> take n (drop i p), m).
Proof.
  revert i. induction n as [|n IH]; intros i Hn; [done|]. cbn [seq iter_phdr].
  destruct (lookup_lt_is_Some_2 p i) as [x Hx]; [lia|].
  unfold at_index. rewrite Hx, ret_bind. erewrite bind_Ret by (apply IH; lia).
  by rewrite (drop_S _ _ _ Hx).
Qed.

Lemma handle_file_eq f m c0 l h ls ns :
  held f m l h ls ns → handle_file h (allocated c0 m) = Ret (f, allocated c0 m).
Proof.
  intros Hh. destruct (hd_file _ _ _ _ _ _ Hh) as (a & Ha & Hf).
  unfold handle_file. rewrite Ha. unfold deref. rewrite ret_bind. apply elf_file_eq. simpl.
  pose proof (live_below _ _ _ (hd_fresh _ _ _ _ _ _ Hh) Hf). by rewrite lookup_insert_ne by lia.
Qed.

(** The outcome of a loader that found no memory or no headers. *)
Lemma held_keeps f m l h ls ns : held f m l h ls ns → held f m l h ls ns ∧ keeps m m l.
Proof. intros Hh. split; [done|apply keeps_refl]. Qed.

Definition phdr_table (f : string) (h : elf_handle_t) (m : cmem) (a : loc) : Prop :=
  ∃ p, file_phdrs f (e_clazz h) = Some p ∧
       m_heap m !! a = Some (CPhdr (copy_phdr <$> take (Z.to_nat (e_phnum h)) p)).

(** What the loader has to find in libelf: program headers, as many as the
    file header announces. *)
Inductive phdr_fault (f : string) (clazz phnum : Z) : ub → Prop :=
  | no_phdrs : 0 < phnum → file_phdrs f clazz = None → phdr_fault f clazz phnum NullDeref
  | few_phdrs p :
      file_phdrs f clazz = Some p → (length p < Z.to_nat phnum)%nat →
      phdr_fault f clazz phnum OutOfBounds.

Lemma iter_phdr_short p n i m :
  (length p < i + n)%nat → (i ≤ length p)%nat → iter_phdr p (seq i n) m = Undef OutOfBounds.
Proof.
  revert i. induction n as [|n IH]; intros i Hn Hi; [lia|]. cbn [seq iter_phdr].
  destruct (p !! i) as [x|] eqn:Hx.
  - apply lookup_lt_Some in Hx as Hlt. unfold at_index at 1. rewrite Hx, ret_bind.
    apply bind_Undef, IH; lia.
  - apply bind_Undef. unfold at_index. by rewrite Hx.
Qed.

Lemma elf_load_phdr_spec f m l h ls ns :
  held f m l h ls ns → e_phdr h = None →
  wp_or (phdr_fault f (e_clazz h) (e_phnum h)) (elf_load_phdr l)
    (λ r m', held f m' l (with_phdr r h) ls ns ∧ keeps m m' l ∧
             ∀ a, r = Some a → (m_next m ≤ a)%positive ∧ phdr_table f h m' a) m.
Proof.
  intros Hh Hnone. unfold elf_load_phdr.
  assert (held f m l (with_phdr None h) ls ns ∧ keeps m m l ∧
          ∀ a, None = Some a → (m_next m ≤ a)%positive ∧ phdr_table f h m a) as Hfail.
  { assert (with_phdr None h = h) as ->; [destruct h; simpl in *; by subst|].
    split_and!; [done|apply keeps_refl|done]. }
  apply wp_or_bind_wp. eapply wp_intro; [apply load_handle_eq, Hh|].
  rewrite Hnone. destruct (Z.leb_spec (e_phnum h) 0); [by apply wp_or_wp, wp_ret|].
  rewrite (hd_class _ _ _ _ _ _ Hh). cbn [negb].
  apply wp_or_bind_wp, wp_malloc; [by apply wp_or_wp, wp_ret|].
  apply wp_or_bind_wp. eapply wp_intro; [by eapply handle_file_eq|].
  change (if e_clazz h =? ELFCLASS32 then _ else _) with (file_phdrs f (e_clazz h)).
  destruct (file_phdrs f (e_clazz h)) as [p|] eqn:Hp.
  2:{ eapply wp_or_undef; [by apply bind_Undef|by apply no_phdrs]. }
  apply wp_or_bind_wp, wp_deref.
  destruct (decide (length p < Z.to_nat (e_phnum h))%nat) as [Hshort|Hlen].
  { eapply wp_or_undef; [apply bind_Undef, iter_phdr_short; simpl; lia|by eapply few_phdrs]. }
  apply wp_or_wp, wp_bind. eapply wp_intro; [apply iter_phdr_spec; simpl; lia|]. rewrite drop_0.
  eapply wp_intro; [by eapply install_steps; apply Hh|].
  edestruct (install_held f m (CPhdr (copy_phdr <$> take (Z.to_nat (e_phnum h)) p)) (CPhdr []) l h
    (with_phdr (Some (m_next m)) h) ls ns) as (Hh' & Hk & Hc); try done; try (by left).
  - unfold owned. simpl. rewrite Hnone. simpl. solve_Permutation.
  - right. split; [done|]. by eexists.
  - split_and!; [done..|]. intros a [= <-]. split; [lia|by exists p].
Qed.

(** The section headers: entry [scn mod shnum] is that of section [scn], the
    last one that falls there; the others are what malloc left. *)
Fixpoint assigned (f : string) (clazz shnum : Z) (scns : list Z) (shdr : list elf_shdr_t)
  : list elf_shdr_t :=
  match scns with
  | [] => shdr
  | scn :: scns =>
      assigned f clazz shnum scns
        (match file_shdr f clazz scn with
         | Some s => <[Z.to_nat (scn mod shnum) := copy_shdr s]> shdr
         | None => shdr
         end)
  end.

(** A section libelf lists and has no header for. *)
Inductive shdr_fault (f : string) (clazz : Z) (scns : list Z) : ub → Prop :=
  | no_shdr scn : scn ∈ scns → file_shdr f clazz scn = None → shdr_fault f clazz scns NullDeref.

Lemma assign_shdrs_spec f clazz shnum scns shdr m :
  0 < shnum → length shdr = Z.to_nat shnum →
  wp_or (shdr_fault f clazz scns) (assign_shdrs clazz shnum f scns shdr)
    (λ r m', r = assigned f clazz shnum scns shdr ∧ m' = m) m.
Proof.
  intros Hpos. revert shdr. induction scns as [|scn scns IH]; intros shdr Hlen; [done|].
  cbn [assign_shdrs assigned].
  change (if clazz =? ELFCLASS32 then _ else _) with (file_shdr f clazz scn).
  destruct (file_shdr f clazz scn) as [s|] eqn:Hs.
  2:{ eapply wp_or_undef; [by apply bind_Undef|]. eapply no_shdr; [by left|done]. }
  apply wp_or_bind_wp, wp_deref.
  pose proof (Z.mod_pos_bound scn shnum Hpos).
  destruct (lookup_lt_is_Some_2 shdr (Z.to_nat (scn mod shnum))) as [x Hx]; [lia|].
  apply wp_or_bind_wp. unfold at_index. rewrite Hx. apply wp_ret.
  eapply wp_or_mono; [apply IH; by rewrite length_insert| |done].
  intros u [y Hy Hn]. eapply no_shdr; [by right|done].
Qed.

Lemma length_assigned f clazz shnum scns shdr :
  length (assigned f clazz shnum scns shdr) = length shdr.
Proof.
  revert shdr. induction scns as [|scn scns IH]; intros shdr; [done|]. cbn [assigned]. rewrite IH.
  destruct (file_shdr f clazz scn); [apply length_insert|done].
Qed.

(** The section headers in the array malloc placed at [a]. *)
Definition loaded_shdrs (f : string) (clazz shnum : Z) (a : loc) : list elf_shdr_t :=
  assigned f clazz shnum (lib_scns f) ((junk_shdr a ∘ Z.of_nat) <$> indices (Z.to_nat shnum)).

Definition shdr_table (f : string) (h : elf_handle_t) (m : cmem) (a : loc) : Prop :=
  m_heap m !! a = Some (CShdr (loaded_shdrs f (e_clazz h) (e_shnum h) a)).

Lemma elf_load_shdr_spec f m l h ls ns :
  held f m l h ls ns → e_shdr h = None →
  wp_or (shdr_fault f (e_clazz h) (lib_scns f)) (elf_load_shdr l)
    (λ r m', held f m' l (with_shdr r h) ls ns ∧ keeps m m' l ∧
             ∀ a, r = Some a → (m_next m ≤ a)%positive ∧ shdr_table f h m' a) m.
Proof.
  intros Hh Hnone. unfold elf_load_shdr.
  assert (held f m l (with_shdr None h) ls ns ∧ keeps m m l ∧
          ∀ a, None = Some a → (m_next m ≤ a)%positive ∧ shdr_table f h m a) as Hfail.
  { assert (with_shdr None h = h) as ->; [destruct h; simpl in *; by subst|].
    split_and!; [done|apply keeps_refl|done]. }
  apply wp_or_bind_wp. eapply wp_intro; [apply load_handle_eq, Hh|].
  rewrite Hnone. destruct (Z.leb_spec (e_shnum h) 0); [by apply wp_or_wp, wp_ret|].
  rewrite (hd_class _ _ _ _ _ _ Hh). cbn [negb].
  apply wp_or_bind_wp, wp_malloc; [by apply wp_or_wp, wp_ret|].
  apply wp_or_bind_wp. eapply wp_intro; [by eapply handle_file_eq|].
  set (junk := (junk_shdr (m_next m) ∘ Z.of_nat) <$> indices (Z.to_nat (e_shnum h))).
  assert (length junk = Z.to_nat (e_shnum h)) as Hjunk.
  { unfold junk, indices. by rewrite length_fmap, length_seq. }
  apply wp_or_bind. eapply wp_or_mono; [apply assign_shdrs_spec; [lia|done]|done|].
  intros ? ? [-> ->]. apply wp_or_wp.
  eapply wp_intro; [by eapply install_steps; apply Hh|].
  edestruct (install_held f m (CShdr (assigned f (e_clazz h) (e_shnum h) (lib_scns f) junk)) (CShdr []) l h
    (with_shdr (Some (m_next m)) h) ls ns) as (Hh' & Hk & Hc); try done; try (by left).
  - unfold owned. simpl. rewrite Hnone. simpl. solve_Permutation.
  - right. split; [done|]. eexists. split; [done|]. by rewrite length_assigned.
  - split_and!; [done..|]. intros a [= <-]. split; [lia|done].
Qed.

(** ** String tables *)

(** What a node says: the section, the size and the bytes. *)
Definition table_of (x : elf_strtab_t * list Z) : Z * Z * list Z :=
  (st_id (fst x), st_datasize (fst x), snd x).

(** The string table section [i] of the file gives rise to, if it is one. *)
Definition string_table (f : string) (shdr : list elf_shdr_t) (i : nat) : option (Z * Z * list Z) :=
  s ← shdr !! i;
  if sh_type s =? SHT_STRTAB
  then Some (Z.of_nat i, sint 32 (sh_size s), sys_pread f (wrap64 (sh_size s)) (sh_offset s))
  else None.

(** The list under construction; [m0] is the state before the loop. *)
Record building (m0 m : cmem) (p : option loc) (ls : list loc)
    (ns : list (elf_strtab_t * list Z)) : Prop := Building {
  bd_fresh : fresh_next m;
  bd_fds : m_fds m = m_fds m0;
  bd_next : (m_next m0 ≤ m_next m)%positive;
  bd_old (x : loc) : (x < m_next m0)%positive → m_heap m !! x = m_heap m0 !! x;
  bd_list : strtabs (m_heap m) p ls ns;
  bd_nodup : NoDup ls;
  bd_new x : x ∈ ls → (m_next m0 ≤ x)%positive }.

(** Cells the list does not use may come and go. *)
Lemma building_frame m0 m m' p ls ns :
  building m0 m p ls ns → fresh_next m' → m_fds m' = m_fds m → (m_next m ≤ m_next m')%positive →
  (∀ x, (x < m_next m)%positive → m_heap m' !! x = m_heap m !! x) →
  building m0 m' p ls ns.
Proof.
  intros [Hfr Hfd Hn Hold Hl Hnd Hnew] Hfr' Hfd' Hn' Hag. split; try done.
  - congruence.
  - lia.
  - intros x Hx. rewrite Hag by lia. by apply Hold.
  - eapply strtabs_frame; [done|]. intros x Hx. apply Hag.
    destruct (strtabs_live _ _ _ _ Hl x Hx) as [c Hc]. by eapply live_below.
Qed.

(** A node in front of the list. *)
Lemma building_cons m0 m m' n b p ls ns :
  building m0 m p ls ns → fresh_next m' → m_fds m' = m_fds m →
  m_next m' = Pos.succ (Pos.succ (m_next m)) →
  (∀ x, (x < m_next m)%positive → m_heap m' !! x = m_heap m !! x) →
  m_heap m' !! m_next m = Some (CStrtab n) → m_heap m' !! Pos.succ (m_next m) = Some (CBytes b) →
  st_data n = Some (Pos.succ (m_next m)) → st_next n = p →
  building m0 m' (Some (m_next m)) (m_next m :: Pos.succ (m_next m) :: ls) ((n, b) :: ns).
Proof.
  intros Hb Hfr Hfd Hn Hag Hc Hd Hdata Hnext.
  assert (building m0 m' p ls ns) as Hb' by (eapply building_frame; try done; lia).
  assert (∀ x, x ∈ ls → (x < m_next m)%positive) as Hlt.
  { intros x Hx. destruct (strtabs_live _ _ _ _ (bd_list _ _ _ _ _ Hb) x Hx) as [c Hcx].
    eapply live_below; [apply Hb|done]. }
  pose proof (bd_next _ _ _ _ _ Hb). destruct Hb' as [? ? ? ? Hl Hnd Hnew]. split; try done.
  - eapply strtabs_cons; try done. by rewrite Hnext.
  - apply NoDup_cons. split.
    + intros [?|Hx]%elem_of_cons; [lia|]. specialize (Hlt _ Hx). lia.
    + apply NoDup_cons. split; [|done]. intros Hx. specialize (Hlt _ Hx). lia.
  - intros x [->|[->|Hx]%elem_of_cons]%elem_of_cons; [lia|lia|by apply Hnew].
Qed.

Lemma wp_store l c (Q : unit → cmem → Prop) m :
  is_Some (m_heap m !! l) → Q tt (set_heap (<[l := c]> (m_heap m)) m) → wp (store l c) Q m.
Proof. intros Hl HQ. eapply wp_intro; [by apply store_eq|done]. Qed.

(** One section: nothing happens, a node is added, or the loop is left with the
    list as it was. *)
Lemma load_strtab_step_spec f h shdr m0 m p ls ns i :
  building m0 m p ls ns → m_fds m !! e_fd h = Some f → (i < length shdr)%nat →
  wp (load_strtab_step h shdr p i)
    (λ r m', match r with
             | inl p' => ∃ ls' ns', building m0 m' p' ls' ns' ∧
                 table_of <$> ns' = option_list (string_table f shdr i) ++ (table_of <$> ns)
             | inr _ => building m0 m' p ls ns
             end) m.
Proof.
  intros Hb Hfd Hi. unfold load_strtab_step, string_table.
  destruct (lookup_lt_is_Some_2 shdr i Hi) as [s Hs].
  apply wp_bind. unfold at_index. rewrite Hs. apply wp_ret. simpl.
  destruct (sh_type s =? SHT_STRTAB); cbn [negb]; [|apply wp_ret; by eauto].
  pose proof (bd_fresh _ _ _ _ _ Hb) as Hfr. set (a := m_next m).
  apply wp_bind, wp_malloc; [by apply wp_ret|]. fold a.
  set (node := λ d n, ElfStrtab (Z.of_nat i) (sint 32 (sh_size s)) d n).
  set (m1 := allocated _ m).
  assert (∀ m', fresh_next m' → m_fds m' = m_fds m → (m_next m ≤ m_next m')%positive →
    (∀ x, (x < m_next m)%positive → m_heap m' !! x = m_heap m !! x) →
    building m0 m' p ls ns) as Hleak by (intros; by eapply building_frame).
  apply wp_bind, wp_malloc.
  { apply wp_bind, wp_store; [simpl; rewrite lookup_insert_eq; by eexists|]. apply wp_ret.
    apply Hleak; simpl; [|done|lia|].
    - intros x Hx. simpl in *. rewrite !lookup_insert_ne by lia. apply Hfr. lia.
    - intros x Hx. by rewrite !lookup_insert_ne by lia. }
  change (m_next m1) with (Pos.succ a). set (d := Pos.succ a). set (m2 := allocated _ m1).
  assert (m_heap m2 = <[d := CBytes []]> (<[a := CStrtab (node None None)]> (m_heap m))) as E2 by done.
  assert (a ≠ d) as Had by lia.
  apply wp_bind, wp_store; [rewrite E2, lookup_insert_ne, lookup_insert_eq by done; by eexists|].
  apply wp_bind. unfold pread. apply wp_bind, wp_get. apply wp_ret.
  cbn [m_fds set_heap m2 allocated m1]. rewrite Hfd.
  cbn [mbind option_bind default from_option].
  set (b := sys_pread f (wrap64 (sh_size s)) (sh_offset s)). change (id b) with b.
  apply wp_bind, wp_store.
  { simpl. rewrite lookup_insert_ne, lookup_insert_eq by done. by eexists. }
  destruct (Z.of_nat (length b) =? sh_size s); cbn [negb].
  - apply wp_bind, wp_store.
    { simpl. rewrite lookup_insert_ne, lookup_insert_eq by done. by eexists. }
    apply wp_ret. do 2 eexists. split; [eapply (building_cons m0 m _ (node (Some d) p) b); simpl|done]; try done.
    + intros x Hx. simpl in Hx |- *. subst d a. rewrite !lookup_insert_ne by lia. apply Hfr. lia.
    + intros x Hx. subst d a. by rewrite !lookup_insert_ne by lia.
    + by rewrite lookup_insert_eq.
    + by rewrite lookup_insert_ne, lookup_insert_eq by done.
  - apply wp_ret. apply Hleak; simpl; [|done|lia|].
    + intros x Hx. simpl in Hx |- *. subst d a. rewrite !lookup_insert_ne by lia. apply Hfr. lia.
    + intros x Hx. subst d a. by rewrite !lookup_insert_ne by lia.
Qed.

Lemma load_strtab_loop_spec f h shdr m0 m p ls ns ixs :
  building m0 m p ls ns → m_fds m !! e_fd h = Some f → Forall (λ i, (i < length shdr)%nat) ixs →
  wp (load_strtab_loop h shdr ixs p)
    (λ r m', ∃ ls' ns', building m0 m' (fst r) ls' ns' ∧
       (snd r = true →
        table_of <$> ns' = reverse (omap (string_table f shdr) ixs) ++ (table_of <$> ns))) m.
Proof.
  intros Hb Hfd Hixs. revert m p ls ns Hb Hfd. induction Hixs as [|i ixs Hi Hixs IH]; intros m p ls ns Hb Hfd.
  - apply wp_ret. by exists ls, ns.
  - cbn [load_strtab_loop]. apply wp_bind. eapply wp_mono; [by eapply load_strtab_step_spec|].
    intros [p'|u] m1.
    + intros (ls1 & ns1 & Hb1 & E1). eapply wp_mono.
      { eapply IH; [done|]. rewrite (bd_fds _ _ _ _ _ Hb1), <-(bd_fds _ _ _ _ _ Hb). done. }
      intros r m2 (ls2 & ns2 & Hb2 & E2). exists ls2, ns2. split; [done|].
      intros Hr. rewrite (E2 Hr), E1. cbn [omap list_omap].
      destruct (string_table f shdr i); [|done].
      by rewrite reverse_cons, <-app_assoc.
    + intros Hb1. apply wp_ret. by exists ls, ns.
Qed.

Lemma building_start m : fresh_next m → building m m None [] [].
Proof. intros Hf. split; first [done|lia|constructor|set_solver]. Qed.

(** The handle with the finished list. *)
Lemma held_with_strtab f m m1 l h p ls ns :
  held f m l h [] [] → e_strtab h = None → building m m1 p ls ns →
  let m' := set_heap (<[l := CHandle (with_strtab p h)]> (m_heap m1)) m1 in
  held f m' l (with_strtab p h) ls ns ∧ keeps m m' l.
Proof.
  intros Hh Hnone Hb. pose proof (hd_owns _ _ _ _ _ _ Hh) as Ho.
  pose proof (live_below _ _ _ (hd_fresh _ _ _ _ _ _ Hh) (ow_handle _ _ _ _ _ Ho)) as Hl.
  pose proof (bd_next _ _ _ _ _ Hb) as Hnext.
  assert (∀ x, x ∈ ls → x ≠ l) as Hlsl.
  { intros x Hx ->. pose proof (bd_new _ _ _ _ _ Hb _ Hx). lia. }
  split.
  - split.
    + intros x Hx. simpl in *. rewrite lookup_insert_ne by lia. by apply (bd_fresh _ _ _ _ _ Hb).
    + eapply (owns_grow (m_heap m) _ l h _ [] ls [] ns ls); try done; try by left.
      * simpl. by rewrite lookup_insert_eq.
      * intros x Hx Hxl. simpl. rewrite lookup_insert_ne by done.
        apply (bd_old _ _ _ _ _ Hb). by eapply held_below.
      * unfold owned; simpl. solve_Permutation.
      * apply Hb.
      * intros x Hx. apply (hd_fresh _ _ _ _ _ _ Hh), (bd_new _ _ _ _ _ Hb). done.
      * simpl. eapply strtabs_frame; [apply Hb|]. intros x Hx.
        rewrite lookup_insert_ne by (symmetry; by apply Hlsl). done.
    + simpl. rewrite (bd_fds _ _ _ _ _ Hb). apply Hh.
    + destruct (hd_file _ _ _ _ _ _ Hh) as (a & Ha & Hfa). exists a. split; [done|].
      simpl. rewrite lookup_insert_ne.
      * rewrite (bd_old _ _ _ _ _ Hb); [done|]. by eapply live_below; [apply Hh|].
      * intros <-. rewrite (ow_handle _ _ _ _ _ Ho) in Hfa. discriminate.
    + apply Hh.
  - split_and!; simpl; [apply Hb|done|]. intros x Hx Hlt.
    rewrite lookup_insert_ne by done. by apply (bd_old _ _ _ _ _ Hb).
Qed.

(** Cells the handle does not own may come and go. *)
Lemma held_frame f m m' l h ls ns :
  held f m l h ls ns → fresh_next m' → m_fds m' = m_fds m → (m_next m ≤ m_next m')%positive →
  (∀ x, (x < m_next m)%positive → m_heap m' !! x = m_heap m !! x) →
  held f m' l h ls ns ∧ keeps m m' l.
Proof.
  intros Hh Hfr Hfd Hn Hag. pose proof (hd_owns _ _ _ _ _ _ Hh) as Ho.
  assert (m_heap m' !! l = Some (CHandle h)) as Hl.
  { rewrite Hag; [apply Ho|]. eapply live_below; [apply Hh|apply Ho]. }
  split; [|split_and!; [done|done|by auto]]. split; [done| | | |apply Hh].
  - eapply (owns_shrink (m_heap m)); try done; try by left.
    intros x Hx _. apply Hag. by eapply held_below.
  - rewrite Hfd. apply Hh.
  - destruct (hd_file _ _ _ _ _ _ Hh) as (a & Ha & Hfa). exists a. split; [done|].
    rewrite Hag; [done|]. by eapply live_below; [apply Hh|].
Qed.

Lemma with_strtab_None h : e_strtab h = None → with_strtab None h = h.
Proof. destruct h; simpl. by intros ->. Qed.

(** The list that was loaded, against the section headers. *)
Definition strtab_table (f : string) (h : elf_handle_t) (m : cmem)
    (ns : list (elf_strtab_t * list Z)) : Prop :=
  ∃ a shdr, e_shdr h = Some a ∧ m_heap m !! a = Some (CShdr shdr) ∧
    table_of <$> ns = reverse (omap (string_table f shdr) (indices (Z.to_nat (e_shnum h)))).

Lemma load_strtab_tail f m l h :
  held f m l h [] [] → e_strtab h = None → is_Some (e_shdr h) →
  wp (h ← load_handle l;
      a ← deref (e_shdr h);
      shdr ← load_shdrs a;
      '(strtab, ok) ← load_strtab_loop h shdr (indices (Z.to_nat (e_shnum h))) None;
      if (ok : bool) then store_handle l (with_strtab strtab h) ≫= λ _, mret strtab
      else
        m ← get; free_strtab strtab ≫= λ _, set_errno (m_errno m) ≫= λ _, mret None)
    (λ r m', ∃ ls ns, held f m' l (with_strtab r h) ls ns ∧ keeps m m' l ∧
       (∀ x, x ∈ ls → (m_next m ≤ x)%positive) ∧ (is_Some r → strtab_table f h m' ns)) m.
Proof.
  intros Hh Hnone [a Ha]. pose proof (hd_owns _ _ _ _ _ _ Hh) as Ho.
  destruct (ow_shdr _ _ _ _ _ Ho a Ha) as (shdr & Hshdr & Hlen).
  apply wp_bind. eapply wp_intro; [apply load_handle_eq, Ho|].
  rewrite Ha. apply wp_bind, wp_deref, wp_bind. eapply wp_intro; [by apply load_shdrs_eq|].
  apply wp_bind. eapply wp_mono.
  { eapply (load_strtab_loop_spec f h shdr m m None [] []).
    - apply building_start, Hh.
    - apply Hh.
    - apply Forall_forall. intros i Hi. apply list_elem_of_In, in_seq in Hi. lia. }
  intros [p ok] m1 (ls & ns & Hb & Hok). simpl in Hb, Hok. destruct ok.
  - apply wp_bind, wp_store.
    { rewrite (bd_old _ _ _ _ _ Hb); [eexists; apply Ho|]. eapply live_below; [apply Hh|apply Ho]. }
    apply wp_ret. exists ls, ns.
    destruct (held_with_strtab f m m1 l h p ls ns Hh Hnone Hb) as [Hh' Hk].
    split_and!; [done..|apply Hb|]. intros _. exists a, shdr. split_and!; [done| |].
    + destruct Hk as (_ & _ & Hk). rewrite Hk; [done| |].
      * intros ->. rewrite (ow_handle _ _ _ _ _ Ho) in Hshdr. discriminate.
      * by eapply live_below; [apply Hh|].
    + rewrite (Hok eq_refl). by rewrite app_nil_r.
  - apply wp_bind, wp_get, wp_bind. eapply wp_intro.
    { eapply free_strtab_spec; apply Hb. }
    apply wp_bind, wp_modify, wp_ret. exists [], []. rewrite with_strtab_None by done.
    assert (∀ x, (x < m_next m)%positive → frees (m_heap m1) ls !! x = m_heap m !! x) as Hag.
    { intros x Hx. rewrite frees_other; [by apply (bd_old _ _ _ _ _ Hb)|].
      intros Hin. pose proof (bd_new _ _ _ _ _ Hb _ Hin). lia. }
    edestruct (held_frame f m) as [Hh' Hk]; [exact Hh|..|by split_and!; [apply Hh'|apply Hk|set_solver|intros []]]; simpl.
    + intros x Hx. simpl in *. rewrite lookup_frees. destruct (decide _); [done|].
      by apply (bd_fresh _ _ _ _ _ Hb).
    + apply Hb.
    + apply Hb.
    + done.
Qed.

(** ** Symbol tables *)

(** The first node of the list with the given section number. *)
Fixpoint first_table (link : Z) (ls : list loc) (ns : list (elf_strtab_t * list Z)) : option loc :=
  match ls, ns with
  | l :: _ :: ls, (n, _) :: ns => if link =? st_id n then Some l else first_table link ls ns
  | _, _ => None
  end.

Lemma find_strtab_spec fuel link p ls ns m :
  strtabs (m_heap m) p ls ns → (length ns ≤ fuel)%nat →
  find_strtab fuel link p m = Ret (first_table link ls ns, m).
Proof.
  intros Hp. revert fuel. induction Hp as [|l n d b ls ns Hl Hd Hb Hp IH]; intros [|fuel] Hlen;
    simpl in Hlen; try done; try lia.
  cbn [find_strtab first_table]. erewrite bind_Ret by (by apply load_node_eq).
  destruct (link =? st_id n); [done|]. apply IH. lia.
Qed.

(** Only new cells changed. *)
Record extends (m m' : cmem) : Prop := Extends {
  ex_fresh : fresh_next m';
  ex_fds : m_fds m' = m_fds m;
  ex_next : (m_next m ≤ m_next m')%positive;
  ex_old (x : loc) : (x < m_next m)%positive → m_heap m' !! x = m_heap m !! x }.

Lemma held_extends f m m' l h ls ns :
  held f m l h ls ns → extends m m' → held f m' l h ls ns ∧ keeps m m' l.
Proof. intros Hh []. by apply held_frame. Qed.

Lemma extends_insert m m1 x c :
  extends m m1 → (m_next m ≤ x)%positive → (x < m_next m1)%positive →
  extends m (set_heap (<[x := c]> (m_heap m1)) m1).
Proof.
  intros [Hfr Hfd Hn Hold] Hx Hlt. split; simpl; try done.
  - intros z Hz. simpl in *. rewrite lookup_insert_ne by lia. by apply Hfr.
  - intros z Hz. rewrite lookup_insert_ne by lia. by apply Hold.
Qed.
Lemma extends_allocated m m1 c : extends m m1 → extends m (allocated c m1).
Proof.
  intros [Hfr Hfd Hn Hold]. split; simpl; [by apply fresh_allocated|done|lia|].
  intros z Hz. rewrite lookup_insert_ne by lia. by apply Hold.
Qed.

(** The number of symbols, an [int]. *)
Definition symbol_count (clazz : Z) (s : elf_shdr_t) : Z :=
  sint 32 (wrap64 (sh_size s) / sizeof_sym clazz).

(** The symbols and the raw table behind them have no place in what malloc
    gave: the number overflowed, or the size of both did. *)
Definition symbols_overrun (clazz : Z) (s : elf_shdr_t) : bool :=
  (symbol_count clazz s <? 0) || (2 ^ 64 <=? 40 * symbol_count clazz s + wrap64 (sh_size s)).

(** The symbols decoded from the section [s]. *)
Definition symbols_of (f : string) (clazz : Z) (s : elf_shdr_t) : list elf_symbol_t :=
  let raw := sys_pread f (wrap64 (sh_size s)) (sh_offset s) in
  (assign_sym clazz raw ∘ Z.of_nat) <$> indices (Z.to_nat (symbol_count clazz s)).

Definition symbol_table (f : string) (clazz : Z) (s : elf_shdr_t) (m : cmem) (p : loc) : Prop :=
  ∃ t y, m_heap m !! p = Some (CSymtab (ElfSymtab (symbol_count clazz s) (Some t) (Some y))) ∧
         m_heap m !! y = Some (CSyms (symbols_of f clazz s)).

Lemma load_symtab_quit_spec m m1 p :
  fresh_next m → (m_next m ≤ p)%positive → is_Some (m_heap m1 !! p) →
  extends m m1 → wp (load_symtab_quit p) (λ r m', r = None ∧ extends m m') m1.
Proof.
  intros Hf Hp Hlive Hex. unfold load_symtab_quit.
  apply wp_bind, wp_get, wp_bind. eapply wp_intro; [by apply free_eq|].
  apply wp_bind, wp_modify, wp_ret. split; [done|]. destruct Hex as [Hfr Hfd Hn Hold].
  split; simpl; try done.
  - intros x Hx. simpl in *. destruct (decide (x = p)) as [->|]; [by rewrite lookup_delete_eq|].
    rewrite lookup_delete_ne by done. by apply Hfr.
  - intros x Hx. rewrite lookup_delete_ne by lia. by apply Hold.
Qed.

Lemma elf_load_shdr_loaded m l h a :
  m_heap m !! l = Some (CHandle h) → e_shdr h = Some a → elf_load_shdr l m = Ret (Some a, m).
Proof.
  intros Hl Ha. unfold elf_load_shdr. erewrite bind_Ret by (by apply load_handle_eq). by rewrite Ha.
Qed.
Lemma elf_load_strtab_loaded m l h t :
  m_heap m !! l = Some (CHandle h) → e_strtab h = Some t → elf_load_strtab l m = Ret (Some t, m).
Proof.
  intros Hl Ht. unfold elf_load_strtab. erewrite bind_Ret by (by apply load_handle_eq). by rewrite Ht.
Qed.

Lemma length_nodes_size f m l h ls ns : held f m l h ls ns → (length ns ≤ size (m_heap m))%nat.
Proof.
  intros Hh. pose proof (hd_owns _ _ _ _ _ _ Hh) as Ho.
  pose proof (ow_strtab _ _ _ _ _ Ho) as Hs.
  assert (NoDup ls) as Hnd.
  { eapply sublist_NoDup; [apply (ow_nodup _ _ _ _ _ Ho)|]. unfold owned.
    apply sublist_cons. do 2 apply sublist_inserts_l. by apply sublist_inserts_r. }
  pose proof (live_length _ _ Hnd (strtabs_live _ _ _ _ Hs)).
  rewrite (strtabs_length _ _ _ _ Hs) in *. lia.
Qed.

Lemma elf_load_symtab_internal_spec f m l h ls ns s :
  held f m l h ls ns → is_Some (e_shdr h) → is_Some (e_strtab h) →
  wp_or (λ u, u = OutOfBounds ∧ symbols_overrun (e_clazz h) s = true) (elf_load_symtab_internal l s)
    (λ r m', extends m m' ∧ ∀ p, r = Some p → (m_next m ≤ p)%positive ∧ symbol_table f (e_clazz h) s m' p) m.
Proof.
  intros Hh [a Ha] [t Ht]. pose proof (hd_owns _ _ _ _ _ _ Hh) as Ho.
  pose proof (ow_handle _ _ _ _ _ Ho) as Hl. pose proof (hd_fresh _ _ _ _ _ _ Hh) as Hfr.
  pose proof (live_below _ _ _ Hfr Hl) as Hlt.
  unfold elf_load_symtab_internal.
  apply wp_or_bind_wp. eapply wp_intro; [by eapply elf_load_shdr_loaded|].
  apply wp_or_bind_wp. eapply wp_intro; [by eapply elf_load_strtab_loaded|].
  apply wp_or_bind_wp, wp_get, wp_or_bind_wp, wp_malloc.
  { apply wp_or_wp, wp_ret. split; [by split; [..|lia|]|done]. }
  set (p := m_next m). set (m1 := allocated _ m).
  assert (extends m m1) as Hex1.
  { split; [by apply fresh_allocated|done|simpl; lia|].
    intros x Hx. simpl. by rewrite lookup_insert_ne by lia. }
  apply wp_or_bind_wp. eapply wp_intro.
  { apply load_handle_eq. rewrite (ex_old _ _ Hex1) by done. done. }
  rewrite (hd_class _ _ _ _ _ _ Hh). cbn [negb].
  apply wp_or_bind_wp. eapply wp_intro.
  { eapply find_strtab_spec; [|by eapply length_nodes_size].
    eapply (strtabs_frame (m_heap m)); [apply Ho|]. intros x Hx. apply (ex_old _ _ Hex1).
    eapply held_below; [done|]. unfold owned. set_solver. }
  assert (∀ m', extends m m' → is_Some (m_heap m' !! p) →
    wp (load_symtab_quit p)
      (λ r m', extends m m' ∧ ∀ q, r = Some q → (m_next m ≤ q)%positive ∧ symbol_table f (e_clazz h) s m' q) m')
    as Hquit.
  { intros m' Hex Hlive. eapply wp_mono; [by apply (load_symtab_quit_spec m); [|unfold p; lia|..]|].
    by intros r m'' [-> ?]. }
  destruct (match first_table _ _ _ with Some t => _ | None => _ end) as [t'|].
  2:{ apply wp_or_wp, Hquit; [done|]. simpl. rewrite lookup_insert_eq. by eexists. }
  change (sint 32 (_ / _)) with (symbol_count (e_clazz h) s). cbv zeta.
  apply wp_or_bind_wp, wp_malloc.
  { apply wp_or_wp, wp_bind, wp_store; [simpl; rewrite lookup_insert_eq; by eexists|].
    apply Hquit; [|simpl; rewrite lookup_insert_eq; by eexists].
    apply (extends_insert m m1); [done|simpl; unfold p; lia|simpl; lia]. }
  set (m2 := allocated _ m1). change (m_next m1) with (Pos.succ p). set (y := Pos.succ p).
  assert (p ≠ y) as Hpy by lia.
  assert (extends m m2) as Hex2 by (by apply extends_allocated).
  apply wp_or_bind_wp, wp_store.
  { simpl. rewrite lookup_insert_ne, lookup_insert_eq by lia. by eexists. }
  set (m3 := set_heap _ m2).
  assert (extends m m3) as Hex3.
  { apply (extends_insert m m2); [done|unfold p; lia|simpl; unfold p; lia]. }
  assert (m_heap m3 !! y = Some (CSyms [])) as Hy.
  { simpl. by rewrite lookup_insert_ne, lookup_insert_eq by done. }
  assert (m_heap m3 !! p = Some (CSymtab (ElfSymtab (symbol_count (e_clazz h) s) (Some t') (Some y)))) as Hp.
  { simpl. by rewrite lookup_insert_eq. }
  clearbody m3.
  change ((symbol_count _ _ <? 0) || _) with (symbols_overrun (e_clazz h) s).
  destruct (symbols_overrun (e_clazz h) s); [by eapply wp_or_undef; [apply bind_Undef|]|].
  apply wp_or_wp, wp_bind, wp_ret, wp_bind. unfold pread. apply wp_bind, wp_get, wp_ret.
  rewrite (ex_fds _ _ Hex3), (hd_fd _ _ _ _ _ _ Hh). cbn [mbind option_bind default from_option].
  destruct (negb _).
  { apply Hquit; [done|]. rewrite Hp. by eexists. }
  apply wp_bind, wp_store; [by exists (CSyms [])|]. apply wp_ret. split.
  - apply (extends_insert m m3); [done|unfold y, p; lia|].
    destruct (decide (y < m_next m3)%positive) as [|Hge]; [done|].
    rewrite (ex_fresh _ _ Hex3) in Hy by lia. done.
  - intros q [= <-]. split; [unfold p; lia|]. exists t', y. simpl. split.
    + by rewrite lookup_insert_ne.
    + by rewrite lookup_insert_eq.
Qed.

(** The first of the sections [ixs] with the type [ty]. *)
Definition first_section (ty : Z) (shdr : list elf_shdr_t) (ixs : list nat) : option elf_shdr_t :=
  head (omap (λ i, s ← shdr !! i; if sh_type s =? ty then Some s else None) ixs).

Lemma find_section_spec ty shdr ixs m :
  Forall (λ i, (i < length shdr)%nat) ixs →
  find_section ty shdr ixs m = Ret (first_section ty shdr ixs, m).
Proof.
  induction 1 as [|i ixs Hi Hixs IH]; [done|]. unfold first_section in *. cbn [find_section omap list_omap].
  destruct (lookup_lt_is_Some_2 shdr i Hi) as [s Hs]. unfold at_index. rewrite Hs, ret_bind.
  cbn [mbind option_bind]. by destruct (sh_type s =? ty).
Qed.

(** A field of the handle set to a new cell, or left null. *)
Lemma held_with_table f m m1 l h ls ns (p : option loc) h' :
  held f m l h ls ns → extends m m1 →
  (∀ q, p = Some q → (m_next m ≤ q)%positive ∧ ∃ t, m_heap m1 !! q = Some (CSymtab t)) →
  owned l h' ls ≡ₚ option_list p ++ owned l h ls →
  (e_sym h' = e_sym h ∨ e_sym h' = p) → (e_dsym h' = e_dsym h ∨ e_dsym h' = p) →
  (p = None → h' = h) →
  with_sym None (with_dsym None h') = with_sym None (with_dsym None h) →
  let m' := set_heap (<[l := CHandle h']> (m_heap m1)) m1 in
  held f m' l h' ls ns ∧ keeps m m' l.
Proof.
  intros Hh Hex Hp Hperm Hsy Hds Hnone Hrest.
  pose proof (hd_owns _ _ _ _ _ _ Hh) as Ho.
  pose proof (live_below _ _ _ (hd_fresh _ _ _ _ _ _ Hh) (ow_handle _ _ _ _ _ Ho)) as Hl.
  destruct (held_extends _ _ _ _ _ _ _ Hh Hex) as [Hh1 Hk1].
  assert (e_elf h' = e_elf h ∧ e_shnum h' = e_shnum h ∧ e_phdr h' = e_phdr h ∧ e_shdr h' = e_shdr h ∧
    e_strtab h' = e_strtab h ∧ e_fd h' = e_fd h ∧ e_clazz h' = e_clazz h) as
    (Helf & Hnum & Hph & Hsh & Hst & Hfd & Hcl).
  { destruct h, h'; simpl in Hrest. injection Hrest. intros. by subst. }
  set (m' := set_heap _ m1). intros m''. subst m''.
  assert (∀ x, x ≠ l → m_heap m' !! x = m_heap m1 !! x) as Hm'.
  { intros x Hx. simpl. by rewrite lookup_insert_ne. }
  assert (∀ q, p = Some q → q ≠ l) as Hql.
  { intros q Hq. destruct (Hp q Hq). intros ->. lia. }
  assert (∀ o o', o' = o ∨ o' = p → (p = None → o' = o) →
    grown (m_heap m') (λ c, ∃ t, c = CSymtab t) o o') as Hgrown.
  { intros o o' [->| ->] Hn; [by left|]. destruct p as [q|] eqn:Eq; [|by left; auto]. right.
    destruct (Hp q eq_refl) as [_ [t Ht]]. exists q, (CSymtab t). rewrite Hm' by auto. eauto. }
  split.
  - split.
    + intros x Hx. rewrite Hm'; [by apply (ex_fresh _ _ Hex)|]. simpl in Hx. pose proof (ex_next _ _ Hex). lia.
    + eapply (owns_grow (m_heap m) _ l h h' ls ls ns ns (option_list p)); try done; try by left.
      * simpl. by rewrite lookup_insert_eq.
      * intros x Hx Hxl. rewrite Hm' by done. apply (ex_old _ _ Hex). by eapply held_below.
      * destruct p; [apply NoDup_singleton|apply NoDup_nil_2].
      * intros x Hx%elem_of_option_list. destruct (Hp _ Hx). by apply (hd_fresh _ _ _ _ _ _ Hh).
      * apply Hgrown; [done|]. intros E. by rewrite Hnone.
      * apply Hgrown; [done|]. intros E. by rewrite Hnone.
      * rewrite Hst. eapply strtabs_frame; [apply Hh1|]. intros x Hx. apply Hm'. intros ->.
        pose proof (ow_nodup _ _ _ _ _ Ho) as [Hn _]%NoDup_cons. apply Hn. set_solver.
    + rewrite Hfd. apply Hh1.
    + destruct (hd_file _ _ _ _ _ _ Hh1) as (a & Ha & Hfa). exists a. split; [congruence|].
      rewrite Hm'; [done|]. intros ->. rewrite (ow_handle _ _ _ _ _ (hd_owns _ _ _ _ _ _ Hh1)) in Hfa. discriminate.
    + unfold valid_class. rewrite Hcl. apply Hh.
  - destruct Hk1 as (Hf & Hn & Hk). split_and!; [done|done|]. intros x Hx Hlt. rewrite Hm' by done. by apply Hk.
Qed.

(** What the optional tables may be after [elf_load_all]: absent, or the symbols
    of the first section of the type. *)
Definition optional_table (f : string) (h : elf_handle_t) (ty : Z) (m : cmem) (p : option loc) : Prop :=
  ∀ q, p = Some q → ∃ a shdr s, e_shdr h = Some a ∧ m_heap m !! a = Some (CShdr shdr) ∧
    first_section ty shdr (indices (Z.to_nat (e_shnum h))) = Some s ∧ symbol_table f (e_clazz h) s m q.

(** The section of the type has more symbols than can be held. *)
Definition symbols_fault (m : cmem) (h : elf_handle_t) (ty : Z) (u : ub) : Prop :=
  u = OutOfBounds ∧ ∃ a shdr s, e_shdr h = Some a ∧ m_heap m !! a = Some (CShdr shdr) ∧
    first_section ty shdr (indices (Z.to_nat (e_shnum h))) = Some s ∧
    symbols_overrun (e_clazz h) s = true.

(** The common part of the two loaders of symbols. *)
Lemma load_symbols_spec f m l h ls ns ty set_field :
  held f m l h ls ns → is_Some (e_shdr h) → is_Some (e_strtab h) →
  (∀ p m1, extends m m1 →
     (∀ q, p = Some q → (m_next m ≤ q)%positive ∧ ∃ t, m_heap m1 !! q = Some (CSymtab t)) →
     let m' := set_heap (<[l := CHandle (set_field p h)]> (m_heap m1)) m1 in
     held f m' l (set_field p h) ls ns ∧ keeps m m' l) →
  set_field None h = h →
  wp_or (symbols_fault m h ty) (s ← elf_load_shdr l;
      match s with
      | None => mret None
      | Some a =>
          shdr ← load_shdrs a;
          found ← find_section ty shdr (indices (Z.to_nat (e_shnum h)));
          match found with
          | None => mret None
          | Some s =>
              sym ← elf_load_symtab_internal l s;
              h ← load_handle l;
              store_handle l (set_field sym h) ≫= λ _, mret sym
          end
      end)
    (λ r m', held f m' l (set_field r h) ls ns ∧ keeps m m' l ∧ (∀ q, r = Some q → (m_next m ≤ q)%positive) ∧ optional_table f h ty m' r) m.
Proof.
  intros Hh [a Ha] Hst Hset Hnone.
  pose proof (hd_owns _ _ _ _ _ _ Hh) as Ho. pose proof (ow_handle _ _ _ _ _ Ho) as Hl.
  destruct (ow_shdr _ _ _ _ _ Ho a Ha) as (shdr & Hshdr & Hlen).
  apply wp_or_bind_wp. eapply wp_intro; [by eapply elf_load_shdr_loaded|].
  apply wp_or_bind_wp. eapply wp_intro; [by apply load_shdrs_eq|].
  apply wp_or_bind_wp. eapply wp_intro.
  { apply find_section_spec, Forall_forall. intros i Hi. apply list_elem_of_In, in_seq in Hi. lia. }
  destruct (first_section _ _ _) as [s|] eqn:Hs.
  2:{ apply wp_or_wp, wp_ret. rewrite Hnone. split_and!; [done|apply keeps_refl|done|intros ?; done]. }
  apply wp_or_bind. eapply wp_or_mono.
  { apply (elf_load_symtab_internal_spec f m l h ls ns s); [done|by eexists|done]. }
  { intros u [-> Hu]. split; [done|]. by exists a, shdr, s. }
  intros p m1 (Hex & Hp).
  assert (∀ q, p = Some q → (m_next m ≤ q)%positive ∧ ∃ t, m_heap m1 !! q = Some (CSymtab t)) as Hp'.
  { intros q Hq. destruct (Hp q Hq) as (Hle & t & y & Ht & _). eauto. }
  destruct (Hset p m1 Hex Hp') as [Hh' Hk].
  pose proof (live_below _ _ _ (hd_fresh _ _ _ _ _ _ Hh) Hl) as Hlt.
  assert (m_heap m1 !! l = Some (CHandle h)) as Hl1 by (by rewrite (ex_old _ _ Hex)).
  apply wp_or_wp, wp_bind. eapply wp_intro; [by apply load_handle_eq|].
  apply wp_bind, wp_store; [by eexists|]. apply wp_ret. split_and!; [done|done|naive_solver|].
  intros q Hq. exists a, shdr, s. split_and!; [done| |done|].
  - destruct Hk as (_ & _ & Hk). rewrite Hk; [done| |].
    + intros ->. rewrite Hl in Hshdr. discriminate.
    + by eapply live_below; [apply Hh|].
  - destruct (Hp q Hq) as (Hle & t & y & Ht & Hy). exists t, y.
    simpl. rewrite !lookup_insert_ne; [done| |]; intros ->; congruence || lia.
Qed.

Lemma elf_load_symtab_spec f m l h ls ns :
  held f m l h ls ns → is_Some (e_shdr h) → is_Some (e_strtab h) → e_sym h = None →
  wp_or (symbols_fault m h SHT_SYMTAB) (elf_load_symtab l)
    (λ r m', held f m' l (with_sym r h) ls ns ∧ keeps m m' l ∧ (∀ q, r = Some q → (m_next m ≤ q)%positive) ∧ optional_table f h SHT_SYMTAB m' r) m.
Proof.
  intros Hh Hsh Hst Hnone. unfold elf_load_symtab.
  apply wp_or_bind_wp. eapply wp_intro; [apply load_handle_eq, Hh|]. rewrite Hnone.
  assert (with_sym None h = h) as Hid by (destruct h; simpl in *; by subst).
  apply (load_symbols_spec f m l h ls ns SHT_SYMTAB with_sym); try done.
  intros p m1 Hex Hp. eapply held_with_table; try done.
  - unfold owned. simpl. rewrite Hnone. solve_Permutation.
  - by right.
  - by left.
  - intros ->. done.
Qed.

Lemma elf_load_dsymtab_spec f m l h ls ns :
  held f m l h ls ns → is_Some (e_shdr h) → is_Some (e_strtab h) → e_dsym h = None →
  wp_or (symbols_fault m h SHT_DYNSYM) (elf_load_dsymtab l)
    (λ r m', held f m' l (with_dsym r h) ls ns ∧ keeps m m' l ∧ (∀ q, r = Some q → (m_next m ≤ q)%positive) ∧ optional_table f h SHT_DYNSYM m' r) m.
Proof.
  intros Hh Hsh Hst Hnone. unfold elf_load_dsymtab.
  apply wp_or_bind_wp. eapply wp_intro; [apply load_handle_eq, Hh|]. rewrite Hnone.
  assert (with_dsym None h = h) as Hid by (destruct h; simpl in *; by subst).
  apply (load_symbols_spec f m l h ls ns SHT_DYNSYM with_dsym); try done.
  intros p m1 Hex Hp. eapply held_with_table; try done.
  - unfold owned. simpl. rewrite Hnone. solve_Permutation.
  - by left.
  - by right.
  - intros ->. done.
Qed.

Lemma elf_load_strtab_ready f m l h :
  held f m l h [] [] → e_strtab h = None → is_Some (e_shdr h) →
  wp (elf_load_strtab l)
    (λ r m', ∃ ls ns, held f m' l (with_strtab r h) ls ns ∧ keeps m m' l ∧
       (∀ x, x ∈ ls → (m_next m ≤ x)%positive) ∧ (is_Some r → strtab_table f h m' ns)) m.
Proof.
  intros Hh Hnone Hsh. unfold elf_load_strtab.
  apply wp_bind. eapply wp_intro; [apply load_handle_eq, Hh|]. rewrite Hnone.
  destruct Hsh as [a Ha].
  apply wp_bind. eapply wp_intro; [eapply elf_load_shdr_loaded; [apply Hh|done]|].
  apply load_strtab_tail; [done|done|by eexists].
Qed.

(** ** elf_load_all *)

(** Every table was filled from the file. *)
Record tables_loaded (f : string) (h : elf_handle_t) (m : cmem)
    (ns : list (elf_strtab_t * list Z)) : Prop := TablesLoaded {
  tl_phdr : ∃ a, e_phdr h = Some a ∧ phdr_table f h m a;
  tl_shdr : ∃ a, e_shdr h = Some a ∧ shdr_table f h m a;
  tl_strtab : is_Some (e_strtab h) ∧ strtab_table f h m ns;
  tl_sym : optional_table f h SHT_SYMTAB m (e_sym h);
  tl_dsym : optional_table f h SHT_DYNSYM m (e_dsym h) }.

(** How [elf_load_all] ends: with 0 and the tables, or with -1 and no table. *)
Definition load_all_post (f : string) (m : cmem) (l : loc) (h : elf_handle_t) (r : Z) (m' : cmem) : Prop :=
  ∃ h' ls ns, held f m' l h' ls ns ∧ keeps m m' l ∧ without_tables h' = h ∧
    (∀ x, x ∈ table_cells h' ls → (m_next m ≤ x)%positive) ∧
    (r = 0 ∧ tables_loaded f h' m' ns ∨ r = -1 ∧ h' = h).

Lemma free_tables_undoes f m0 m l h ls ns :
  held f m l h ls ns → keeps m0 m l → (∀ x, x ∈ table_cells h ls → (m_next m0 ≤ x)%positive) →
  wp (free_tables l ≫= λ _, mret (-1)) (load_all_post f m0 l (without_tables h)) m.
Proof.
  intros Hh (Hf0 & Hn0 & Hk0) Hnew. apply wp_bind. eapply wp_mono; [eapply free_tables_spec, Hh|].
  intros [] m' ([Hfd Hn] & Ho & Hrel). apply wp_ret. exists (without_tables h), [], [].
  pose proof (hd_owns _ _ _ _ _ _ Hh) as Ho0.
  assert (∀ x, x ∉ table_cells h ls → x ≠ l → m_heap m' !! x = m_heap m !! x) as Hag.
  { intros x Hx Hxl. rewrite (Hrel x Hxl). by rewrite decide_False. }
  split_and!; [|split_and!; [congruence|lia|]|done|set_solver|by right].
  - split; [|done| | |apply Hh].
    + intros x Hx. assert (x ≠ l) as Hxl.
      { intros ->. pose proof (live_below _ _ _ (hd_fresh _ _ _ _ _ _ Hh) (ow_handle _ _ _ _ _ Ho0)). lia. }
      rewrite (Hrel x Hxl). destruct (decide _); [done|]. apply (hd_fresh _ _ _ _ _ _ Hh). lia.
    + rewrite Hfd. apply Hh.
    + destruct (hd_file _ _ _ _ _ _ Hh) as (a & Ha & Hfa). exists a. split; [done|].
      rewrite Hag; [done| |].
      * pose proof (ow_nodup _ _ _ _ _ Ho0) as Hnd. unfold owned in Hnd. rewrite Ha in Hnd.
        simpl in Hnd. apply NoDup_cons in Hnd as [_ Hnd]. rewrite !app_assoc in Hnd.
        apply NoDup_app in Hnd as (_ & Hd & _). unfold table_cells. rewrite !app_assoc.
        intros Hin. apply (Hd a Hin). by left.
      * intros ->. rewrite (ow_handle _ _ _ _ _ Ho0) in Hfa. discriminate.
  - intros x Hx Hlt. rewrite Hag; [by apply Hk0| |done]. intros Hin. specialize (Hnew x Hin). lia.
Qed.

(** Cells that were there keep what they hold. *)
Lemma keeps_cell m m' l x c :
  fresh_next m → keeps m m' l → x ≠ l → m_heap m !! x = Some c → m_heap m' !! x = Some c.
Proof. intros Hf (_ & _ & Hk) Hx Hc. rewrite Hk; [done|done|by eapply live_below]. Qed.

Lemma held_ne f m l h ls ns x c :
  held f m l h ls ns → m_heap m !! x = Some c → (∀ h0, c ≠ CHandle h0) → x ≠ l.
Proof.
  intros Hh Hc Hne ->. pose proof (hd_owns _ _ _ _ _ _ Hh) as Ho.
  rewrite (ow_handle _ _ _ _ _ Ho) in Hc. injection Hc as <-. by apply (Hne h).
Qed.

Section transport.
Context (f : string) (m m' : cmem) (l : loc) (h : elf_handle_t) (ls : list loc)
  (ns : list (elf_strtab_t * list Z)) (Hh : held f m l h ls ns) (Hk : keeps m m' l).

Lemma cell_stays x c : m_heap m !! x = Some c → (∀ h0, c ≠ CHandle h0) → m_heap m' !! x = Some c.
Proof. intros Hc Hne. eapply keeps_cell; [apply Hh|done|by eapply held_ne|done]. Qed.

Lemma phdr_table_stays h0 a : phdr_table f h0 m a → phdr_table f h0 m' a.
Proof. intros (p & Hp & Ha). exists p. split; [done|]. by apply cell_stays. Qed.
Lemma shdr_table_stays h0 a : shdr_table f h0 m a → shdr_table f h0 m' a.
Proof. intros Ha. by apply cell_stays. Qed.
Lemma strtab_table_stays h0 ns0 : strtab_table f h0 m ns0 → strtab_table f h0 m' ns0.
Proof. intros (a & shdr & Ha & Hs & E). exists a, shdr. split_and!; [done|by apply cell_stays|done]. Qed.
Lemma optional_table_stays h0 ty p : optional_table f h0 ty m p → optional_table f h0 ty m' p.
Proof.
  intros Hp q Hq. destruct (Hp q Hq) as (a & shdr & s & Ha & Hs & Hfirst & t & y & Ht & Hy).
  exists a, shdr, s. split_and!; [done|by apply cell_stays|done|].
  exists t, y. split; by apply cell_stays.
Qed.
End transport.

(** Why loading a file may have no defined behaviour: libelf has no program
    headers, fewer of them than announced, or no header for a section it lists;
    or the first section taken for a table of symbols (an entry of the array no
    section fills is one if malloc left the type there) is too large. *)
Inductive load_fault (f : string) (clazz phnum shnum : Z) (u : ub) : Prop :=
  | fault_phdr : phdr_fault f clazz phnum u → load_fault f clazz phnum shnum u
  | fault_shdr : shdr_fault f clazz (lib_scns f) u → load_fault f clazz phnum shnum u
  | fault_symbols ty a s :
      ty = SHT_SYMTAB ∨ ty = SHT_DYNSYM →
      first_section ty (loaded_shdrs f clazz shnum a) (indices (Z.to_nat shnum)) = Some s →
      symbols_overrun clazz s = true → u = OutOfBounds → load_fault f clazz phnum shnum u.

(** The two optional tables, once the sections and the string tables are there. *)
Lemma load_optional_spec f m l h ls ns sh :
  held f m l h ls ns → e_shdr h = Some sh → is_Some (e_strtab h) → e_sym h = None → e_dsym h = None →
  shdr_table f h m sh →
  wp_or (load_fault f (e_clazz h) (e_phnum h) (e_shnum h))
    (elf_load_symtab l ≫= λ _, elf_load_dsymtab l ≫= λ _, mret 0)
    (λ r m', r = 0 ∧ ∃ sy ds, let h' := with_dsym ds (with_sym sy h) in
       held f m' l h' ls ns ∧ keeps m m' l ∧ (∀ q, sy = Some q ∨ ds = Some q → (m_next m ≤ q)%positive) ∧
       optional_table f h' SHT_SYMTAB m' sy ∧ optional_table f h' SHT_DYNSYM m' ds) m.
Proof.
  intros Hh Hsh Hst Hsy Hds Ht.
  assert (∀ m' h' ty u, ty = SHT_SYMTAB ∨ ty = SHT_DYNSYM → e_shdr h' = Some sh → e_clazz h' = e_clazz h →
    e_shnum h' = e_shnum h → shdr_table f h m' sh → symbols_fault m' h' ty u →
    load_fault f (e_clazz h) (e_phnum h) (e_shnum h) u) as Hfault.
  { intros m' h' ty u Hty E1 E2 E3 Ht' [-> (a & shdr & s & Ea & Es & Efirst & Eo)].
    rewrite E1 in Ea. injection Ea as <-. unfold shdr_table in Ht'. rewrite Ht' in Es. injection Es as <-.
    rewrite E2, ?E3 in *. by eapply fault_symbols. }
  apply wp_or_bind. eapply wp_or_mono.
  { apply (elf_load_symtab_spec f m l h ls ns); try done; by eexists. }
  { intros u. apply Hfault; try done; by left. }
  intros sy m1 (Hh1 & Hk1 & Hsyn & Htab). set (h1 := with_sym sy h) in *.
  apply wp_or_bind. eapply wp_or_mono.
  { apply (elf_load_dsymtab_spec f m1 l h1 ls ns); try done; by eexists. }
  { intros u. apply Hfault; try done; [by right|]. by apply (shdr_table_stays f m m1 l h ls ns Hh Hk1). }
  intros ds m2 (Hh2 & Hk2 & Hdsn & Htab2). apply wp_or_wp, wp_ret. split; [done|]. exists sy, ds.
  split_and!; [done|by eapply keeps_trans| |by apply (optional_table_stays f m1 m2 l h1 ls ns Hh1 Hk2)|done].
  destruct Hk1 as (_ & Hn & _). intros q [Hq|Hq]; [by apply Hsyn|specialize (Hdsn q Hq); lia].
Qed.

Lemma elf_load_all_spec f m l h :
  held f m l h [] [] → without_tables h = h →
  wp_or (load_fault f (e_clazz h) (e_phnum h) (e_shnum h)) (elf_load_all l) (load_all_post f m l h) m.
Proof.
  intros Hh Hempty. unfold elf_load_all.
  assert (e_phdr h = None ∧ e_shdr h = None ∧ e_strtab h = None ∧ e_sym h = None ∧ e_dsym h = None)
    as (Eph & Esh & Est & Esy & Eds) by (rewrite <-Hempty; done).
  apply wp_or_bind. eapply wp_or_mono; [by apply elf_load_phdr_spec|apply fault_phdr|].
  intros [ph|] m1 (Hh1 & Hk1 & Hph).
  2:{ apply wp_or_wp, wp_bind, wp_ret, wp_bind, wp_ret.
      rewrite <-Hempty. change (without_tables h) with (without_tables (with_phdr None h)).
      eapply free_tables_undoes; [done|done|]. unfold table_cells; simpl. rewrite Esh, Esy, Eds. set_solver. }
  destruct (Hph ph eq_refl) as [Hphn Hpht].
  apply wp_or_bind. eapply wp_or_mono; [by apply elf_load_shdr_spec|apply fault_shdr|].
  intros [sh|] m2 (Hh2 & Hk2 & Hsh).
  2:{ apply wp_or_wp, wp_bind, wp_ret.
      rewrite <-Hempty. change (without_tables h) with (without_tables (with_shdr None (with_phdr (Some ph) h))).
      eapply free_tables_undoes; [done|by eapply keeps_trans|].
      unfold table_cells; simpl. rewrite Esy, Eds. simpl. intros x ->%list_elem_of_singleton. done. }
  destruct (Hsh sh eq_refl) as [Hshn Hsht]. pose proof Hk1 as (_ & Hn1 & _).
  set (h2 := with_shdr (Some sh) (with_phdr (Some ph) h)) in *.
  apply wp_or_bind_wp. eapply wp_mono; [apply (elf_load_strtab_ready f m2 l h2); [done|done|by eexists]|].
  intros r m3 (ls & ns & Hh3 & Hk3 & Hls & Hst). pose proof Hk2 as (_ & Hn2 & _).
  pose proof (keeps_trans _ _ _ _ Hk1 (keeps_trans _ _ _ _ Hk2 Hk3)) as Hk13.
  destruct r as [st|].
  2:{ apply wp_or_wp. rewrite <-Hempty. change (without_tables h) with (without_tables (with_strtab None h2)).
      eapply free_tables_undoes; [done|done|].
      unfold table_cells; simpl. rewrite Esy, Eds. simpl. intros x.
      rewrite elem_of_app, elem_of_cons, list_elem_of_singleton.
      intros [Hx|[->| ->]]; [specialize (Hls x Hx); lia|lia|lia]. }
  specialize (Hst (ltac:(by eexists))). set (h3 := with_strtab (Some st) h2) in *.
  pose proof (shdr_table_stays f m2 m3 l h2 [] [] Hh2 Hk3 _ _ Hsht) as Hsht3.
  eapply wp_or_mono; [by apply (load_optional_spec f m3 l h3 ls ns sh); try done; eexists|done|].
  intros r m5 (-> & sy & ds & Hh5 & Hk35 & Hnew & Hsy & Hds).
  exists (with_dsym ds (with_sym sy h3)), ls, ns. split_and!; [done|by eapply keeps_trans| | |left; split; [done|]].
  { rewrite <-Hempty. by destruct h. }
  { unfold table_cells. intros x. rewrite !elem_of_app, !elem_of_option_list.
    pose proof Hk3 as (_ & Hn3 & _).
    intros [Hx|[Hx|[Hx|[Hx|Hx]]]].
    - specialize (Hnew x (or_intror Hx)). lia.
    - specialize (Hnew x (or_introl Hx)). lia.
    - specialize (Hls x Hx). lia.
    - change (Some sh = Some x) in Hx. injection Hx as <-. lia.
    - change (Some ph = Some x) in Hx. injection Hx as <-. lia. }
  split.
  - exists ph. split; [done|]. apply (phdr_table_stays f m3 m5 l h3 ls ns Hh3 Hk35).
    apply (phdr_table_stays f m1 m3 l (with_phdr (Some ph) h) [] [] Hh1); [|exact Hpht].
    by eapply keeps_trans.
  - exists sh. split; [done|]. apply (shdr_table_stays f m3 m5 l h3 ls ns Hh3 Hk35).
    by apply (shdr_table_stays f m2 m3 l h2 [] [] Hh2 Hk3).
  - split; [by eexists|]. by apply (strtab_table_stays f m3 m5 l h3 ls ns Hh3 Hk35).
  - exact Hsy.
  - exact Hds.
Qed.

(** C14. [elf_load_all] on a handle fresh from [elf_open], for any file and whatever
    malloc, pread and libelf do, ends in one of three ways: with 0, the program
    headers, the section headers, the string tables of the STRTAB sections in
    reverse order with their bytes, and the symbols of the first SYMTAB and
    DYNSYM section if they could be read; with -1 and a handle that has no table
    and owns what it owned before; or without a defined meaning, and then libelf
    returned NULL or too few headers, or a table of symbols does not fit its
    buffer.  It uses no freed or foreign cell. *)
Theorem elf_load_all_tables f m l h :
  held f m l h [] [] → without_tables h = h →
  wp_or (load_fault f (e_clazz h) (e_phnum h) (e_shnum h)) (elf_load_all l) (load_all_post f m l h) m.
Proof. apply elf_load_all_spec. Qed.

Lemma opened_held f m l h m' :
  fresh_next m' → opened f m l h m' → held f m' l h [] [] ∧ without_tables h = h.
Proof.
  intros Hf [Ho _ Hnew Hold (Hfd & Hunused & Hfds) Hcl (? & ? & ? & ? & ?) Hfile _]. split.
  - split; try done. by rewrite Hfds, lookup_insert_eq.
  - destruct h; simpl in *. by subst.
Qed.

(** A file is opened, its tables are loaded, and it is closed. *)
Definition open_load_close (f : string) : M cmem Z :=
  p ← elf_open f;
  match p with
  | None => mret (-1)
  | Some l => r ← elf_load_all l; elf_close (Some l) ≫= λ _, mret r
  end.

(** The same for the file as [elf_open] finds it. *)
Definition file_fault (f : string) (u : ub) : Prop :=
  ∃ clazz eh, file_ehdr f clazz = Some eh ∧ load_fault f clazz (eh_phnum eh) (eh_shnum eh) u.

(** C13. The life of a handle: after [elf_open], [elf_load_all] and [elf_close],
    whether they succeeded or failed for want of memory, of readable bytes or of
    headers, the same files are open as before and every cell that was allocated
    before holds what it held.  Only [elf_load_all] can leave the defined
    behaviour, and only for the reasons of C14. *)
Theorem open_load_close_safe f m :
  openable f → fresh_next m →
  wp_or (file_fault f) (open_load_close f)
    (λ r m', (r = 0 ∨ r = -1) ∧ m_fds m' = m_fds m ∧
       ∀ x : loc, (x < m_next m)%positive → m_heap m' !! x = m_heap m !! x) m.
Proof.
  intros Hop Hfresh. unfold open_load_close.
  apply wp_or_bind_wp. eapply wp_mono; [by apply elf_open_spec|].
  intros [l|] m1 [Hf1 Hpost]; [|apply wp_or_wp, wp_ret; destruct Hpost; auto].
  destruct Hpost as [h Hod]. destruct (opened_held _ _ _ _ _ Hf1 Hod) as [Hh Hempty].
  assert (∀ u, load_fault f (e_clazz h) (e_phnum h) (e_shnum h) u → file_fault f u) as Hfault.
  { destruct (od_header _ _ _ _ _ Hod) as (id & eh & _ & _ & Heh & E). intros u Hu.
    exists (e_clazz h), eh. split; [done|]. rewrite E in Hu. exact Hu. }
  pose proof (od_tables _ _ _ _ _ Hod) as Hod'.
  destruct Hod as [Hown Hnext Hnew Hold (Hfd & Hunused & Hfds) _ _ _ _].
  apply wp_or_bind. eapply wp_or_mono; [by apply elf_load_all_spec|exact Hfault|].
  intros r m2 (h' & ls & ns & Hh' & (Hf2 & Hn2 & Hk) & Hwt & Htab & Hr).
  apply wp_or_wp, wp_bind. eapply wp_mono; [eapply elf_close_spec, Hh'|].
  intros r' m3 (-> & Hheap & Hfds3). apply wp_ret.
  assert (e_fd h' = e_fd h) as Efd by (rewrite <-Hwt; done).
  assert (e_elf h' = e_elf h) as Eelf by (rewrite <-Hwt; done).
  rewrite Efd, (proj2 (Z.leb_le _ _) Hfd), Hf2, Hfds, set_fds_undo in Hfds3 by done.
  split_and!; [destruct Hr as [[? _]|[? _]]; auto|done|].
  intros x Hx. rewrite Hheap.
  assert (x ∈ owned l h' ls → x ∈ owned l h []) as Hown'.
  { assert (owned l h' ls = [l] ++ table_cells h' ls ++ option_list (e_elf h')) as ->.
    { unfold owned, table_cells. by rewrite <-!app_assoc. }
    rewrite !elem_of_app. intros [Hxl|[Hxt|Hxe]].
    - unfold owned. set_solver.
    - specialize (Htab x Hxt). lia.
    - rewrite Eelf in Hxe. unfold owned. set_solver. }
  destruct (decide (x ∈ owned l h [])) as [Hin|Hout].
  - rewrite (Hnew x Hin). destruct (decide _) as [|Hn]; [done|]. exfalso. apply Hn.
    unfold owned in *. rewrite <-Eelf in Hin. destruct Hod' as (E1 & E2 & E3 & E4 & E5).
    rewrite E1, E2, E4, E5 in Hin. set_solver.
  - rewrite decide_False by auto. rewrite Hk; [by apply Hold| |lia].
    intros ->. apply Hout. by left.
Qed.

End load.
