(* ===== verification/ElfSym.v ===== *)
(** * Decoding symbols

    The symbol table of a file is an array of [Elf32_Sym] or [Elf64_Sym];
    [assign_sym] reads entry [i] of it.  Encoding the entries and decoding them
    gives every field back, sign-extended as elftool.h declares it. *)
From S2P Require Import Prelude Libc Elftool.

(** One entry of <elf.h>: unsigned fields. *)
Record Elf_Sym : Type := ElfSym {
  st_name : Z; st_info : Z; st_other : Z; st_shndx : Z; st_value : Z; st_size : Z }.

(** Bits of an address in the class. *)
Definition addr_bytes (clazz : Z) : nat := if clazz =? ELFCLASS32 then 4 else 8.

Record sym_wf (clazz : Z) (s : Elf_Sym) : Prop := SymWf {
  sw_name : 0 ≤ st_name s < 256 ^ 4;
  sw_info : 0 ≤ st_info s < 256 ^ 1;
  sw_other : 0 ≤ st_other s < 256 ^ 1;
  sw_shndx : 0 ≤ st_shndx s < 256 ^ 2;
  sw_value : 0 ≤ st_value s < 256 ^ Z.of_nat (addr_bytes clazz);
  sw_size : 0 ≤ st_size s < 256 ^ Z.of_nat (addr_bytes clazz) }.

(** The [n] bytes of [v], least significant first. *)
Fixpoint encode (n : nat) (v : Z) : list Z :=
  match n with O => [] | S n => v mod 256 :: encode n (v / 256) end.

(** The entry as it lies in the file: the two classes order the fields
    differently. *)
Definition encode_sym (clazz : Z) (s : Elf_Sym) : list Z :=
  if clazz =? ELFCLASS32
  then encode 4 (st_name s) ++ encode 4 (st_value s) ++ encode 4 (st_size s)
       ++ encode 1 (st_info s) ++ encode 1 (st_other s) ++ encode 2 (st_shndx s)
  else encode 4 (st_name s) ++ encode 1 (st_info s) ++ encode 1 (st_other s)
       ++ encode 2 (st_shndx s) ++ encode 8 (st_value s) ++ encode 8 (st_size s).

(** What elftool.h makes of it: [int] name and section, signed 64-bit value and
    size, and the parts of the info and visibility bytes. *)
Definition symbol_of (s : Elf_Sym) : elf_symbol_t :=
  ElfSymbol (sint 32 (st_name s)) (st_info s) (st_other s) (st_shndx s)
    (sint 64 (st_value s)) (sint 64 (st_size s))
    (Z.shiftr (st_info s) 4) (Z.land (st_info s) 15) (Z.land (st_other s) 3).

Lemma length_encode n v : length (encode n v) = n.
Proof. revert v. induction n as [|n IH]; intros v; simpl; [done|]. by rewrite IH. Qed.

Lemma bytes_word_encode n v : 0 ≤ v < 256 ^ Z.of_nat n → bytes_word (encode n v) = v.
Proof.
  revert v. induction n as [|n IH]; intros v Hv.
  - simpl in *. lia.
  - rewrite Nat2Z.inj_succ, Z.pow_succ_r in Hv by lia.
    cbn [encode bytes_word foldr]. fold (bytes_word (encode n (v / 256))). rewrite IH.
    + pose proof (Z.div_mod v 256). lia.
    + split; [apply Z.div_pos; lia|]. apply Z.div_lt_upper_bound; lia.
Qed.

(** A field in the middle of the raw bytes. *)
Lemma le_at_field pre n v post off :
  off = Z.of_nat (length pre) → 0 ≤ v < 256 ^ Z.of_nat n →
  le_at (pre ++ encode n v ++ post) off n = v.
Proof.
  intros -> Hv. unfold le_at. rewrite Nat2Z.id, drop_app_length.
  rewrite <-(length_encode n v) at 1. rewrite take_app_length. by apply bytes_word_encode.
Qed.

Lemma length_encode_sym clazz s : length (encode_sym clazz s) = Z.to_nat (sizeof_sym clazz).
Proof.
  unfold encode_sym, sizeof_sym. destruct (clazz =? ELFCLASS32); by rewrite !length_app, !length_encode.
Qed.

Lemma length_encode_syms clazz syms :
  length (concat (encode_sym clazz <$> syms)) = (Z.to_nat (sizeof_sym clazz) * length syms)%nat.
Proof.
  induction syms as [|s syms IH]; [simpl; lia|].
  cbn [fmap list_fmap concat]. rewrite length_app, IH, length_encode_sym. simpl. lia.
Qed.

(** One entry between any other bytes. *)
Lemma assign_sym_entry clazz pre s post i :
  sym_wf clazz s → Z.of_nat (length pre) = sizeof_sym clazz * i →
  assign_sym clazz (pre ++ encode_sym clazz s ++ post) i = symbol_of s.
Proof.
  intros [Hname Hinfo Hother Hshndx Hvalue Hsize] Hpre.
  set (raw := pre ++ encode_sym clazz s ++ post).
  assert (∀ before n v off,
    (∃ after, raw = pre ++ before ++ encode n v ++ after) →
    off = sizeof_sym clazz * i + Z.of_nat (length before) → 0 ≤ v < 256 ^ Z.of_nat n →
    le_at raw off n = v) as Hf.
  { intros before n v off [after ->] -> Hv. rewrite app_assoc. apply le_at_field; [|done].
    rewrite length_app. lia. }
  unfold assign_sym, symbol_of, addr_bytes in *. unfold encode_sym in raw.
  set (o := sizeof_sym clazz * i) in *. destruct (clazz =? ELFCLASS32).
  - rewrite (Hf [] 4%nat (st_name s) o), (Hf (encode 4 (st_name s)) 4%nat (st_value s) (o + 4)),
      (Hf (encode 4 (st_name s) ++ encode 4 (st_value s)) 4%nat (st_size s) (o + 8)),
      (Hf (encode 4 (st_name s) ++ encode 4 (st_value s) ++ encode 4 (st_size s)) 1%nat (st_info s) (o + 12)),
      (Hf (encode 4 (st_name s) ++ encode 4 (st_value s) ++ encode 4 (st_size s) ++ encode 1 (st_info s))
         1%nat (st_other s) (o + 13)),
      (Hf (encode 4 (st_name s) ++ encode 4 (st_value s) ++ encode 4 (st_size s) ++ encode 1 (st_info s)
           ++ encode 1 (st_other s)) 2%nat (st_shndx s) (o + 14));
      try (eexists; subst raw; rewrite <-!app_assoc; reflexivity); try done;
      rewrite ?length_app, ?length_encode; simpl; lia.
  - rewrite (Hf [] 4%nat (st_name s) o), (Hf (encode 4 (st_name s)) 1%nat (st_info s) (o + 4)),
      (Hf (encode 4 (st_name s) ++ encode 1 (st_info s)) 1%nat (st_other s) (o + 5)),
      (Hf (encode 4 (st_name s) ++ encode 1 (st_info s) ++ encode 1 (st_other s)) 2%nat (st_shndx s) (o + 6)),
      (Hf (encode 4 (st_name s) ++ encode 1 (st_info s) ++ encode 1 (st_other s) ++ encode 2 (st_shndx s))
         8%nat (st_value s) (o + 8)),
      (Hf (encode 4 (st_name s) ++ encode 1 (st_info s) ++ encode 1 (st_other s) ++ encode 2 (st_shndx s)
           ++ encode 8 (st_value s)) 8%nat (st_size s) (o + 16));
      try (eexists; subst raw; rewrite <-!app_assoc; reflexivity); try done;
      rewrite ?length_app, ?length_encode; simpl; lia.
Qed.

(** C23. Decoding inverts encoding, in both classes: entry [i] of an encoded
    symbol table decodes to the fields of symbol [i], the name and the section
    as [int], the value and the size as signed 64-bit numbers, with the binding,
    type and visibility taken from their bits. *)
Theorem assign_sym_decodes clazz syms (i : nat) s :
  Forall (sym_wf clazz) syms → syms !! i = Some s →
  assign_sym clazz (concat (encode_sym clazz <$> syms)) (Z.of_nat i) = symbol_of s.
Proof.
  intros Hwf Hi. rewrite <-(take_drop_middle _ _ _ Hi), fmap_app, concat_app. cbn [fmap list_fmap concat].
  apply assign_sym_entry; [by eapply Forall_lookup_1|].
  change (list_fmap _ _ (encode_sym clazz) (take i syms)) with (encode_sym clazz <$> take i syms).
  rewrite length_encode_syms, length_take. apply lookup_lt_Some in Hi.
  pose proof (ltac:(unfold sizeof_sym; by destruct (clazz =? ELFCLASS32)) : 0 < sizeof_sym clazz). lia.
Qed.

Lemma assign_sym_decodes_witness :
  assign_sym ELFCLASS64 (concat (encode_sym ELFCLASS64 <$> [ElfSym 1 18 0 1 0x400000 16; ElfSym 6 33 2 0 (2 ^ 64 - 8) 0])) 1
  = ElfSymbol 6 33 2 0 (-8) 0 2 1 2.
Proof.
  apply (assign_sym_decodes ELFCLASS64 [ElfSym 1 18 0 1 0x400000 16; ElfSym 6 33 2 0 (2 ^ 64 - 8) 0] 1
    (ElfSym 6 33 2 0 (2 ^ 64 - 8) 0)); [|reflexivity].
  apply Forall_cons. split; [split; vm_compute; (split; [discriminate|reflexivity])|].
  apply Forall_singleton. split; vm_compute; (split; [discriminate|reflexivity]).
Defined.
