(* ===== verification/ToyElf.v ===== *)
(** * A concrete environment for the ELF loader

    One 64-bit file, [a.out], with the sections .text, .symtab, .strtab and
    .shstrtab; every allocation succeeds.  The theorems about the loader and
    about sdb are tried on it. *)
From S2P Require Import Prelude Libc Elftool.

Fixpoint ascii_bytes (s : string) : list Z :=
  match s with EmptyString => [] | String c s => code c :: ascii_bytes s end.

(** .shstrtab at offset 0: names at 1, 7, 15 and 23. *)
Definition toy_shstrtab : list Z :=
  0 :: ascii_bytes ".text" ++ 0 :: ascii_bytes ".symtab" ++ 0 :: ascii_bytes ".strtab"
    ++ 0 :: ascii_bytes ".shstrtab" ++ [0].
(** .strtab at offset 40. *)
Definition toy_strtab : list Z := 0 :: ascii_bytes "main" ++ [0].
(** .symtab at offset 48: one [Elf64_Sym]. *)
Definition toy_symtab : list Z :=
  [1; 0; 0; 0; 18; 0; 1; 0; 0; 0; 64; 0; 0; 0; 0; 0; 16; 0; 0; 0; 0; 0; 0; 0].
Definition toy_text : list Z := [85; 72; 137; 229; 144; 144; 93; 195; 49; 192; 195; 144; 144; 144; 144; 144].

Definition toy_image : list Z :=
  take 40 (toy_shstrtab ++ repeat 0 40) ++ take 8 (toy_strtab ++ repeat 0 8)
    ++ toy_symtab ++ repeat 0 8 ++ toy_text.

Definition toy_shdr (i : Z) : option elf_shdr_t :=
  if i =? 1 then Some (ElfShdr 1 1 6 0x400000 80 16 0 0 16 0)
  else if i =? 2 then Some (ElfShdr 7 SHT_SYMTAB 0 0 48 24 3 0 8 24)
  else if i =? 3 then Some (ElfShdr 15 SHT_STRTAB 0 0 40 6 0 0 1 0)
  else if i =? 4 then Some (ElfShdr 23 SHT_STRTAB 0 0 0 33 0 0 1 0)
  else None.

(** [ty] is the ELF type: 2 for an executable, 3 for a position-independent one. *)
Definition toy_elf (ty : Z) : ElfEnv := {|
  malloc_ok _ _ := true;
  sys_open f fds :=
    if bool_decide (f = "a.out") && bool_decide (fds !! 3 = None) then Some 3 else None;
  sys_pread f size off := take (Z.to_nat size) (drop (Z.to_nat off) toy_image);
  lib_begin _ := true;
  lib_getident _ := Some [127; 69; 76; 70; 2];
  elf32_getehdr _ := None;
  elf64_getehdr _ := Some (ElfEhdr ty 1 5 4 0x400000);
  elf32_getphdr _ := None;
  elf64_getphdr _ := Some [ElfPhdr 1 0 0x400000 0x400000 96 96 5 4096];
  lib_scns _ := [1; 2; 3; 4];
  elf32_getshdr _ _ := None;
  elf64_getshdr _ i := toy_shdr i;
  junk_shdr _ _ := ElfShdr 0 0 0 0 0 0 0 0 0 0;
  junk_strtab _ := None |}.

Definition empty_mem : cmem := Cmem ∅ 1%positive ∅ 0 0 None.
