(* ===== verification/ElfExamples.v ===== *)
(** * The loader on a concrete file

    The theorems about elftool.c applied to the toy file, and what is left on
    the heap after a handle is closed. *)
From S2P Require Import Prelude Libc Elftool ElfHeap ElfLoad ToyElf.

#[local] Instance elf_env : ElfEnv := toy_elf 2.

Lemma toy_openable : openable "a.out".
Proof.
  split.
  - intros fds fd. cbn [sys_open elf_env toy_elf].
    destruct (bool_decide (fds !! 3 = None)) eqn:E; [|done]. apply bool_decide_eq_true in E.
    intros [= <-]. split; [lia|done].
  - intros id [= <-]. simpl. lia.
  - intros id [= <-]. discriminate.
  - intros id [= <-] _. by eexists.
Qed.

(** Nothing stands in the way of loading the toy file. *)
Lemma toy_no_fault clazz u : clazz ≠ ELFCLASS32 → ¬ load_fault "a.out" clazz 1 5 u.
Proof.
  intros Hcl%Z.eqb_neq [[_ Hp|p Hp Hlen]|[scn Hin Hs]|ty a s Hty Hs Hov _];
    unfold file_phdrs, file_shdr in *; rewrite ?Hcl in *.
  - discriminate Hp.
  - injection Hp as <-. simpl in Hlen. lia.
  - revert Hs. simpl in Hin. repeat (apply elem_of_cons in Hin as [->|Hin]; [done|]).
    by apply not_elem_of_nil in Hin.
  - unfold loaded_shdrs, file_shdr in Hs. cbn in Hs. unfold file_shdr in Hs. rewrite Hcl in Hs.
    unfold symbols_overrun, symbol_count, sizeof_sym in Hov. rewrite Hcl in Hov.
    destruct Hty as [->| ->]; vm_compute in Hs; [|discriminate Hs].
    injection Hs as <-. discriminate Hov.
Qed.

Lemma fresh_empty : fresh_next empty_mem.
Proof. intros x _. apply lookup_empty. Qed.

Lemma elf_open_all_or_nothing_witness :
  wp (elf_open "a.out") (opened_or_undone "a.out" empty_mem) empty_mem.
Proof. apply (elf_open_all_or_nothing "a.out" empty_mem); [apply toy_openable|apply fresh_empty]. Defined.

Lemma elf_open_close_witness :
  wp (p ← elf_open "a.out"; elf_close p) (λ r m', r = 0 ∧ undone empty_mem m') empty_mem.
Proof. apply (elf_open_close "a.out" empty_mem); [apply toy_openable|apply fresh_empty]. Defined.

(** The state after [elf_open "a.out"]. *)
Definition toy_handle : elf_handle_t := ElfHandle 3 (Some 1%positive) 2 1 5 4 0x400000 None None None None None 2.
Definition toy_opened : cmem :=
  Cmem {[ 1%positive := CElf "a.out"; 2%positive := CHandle toy_handle ]} 3%positive {[ 3 := "a.out" ]} 0 0 None.

Example toy_opens : elf_open "a.out" empty_mem = Ret (Some 2%positive, toy_opened).
Proof. vm_compute. reflexivity. Qed.

Lemma toy_opened_fresh : fresh_next toy_opened.
Proof. intros x Hx. simpl in *. by rewrite lookup_insert_ne, lookup_singleton_ne by lia. Qed.

Lemma toy_owns : owns (m_heap toy_opened) 2%positive toy_handle [] [].
Proof.
  split; try done.
  - intros a [= <-]. by exists "a.out".
  - constructor.
  - apply NoDup_cons. split; [set_solver|]. apply NoDup_singleton.
Qed.

Lemma toy_held : held "a.out" toy_opened 2%positive toy_handle [] [].
Proof. split; [apply toy_opened_fresh|apply toy_owns|done| |done]. by exists 1%positive. Qed.

Lemma elf_close_releases_witness :
  wp (elf_close (Some 2%positive))
    (λ r m', r = 0 ∧
       (∀ x, m_heap m' !! x = if decide (x ∈ owned 2%positive toy_handle []) then None else m_heap toy_opened !! x) ∧
       m_fds m' = if 0 <=? e_fd toy_handle then delete (e_fd toy_handle) (m_fds toy_opened) else m_fds toy_opened)
    toy_opened.
Proof. apply (elf_close_releases 2%positive toy_opened toy_handle [] []). apply toy_owns. Defined.

Lemma elf_load_all_tables_witness :
  wp (elf_load_all 2%positive) (load_all_post "a.out" toy_opened 2%positive toy_handle) toy_opened.
Proof.
  eapply wp_or_none; [|apply (elf_load_all_tables "a.out" toy_opened 2%positive toy_handle)].
  - intros u. by apply toy_no_fault.
  - apply toy_held.
  - reflexivity.
Defined.

Lemma open_load_close_safe_witness :
  wp (open_load_close "a.out")
    (λ r m', (r = 0 ∨ r = -1) ∧ m_fds m' = m_fds empty_mem ∧
       ∀ x : loc, (x < m_next empty_mem)%positive → m_heap m' !! x = m_heap empty_mem !! x) empty_mem.
Proof.
  eapply wp_or_none; [|apply (open_load_close_safe "a.out" empty_mem)].
  - intros u (clazz & eh & Heh & Hu). unfold file_ehdr in Heh.
    destruct (clazz =? ELFCLASS32) eqn:E; [done|]. injection Heh as <-.
    revert Hu. apply toy_no_fault. by apply Z.eqb_neq.
  - apply toy_openable.
  - apply fresh_empty.
Defined.

(** ** Lists of string tables *)

Definition toy_list : cmem :=
  Cmem {[ 5%positive := CStrtab (ElfStrtab 3 2 (Some 6%positive) (Some 7%positive));
          6%positive := CBytes [0; 65]; 7%positive := CStrtab (ElfStrtab 1 1 (Some 8%positive) None);
          8%positive := CBytes [0]; 9%positive := CSyms [] ]} 10%positive ∅ 0 0 None.

Lemma elf_free_strtab_frees_witness :
  ∃ m', free_strtab (Some 5%positive) toy_list = Ret (tt, m') ∧ m_fds m' = m_fds toy_list ∧
    ∀ x, m_heap m' !! x = if decide (x ∈ [5; 6; 7; 8]%positive) then None else m_heap toy_list !! x.
Proof.
  apply (elf_free_strtab_frees (Some 5%positive) [5; 6; 7; 8]%positive
    [(ElfStrtab 3 2 (Some 6%positive) (Some 7%positive), [0; 65]);
     (ElfStrtab 1 1 (Some 8%positive) None, [0])] toy_list).
  - eapply strtabs_cons; [done|done|done|]. eapply strtabs_cons; [done|done|done|]. constructor.
  - apply (bool_decide_unpack (NoDup [5; 6; 7; 8]%positive)). vm_compute. exact I.
Defined.

(** ** What stays behind *)

(** The cells left after a whole life of a handle. *)
Definition left_behind (o : outcome (Z * cmem)) : option (list cell) :=
  match o with Ret (_, m) => Some (snd <$> map_to_list (m_heap m)) | _ => None end.

(** Opening, loading and closing a file that has a symbol table loses the
    array of its symbols: [elf_close] frees the table but not [symbol]. *)
Theorem close_leaks_symbols :
  left_behind (open_load_close "a.out" empty_mem) =
    Some [CSyms [ElfSymbol 1 18 0 1 0x400000 16 1 2 0]].
Proof. vm_compute. reflexivity. Qed.

(** The same file on a disk that fails: every read is short. *)
Definition short_reads (env : ElfEnv) : ElfEnv := {|
  malloc_ok := @malloc_ok env; sys_open := @sys_open env; sys_pread f size off := [];
  lib_begin := @lib_begin env; lib_getident := @lib_getident env;
  elf32_getehdr := @elf32_getehdr env; elf64_getehdr := @elf64_getehdr env;
  elf32_getphdr := @elf32_getphdr env; elf64_getphdr := @elf64_getphdr env;
  lib_scns := @lib_scns env;
  elf32_getshdr := @elf32_getshdr env; elf64_getshdr := @elf64_getshdr env;
  junk_shdr := @junk_shdr env; junk_strtab := @junk_strtab env |}.

(** A libelf that fails to translate the section headers: elftool.c does not
    look at what [elf64_getshdr] returned. *)
Definition no_headers (env : ElfEnv) : ElfEnv := {|
  malloc_ok := @malloc_ok env; sys_open := @sys_open env; sys_pread := @sys_pread env;
  lib_begin := @lib_begin env; lib_getident := @lib_getident env;
  elf32_getehdr := @elf32_getehdr env; elf64_getehdr := @elf64_getehdr env;
  elf32_getphdr := @elf32_getphdr env; elf64_getphdr := @elf64_getphdr env;
  lib_scns := @lib_scns env;
  elf32_getshdr _ _ := None; elf64_getshdr _ _ := None;
  junk_shdr := @junk_shdr env; junk_strtab := @junk_strtab env |}.

Example missing_header_undefined :
  @open_load_close (no_headers elf_env) "a.out" empty_mem = Undef NullDeref.
Proof. vm_compute. reflexivity. Qed.

(** Bytes malloc left in the entry no section fills: a table of 48 GiB of
    symbols, whose number does not fit an [int]. *)
Definition dirty_entry (env : ElfEnv) : ElfEnv := {|
  malloc_ok := @malloc_ok env; sys_open := @sys_open env; sys_pread := @sys_pread env;
  lib_begin := @lib_begin env; lib_getident := @lib_getident env;
  elf32_getehdr := @elf32_getehdr env; elf64_getehdr := @elf64_getehdr env;
  elf32_getphdr := @elf32_getphdr env; elf64_getphdr := @elf64_getphdr env;
  lib_scns := @lib_scns env;
  elf32_getshdr := @elf32_getshdr env; elf64_getshdr := @elf64_getshdr env;
  junk_shdr _ _ := ElfShdr 0 SHT_SYMTAB 0 0 0 (48 * 2 ^ 30) 3 0 0 0;
  junk_strtab := @junk_strtab env |}.

Example dirty_entry_undefined :
  @open_load_close (dirty_entry elf_env) "a.out" empty_mem = Undef OutOfBounds.
Proof. vm_compute. reflexivity. Qed.

(** A string table that cannot be read: [err_quit] frees the list but not
    the node and the buffer of the section at hand, which are lost. *)
Theorem failed_load_leaks_node :
  left_behind (@open_load_close (short_reads elf_env) "a.out" empty_mem) =
    Some [CStrtab (ElfStrtab 3 6 (Some 6%positive) None); CBytes []].
Proof. vm_compute. reflexivity. Qed.
