(* ===== verification/Kernel.v ===== *)
(** * The kernel and the disassembler, as sdb sees them

    ptrace(2), waitpid(2), fork(2), execlp(3), /proc and the files a program
    opens are outside the repository: the class [Kernel] lists the requests
    sdb makes on a state [W] that stands for everything outside sdb, and
    [KernelLaws] the documented behaviour the theorems rely on.  [Capstone] is
    the disassembler.  ToyKernel.v has a small concrete kernel on which the
    theorems are tried. *)
From S2P Require Import Prelude Libc.

(** ** [struct user_regs_struct] *)

Inductive reg : Type :=
  | RAX | RBX | RCX | RDX | R8 | R9 | R10 | R11 | R12
  | R13 | R14 | R15 | RDI | RSI | RBP | RSP | RIP | EFLAGS.

#[export] Instance reg_eq_dec : EqDecision reg.
Proof. solve_decision. Defined.

(** The fields sdb names, and the others, which it only passes through. *)
Record user_regs : Type := UserRegs {
  u_rax : Z; u_rbx : Z; u_rcx : Z; u_rdx : Z; u_r8 : Z; u_r9 : Z; u_r10 : Z; u_r11 : Z;
  u_r12 : Z; u_r13 : Z; u_r14 : Z; u_r15 : Z; u_rdi : Z; u_rsi : Z; u_rbp : Z; u_rsp : Z; u_rip : Z; u_eflags : Z;
  u_others : list Z }.

Definition rget (r : reg) (u : user_regs) : Z :=
  match r with
  | RAX => u_rax u
  | RBX => u_rbx u
  | RCX => u_rcx u
  | RDX => u_rdx u
  | R8 => u_r8 u
  | R9 => u_r9 u
  | R10 => u_r10 u
  | R11 => u_r11 u
  | R12 => u_r12 u
  | R13 => u_r13 u
  | R14 => u_r14 u
  | R15 => u_r15 u
  | RDI => u_rdi u
  | RSI => u_rsi u
  | RBP => u_rbp u
  | RSP => u_rsp u
  | RIP => u_rip u
  | EFLAGS => u_eflags u
  end.

Definition rset (r : reg) (v : Z) (u : user_regs) : user_regs :=
  let f x := if bool_decide (r = x) then v else rget x u in
  UserRegs (f RAX) (f RBX) (f RCX) (f RDX) (f R8) (f R9) (f R10) (f R11) (f R12)
    (f R13) (f R14) (f R15) (f RDI) (f RSI) (f RBP) (f RSP) (f RIP) (f EFLAGS)
    (u_others u).

Definition reg_name (r : reg) : string :=
  match r with
  | RAX => "rax"
  | RBX => "rbx"
  | RCX => "rcx"
  | RDX => "rdx"
  | R8 => "r8"
  | R9 => "r9"
  | R10 => "r10"
  | R11 => "r11"
  | R12 => "r12"
  | R13 => "r13"
  | R14 => "r14"
  | R15 => "r15"
  | RDI => "rdi"
  | RSI => "rsi"
  | RBP => "rbp"
  | RSP => "rsp"
  | RIP => "rip"
  | EFLAGS => "eflags"
  end.

(** Every field sdb names holds an [unsigned long long]. *)
Definition regs_ok (u : user_regs) : Prop := ∀ r, 0 ≤ rget r u < 2 ^ 64.

(** The general registers agree; the flags, and the registers sdb only passes
    through, may not. *)
Definition same_general (x u : user_regs) : Prop := ∀ r, r ≠ EFLAGS → rget r x = rget r u.

Lemma rget_rset r r' v u : rget r (rset r' v u) = if bool_decide (r' = r) then v else rget r u.
Proof. by destruct r. Qed.
Lemma rget_rset_eq r v u : rget r (rset r v u) = v.
Proof. rewrite rget_rset. by rewrite bool_decide_eq_true_2. Qed.
Lemma rget_rset_ne r r' v u : r' ≠ r → rget r (rset r' v u) = rget r u.
Proof. intros. rewrite rget_rset. by rewrite bool_decide_eq_false_2. Qed.
Lemma rset_rget r u : rset r (rget r u) u = u.
Proof. destruct u, r; reflexivity. Qed.
Lemma regs_ok_rset r v u : regs_ok u → 0 ≤ v < 2 ^ 64 → regs_ok (rset r v u).
Proof. intros Hu Hv r'. rewrite rget_rset. case_bool_decide; [done|apply Hu]. Qed.
#[export] Instance reg_name_inj : Inj (=) (=) reg_name.
Proof. intros [] [] H; (reflexivity || discriminate H). Qed.

(** ** Status words of waitpid(2) *)

(** [WIFSTOPPED(status)] of <sys/wait.h>. *)
Definition WIFSTOPPED (status : Z) : bool := Z.land status 255 =? 127.

(** ** The kernel *)

Class Kernel (W : Type) : Type := {
  (** the message of the last error *)
  sys_strerror : W → string;
  sys_fork : W → Z * W;
  ptrace_traceme : W → Z * W;
  execlp_ok : W → string → bool;
  (** [None]: the call never returns; otherwise its result and the status *)
  sys_waitpid : W → Z → option (Z * Z * W);
  ptrace_setoptions : W → Z → W;                  (* PTRACE_O_EXITKILL *)
  ptrace_getregs : W → Z → option user_regs;      (* None: an error *)
  ptrace_setregs : W → Z → user_regs → Z * W;
  ptrace_peek : W → Z → Z → option Z;             (* None: -1 and errno set *)
  ptrace_poke : W → Z → Z → Z → Z * W;
  ptrace_singlestep : W → Z → Z * W;
  ptrace_cont : W → Z → Z * W;
  (** a text file read with [getline] to its end; a binary file *)
  fopen_lines : W → string → option (list string);
  fopen_bytes : W → string → option (list Z) }.

(** [tbyte w pid a] is the byte the process [pid] has at address [a]. *)
Class KernelLaws (W : Type) `{Kernel W} : Type := {
  tbyte : W → Z → Z → option Z;
  peek_range w pid a v : ptrace_peek w pid a = Some v → 0 ≤ v < 2 ^ 64;
  peek_bytes w pid a v i :
    ptrace_peek w pid a = Some v → 0 ≤ i < 8 → tbyte w pid (a + i) = Some (byte_of v i);
  poke_bytes w pid a v w' b :
    ptrace_poke w pid a v = (0, w') →
    tbyte w' pid b = if decide (a ≤ b < a + 8) then Some (byte_of v (b - a)) else tbyte w pid b;
  poke_error w pid a v r w' : ptrace_poke w pid a v = (r, w') → r ≠ 0 → w' = w;
  (** a word that can be read can be written: PTRACE_POKETEXT ignores the
      protection of the page *)
  poke_mapped w pid a v x : ptrace_peek w pid a = Some x → fst (ptrace_poke w pid a v) = 0;
  poke_peek w pid a v w' b :
    ptrace_poke w pid a v = (0, w') → is_Some (ptrace_peek w pid b) → is_Some (ptrace_peek w' pid b);
  poke_regs w pid a v w' : ptrace_poke w pid a v = (0, w') → ptrace_getregs w' pid = ptrace_getregs w pid;
  poke_files w pid a v w' p : ptrace_poke w pid a v = (0, w') → fopen_lines w' p = fopen_lines w p;
  getregs_range w pid x : ptrace_getregs w pid = Some x → regs_ok x;
  (** ptrace(2): "some general-purpose register modifications may be
      disallowed", in which case the request fails; of the flags only the
      bits a program may change are taken over *)
  setregs_regs w pid r w' :
    regs_ok r → ptrace_setregs w pid r = (0, w') →
    ∃ x, ptrace_getregs w' pid = Some x ∧ same_general x r;
  setregs_peek w pid r c w' b :
    ptrace_setregs w pid r = (c, w') → is_Some (ptrace_peek w pid b) → is_Some (ptrace_peek w' pid b);
  setregs_bytes w pid r c w' b : ptrace_setregs w pid r = (c, w') → tbyte w' pid b = tbyte w pid b;
  setregs_files w pid r c w' p : ptrace_setregs w pid r = (c, w') → fopen_lines w' p = fopen_lines w p }.

(** What wait(2) says of a traced child [p] that nothing lets go on. *)
Class WaitLaws (W : Type) `{Kernel W} : Type := {
  (** a stop is reported once: what may be reported after it, with no request
      to resume in between, is that the child was killed *)
  wait_stopped_once w p r st w1 r' st' w2 :
    0 < p → sys_waitpid w p = Some (r, st, w1) → 0 < r → WIFSTOPPED st = true →
    sys_waitpid w1 p = Some (r', st', w2) → 0 < r' → WIFSTOPPED st' = false;
  (** a child whose end was reported is no child any more: ECHILD *)
  wait_gone w p r st w1 :
    0 < p → sys_waitpid w p = Some (r, st, w1) → 0 < r → WIFSTOPPED st = false →
    ∃ r' st' w2, sys_waitpid w1 p = Some (r', st', w2) ∧ r' ≤ 0 }.

(** ** Capstone *)

Record cs_insn : Type := CsInsn {
  ci_address : Z; ci_size : Z; ci_bytes : list Z; ci_mnemonic : string; ci_op_str : string }.

(** [cs_disasm] on a code buffer and the address of its first byte. *)
Class Capstone : Type := cs_disasm : list Z → Z → list cs_insn.

(** capstone.h: an instruction has [size] bytes, which the array [bytes] of
    [uint8_t] begins with. *)
Class CapstoneLaws `{Capstone} : Prop := {
  insn_bytes code a insn : insn ∈ cs_disasm code a → Forall (λ b, 0 ≤ b < 256) (ci_bytes insn);
  insn_size code a insn :
    insn ∈ cs_disasm code a → 0 ≤ ci_size insn ≤ Z.of_nat (length (ci_bytes insn)) }.
