(* ===== verification/ToyKernel.v ===== *)
(** * A concrete kernel

    One traced process whose memory is a finite map of bytes and whose stops
    are a script: each [waitpid] takes the next status and register set from
    it, and fails with -1 when none is left.  A request to write registers
    leaves the flags as they are.  It satisfies [KernelLaws]; the theorems about
    sdb are tried on it.  [live] is the same program on a kernel that knows
    whether it runs, and satisfies [WaitLaws]. *)
From S2P Require Import Prelude Libc Kernel.

Record toy : Type := Toy {
  ty_pid : Z;
  ty_mem : gmap Z Z;
  ty_regs : user_regs;
  ty_script : list (Z * user_regs);
  ty_text : gmap string (list string);
  ty_files : gmap string (list Z) }.

Definition toy_byte (w : toy) (a : Z) : option Z := (λ z, z mod 256) <$> ty_mem w !! a.

Definition toy_peek (w : toy) (pid a : Z) : option Z :=
  if decide (pid = ty_pid w)
  then bytes_word <$> mapM (λ i, toy_byte w (a + i)) [0; 1; 2; 3; 4; 5; 6; 7]
  else None.

Definition toy_set_mem (w : toy) (m : gmap Z Z) : toy :=
  Toy (ty_pid w) m (ty_regs w) (ty_script w) (ty_text w) (ty_files w).
Definition toy_set_regs (w : toy) (r : user_regs) : toy :=
  Toy (ty_pid w) (ty_mem w) r (ty_script w) (ty_text w) (ty_files w).

Definition toy_regs (u : user_regs) : user_regs :=
  let g := wrap64 in
  UserRegs (g (u_rax u)) (g (u_rbx u)) (g (u_rcx u)) (g (u_rdx u)) (g (u_r8 u)) (g (u_r9 u)) (g (u_r10 u))
    (g (u_r11 u)) (g (u_r12 u)) (g (u_r13 u)) (g (u_r14 u)) (g (u_r15 u)) (g (u_rdi u)) (g (u_rsi u))
    (g (u_rbp u)) (g (u_rsp u)) (g (u_rip u)) (g (u_eflags u)) (u_others u).

Lemma rget_toy_regs r u : rget r (toy_regs u) = wrap64 (rget r u).
Proof. by destruct r. Qed.

Definition toy_write (m : gmap Z Z) (a v : Z) : gmap Z Z :=
  foldr (λ i m, <[a + i := byte_of v i]> m) m [0; 1; 2; 3; 4; 5; 6; 7].

Definition toy_poke (w : toy) (pid a v : Z) : Z * toy :=
  match toy_peek w pid a with
  | Some _ => (0, toy_set_mem w (toy_write (ty_mem w) a v))
  | None => (-1, w)
  end.

Definition toy_waitpid (w : toy) (pid : Z) : option (Z * Z * toy) :=
  match ty_script w with
  | [] => Some (-1, 0, w)
  | (status, r) :: script =>
      Some (pid, status, Toy (ty_pid w) (ty_mem w) r script (ty_text w) (ty_files w))
  end.

#[export] Instance toy_kernel : Kernel toy := {
  sys_strerror w := "Operation not permitted";
  sys_fork w := (ty_pid w, w);
  ptrace_traceme w := (0, w);
  execlp_ok w p := bool_decide (is_Some (ty_files w !! p));
  sys_waitpid := toy_waitpid;
  ptrace_setoptions w pid := w;
  ptrace_getregs w pid := if decide (pid = ty_pid w) then Some (toy_regs (ty_regs w)) else None;
  ptrace_setregs w pid r := if decide (pid = ty_pid w)
    then (0, toy_set_regs w (rset EFLAGS (u_eflags (ty_regs w)) r)) else (-1, w);
  ptrace_peek := toy_peek;
  ptrace_poke := toy_poke;
  ptrace_singlestep w pid := (0, w);
  ptrace_cont w pid := (0, w);
  fopen_lines w p := ty_text w !! p;
  fopen_bytes w p := ty_files w !! p }.

(** The byte view the laws speak of: only the tracee's own memory shows. *)
Definition toy_tbyte (w : toy) (pid a : Z) : option Z :=
  if decide (pid = ty_pid w) then toy_byte w a else None.

Lemma bytes_word_range bs :
  Forall (λ b, 0 ≤ b < 256) bs → 0 ≤ bytes_word bs < 256 ^ Z.of_nat (length bs).
Proof.
  induction 1 as [|b bs Hb _ IH]; [cbn; lia|].
  replace (256 ^ Z.of_nat (length (b :: bs))) with (256 * 256 ^ Z.of_nat (length bs)).
  { cbn [bytes_word foldr] in *. fold (bytes_word bs) in *. lia. }
  simpl length. rewrite Nat2Z.inj_succ, Z.pow_succ_r; lia.
Qed.

Lemma byte_of_bytes_word bs (i : nat) b :
  Forall (λ b, 0 ≤ b < 256) bs → bs !! i = Some b → byte_of (bytes_word bs) (Z.of_nat i) = b.
Proof.
  intros Hbs. revert i. induction Hbs as [|x bs Hx Hbs IH]; intros [|i] Hi; simplify_eq/=.
  - rewrite byte_of_0. change 255 with (Z.ones 8). rewrite Z.land_ones by lia.
    change (2 ^ 8) with 256.
    cbn [bytes_word foldr]. fold (bytes_word bs).
    rewrite (Z.mul_comm 256), Z.mod_add by lia. apply Z.mod_small. lia.
  - rewrite <-(IH i Hi). unfold byte_of. f_equal. fold (bytes_word bs).
    replace (8 * Z.of_nat (S i)) with (8 + 8 * Z.of_nat i) by lia.
    rewrite <-Z.shiftr_shiftr by lia. f_equal.
    rewrite Z.shiftr_div_pow2 by lia. change (2 ^ 8) with 256.
    cbn [bytes_word foldr]. fold (bytes_word bs).
    rewrite (Z.mul_comm 256), Z.div_add, Z.div_small by lia. lia.
Qed.

Lemma toy_peek_Some w pid a v :
  toy_peek w pid a = Some v →
  pid = ty_pid w ∧ ∃ bs, length bs = 8%nat ∧ v = bytes_word bs ∧
    Forall (λ b, 0 ≤ b < 256) bs ∧
    ∀ i : nat, (i < 8)%nat → toy_byte w (a + Z.of_nat i) = bs !! i.
Proof.
  unfold toy_peek. destruct (decide _) as [->|]; [|done].
  intros (bs & Hbs & ->)%fmap_Some_1. split; [done|]. exists bs.
  apply mapM_Some in Hbs.
  split_and!; [by rewrite <-(Forall2_length _ _ _ Hbs)|done|..].
  - eapply Forall2_Forall_r; [apply Hbs|]. apply Forall_forall. intros i _ y.
    unfold toy_byte. intros (z & _ & ->)%fmap_Some_1. apply Z.mod_pos_bound. lia.
  - intros i Hi. do 8 (destruct i as [|i];
      [by do 8 (apply Forall2_cons_inv_l in Hbs as (? & ? & ? & Hbs & ->); try done)|]).
    lia.
Qed.

Lemma toy_peek_mapped w a :
  is_Some (toy_peek w (ty_pid w) a) ↔ ∀ i, 0 ≤ i < 8 → is_Some (ty_mem w !! (a + i)).
Proof.
  unfold toy_peek. rewrite decide_True by done. rewrite fmap_is_Some, mapM_is_Some. split.
  - intros H i Hi. rewrite Forall_forall in H.
    destruct (H i) as [y Hy]; [apply list_elem_of_In; simpl; lia|].
    unfold toy_byte in Hy. apply fmap_Some_1 in Hy as (x & Hx & _). eauto.
  - intros H. apply Forall_forall. intros i Hi. apply list_elem_of_In in Hi.
    destruct (H i) as [y Hy]; [simpl in Hi; lia|].
    unfold toy_byte. simpl. rewrite Hy. by eexists.
Qed.

Lemma toy_write_lookup m a v b :
  toy_write m a v !! b = if decide (a ≤ b < a + 8) then Some (byte_of v (b - a)) else m !! b.
Proof.
  unfold toy_write. simpl.
  destruct (decide (a ≤ b < a + 8)) as [Hb|Hb].
  - assert (b = a + 0 ∨ b = a + 1 ∨ b = a + 2 ∨ b = a + 3 ∨ b = a + 4 ∨ b = a + 5 ∨
            b = a + 6 ∨ b = a + 7) as Hc by lia.
    destruct Hc as [->|[->|[->|[->|[->|[->|[->| ->]]]]]]];
      repeat (rewrite lookup_insert_ne by lia); rewrite lookup_insert_eq; repeat f_equal; lia.
  - by repeat (rewrite lookup_insert_ne by lia).
Qed.

#[export] Program Instance toy_laws : KernelLaws toy := {| tbyte := toy_tbyte |}.
Next Obligation.
  intros w pid a v (_ & bs & Hl & -> & Hr & _)%toy_peek_Some.
  pose proof (bytes_word_range _ Hr) as H. rewrite Hl in H. exact H.
Qed.
Next Obligation.
  intros w pid a v i (-> & bs & Hl & -> & Hr & Hb)%toy_peek_Some Hi.
  unfold toy_tbyte. rewrite decide_True by done.
  specialize (Hb (Z.to_nat i) ltac:(lia)). rewrite Z2Nat.id in Hb by lia. rewrite Hb.
  destruct (lookup_lt_is_Some_2 bs (Z.to_nat i) ltac:(lia)) as [b Hbi]. rewrite Hbi.
  rewrite <-(byte_of_bytes_word bs _ _ Hr Hbi). do 2 f_equal. lia.
Qed.
Next Obligation.
  intros w pid a v w' b. simpl. unfold toy_poke.
  destruct (toy_peek w pid a) eqn:E; intros; simplify_eq.
  apply toy_peek_Some in E as [-> _].
  unfold toy_tbyte, toy_byte; simpl. rewrite toy_write_lookup.
  destruct (decide (ty_pid w = ty_pid w)); [|done]. destruct (decide _); [|done]. simpl. f_equal. apply Z.mod_small, byte_of_range. lia.
Qed.
Next Obligation.
  intros w pid a v r w'. simpl. unfold toy_poke. destruct (toy_peek _ _ _); naive_solver.
Qed.
Next Obligation.
  intros w pid a v x. simpl. unfold toy_poke. by intros ->.
Qed.
Next Obligation.
  intros w pid a v w' b. simpl. unfold toy_poke.
  destruct (toy_peek w pid a) eqn:E; intros; simplify_eq.
  apply toy_peek_Some in E as [-> _].
  change (ty_pid w) with (ty_pid (toy_set_mem w (toy_write (ty_mem w) a v))) at 1.
  rewrite toy_peek_mapped in *. intros i Hi. simpl. rewrite toy_write_lookup.
  destruct (decide _); eauto.
Qed.
Next Obligation.
  intros w pid a v w'. simpl. unfold toy_poke. destruct (toy_peek _ _ _); naive_solver.
Qed.
Next Obligation.
  intros w pid a v w' p. simpl. unfold toy_poke. destruct (toy_peek _ _ _); naive_solver.
Qed.
Next Obligation.
  intros w pid x. simpl. destruct (decide _); intros; simplify_eq. intros r.
  rewrite rget_toy_regs. apply wrap64_range.
Qed.
Next Obligation.
  intros w pid r w' Hr. simpl. destruct (decide _) eqn:E; intros; simplify_eq.
  eexists. simpl. rewrite E. split; [done|]. intros r' Hne.
  rewrite rget_toy_regs, rget_rset_ne by done. apply wrap64_small, Hr.
Qed.
Next Obligation.
  intros w pid r c w' b. simpl. destruct (decide _); intros; by simplify_eq.
Qed.
Next Obligation.
  intros w pid r c w' b. simpl. destruct (decide _); intros; by simplify_eq.
Qed.
Next Obligation.
  intros w pid r c w' p. simpl. destruct (decide _); intros; by simplify_eq.
Qed.

(** ** A kernel that knows whether the program runs *)

Record live : Type := Live { lv_toy : toy; lv_running : bool }.

(** A program that is stopped has nothing to report: the call never returns.
    One that runs reports the next entry of the script and, after its end,
    nothing: the call fails. *)
Definition live_waitpid (w : live) (pid : Z) : option (Z * Z * live) :=
  if lv_running w then
    match toy_waitpid (lv_toy w) pid with
    | Some (r, status, t) =>
        Some (r, status,
          if WIFSTOPPED status then Live t false
          else Live (Toy (ty_pid t) (ty_mem t) (ty_regs t) [] (ty_text t) (ty_files t)) true)
    | None => None
    end
  else None.

Definition on_toy (b : live → bool) (g : toy → Z * toy) (w : live) : Z * live :=
  let '(r, t) := g (lv_toy w) in (r, Live t (b w)).

#[export] Instance live_kernel : Kernel live := {
  sys_strerror w := sys_strerror (lv_toy w);
  sys_fork := on_toy (λ _, true) sys_fork;
  ptrace_traceme := on_toy lv_running ptrace_traceme;
  execlp_ok w := execlp_ok (lv_toy w);
  sys_waitpid := live_waitpid;
  ptrace_setoptions w pid := w;
  ptrace_getregs w := ptrace_getregs (lv_toy w);
  ptrace_setregs w pid r := on_toy lv_running (λ t, ptrace_setregs t pid r) w;
  ptrace_peek w := ptrace_peek (lv_toy w);
  ptrace_poke w pid a v := on_toy lv_running (λ t, ptrace_poke t pid a v) w;
  ptrace_singlestep w pid := on_toy (λ _, true) (λ t, ptrace_singlestep t pid) w;
  ptrace_cont w pid := on_toy (λ _, true) (λ t, ptrace_cont t pid) w;
  fopen_lines w := fopen_lines (lv_toy w);
  fopen_bytes w := fopen_bytes (lv_toy w) }.

#[export] Instance live_wait : WaitLaws live.
Proof.
  split; intros w p r st w1; simpl; unfold live_waitpid, toy_waitpid.
  - intros r' st' w2 Hp. destruct (lv_running w); [|done].
    destruct (ty_script _) as [|[s0 r0] sc]; intros E Hr Hst E2; simplify_eq.
    by rewrite Hst in E2.
  - intros Hp. destruct (lv_running w); [|done].
    destruct (ty_script _) as [|[s0 r0] sc]; intros E Hr Hst; simplify_eq; [lia|].
    rewrite Hst. simpl. eexists _, _, _. split; [done|lia].
Qed.
