(* ===== verification/SdbState.v ===== *)
(** * The state of sdb

    The structures [bp_t] and [SDB] of sdb.h, the state every operation runs
    on (the debugger object, the loader's memory, what was printed, and the
    world outside), and the calls sdb makes on it. *)
From S2P Require Import Prelude Libc Elftool Kernel.

Definition MAX_BREAK : nat := 10.

(** [is_used] is 0 or 1; [addr] and [original_word] are unsigned 64-bit. *)
Record bp_t : Type := Bp { is_used : bool; bp_addr : Z; original_word : Z }.

Record SDB : Type := Sdb {
  sdb_eh : option loc;
  sdb_strtab : option loc;
  sdb_path : string;
  sdb_pid : Z;
  breaks : list bp_t;
  last_disasm_addr : Z }.

Inductive event : Type :=
  | Stdout (text : string)
  | Stderr (text : string).

Record St (W : Type) : Type := State {
  st_sdb : SDB;
  st_mem : cmem;
  st_out : list event;
  st_world : W }.
Arguments State {W} _ _ _ _.
Arguments st_sdb {W} _.
Arguments st_mem {W} _.
Arguments st_out {W} _.
Arguments st_world {W} _.

(** ** Field updates *)

Definition with_eh (p : option loc) (s : SDB) : SDB :=
  Sdb p (sdb_strtab s) (sdb_path s) (sdb_pid s) (breaks s) (last_disasm_addr s).
Definition with_tab (p : option loc) (s : SDB) : SDB :=
  Sdb (sdb_eh s) p (sdb_path s) (sdb_pid s) (breaks s) (last_disasm_addr s).
Definition with_path (p : string) (s : SDB) : SDB :=
  Sdb (sdb_eh s) (sdb_strtab s) p (sdb_pid s) (breaks s) (last_disasm_addr s).
Definition with_pid (p : Z) (s : SDB) : SDB :=
  Sdb (sdb_eh s) (sdb_strtab s) (sdb_path s) p (breaks s) (last_disasm_addr s).
Definition with_breaks (b : list bp_t) (s : SDB) : SDB :=
  Sdb (sdb_eh s) (sdb_strtab s) (sdb_path s) (sdb_pid s) b (last_disasm_addr s).
Definition with_last (a : Z) (s : SDB) : SDB :=
  Sdb (sdb_eh s) (sdb_strtab s) (sdb_path s) (sdb_pid s) (breaks s) a.

Definition on_sdb {W} (f : SDB → SDB) (s : St W) : St W :=
  State (f (st_sdb s)) (st_mem s) (st_out s) (st_world s).
Definition on_world {W} (w : W) (s : St W) : St W :=
  State (st_sdb s) (st_mem s) (st_out s) w.
Definition on_out {W} (e : event) (s : St W) : St W :=
  State (st_sdb s) (st_mem s) (st_out s ++ [e]) (st_world s).

Section calls.
Context {W : Type} `{Kernel W}.

(** ** Printing *)

Definition printf (fmt : string) (args : list arg) : M (St W) unit :=
  match format fmt args with
  | Some t => modify (on_out (Stdout t))
  | None => undef BadFormat
  end.
Definition eprintf (fmt : string) (args : list arg) : M (St W) unit :=
  match format fmt args with
  | Some t => modify (on_out (Stderr t))
  | None => undef BadFormat
  end.
(** [perror]: the prefix, a colon and the message of [errno]. *)
Definition perror (prefix : string) : M (St W) unit := modify (λ s,
  on_out (Stderr (prefix +:+ ": " +:+ sys_strerror (st_world s) +:+ newline)) s).
Definition puts (s : string) : M (St W) unit := modify (on_out (Stdout (s +:+ newline))).

(** ** The debugger object and the loader's memory *)

Definition get_sdb : M (St W) SDB := gets st_sdb.
Definition put_sdb (f : SDB → SDB) : M (St W) unit := modify (on_sdb f).

(** A call of elftool.c. *)
Definition elf {A} (m : M cmem A) : M (St W) A := λ s,
  match m (st_mem s) with
  | Ret (a, mem) => Ret (a, State (st_sdb s) mem (st_out s) (st_world s))
  | Undef u => Undef u
  | Blocks => Blocks
  | NoFuel => NoFuel
  | Exits c => Exits c
  | Execs p => Execs p
  end.

(** [*(sdb->eh)] *)
Definition handle : M (St W) elf_handle_t :=
  s ← get_sdb; l ← deref (sdb_eh s); elf (load_handle l).

(** [sdb->breaks[i]] *)
Definition get_break (i : nat) : M (St W) bp_t :=
  s ← get_sdb; at_index (breaks s) i.
Definition set_break (i : nat) (b : bp_t) : M (St W) unit :=
  s ← get_sdb; _ ← at_index (breaks s) i; put_sdb (with_breaks (<[i := b]> (breaks s))).

(** ** Requests to the kernel: results only, the world is threaded *)

Definition world {A} (f : W → A * W) : M (St W) A := λ s,
  let '(a, w) := f (st_world s) in Ret (a, on_world w s).

Definition put_world (w : W) : M (St W) unit := modify (on_world w).

Definition pid : M (St W) Z := s ← get_sdb; mret (sdb_pid s).

(** [None]: the request failed and the structure was not filled. *)
Definition getregs : M (St W) (option user_regs) :=
  p ← pid; s ← get; mret (ptrace_getregs (st_world s) p).
Definition setregs (r : user_regs) : M (St W) Z := p ← pid; world (λ w, ptrace_setregs w p r).
(** [ptrace(PTRACE_PEEKTEXT, ...)] returns -1 on error. *)
Definition peek_opt (a : Z) : M (St W) (option Z) :=
  p ← pid; s ← get; mret (ptrace_peek (st_world s) p a).
Definition peektext (a : Z) : M (St W) Z := o ← peek_opt a; mret (default (2 ^ 64 - 1) o).
Definition poketext (a v : Z) : M (St W) Z := p ← pid; world (λ w, ptrace_poke w p a v).
Definition singlestep : M (St W) Z := p ← pid; world (λ w, ptrace_singlestep w p).
Definition cont : M (St W) Z := p ← pid; world (λ w, ptrace_cont w p).
Definition setoptions : M (St W) unit := p ← pid; world (λ w, (tt, ptrace_setoptions w p)).

(** [waitpid(sdb->pid, &status, 0)] *)
Definition waitpid : M (St W) (Z * Z) :=
  p ← pid;
  s ← get;
  match sys_waitpid (st_world s) p with
  | None => blocks
  | Some (r, status, w) => put_world w ≫= λ _, mret (r, status)
  end.

End calls.

(** ** Calls of the loader leave the rest of the state alone *)

Section elf_lemmas.
Context {W : Type} `{Kernel W}.

Lemma elf_Ret {A} (m : M cmem A) (s : St W) a mem :
  m (st_mem s) = Ret (a, mem) →
  elf m s = Ret (a, State (st_sdb s) mem (st_out s) (st_world s)).
Proof. unfold elf. by intros ->. Qed.

Lemma wp_elf {A} (m : M cmem A) (Q : A → St W → Prop) (s : St W) :
  wp m (λ a mem, Q a (State (st_sdb s) mem (st_out s) (st_world s))) (st_mem s) →
  wp (elf m) Q s.
Proof. unfold wp, elf. by destruct (m (st_mem s)) as [[a mem]| | | | |]. Qed.

End elf_lemmas.

(** ** The calls, as rules *)

Section call_rules.
Context {W : Type} `{Kernel W}.
Implicit Types (s : St W).

Lemma wp_get_sdb (Q : SDB → St W → Prop) s : Q (st_sdb s) s → wp get_sdb Q s.
Proof. done. Qed.
Lemma wp_put_sdb f (Q : unit → St W → Prop) s : Q tt (on_sdb f s) → wp (put_sdb f) Q s.
Proof. done. Qed.
Lemma wp_at_index {S A} (l : list A) (i : nat) x (Q : A → S → Prop) (t : S) :
  l !! i = Some x → Q x t → wp (at_index l i) Q t.
Proof. intros Hi HQ. unfold at_index. rewrite Hi. by apply wp_ret. Qed.
Lemma wp_get_break i bp (Q : bp_t → St W → Prop) s :
  breaks (st_sdb s) !! i = Some bp → Q bp s → wp (get_break i) Q s.
Proof. intros Hi HQ. apply wp_bind, wp_get_sdb. by eapply wp_at_index. Qed.
Lemma wp_set_break i bp b (Q : unit → St W → Prop) s :
  breaks (st_sdb s) !! i = Some bp →
  Q tt (on_sdb (with_breaks (<[i := b]> (breaks (st_sdb s)))) s) →
  wp (set_break i b) Q s.
Proof.
  intros Hi HQ. apply wp_bind, wp_get_sdb, wp_bind. eapply wp_at_index; [done|].
  by apply wp_put_sdb.
Qed.
Lemma wp_getregs (Q : option user_regs → St W → Prop) s :
  Q (ptrace_getregs (st_world s) (sdb_pid (st_sdb s))) s → wp getregs Q s.
Proof. done. Qed.
Lemma wp_peektext a (Q : Z → St W → Prop) s :
  Q (default (2 ^ 64 - 1) (ptrace_peek (st_world s) (sdb_pid (st_sdb s)) a)) s →
  wp (peektext a) Q s.
Proof. done. Qed.
Lemma wp_poketext a v (Q : Z → St W → Prop) s r w :
  ptrace_poke (st_world s) (sdb_pid (st_sdb s)) a v = (r, w) →
  Q r (on_world w s) → wp (poketext a v) Q s.
Proof.
  intros E HQ. unfold wp, poketext, pid, world, get_sdb, gets, mbind, M_bind, mret, M_ret.
  rewrite E. exact HQ.
Qed.
Lemma wp_setregs x (Q : Z → St W → Prop) s r w :
  ptrace_setregs (st_world s) (sdb_pid (st_sdb s)) x = (r, w) →
  Q r (on_world w s) → wp (setregs x) Q s.
Proof.
  intros E HQ. unfold wp, setregs, pid, world, get_sdb, gets, mbind, M_bind, mret, M_ret.
  rewrite E. exact HQ.
Qed.
Lemma wp_waitpid (Q : Z * Z → St W → Prop) s r st w :
  sys_waitpid (st_world s) (sdb_pid (st_sdb s)) = Some (r, st, w) →
  Q (r, st) (on_world w s) → wp waitpid Q s.
Proof.
  intros E HQ. unfold waitpid, pid, wp, get_sdb, gets, get, mbind, M_bind, mret, M_ret.
  rewrite E. exact HQ.
Qed.
Lemma wp_puts t (Q : unit → St W → Prop) s :
  Q tt (on_out (Stdout (t +:+ newline)) s) → wp (puts t) Q s.
Proof. done. Qed.
Lemma wp_printf fmt args t (Q : unit → St W → Prop) s :
  format fmt args = Some t → Q tt (on_out (Stdout t) s) → wp (printf fmt args) Q s.
Proof. intros E HQ. unfold printf. rewrite E. by apply wp_modify. Qed.

Lemma waitpid_eq s :
  waitpid s = match sys_waitpid (st_world s) (sdb_pid (st_sdb s)) with
              | Some (r, st, w) => Ret ((r, st), on_world w s)
              | None => Blocks
              end.
Proof.
  unfold waitpid, pid, get_sdb, gets, get, put_world, modify, mbind, M_bind, mret, M_ret.
  by destruct (sys_waitpid _ _) as [[[r st] w]|].
Qed.
Lemma getregs_eq s : getregs s = Ret (ptrace_getregs (st_world s) (sdb_pid (st_sdb s)), s).
Proof. done. Qed.
Lemma printf_ok fmt args s :
  is_Some (format fmt args) →
  printf fmt args s = Ret (tt, on_out (Stdout (default "" (format fmt args))) s).
Proof. unfold printf. by intros [t ->]. Qed.

Lemma printf_bind {A} fmt args (k : unit → M (St W) A) s :
  is_Some (format fmt args) →
  (printf fmt args ≫= k) s = k tt (on_out (Stdout (default "" (format fmt args))) s).
Proof. intros Hf. by rewrite (bind_Ret _ _ _ _ _ (printf_ok fmt args s Hf)). Qed.
Lemma cont_eq s c w :
  ptrace_cont (st_world s) (sdb_pid (st_sdb s)) = (c, w) → cont s = Ret (c, on_world w s).
Proof.
  intros E. unfold cont, pid, world, get_sdb, gets, mbind, M_bind, mret, M_ret. by rewrite E.
Qed.
Lemma get_sdb_bind {A} (k : SDB → M (St W) A) s : (get_sdb ≫= k) s = k (st_sdb s) s.
Proof. done. Qed.
Lemma puts_ok t s : puts t s = Ret (tt, on_out (Stdout (t +:+ newline)) s).
Proof. done. Qed.

End call_rules.

(** The state after a list of chunks was printed. *)
Definition on_outs {W} (es : list event) (s : St W) : St W :=
  State (st_sdb s) (st_mem s) (st_out s ++ es) (st_world s).

Lemma on_outs_nil {W} (s : St W) : on_outs [] s = s.
Proof. unfold on_outs. rewrite app_nil_r. by destruct s. Qed.
Lemma on_outs_one {W} e (s : St W) : on_out e s = on_outs [e] s.
Proof. done. Qed.
Lemma on_outs_app {W} es es' (s : St W) : on_outs es' (on_outs es s) = on_outs (es ++ es') s.
Proof. unfold on_outs. simpl. by rewrite app_assoc. Qed.

#[export] Hint Resolve wp_get_sdb wp_put_sdb wp_getregs wp_peektext wp_puts : wp.
