(* ===== verification/SdbBreak.v ===== *)
(** * sdb: breakpoints

    Address conversion for position-independent programs, planting the int3
    bytes, and the commands that set, list and delete breakpoints and step.
    The header of the section of theorems states the abstract view: the
    program's own bytes, overlaid with 0xcc where a breakpoint is planted. *)
From S2P Require Import Prelude Libc Elftool Kernel SdbState.

Section sdb_break.
Context {W : Type} `{Kernel W}.

(** ** convert_dynamic_addr *)

(** The path of the maps file: [sprintf(proc_info_path, "/proc/%d/maps", pid)]. *)
Definition proc_maps_path (p : Z) : string := default "" (format "/proc/%d/maps" [AInt p]).

(** The [while] over the tokens of a line: [count] numbers them; the flags and
    [base_addr] are the locals of the function. *)
Fixpoint convert_tokens (path : string) (count : nat) (tokens : list string)
    (is_executable is_exe_area : bool) (base_addr : option Z)
  : outcome (bool * bool * option Z) :=
  match tokens with
  | [] => mret (is_executable, is_exe_area, base_addr)
  | token :: tokens =>
      match count with
      | 0%nat =>
          match split_at "-" token with
          | None => Undef NullDeref                   (* strchr gave NULL *)
          | Some (first, second) =>
              convert_tokens path 1 tokens is_executable is_exe_area (scan_llx first)
          end
      | 1%nat =>
          if (String.length token <? 3)%nat then Undef OutOfBounds    (* token[3] = 0 *)
          else convert_tokens path 2 tokens
                 (is_executable || bool_decide (String.substring 0 3 token = "r-x")) is_exe_area base_addr
      | 5%nat =>
          convert_tokens path 6 tokens is_executable
            (is_exe_area || bool_decide (basename token = basename path)) base_addr
      | _ => convert_tokens path (S count) tokens is_executable is_exe_area base_addr
      end
  end.

(** The [while] over the lines. *)
Fixpoint convert_lines (path : string) (lines : list string) (base_addr : option Z)
  : outcome (option Z) :=
  match lines with
  | [] => mret base_addr
  | line :: lines =>
      '(is_executable, is_exe_area, base_addr) ←
        convert_tokens path 0 (strtok_all line (" " +:+ newline)) false false base_addr;
      if is_executable && is_exe_area then mret base_addr
      else convert_lines path lines base_addr
  end.

Definition convert_dynamic_addr (addr : Z) : M (St W) Z :=
  s ← get;
  lines ← deref (fopen_lines (st_world s) (proc_maps_path (sdb_pid (st_sdb s))));
  base ← pure (convert_lines (sdb_path (st_sdb s)) lines None);
  base_addr ← read_init base;
  mret (wrap64 (base_addr + addr)).

(** [addr], or its run-time address when the program is position independent. *)
Definition run_addr (addr : Z) : M (St W) Z :=
  eh ← handle;
  if e_type eh =? 3 then convert_dynamic_addr addr else mret addr.

(** ** sdb_patch_all_bp *)

Definition int3_word (word : Z) : Z := Z.lor (Z.land word 0xffffffffffffff00) 0xcc.

(** A program stopped on the breakpoint first executes the instruction there. *)
Definition step_off (addr : Z) : M (St W) unit :=
  o ← getregs;
  regs ← read_init o;
  if u_rip regs =? addr then
    singlestep ≫= λ _,
    '(r, _) ← waitpid;
    if r <? 0 then puts "Failed to wait" else mret tt
  else mret tt.

(** The word at [addr] is saved and its first byte replaced by 0xcc; [Some] is
    the [return] in the middle of the loop. *)
Definition plant (i : nat) (bp : bp_t) (addr : Z) : M (St W) (option unit) :=
  word ← peektext addr;
  if Z.land word 255 =? 0xcc then mret None
  else
    set_break i (Bp (is_used bp) (bp_addr bp) word) ≫= λ _,
    r ← poketext addr (int3_word word);
    if negb (r =? 0) then puts "failed to patch the code" ≫= λ _, mret (Some tt)
    else mret None.

(** One iteration of the loop. *)
Definition patch_bp (i : nat) : M (St W) (option unit) :=
  bp ← get_break i;
  if is_used bp then
    addr ← run_addr (bp_addr bp);
    step_off addr ≫= λ _,
    plant i bp addr
  else mret None.

Definition sdb_patch_all_bp : M (St W) unit :=
  for_each (indices MAX_BREAK) patch_bp ≫= λ _, mret tt.

(** ** The commands *)

Definition sdb_is_loaded (s : SDB) : bool := negb (bool_decide (sdb_path s = "")).
Definition sdb_is_running (s : SDB) : bool := negb (sdb_pid s =? -1).

(** [if(addr_str[1] == 'x') addr_str += 2] on a string that lives in a buffer of
    at least two bytes. *)
Definition skip_0x (addr_str : string) : string :=
  match addr_str with
  | String _ (String c s) => if bool_decide (c = "x"%char) then s else addr_str
  | _ => addr_str
  end.

(** The first slot that is not used. *)
Fixpoint free_slot (bs : list bp_t) (i : nat) : option nat :=
  match bs with
  | [] => None
  | b :: bs => if is_used b then free_slot bs (S i) else Some i
  end.

Definition sdb_set_break (addr_str : string) : M (St W) unit :=
  s ← get_sdb;
  if negb (sdb_is_loaded s) then puts "No program loaded"
  else
    addr ← read_init (scan_llx (skip_0x addr_str));
    match free_slot (breaks s) 0 with
    | None => undef Uninit                  (* bp is not assigned *)
    | Some i =>
        bp ← get_break i;
        set_break i (Bp true addr (original_word bp)) ≫= λ _,
        if sdb_is_running s then sdb_patch_all_bp else mret tt
    end.

Definition list_bp (i : nat) : M (St W) (option unit) :=
  bp ← get_break i;
  (if is_used bp
   then printf ("%4d: %llx" +:+ newline) [AInt (Z.of_nat i); AInt (bp_addr bp)]
   else mret tt) ≫= λ _, mret None.
Definition sdb_list : M (St W) unit :=
  for_each (indices MAX_BREAK) list_bp ≫= λ _, mret tt.

Definition sdb_delete (index : Z) : M (St W) unit :=
  if (0 <=? index) && (index <? Z.of_nat MAX_BREAK) then
    let i := Z.to_nat index in
    bp ← get_break i;
    if is_used bp then
      word ← peektext (bp_addr bp);
      (if Z.land word 255 =? 0xcc
       then poketext (bp_addr bp) (original_word bp) ≫= λ _, mret tt
       else mret tt) ≫= λ _,
      set_break i (Bp false (bp_addr bp) (original_word bp)) ≫= λ _,
      printf ("** breakpoint %d deleted." +:+ newline) [AInt index]
    else mret tt
  else mret tt.

Definition sdb_step : M (St W) unit :=
  s ← get_sdb;
  if negb (sdb_is_running s) then puts "Not running"
  else
    r ← singlestep;
    if r <? 0 then puts "Step failed"
    else
      '(r, _) ← waitpid;
      if r <? 0 then puts "Failed to wait" else mret tt.

End sdb_break.

(** * Theorems *)

(** ** The int3 word: only its first byte differs *)

Lemma int3_mask_testbit n : 0 ≤ n < 64 → Z.testbit 0xffffffffffffff00 n = (8 <=? n).
Proof.
  intros Hn. change 0xffffffffffffff00 with (Z.shiftl (Z.ones 56) 8).
  rewrite Z.shiftl_spec by lia.
  destruct (Z.leb_spec 8 n).
  - rewrite Z.testbit_ones_nonneg by lia. apply Z.ltb_lt. lia.
  - apply Z.testbit_neg_r. lia.
Qed.

Lemma int3_byte_testbit n : 8 ≤ n → Z.testbit 0xcc n = false.
Proof. intros Hn. apply Z.bits_above_log2; [lia|]. change (Z.log2 0xcc) with 7. lia. Qed.

Lemma byte_of_int3_0 w : byte_of (int3_word w) 0 = 0xcc.
Proof.
  apply Z.bits_inj'. intros n Hn. rewrite byte_of_testbit by lia.
  unfold int3_word. rewrite Z.lor_spec, Z.land_spec.
  destruct (Z.ltb_spec n 8).
  - rewrite int3_mask_testbit by lia.
    replace (8 * 0 + n) with n by lia.
    destruct (Z.leb_spec 8 n); [lia|]. by rewrite andb_false_r.
  - by rewrite (int3_byte_testbit n).
Qed.

Lemma byte_of_int3 w i : 1 ≤ i < 8 → byte_of (int3_word w) i = byte_of w i.
Proof.
  intros Hi. apply Z.bits_inj'. intros n Hn. rewrite !byte_of_testbit by lia.
  destruct (Z.ltb_spec n 8); [|done]. simpl.
  unfold int3_word. rewrite Z.lor_spec, Z.land_spec.
  rewrite int3_mask_testbit by lia. rewrite (int3_byte_testbit (8 * i + n)) by lia.
  destruct (Z.leb_spec 8 (8 * i + n)); [|lia]. by rewrite andb_true_r, orb_false_r.
Qed.

(** ** The abstract view of the breakpoints *)

Section theorems.
Context {W : Type} `{KernelLaws W}.
Implicit Types (s : St W) (f : Z → Z) (orig : Z → option Z) (B : gset Z).

(** The byte of the tracee at [b]. *)
Definition mem_at s (b : Z) : option Z := tbyte (st_world s) (sdb_pid (st_sdb s)) b.

(** Slot [i] holds the breakpoint [bp]. *)
Definition used s (i : nat) (bp : bp_t) : Prop :=
  breaks (st_sdb s) !! i = Some bp ∧ is_used bp = true.

(** The run-time addresses of the breakpoints that are set. *)
Definition used_addrs f s : gset Z :=
  list_to_set ((f ∘ bp_addr) <$> filter (λ bp, is_used bp = true) (breaks (st_sdb s))).

Lemma elem_of_used_addrs f s b :
  b ∈ used_addrs f s ↔ ∃ i bp, used s i bp ∧ f (bp_addr bp) = b.
Proof.
  unfold used_addrs, used. rewrite elem_of_list_to_set, list_elem_of_fmap. split.
  - intros (bp & -> & [Hu Hin]%list_elem_of_filter).
    apply list_elem_of_lookup in Hin as [i Hi]. eauto 10.
  - intros (i & bp & [Hi Hu] & <-). exists bp. split; [done|].
    apply list_elem_of_filter. split; [done|]. by eapply list_elem_of_lookup_2.
Qed.

(** The program's own bytes, with 0xcc at the addresses in [B]. *)
Definition overlay orig B (b : Z) : option Z :=
  if decide (b ∈ B) then Some 0xcc else orig b.

(** Breakpoints set at least a word apart. *)
Definition spaced f s : Prop := ∀ i j bi bj,
  used s i bi → used s j bj → i ≠ j → 8 ≤ Z.abs (f (bp_addr bi) - f (bp_addr bj)).

(** The load address of the program: how [run_addr] moves an address. *)
Definition view f s : Prop := ∀ a, run_addr a s = Ret (f a, s).

(** The relation between the debugger and the abstract breakpoints: the
    tracee shows [orig] overlaid at [B], every planted address is one of a
    breakpoint that is set, and the words to put back are the program's. *)
Record bp_inv orig B f s : Prop := BpInv {
  inv_len : length (breaks (st_sdb s)) = MAX_BREAK;
  inv_mem b : mem_at s b = overlay orig B b;
  inv_sub : B ⊆ used_addrs f s;
  inv_saved i bp k : used s i bp → f (bp_addr bp) ∈ B → 0 ≤ k < 8 →
    orig (f (bp_addr bp) + k) = Some (byte_of (original_word bp) k);
  inv_spaced : spaced f s }.

(** Every breakpoint that is set has the program's word saved, planted or not. *)
Definition all_saved orig f s : Prop := ∀ i bp k,
  used s i bp → 0 ≤ k < 8 → orig (f (bp_addr bp) + k) = Some (byte_of (original_word bp) k).

Lemma planted_saved orig f s : bp_inv orig (used_addrs f s) f s → all_saved orig f s.
Proof.
  intros Hinv i bp k Hu. apply (inv_saved _ _ _ _ Hinv i bp k Hu).
  apply elem_of_used_addrs. by exists i, bp.
Qed.

(** Where the relation starts: nothing is planted. *)
Lemma bp_inv_fresh f s :
  length (breaks (st_sdb s)) = MAX_BREAK → spaced f s → bp_inv (mem_at s) ∅ f s.
Proof. intros Hlen Hsp. split; [done| |set_solver..|done]. done. Qed.

(** [patch] can reach every breakpoint, and the program's own byte there is
    not an int3. *)
Definition patchable orig f s : Prop := ∀ i bp, used s i bp →
  is_Some (ptrace_peek (st_world s) (sdb_pid (st_sdb s)) (f (bp_addr bp))) ∧
  orig (f (bp_addr bp)) ≠ Some 0xcc.

(** What the breakpoint code leaves alone. *)
Definition slot_key (bp : bp_t) : bool * Z := (is_used bp, bp_addr bp).
Record same_but_saved s s' : Prop := SameButSaved {
  sbs_eh : sdb_eh (st_sdb s') = sdb_eh (st_sdb s);
  sbs_strtab : sdb_strtab (st_sdb s') = sdb_strtab (st_sdb s);
  sbs_path : sdb_path (st_sdb s') = sdb_path (st_sdb s);
  sbs_pid : sdb_pid (st_sdb s') = sdb_pid (st_sdb s);
  sbs_last : last_disasm_addr (st_sdb s') = last_disasm_addr (st_sdb s);
  sbs_slots : slot_key <$> breaks (st_sdb s') = slot_key <$> breaks (st_sdb s);
  sbs_mem : st_mem s' = st_mem s;
  sbs_out : st_out s' = st_out s;
  sbs_regs : ptrace_getregs (st_world s') (sdb_pid (st_sdb s))
             = ptrace_getregs (st_world s) (sdb_pid (st_sdb s));
  sbs_files p : fopen_lines (st_world s') p = fopen_lines (st_world s) p;
  sbs_peek a : is_Some (ptrace_peek (st_world s) (sdb_pid (st_sdb s)) a) →
               is_Some (ptrace_peek (st_world s') (sdb_pid (st_sdb s)) a) }.

#[export] Instance same_but_saved_preorder : PreOrder same_but_saved.
Proof.
  split.
  - intros s. by split.
  - intros s1 s2 s3 [] []. split; try congruence.
    intros a Ha. repeat match goal with H : sdb_pid _ = _ |- _ => rewrite H in * end. auto.
Qed.

Lemma used_same s s' i bp' :
  same_but_saved s s' → used s' i bp' →
  ∃ bp, used s i bp ∧ bp_addr bp = bp_addr bp'.
Proof.
  intros Hs [Hi Hu]. pose proof (sbs_slots _ _ Hs) as E.
  apply (f_equal (λ l, l !! i)) in E. rewrite !list_lookup_fmap, Hi in E.
  destruct (breaks (st_sdb s) !! i) as [bp|] eqn:Hbp; [|done].
  simpl in E. unfold slot_key in E. exists bp. split; [split|]; congruence.
Qed.

Lemma used_same_l s s' i bp :
  same_but_saved s s' → used s i bp →
  ∃ bp', used s' i bp' ∧ bp_addr bp' = bp_addr bp.
Proof.
  intros Hs [Hi Hu]. pose proof (sbs_slots _ _ Hs) as E.
  apply (f_equal (λ l, l !! i)) in E. rewrite !list_lookup_fmap, Hi in E.
  destruct (breaks (st_sdb s') !! i) as [bp'|] eqn:Hbp; [|done].
  simpl in E. unfold slot_key in E. exists bp'. split; [split|]; congruence.
Qed.

Lemma used_addrs_same f s s' : same_but_saved s s' → used_addrs f s' = used_addrs f s.
Proof.
  intros Hs. apply set_eq. intros b. rewrite !elem_of_used_addrs. split.
  - intros (i & bp' & Hu & <-). destruct (used_same _ _ _ _ Hs Hu) as (bp & Hb & E).
    exists i, bp. by rewrite E.
  - intros (i & bp & Hu & <-). destruct (used_same_l _ _ _ _ Hs Hu) as (bp' & Hb & E).
    exists i, bp'. by rewrite E.
Qed.

Lemma used_addrs_keys f s s' :
  slot_key <$> breaks (st_sdb s') = slot_key <$> breaks (st_sdb s) → used_addrs f s' = used_addrs f s.
Proof.
  unfold used_addrs. generalize (breaks (st_sdb s)) (breaks (st_sdb s')).
  induction l as [|b l IH]; intros [|b' l'] E; try done. injection E as Eu Ea E.
  rewrite !filter_cons, Eu. destruct (decide _); [|by apply IH].
  cbn. rewrite Ea. f_equal. by apply IH.
Qed.

Lemma patchable_same orig f s s' : same_but_saved s s' → patchable orig f s → patchable orig f s'.
Proof.
  intros Hs Hp i bp' Hu. destruct (used_same _ _ _ _ Hs Hu) as (bp & Hb & <-).
  destruct (Hp _ _ Hb) as [??]. rewrite (sbs_pid _ _ Hs). split; [|done].
  by apply (sbs_peek _ _ Hs).
Qed.

Lemma spaced_same f s s' : same_but_saved s s' → spaced f s → spaced f s'.
Proof.
  intros Hs Hp i j bi bj Hi Hj Hij.
  destruct (used_same _ _ _ _ Hs Hi) as (? & ? & <-).
  destruct (used_same _ _ _ _ Hs Hj) as (? & ? & <-). eauto.
Qed.

(** [run_addr] only reads the handle, the path, the pid and the maps file. *)
Lemma view_frame f s s' :
  sdb_eh (st_sdb s') = sdb_eh (st_sdb s) → sdb_path (st_sdb s') = sdb_path (st_sdb s) →
  sdb_pid (st_sdb s') = sdb_pid (st_sdb s) → st_mem s' = st_mem s →
  (∀ p, fopen_lines (st_world s') p = fopen_lines (st_world s) p) →
  view f s → view f s'.
Proof.
  intros Heh Hpath Hpid Hme Hf Hv a. specialize (Hv a). revert Hv.
  destruct s as [[eh tab path p bs last] me ou wo], s' as [[eh' tab' path' p' bs' last'] me' ou' wo'].
  cbn [st_sdb st_mem st_out st_world sdb_eh sdb_path sdb_pid] in *. subst.
  unfold run_addr, handle, convert_dynamic_addr, get_sdb, gets, get, elf, deref, pure, read_init,
    mbind, M_bind, outcome_bind, mret, M_ret, undef.
  cbn [st_sdb st_mem st_out st_world sdb_eh sdb_path sdb_pid].
  destruct eh as [l|]; [|done].
  cbn [st_sdb st_mem st_out st_world sdb_eh sdb_path sdb_pid].
  destruct (load_handle l me) as [[h m]| | | | |]; try done.
  cbn [st_sdb st_mem st_out st_world sdb_eh sdb_path sdb_pid].
  destruct (e_type h =? 3); [|congruence].
  cbn [st_sdb st_mem st_out st_world sdb_eh sdb_path sdb_pid]. rewrite Hf.
  destruct (fopen_lines wo _); [|done].
  destruct (convert_lines _ _ _) as [[b|]| | | | |]; cbv beta iota; congruence.
Qed.

Lemma view_same f s s' : same_but_saved s s' → view f s → view f s'.
Proof. intros []. by apply view_frame. Qed.

(** ** Planting *)

Lemma same_poke s a v w' :
  ptrace_poke (st_world s) (sdb_pid (st_sdb s)) a v = (0, w') →
  same_but_saved s (on_world w' s).
Proof.
  intros E. split; try done; simpl.
  - by eapply poke_regs.
  - intros p. by eapply poke_files.
  - intros b. by eapply poke_peek.
Qed.

Lemma same_set_slot s i bp word :
  breaks (st_sdb s) !! i = Some bp →
  same_but_saved s
    (on_sdb (with_breaks (<[i := Bp (is_used bp) (bp_addr bp) word]> (breaks (st_sdb s)))) s).
Proof.
  intros Hi. split; try done; simpl.
  rewrite list_fmap_insert. apply list_insert_id. rewrite list_lookup_fmap, Hi. done.
Qed.

(** A word poked at [a] whose tail is the tail of the word read there changes
    the byte at [a] only. *)
Lemma poke_one_byte s a v x w' b :
  ptrace_peek (st_world s) (sdb_pid (st_sdb s)) a = Some x →
  (∀ k, 1 ≤ k < 8 → byte_of v k = byte_of x k) →
  ptrace_poke (st_world s) (sdb_pid (st_sdb s)) a v = (0, w') →
  mem_at (on_world w' s) b = if decide (b = a) then Some (byte_of v 0) else mem_at s b.
Proof.
  intros Hx Htail Hp. unfold mem_at; simpl. rewrite (poke_bytes _ _ _ _ _ _ Hp).
  destruct (decide (a ≤ b < a + 8)) as [Hb|Hb]; destruct (decide (b = a)) as [->|Hne];
    try lia; [by rewrite Z.sub_diag| |done].
  rewrite Htail by lia. replace b with (a + (b - a)) at 2 by lia.
  symmetry. eapply peek_bytes; [done|lia].
Qed.

Lemma plant_spec i bp addr x s :
  breaks (st_sdb s) !! i = Some bp →
  ptrace_peek (st_world s) (sdb_pid (st_sdb s)) addr = Some x →
  wp (plant i bp addr) (λ r s', r = None ∧ same_but_saved s s' ∧
    (∀ b, mem_at s' b = if decide (b = addr) then Some 0xcc else mem_at s b) ∧
    if decide (mem_at s addr = Some 0xcc) then s' = s
    else breaks (st_sdb s') = <[i := Bp (is_used bp) (bp_addr bp) x]> (breaks (st_sdb s))) s.
Proof.
  intros Hi Hx.
  assert (mem_at s addr = Some (byte_of x 0)) as Hm.
  { replace addr with (addr + 0) by lia. eapply peek_bytes; [done|lia]. }
  unfold plant. apply wp_bind, wp_peektext. rewrite Hx; simpl default.
  rewrite <-byte_of_0. destruct (Z.eqb_spec (byte_of x 0) 0xcc) as [E|E].
  - apply wp_ret. rewrite Hm, E. split_and!; [done|done| |by rewrite decide_True].
    intros b. destruct (decide (b = addr)) as [->|]; congruence.
  - apply wp_bind. eapply wp_set_break; [done|].
    set (s1 := on_sdb _ s).
    destruct (ptrace_poke (st_world s1) (sdb_pid (st_sdb s1)) addr (int3_word x)) as [r w'] eqn:Hp.
    assert (r = 0) as ->.
    { pose proof (poke_mapped _ _ _ (int3_word x) _ Hx) as H1.
      change (ptrace_poke (st_world s) (sdb_pid (st_sdb s)) addr (int3_word x) = (r, w')) in Hp.
      by rewrite Hp in H1. }
    apply wp_bind. eapply wp_poketext; [done|]. apply wp_ret.
    split_and!; [done| | |].
    + transitivity s1; [by apply same_set_slot|]. by eapply same_poke.
    + intros b. rewrite (poke_one_byte s1 addr (int3_word x) x w' b Hx).
      * by rewrite byte_of_int3_0.
      * intros k Hk. by apply byte_of_int3.
      * done.
    + rewrite decide_False by congruence. done.
Qed.

(** Planting one more breakpoint keeps the invariant. *)
Lemma plant_inv orig B f i bp s :
  bp_inv orig B f s → patchable orig f s → used s i bp →
  wp (plant i bp (f (bp_addr bp))) (λ r s', r = None ∧ same_but_saved s s' ∧
    bp_inv orig ({[f (bp_addr bp)]} ∪ B) f s') s.
Proof.
  intros Hinv Hpatch Hu. destruct (Hpatch _ _ Hu) as [[x Hx] Hcc].
  destruct Hu as [Hi Hused].
  eapply wp_mono; [by apply plant_spec|].
  intros r s' (-> & Hs & Hmem & Hcase). split_and!; [done..|].
  set (a := f (bp_addr bp)) in *.
  assert (a ∉ B → mem_at s a ≠ Some 0xcc) as Hnew.
  { intros HaB. rewrite (inv_mem _ _ _ _ Hinv). unfold overlay. by rewrite decide_False. }
  assert (a ∈ used_addrs f s) as Ha by (apply elem_of_used_addrs; exists i, bp; done).
  split.
  - transitivity (length (slot_key <$> breaks (st_sdb s'))); [by rewrite length_fmap|].
    rewrite (sbs_slots _ _ Hs), length_fmap. apply Hinv.
  - intros b. rewrite Hmem, (inv_mem _ _ _ _ Hinv). unfold overlay.
    destruct (decide (b = a)) as [->|Hne]; [by rewrite decide_True by set_solver|].
    by destruct (decide (b ∈ B)); [rewrite decide_True by set_solver
                                  |rewrite decide_False by set_solver].
  - rewrite (used_addrs_same _ _ _ Hs). pose proof (inv_sub _ _ _ _ Hinv). set_solver.
  - intros j bj k Hj HB Hk.
    destruct (decide (mem_at s a = Some 0xcc)) as [Hcc'|Hcc'].
    + subst s'. apply (inv_saved _ _ _ _ Hinv j); [done| |done].
      apply elem_of_union in HB as [->%elem_of_singleton|]; [|done].
      destruct (decide (a ∈ B)); [done|]. by destruct Hnew.
    + destruct Hj as [Hj Hjused]. rewrite Hcase in Hj.
      destruct (decide (j = i)) as [->|Hne].
      * rewrite list_lookup_insert_eq in Hj by (by eapply lookup_lt_Some).
        simplify_eq/=. fold a.
        assert (a ∉ B) as HaB.
        { intros HaB. apply Hcc'. rewrite (inv_mem _ _ _ _ Hinv). unfold overlay.
          by rewrite decide_True. }
        pose proof (peek_bytes _ _ _ _ k Hx Hk) as Hb.
        change (mem_at s (a + k) = Some (byte_of x k)) in Hb.
        rewrite (inv_mem _ _ _ _ Hinv) in Hb. unfold overlay in Hb.
        rewrite decide_False in Hb; [done|]. intros HakB.
        assert (k ≠ 0) by (intros ->; by rewrite Z.add_0_r in HakB).
        apply (inv_sub _ _ _ _ Hinv), elem_of_used_addrs in HakB as (j & bj & Hj' & E).
        assert (i ≠ j) as Hij by (intros <-; destruct Hj'; simplify_eq; lia).
        pose proof (inv_spaced _ _ _ _ Hinv i j bp bj (conj Hi Hused) Hj' Hij). lia.
      * rewrite list_lookup_insert_ne in Hj by done.
        apply (inv_saved _ _ _ _ Hinv j); [done| |done].
        apply elem_of_union in HB as [E%elem_of_singleton|]; [|done].
        pose proof (inv_spaced _ _ _ _ Hinv i j bp bj (conj Hi Hused) (conj Hj Hjused)
                      ltac:(congruence)). lia.
  - eapply spaced_same; [done|apply Hinv].
Qed.

(** ** The loop of sdb_patch_all_bp *)

Lemma wp_run_addr f a (Q : Z → St W → Prop) s : view f s → Q (f a) s → wp (run_addr a) Q s.
Proof. intros Hv HQ. eapply wp_intro; [apply Hv|done]. Qed.

(** A program that is not stopped at [addr] is not stepped. *)
Lemma wp_step_off addr regs (Q : unit → St W → Prop) s :
  ptrace_getregs (st_world s) (sdb_pid (st_sdb s)) = Some regs → u_rip regs ≠ addr →
  Q tt s → wp (step_off addr) Q s.
Proof.
  intros Hr Hne HQ. unfold step_off. apply wp_bind, wp_getregs. rewrite Hr.
  apply wp_bind, wp_read_init. destruct (Z.eqb_spec (u_rip regs) addr); [done|].
  by apply wp_ret.
Qed.

(** No breakpoint is set where the program is stopped. *)
Definition rip_clear f s : Prop := ∃ regs,
  ptrace_getregs (st_world s) (sdb_pid (st_sdb s)) = Some regs ∧ u_rip regs ∉ used_addrs f s.

Lemma rip_clear_same f s s' : same_but_saved s s' → rip_clear f s → rip_clear f s'.
Proof.
  intros Hs (regs & Hr & Hn). exists regs.
  rewrite (sbs_pid _ _ Hs), (sbs_regs _ _ Hs), (used_addrs_same _ _ _ Hs). done.
Qed.

(** One iteration keeps what was planted and plants its own slot, when the
    program is not stopped there. *)
Lemma patch_bp_inv orig B f i regs s :
  bp_inv orig B f s → view f s → patchable orig f s → (i < MAX_BREAK)%nat →
  ptrace_getregs (st_world s) (sdb_pid (st_sdb s)) = Some regs →
  (∀ bp, used s i bp → u_rip regs ≠ f (bp_addr bp)) →
  wp (patch_bp i) (λ r s', r = None ∧ same_but_saved s s' ∧ ∃ B', B ⊆ B' ∧
    bp_inv orig B' f s' ∧ (∀ bp, used s i bp → f (bp_addr bp) ∈ B') ∧
    (∀ b, b ∈ B' → b ∈ B ∨ ∃ bp, used s i bp ∧ f (bp_addr bp) = b)) s.
Proof.
  intros Hinv Hv Hp Hi Hr Hrip.
  destruct (lookup_lt_is_Some_2 (breaks (st_sdb s)) i) as [bp Hbp].
  { by rewrite (inv_len _ _ _ _ Hinv). }
  unfold patch_bp. apply wp_bind. eapply wp_get_break; [done|].
  destruct (is_used bp) eqn:Hu.
  - apply wp_bind. eapply wp_run_addr; [done|].
    apply wp_bind. eapply wp_step_off; [done|by apply Hrip|].
    eapply wp_mono; [by apply (plant_inv orig B)|].
    intros r s' (-> & Hs & Hinv'). split_and!; [done..|].
    eexists; split_and!; [|done|..].
    + by apply union_subseteq_r.
    + intros bp' [Hbp' _]. simplify_eq. by apply elem_of_union_l, elem_of_singleton.
    + intros b [->%elem_of_singleton|]%elem_of_union; [right; by exists bp|by left].
  - apply wp_ret. split_and!; [done..|]. exists B. split_and!; [done..| |by left].
    intros bp' [Hbp' Hu']. congruence.
Qed.

(** What the slots from [j] to [j + n] leave. *)
Definition planted orig B f (j n : nat) s s' : Prop :=
  same_but_saved s s' ∧ ∃ B', B ⊆ B' ∧ bp_inv orig B' f s' ∧
  (∀ k bp, used s k bp → (j ≤ k < j + n)%nat → f (bp_addr bp) ∈ B') ∧
  (∀ b, b ∈ B' → b ∈ B ∨ ∃ k bp, used s k bp ∧ (j ≤ k < j + n)%nat ∧ f (bp_addr bp) = b).

Lemma patch_range orig B f j n regs s :
  bp_inv orig B f s → view f s → patchable orig f s → (j + n ≤ MAX_BREAK)%nat →
  ptrace_getregs (st_world s) (sdb_pid (st_sdb s)) = Some regs →
  (∀ k bp, used s k bp → (j ≤ k < j + n)%nat → u_rip regs ≠ f (bp_addr bp)) →
  wp (for_each (seq j n) patch_bp) (λ r s', r = None ∧ planted orig B f j n s s') s.
Proof.
  revert B j s. induction n as [|n IH]; intros B j s Hinv Hv Hp Hj Hr Hrip.
  - apply wp_ret. split; [done|]. split; [done|]. exists B. split_and!; [done..|lia|by left].
  - cbn [seq for_each]. apply wp_bind. eapply wp_mono.
    { apply (patch_bp_inv orig B f j regs); try done; [lia|]. intros bp Hu. eapply Hrip; [done|lia]. }
    intros r s1 (-> & Hs & B1 & Hsub & Hinv1 & Hj1 & Hj1'). cbv beta iota.
    eapply wp_mono.
    { apply (IH B1 (S j) s1); [done|by eapply view_same|by eapply patchable_same|lia| |].
      - by rewrite (sbs_pid _ _ Hs), (sbs_regs _ _ Hs).
      - intros k bp Hu Hk. destruct (used_same _ _ _ _ Hs Hu) as (bp0 & Hu0 & <-).
        eapply Hrip; [done|lia]. }
    intros r s2 (-> & Hs2 & B2 & Hsub2 & Hinv2 & Hk2 & Hk2'). split; [done|]. split; [by transitivity s1|].
    exists B2. split_and!; [by transitivity B1|done|..].
    + intros k bp Hu Hk. destruct (decide (k = j)) as [->|]; [by apply Hsub2, Hj1|].
      destruct (used_same_l _ _ _ _ Hs Hu) as (bp' & Hu' & <-). eapply Hk2; [done|lia].
    + intros b [[Hb|(bp & Hu & <-)]%Hj1'|(k & bp & Hu & Hk & <-)]%Hk2'; [by left| |]; right.
      * exists j, bp. split_and!; [done|lia..].
      * destruct (used_same _ _ _ _ Hs Hu) as (bp0 & Hu0 & <-). exists k, bp0. split_and!; [done|lia..].
Qed.

Lemma slots_split (i : nat) :
  (i < MAX_BREAK)%nat → indices MAX_BREAK = app (seq 0 i) (i :: seq (S i) (MAX_BREAK - S i)).
Proof.
  intros Hi. unfold indices. replace MAX_BREAK with (i + S (MAX_BREAK - S i))%nat at 1 by lia.
  by rewrite seq_app.
Qed.

Lemma used_lt f orig B s i bp : bp_inv orig B f s → used s i bp → (i < MAX_BREAK)%nat.
Proof. intros Hinv [Hi _]. rewrite <-(inv_len _ _ _ _ Hinv). by eapply lookup_lt_Some. Qed.

(** All that are used are planted, and nothing else. *)
Lemma planted_all orig B f s s' :
  bp_inv orig B f s' → same_but_saved s s' → (∀ i bp, used s i bp → f (bp_addr bp) ∈ B) →
  bp_inv orig (used_addrs f s) f s'.
Proof.
  intros Hinv Hs HB. replace (used_addrs f s) with B; [done|].
  apply set_eq. intros b. split.
  - intros Hb. rewrite <-(used_addrs_same f _ _ Hs). by apply (inv_sub _ _ _ _ Hinv).
  - intros (i & bp & Hu & <-)%elem_of_used_addrs. by eapply HB.
Qed.

Lemma patch_all_spec orig B f s :
  bp_inv orig B f s → view f s → patchable orig f s → rip_clear f s →
  wp sdb_patch_all_bp
    (λ _ s', bp_inv orig (used_addrs f s) f s' ∧ same_but_saved s s') s.
Proof.
  intros Hinv Hv Hp (regs & Hr & Hrip). unfold sdb_patch_all_bp. apply wp_bind.
  eapply wp_mono.
  { apply (patch_range orig B f 0 MAX_BREAK regs); try done.
    intros k bp Hu _ E. apply Hrip. rewrite E. apply elem_of_used_addrs. by exists k, bp. }
  intros r s' (_ & Hs & B' & _ & Hinv' & HB' & _). apply wp_ret. split; [|done].
  eapply planted_all; [done..|]. intros i bp Hu. eapply HB'; [done|].
  split; [lia|]. by apply (used_lt f orig B s i bp).
Qed.

(** C1. Refinement of the breakpoint table: with the program stopped on none of
    its breakpoints, which are eight bytes apart in readable words and on no
    int3 of its own, [sdb_patch_all_bp] returns, and from then on the tracee
    shows exactly the program's own bytes with 0xcc at the run-time address of
    every breakpoint that is set; the saved words are the program's, and
    nothing else of the debugger, the loader or the registers changes. *)
Theorem patch_all_overlay orig B f s :
  bp_inv orig B f s → view f s → patchable orig f s → rip_clear f s →
  wp sdb_patch_all_bp
    (λ _ s', bp_inv orig (used_addrs f s) f s' ∧ same_but_saved s s') s.
Proof. apply patch_all_spec. Qed.

(** ** Putting the program's bytes back *)

(** A saved word poked back where a breakpoint is planted uncovers the
    program's bytes there. *)
Lemma unplant_inv orig B f i bp s w' :
  bp_inv orig B f s → used s i bp → f (bp_addr bp) ∈ B →
  ptrace_poke (st_world s) (sdb_pid (st_sdb s)) (f (bp_addr bp)) (original_word bp) = (0, w') →
  bp_inv orig (B ∖ {[f (bp_addr bp)]}) f (on_world w' s).
Proof.
  intros Hinv Hu HB Hp. set (a := f (bp_addr bp)) in *.
  assert (∀ b, a < b < a + 8 → b ∉ B) as Hgap.
  { intros b Hb HbB. apply (inv_sub _ _ _ _ Hinv), elem_of_used_addrs in HbB
      as (j & bj & Hj & E).
    assert (i ≠ j) as Hij by (intros <-; destruct Hu, Hj; simplify_eq; lia).
    pose proof (inv_spaced _ _ _ _ Hinv i j bp bj Hu Hj Hij). lia. }
  split; [apply Hinv| | | |apply Hinv].
  - intros b. unfold mem_at; simpl. rewrite (poke_bytes _ _ _ _ _ _ Hp).
    unfold overlay. destruct (decide (a ≤ b < a + 8)) as [Hb|Hb].
    + rewrite <-(inv_saved _ _ _ _ Hinv i bp (b - a) Hu HB) by lia.
      fold a. replace (a + (b - a)) with b by lia. rewrite decide_False; [done|].
      rewrite elem_of_difference, elem_of_singleton.
      intros [HbB Hne]. apply (Hgap b); [lia|done].
    + pose proof (inv_mem _ _ _ _ Hinv b) as E. unfold mem_at, overlay in E. rewrite E.
      assert (b ≠ a) by lia.
      destruct (decide (b ∈ B)); [rewrite decide_True by set_solver
                                 |rewrite decide_False by set_solver]; done.
  - pose proof (inv_sub _ _ _ _ Hinv) as Hsub. intros b Hb. apply Hsub. set_solver.
  - intros j bj k Hj HjB Hk. apply (inv_saved _ _ _ _ Hinv j bj k Hj); [set_solver|done].
Qed.

(** Forgetting a slot that is not planted keeps the invariant. *)
Lemma forget_used i bp s j bj :
  used s i bp →
  used (on_sdb (with_breaks (<[i := Bp false (bp_addr bp) (original_word bp)]>
                               (breaks (st_sdb s)))) s) j bj ↔ used s j bj ∧ j ≠ i.
Proof.
  intros [Hi Hu]. apply lookup_lt_Some in Hi. unfold used; simpl.
  destruct (decide (j = i)) as [->|Hne].
  - rewrite list_lookup_insert_eq by done. naive_solver.
  - rewrite list_lookup_insert_ne by done. naive_solver.
Qed.

Lemma forget_addrs f i bp s :
  spaced f s → used s i bp →
  used_addrs f (on_sdb (with_breaks (<[i := Bp false (bp_addr bp) (original_word bp)]>
                                       (breaks (st_sdb s)))) s)
  = used_addrs f s ∖ {[f (bp_addr bp)]}.
Proof.
  intros Hsp Hu. apply set_eq. intros b.
  rewrite elem_of_difference, elem_of_singleton, !elem_of_used_addrs. split.
  - intros (j & bj & [Hj Hne]%forget_used & <-); [|done]. split; [by eauto|]. intros E.
    pose proof (Hsp j i bj bp Hj Hu Hne). lia.
  - intros [(j & bj & Hj & <-) Hne]. exists j, bj. split; [|done].
    apply forget_used; [done|]. split; [done|]. intros ->. destruct Hu, Hj. by simplify_eq.
Qed.

Lemma forget_inv orig B f i bp s :
  bp_inv orig B f s → used s i bp → f (bp_addr bp) ∉ B →
  let s' := on_sdb (with_breaks (<[i := Bp false (bp_addr bp) (original_word bp)]>
                                   (breaks (st_sdb s)))) s in
  bp_inv orig B f s' ∧ used_addrs f s' = used_addrs f s ∖ {[f (bp_addr bp)]}.
Proof.
  intros Hinv Hu HB s'.
  assert (∀ j bj, used s' j bj ↔ used s j bj ∧ j ≠ i) as Hused by (intros; by apply forget_used).
  assert (used_addrs f s' = used_addrs f s ∖ {[f (bp_addr bp)]}) as Haddrs.
  { apply forget_addrs; [apply Hinv|done]. }
  split; [|done]. split.
  - simpl. rewrite length_insert. apply Hinv.
  - apply Hinv.
  - rewrite Haddrs. pose proof (inv_sub _ _ _ _ Hinv). set_solver.
  - intros j bj k [Hj _]%Hused. by apply (inv_saved _ _ _ _ Hinv j).
  - intros j k bj bk [Hj _]%Hused [Hk _]%Hused. by apply (inv_spaced _ _ _ _ Hinv).
Qed.

(** The slot is released; the program's word is poked back where it was planted. *)
Lemma delete_spec orig B s i bp :
  bp_inv orig B id s → used s i bp →
  is_Some (ptrace_peek (st_world s) (sdb_pid (st_sdb s)) (bp_addr bp)) →
  orig (bp_addr bp) ≠ Some 0xcc →
  wp (sdb_delete (Z.of_nat i))
    (λ _ s', bp_inv orig (B ∖ {[bp_addr bp]}) id s' ∧
             used_addrs id s' = used_addrs id s ∖ {[bp_addr bp]} ∧
             (∃ t, st_out s' = st_out s ++ [Stdout t] ∧
                  format ("** breakpoint %d deleted." +:+ newline) [AInt (Z.of_nat i)] = Some t) ∧
             (∀ j bj, used s' j bj → used s j bj) ∧ (view id s → view id s')) s.
Proof.
  intros Hinv Hu [x Hx] Hcc. set (a := bp_addr bp) in *.
  assert (i < MAX_BREAK)%nat as Hi.
  { rewrite <-(inv_len _ _ _ _ Hinv). destruct Hu. by eapply lookup_lt_Some. }
  set (s1 := if decide (a ∈ B) then
               on_world (snd (ptrace_poke (st_world s) (sdb_pid (st_sdb s)) a (original_word bp))) s
             else s).
  assert (bp_inv orig (B ∖ {[a]}) id s1 ∧ used s1 i bp ∧ st_out s1 = st_out s ∧ st_sdb s1 = st_sdb s ∧
          same_but_saved s s1) as (Hinv1 & Hu1 & Hout & Hsdb & Hs1).
  { pose proof (poke_mapped _ _ _ (original_word bp) _ Hx) as E.
    unfold s1. destruct (decide (a ∈ B)) as [HB|HB]; cycle 1.
    - split_and!; try done. replace (B ∖ {[a]}) with B by set_solver. done.
    - destruct (ptrace_poke _ _ _ _) as [r w] eqn:Ep; simpl in *; subst r.
      split_and!; try done; [by apply (unplant_inv orig B id i bp)|by eapply same_poke]. }
  unfold sdb_delete.
  assert ((0 <=? Z.of_nat i) && (Z.of_nat i <? Z.of_nat MAX_BREAK) = true) as -> by lia.
  rewrite Nat2Z.id. apply wp_bind. eapply wp_get_break; [apply Hu|].
  rewrite (proj2 Hu). apply wp_bind, wp_peektext. fold a. rewrite Hx; simpl default.
  rewrite <-byte_of_0.
  assert (Some (byte_of x 0) = overlay orig B a) as Hbyte.
  { rewrite <-(inv_mem _ _ _ _ Hinv a). symmetry. replace a with (a + 0) at 1 by lia.
    eapply peek_bytes; [done|lia]. }
  apply wp_bind. apply (wp_intro _ _ s tt s1).
  { revert Hbyte. unfold s1, overlay. destruct (decide (a ∈ B)); intros Hbyte.
    - injection Hbyte as ->. simpl.
      unfold poketext, pid, world, get_sdb, gets, mbind, M_bind, mret, M_ret.
      by destruct (ptrace_poke _ _ _ _).
    - destruct (Z.eqb_spec (byte_of x 0) 0xcc) as [E|]; [|done]. by rewrite E in Hbyte. }
  apply wp_bind. eapply wp_set_break; [apply Hu1|].
  destruct (forget_inv orig (B ∖ {[a]}) id i bp s1) as [Hinv2 Haddr2]; [done..| |].
  { simpl. fold a. set_solver. }
  unfold printf. destruct (format _ _) as [t|] eqn:Ht; [|discriminate Ht].
  apply wp_modify. split_and!.
  - destruct Hinv2. by split.
  - rewrite <-(used_addrs_same id _ _ Hs1). apply Haddr2.
  - exists t. simpl. by rewrite Hout.
  - intros j bj Hj. apply (forget_used i bp s1 j bj Hu1) in Hj as [Hj _]. unfold used in *. by rewrite <-Hsdb.
  - intros Hv. apply (view_same _ _ _ Hs1) in Hv. by apply (view_frame id s1).
Qed.

(** C18. [sdb_delete] of a breakpoint that is set, eight bytes from every other and
    on no int3 of the program's own, in a program that is not position independent: the call returns, the slot is free, the program's own
    byte is back whether or not the breakpoint was planted, every other
    breakpoint stays planted, and the message names the index. *)
Theorem delete_restores orig B s i bp :
  bp_inv orig B id s → used s i bp →
  is_Some (ptrace_peek (st_world s) (sdb_pid (st_sdb s)) (bp_addr bp)) →
  orig (bp_addr bp) ≠ Some 0xcc →
  wp (sdb_delete (Z.of_nat i))
    (λ _ s', bp_inv orig (B ∖ {[bp_addr bp]}) id s' ∧
             used_addrs id s' = used_addrs id s ∖ {[bp_addr bp]} ∧
             ∃ t, st_out s' = st_out s ++ [Stdout t] ∧
                  format ("** breakpoint %d deleted." +:+ newline) [AInt (Z.of_nat i)] = Some t) s.
Proof.
  intros Hinv Hu Hx Hcc. eapply wp_mono; [by apply (delete_spec orig B s i bp)|].
  by intros [] s' (? & ? & ? & _).
Qed.

(** [sdb_delete] never converts the address of a breakpoint: in a
    position-independent program the address it peeks is not mapped, so the slot
    is released and reported deleted while its 0xcc stays in the tracee. *)
Theorem delete_unconverted_leaves_int3 orig B f s i bp :
  bp_inv orig B f s → used s i bp → f (bp_addr bp) ∈ B →
  ptrace_peek (st_world s) (sdb_pid (st_sdb s)) (bp_addr bp) = None →
  wp (sdb_delete (Z.of_nat i))
    (λ _ s', used_addrs f s' = used_addrs f s ∖ {[f (bp_addr bp)]} ∧
             mem_at s' (f (bp_addr bp)) = Some 0xcc ∧ st_world s' = st_world s) s.
Proof.
  intros Hinv Hu HB Hpeek. unfold sdb_delete.
  assert (i < length (breaks (st_sdb s)))%nat as Hi by (destruct Hu; by eapply lookup_lt_Some).
  rewrite (inv_len _ _ _ _ Hinv) in Hi.
  assert ((0 <=? Z.of_nat i) && (Z.of_nat i <? Z.of_nat MAX_BREAK) = true) as -> by lia.
  rewrite Nat2Z.id. apply wp_bind. eapply wp_get_break; [apply Hu|].
  rewrite (proj2 Hu). apply wp_bind, wp_peektext. rewrite Hpeek.
  change (Z.land (default _ None) 255 =? 0xcc) with false. cbv iota.
  apply wp_bind, wp_ret, wp_bind. eapply wp_set_break; [apply Hu|].
  unfold printf. destruct (format _ _) as [t|] eqn:Ht; [|discriminate Ht].
  apply wp_modify. split_and!; [|  |done].
  - rewrite <-(forget_addrs f i bp s); [done|apply Hinv|done].
  - change (mem_at s (f (bp_addr bp)) = Some 0xcc). rewrite (inv_mem _ _ _ _ Hinv).
    unfold overlay. by rewrite decide_True.
Qed.

(** ** Setting a breakpoint *)

Lemma free_slot_spec bs k :
  match free_slot bs k with
  | Some i => (k ≤ i)%nat ∧ (∃ bp, bs !! (i - k)%nat = Some bp ∧ is_used bp = false) ∧
              ∀ j bp, (k + j < i)%nat → bs !! j = Some bp → is_used bp = true
  | None => ∀ j bp, bs !! j = Some bp → is_used bp = true
  end.
Proof.
  revert k. induction bs as [|b bs IH]; intros k; simpl; [done|].
  destruct (is_used b) eqn:Hb.
  - specialize (IH (S k)). destruct (free_slot bs (S k)) as [i|].
    + destruct IH as (Hle & (bp & Hbp & Hu) & Hall). split_and!; [lia| |].
      * exists bp. replace (i - k)%nat with (S (i - S k))%nat by lia. done.
      * intros [|j] bp' Hj Hbp'; simplify_eq/=; [done|]. apply (Hall j); [lia|done].
    + intros [|j] bp' Hbp'; simplify_eq/=; eauto.
  - split_and!; [lia| |].
    + exists b. by rewrite Nat.sub_diag.
    + intros j bp Hj. lia.
Qed.

Definition table_full s : Prop := ∀ i bp, breaks (st_sdb s) !! i = Some bp → is_used bp = true.

(** A breakpoint set while the table is full: [bp] is never assigned and
    [sdb_set_break] writes through it, whatever the state of the program. *)
Theorem set_break_full_undefined addr_str addr s :
  sdb_is_loaded (st_sdb s) = true → scan_llx (skip_0x addr_str) = Some addr → table_full s →
  sdb_set_break addr_str s = Undef Uninit.
Proof.
  intros Hl Hscan Hfull. unfold sdb_set_break.
  unfold get_sdb, gets, mbind, M_bind. rewrite Hl, Hscan. simpl.
  pose proof (free_slot_spec (breaks (st_sdb s)) 0) as Hfree.
  destruct (free_slot _ _) as [i|]; [|done].
  destruct Hfree as (_ & (bp & Hbp & Hu) & _). apply Hfull in Hbp. congruence.
Qed.

(** The state after the slot is filled in and before the program is patched. *)
Definition slot_set (i : nat) (addr word : Z) s : St W :=
  on_sdb (with_breaks (<[i := Bp true addr word]> (breaks (st_sdb s)))) s.

Lemma used_slot_set i addr word s bp0 j bj :
  breaks (st_sdb s) !! i = Some bp0 → is_used bp0 = false →
  used (slot_set i addr word s) j bj ↔
    (j = i ∧ bj = Bp true addr word) ∨ used s j bj.
Proof.
  intros Hi Hu0. unfold used, slot_set; simpl. destruct (decide (j = i)) as [->|Hne].
  - rewrite list_lookup_insert_eq by (by eapply lookup_lt_Some). split.
    + intros [[= <-] _]. by left.
    + intros [[_ ->]|[Hb Hu]]; [done|congruence].
  - rewrite list_lookup_insert_ne by done. split; [by right|].
    intros [[-> _]|Hj]; done.
Qed.

Lemma slot_set_inv orig B f i addr word s bp0 :
  bp_inv orig B f s → breaks (st_sdb s) !! i = Some bp0 → is_used bp0 = false →
  (∀ j bj, used s j bj → 8 ≤ Z.abs (f (bp_addr bj) - f addr)) →
  bp_inv orig B f (slot_set i addr word s) ∧
  used_addrs f (slot_set i addr word s) = {[f addr]} ∪ used_addrs f s.
Proof.
  intros Hinv Hi Hu0 Hsp.
  assert (used_addrs f (slot_set i addr word s) = {[f addr]} ∪ used_addrs f s) as Haddrs.
  { apply set_eq. intros b. rewrite elem_of_union, elem_of_singleton, !elem_of_used_addrs.
    setoid_rewrite (used_slot_set i addr word s bp0); [|done..]. split.
    - intros (j & bj & [[-> ->]|Hj] & <-); eauto.
    - intros [->|(j & bj & Hj & <-)]; [|by eauto 10]. exists i, (Bp true addr word). eauto. }
  assert (f addr ∉ used_addrs f s) as Hfresh.
  { rewrite elem_of_used_addrs. intros (j & bj & Hj & E). specialize (Hsp _ _ Hj). lia. }
  split; [|done]. split.
  - simpl. rewrite length_insert. apply Hinv.
  - apply Hinv.
  - rewrite Haddrs. pose proof (inv_sub _ _ _ _ Hinv). set_solver.
  - intros j bj k Hj HB Hk. apply (used_slot_set _ _ _ _ bp0) in Hj; [|done..].
    destruct Hj as [[-> ->]|Hj].
    + destruct Hfresh. by apply (inv_sub _ _ _ _ Hinv).
    + by apply (inv_saved _ _ _ _ Hinv j).
  - intros j k bj bk Hj Hk Hjk.
    apply (used_slot_set _ _ _ _ bp0) in Hj, Hk; [|done..].
    destruct Hj as [[-> ->]|Hj], Hk as [[-> ->]|Hk]; simpl; [done|..].
    + specialize (Hsp _ _ Hk). lia.
    + by apply (Hsp j).
    + by apply (inv_spaced _ _ _ _ Hinv j k).
Qed.

(** With a free slot the command fills it in and plants, if there is a program. *)
Lemma set_break_eq addr_str addr i bp0 s :
  sdb_is_loaded (st_sdb s) = true → scan_llx (skip_0x addr_str) = Some addr →
  free_slot (breaks (st_sdb s)) 0 = Some i → breaks (st_sdb s) !! i = Some bp0 →
  sdb_set_break addr_str s
  = (if sdb_is_running (st_sdb s) then sdb_patch_all_bp else mret tt) (slot_set i addr (original_word bp0) s).
Proof.
  intros Hl Hscan Hfree Hi. unfold sdb_set_break, get_sdb, gets, mbind, M_bind. rewrite Hl, Hscan. simpl.
  rewrite Hfree. unfold get_break, set_break, get_sdb, gets, put_sdb, modify, at_index, mbind, M_bind, mret, M_ret.
  rewrite Hi. cbv beta iota. rewrite Hi. by destruct (sdb_is_running _).
Qed.

(** C17. [sdb_set_break] with a free slot, at an address a word or more from
    every other breakpoint: the breakpoint goes into the first free slot and no
    other slot changes.  If the program is running - stopped on none of the
    breakpoints, with readable words and no int3 of its own there - it is
    planted at once together with all others; if not, whatever the addresses
    are, nothing but the slot changes. *)
Theorem set_break_adds orig B f addr_str addr i s :
  bp_inv orig B f s →
  sdb_is_loaded (st_sdb s) = true → scan_llx (skip_0x addr_str) = Some addr →
  free_slot (breaks (st_sdb s)) 0 = Some i →
  (∀ j bj, used s j bj → 8 ≤ Z.abs (f (bp_addr bj) - f addr)) →
  (sdb_is_running (st_sdb s) = true → view f s ∧
     ∀ word, patchable orig f (slot_set i addr word s) ∧ rip_clear f (slot_set i addr word s)) →
  wp (sdb_set_break addr_str)
    (λ _ s', used_addrs f s' = {[f addr]} ∪ used_addrs f s ∧
       slot_key <$> breaks (st_sdb s') = <[i := (true, addr)]> (slot_key <$> breaks (st_sdb s)) ∧
       if sdb_is_running (st_sdb s) then bp_inv orig ({[f addr]} ∪ used_addrs f s) f s'
       else bp_inv orig B f s' ∧ ∃ word, s' = slot_set i addr word s) s.
Proof.
  intros Hinv Hl Hscan Hfree Hsp Hrun.
  pose proof (free_slot_spec (breaks (st_sdb s)) 0) as Hslot. rewrite Hfree in Hslot.
  destruct Hslot as (_ & (bp0 & Hbp0 & Hu0) & _). rewrite Nat.sub_0_r in Hbp0.
  unfold wp. rewrite (set_break_eq addr_str addr i bp0) by done.
  destruct (slot_set_inv orig B f i addr (original_word bp0) s bp0) as [Hinv1 Haddr]; [done..|].
  assert (slot_key <$> breaks (st_sdb (slot_set i addr (original_word bp0) s))
          = <[i := (true, addr)]> (slot_key <$> breaks (st_sdb s))) as Hkeys.
  { apply (list_fmap_insert slot_key). }
  destruct (sdb_is_running (st_sdb s)).
  - destruct (Hrun eq_refl) as [Hv Hpr]. destruct (Hpr (original_word bp0)) as [Hp Hr].
    eapply wp_mono; [apply (patch_all_spec orig B f); try done; by apply (view_frame f s)|].
    intros [] s' [Hinv2 Hs]. rewrite (used_addrs_same _ _ _ Hs), (sbs_slots _ _ Hs), Haddr.
    split_and!; [done|done|]. by rewrite <-Haddr.
  - apply wp_ret. split_and!; [done..|]. by eexists.
Qed.

End theorems.
