(* ===== verification/SdbRun.v ===== *)
(** * sdb: starting and resuming the program *)
From S2P Require Import Prelude Libc Elftool Kernel SdbState SdbBreak.

Section sdb_run.
Context {W : Type} `{Kernel W} `{Capstone}.

(** The branch of [sdb_start] and [sdb_run] that creates the tracee: [inl] is a
    [return] of the function, [inr] the status [waitpid] stored. *)
Definition spawn : M (St W) (unit + Z) :=
  p ← world sys_fork;
  put_sdb (with_pid p) ≫= λ _,
  if p <? 0 then perror "Failed to fork" ≫= λ _, mret (inl tt)
  else if p =? 0 then
    (* the child *)
    r ← world ptrace_traceme;
    if r <? 0 then perror "ptrace failed" ≫= λ _, exits (-1)
    else
      s ← get;
      let path := sdb_path (st_sdb s) in
      if execlp_ok (st_world s) path then execs path
      else printf ("'%s'" +:+ newline) [AStr path] ≫= λ _, perror "execlp" ≫= λ _, exits (-1)
  else
    '(r, status) ← waitpid;
    if r <? 0 then puts "waitpid failed" ≫= λ _, mret (inl tt)
    else
      setoptions ≫= λ _,
      printf ("** pid %d" +:+ newline) [AInt p] ≫= λ _, mret (inr status).

Definition sdb_start : M (St W) unit :=
  s ← get_sdb;
  if negb (sdb_is_loaded s) then printf ("No program loaded" +:+ newline) []
  else
    r ← spawn;
    match r with inl _ => mret tt | inr _ => sdb_patch_all_bp end.

(** ** The breakpoint report *)

(** [sprintf(byte, "%02x ", ...); strcat(bytes_str, byte)] over the bytes of an
    instruction: [bytes_str] has 16 bytes, one of them the terminator. *)
Fixpoint bytes_str (bytes : list Z) (n : nat) (j : nat) (acc : string) : M (St W) string :=
  match n with
  | O => mret acc
  | S n =>
      b ← at_index bytes j;
      t ← read_init (format "%02x " [AInt b]);
      let acc := acc +:+ t in
      if (16 <=? String.length acc)%nat then undef OutOfBounds
      else bytes_str bytes n (S j) acc
  end.
Definition insn_bytes_str (insn : cs_insn) : M (St W) string :=
  bytes_str (ci_bytes insn) (Z.to_nat (ci_size insn)) 0 EmptyString.

(** [i] is the index of the breakpoint: the operands printed are those of
    instruction [i]. *)
Definition report_hit (i : nat) (vaddr : Z) : M (St W) unit :=
  buffer ← peektext vaddr;
  let insns := cs_disasm (word_bytes buffer) vaddr in
  match insns with
  | [] => printf ("ERROR: Failed to disassemble given code!" +:+ newline) []
  | insn :: _ =>
      s ← insn_bytes_str insn;
      printf "** breakpoint @ %10lx: %-21s" [AInt (ci_address insn); AStr s] ≫= λ _,
      insn_i ← at_index insns i;
      printf ("%-7s%s" +:+ newline) [AStr (ci_mnemonic insn); AStr (ci_op_str insn_i)]
  end.

(** ** The loops of [sdb_cont] and [sdb_run] *)

(** One breakpoint against the stopped program: [Some] when it is the one hit,
    after its byte was put back and [rip] moved onto it. *)
Definition check_hit (regs : user_regs) (i : nat) : M (St W) (option unit) :=
  bp ← get_break i;
  vaddr ← run_addr (bp_addr bp);
  if is_used bp && (vaddr =? wrap64 (u_rip regs - 1)) then
    poketext vaddr (original_word bp) ≫= λ _,
    setregs (rset RIP (wrap64 (u_rip regs - 1)) regs) ≫= λ _,
    report_hit i vaddr ≫= λ _,
    mret (Some tt)
  else mret None.

(** [while(waitpid(...) > 0)]; [status] is the local the last successful
    [waitpid] set.  [inl]: the function returned at a breakpoint; [inr]: the
    loop ended. *)
Fixpoint wait_loop (fuel : nat) (status : option Z) : M (St W) (unit + option Z) :=
  match fuel with
  | O => no_fuel
  | S fuel =>
      '(r, st) ← waitpid;
      if 0 <? r then
        if WIFSTOPPED st then
          o ← getregs;
          regs ← read_init o;
          h ← for_each (indices MAX_BREAK) (check_hit regs);
          match h with
          | Some _ => mret (inl tt)
          | None => wait_loop fuel (Some st)
          end
        else wait_loop fuel (Some st)
      else mret (inr status)
  end.

(** The report of a program that is gone. *)
Definition child_gone (status : Z) : M (St W) unit :=
  p ← pid;
  (if status =? 0
   then printf ("** child process %d terminated normally (code %d)" +:+ newline) [AInt p; AInt status]
   else printf ("** child process %d exited with error (code %d)" +:+ newline) [AInt p; AInt status])
  ≫= λ _, put_sdb (with_pid (-1)).

(** From [ptrace(PTRACE_CONT, ...)] to the end of the function; [status] is
    what the local variable of that name holds, if anything. *)
Definition resume (fuel : nat) (status : option Z) : M (St W) unit :=
  cont ≫= λ _,
  r ← wait_loop fuel status;
  match r with
  | inl _ => mret tt
  | inr status => status ← read_init status; child_gone status
  end.

Definition sdb_cont (fuel : nat) : M (St W) unit :=
  s ← get_sdb;
  if negb (sdb_is_running s) then puts "not running"
  else sdb_patch_all_bp ≫= λ _, resume fuel None.

Definition sdb_run (fuel : nat) : M (St W) unit :=
  s ← get_sdb;
  if negb (sdb_is_loaded s) then printf ("No program loaded" +:+ newline) []
  else
    r ← (if negb (sdb_is_running s)
         then r ← spawn;
              mret (match r with inl u => inl u | inr status => inr (Some status) end)
         else printf ("** program %s is already running." +:+ newline) [AStr (sdb_path s)]
              ≫= λ _, mret (inr None));
    match r with
    | inl _ => mret tt
    | inr status => sdb_patch_all_bp ≫= λ _, resume fuel status
    end.

End sdb_run.

(** * Theorems *)

(** ** The text of an instruction's bytes *)

Definition byte_text (b : Z) : string := default "" (format "%02x " [AInt b]).

Lemma byte_text_spec b :
  0 ≤ b < 256 → format "%02x " [AInt b] = Some (byte_text b) ∧ String.length (byte_text b) = 3%nat.
Proof.
  intros Hb.
  assert (∀ n, (n < 256)%nat → String.length (byte_text (Z.of_nat n)) = 3%nat) as H.
  { intros n Hn.
    assert (forallb (λ n, String.length (byte_text (Z.of_nat n)) =? 3)%nat (seq 0 256) = true) as Hall.
    { vm_compute. reflexivity. }
    rewrite forallb_forall in Hall. apply Nat.eqb_eq, Hall, in_seq. lia. }
  split.
  - unfold byte_text. destruct (format _ _) eqn:E; [done|discriminate E].
  - rewrite <-(Z2Nat.id b) by lia. apply H. lia.
Qed.

Fixpoint bytes_text (bs : list Z) : string :=
  match bs with [] => EmptyString | b :: bs => byte_text b +:+ bytes_text bs end.

Lemma bytes_str_spec {W} (bs : list Z) n j acc (s : St W) :
  Forall (λ b, 0 ≤ b < 256) bs → (j + n ≤ length bs)%nat →
  bytes_str bs n j acc s =
    if (16 <=? String.length acc + 3 * n)%nat && (0 <? n)%nat then Undef OutOfBounds
    else Ret (acc +:+ bytes_text (take n (drop j bs)), s).
Proof.
  intros Hbs. revert j acc. induction n as [|n IH]; intros j acc Hn.
  - simpl. rewrite andb_false_r, string_app_nil_r. done.
  - cbn [bytes_str].
    destruct (lookup_lt_is_Some_2 bs j ltac:(lia)) as [b Hb].
    assert (0 ≤ b < 256) as Hrange by (rewrite Forall_lookup in Hbs; eauto).
    destruct (byte_text_spec b Hrange) as [Hfmt Hlen].
    unfold at_index. rewrite Hb, ret_bind, Hfmt. unfold read_init. rewrite ret_bind.
    rewrite string_app_length, Hlen.
    replace (0 <? S n)%nat with true by done. rewrite andb_true_r.
    destruct (Nat.leb_spec 16 (String.length acc + 3)) as [Hbig|Hsmall].
    + destruct (Nat.leb_spec 16 (String.length acc + 3 * S n)); [done|lia].
    + rewrite IH by lia. rewrite string_app_length, Hlen.
      destruct (Nat.leb_spec 16 (String.length acc + 3 * S n)) as [H1|H1];
        destruct (Nat.leb_spec 16 (String.length acc + 3 + 3 * n)) as [H2|H2]; try lia; simpl.
      * destruct n; [lia|done].
      * rewrite (drop_S bs b j Hb). simpl. by rewrite <-string_app_assoc.
Qed.

Lemma insn_bytes_str_spec {W} insn (s : St W) :
  Forall (λ b, 0 ≤ b < 256) (ci_bytes insn) →
  0 ≤ ci_size insn ≤ Z.of_nat (length (ci_bytes insn)) →
  insn_bytes_str insn s =
    if ci_size insn <=? 5
    then Ret (bytes_text (take (Z.to_nat (ci_size insn)) (ci_bytes insn)), s)
    else Undef OutOfBounds.
Proof.
  intros Hbs Hsize. unfold insn_bytes_str. rewrite bytes_str_spec by (done || lia).
  simpl String.length. rewrite drop_0.
  destruct (Z.leb_spec (ci_size insn) 5).
  - destruct (Nat.leb_spec 16 (0 + 3 * Z.to_nat (ci_size insn))); [lia|done].
  - destruct (Nat.leb_spec 16 (0 + 3 * Z.to_nat (ci_size insn))); [|lia].
    destruct (Nat.ltb_spec 0 (Z.to_nat (ci_size insn))); [done|lia].
Qed.

(** The 16-byte buffer [bytes_str]: an instruction of up to five bytes is
    shown in full, three characters a byte, and the sixth byte of a longer one
    overruns the buffer. *)
Theorem insn_bytes_str_bound {W} insn (s : St W) :
  Forall (λ b, 0 ≤ b < 256) (ci_bytes insn) →
  0 ≤ ci_size insn ≤ Z.of_nat (length (ci_bytes insn)) →
  insn_bytes_str insn s =
    if ci_size insn <=? 5
    then Ret (bytes_text (take (Z.to_nat (ci_size insn)) (ci_bytes insn)), s)
    else Undef OutOfBounds.
Proof. apply insn_bytes_str_spec. Qed.

(** [m] ends with [Q], or leaves an array, as [b] says. *)
Definition wp_if {S A} (b : bool) (m : M S A) (Q : A → S → Prop) (s : S) : Prop :=
  if b then wp m Q s else m s = Undef OutOfBounds.

Lemma wp_if_bind_r {S A B} b (m : M S A) (k : A → M S B) Q s :
  wp m (λ a s', wp_if b (k a) Q s') s → wp_if b (m ≫= k) Q s.
Proof. unfold wp_if, wp, mbind, M_bind. by destruct b, (m s) as [[]| | | | |]. Qed.
Lemma wp_if_bind_l {S A B} b (m : M S A) (k : A → M S B) Q s :
  wp_if b m (λ a s', wp (k a) Q s') s → wp_if b (m ≫= k) Q s.
Proof. destruct b; [apply wp_bind|apply bind_Undef]. Qed.
Lemma wp_if_true {S A} b (m : M S A) Q s : b = true → wp_if b m Q s → wp m Q s.
Proof. by intros ->. Qed.
Lemma wp_if_mono {S A} b (m : M S A) (Q Q' : A → S → Prop) s :
  wp_if b m Q s → (∀ a s', Q a s' → Q' a s') → wp_if b m Q' s.
Proof. destruct b; [|done]. intros Hm HQ. by eapply wp_mono. Qed.

Section theorems.
Context {W : Type} `{KernelLaws W} `{CapstoneLaws}.
Implicit Types (s : St W) (f : Z → Z) (orig : Z → option Z) (B : gset Z).

(** ** The breakpoint report *)

(** What the disassembler makes of the program's own eight bytes at [a]. *)
Definition own_insns orig (a : Z) : list cs_insn :=
  cs_disasm (map (λ k, default 0 (orig (a + k))) [0; 1; 2; 3; 4; 5; 6; 7]) a.

(** The report of breakpoint [i] stays inside its arrays: the first instruction
    fits [bytes_str], and there is an instruction number [i]. *)
Definition reportable (i : nat) (insns : list cs_insn) : bool :=
  match insns with
  | [] => true
  | insn :: _ => (ci_size insn <=? 5) && (i <? length insns)%nat
  end.

Lemma own_insns_word orig a x :
  (∀ k, 0 ≤ k < 8 → orig (a + k) = Some (byte_of x k)) → own_insns orig a = cs_disasm (word_bytes x) a.
Proof.
  intros Hx. unfold own_insns, word_bytes. f_equal. cbn [map]. by rewrite !Hx by lia.
Qed.

Lemma report_hit_spec i vaddr x s :
  ptrace_peek (st_world s) (sdb_pid (st_sdb s)) vaddr = Some x →
  wp_if (reportable i (cs_disasm (word_bytes x) vaddr)) (report_hit i vaddr)
    (λ _ s', ∃ es, s' = on_outs es s) s.
Proof.
  intros Hx. unfold report_hit. apply wp_if_bind_r, wp_peektext. rewrite Hx.
  change (default _ (Some x)) with x. cbv zeta.
  destruct (cs_disasm (word_bytes x) vaddr) as [|insn insns] eqn:E.
  - eapply wp_intro; [apply printf_ok; by eexists|]. by eexists.
  - assert (insn ∈ cs_disasm (word_bytes x) vaddr) as Hin by (rewrite E; left).
    pose proof (insn_bytes_str_spec insn s (insn_bytes _ _ _ Hin) (insn_size _ _ _ Hin)) as Hs.
    cbn [reportable]. destruct (Z.leb_spec (ci_size insn) 5) as [H5|H5]; [|by apply bind_Undef].
    cbn [andb]. apply wp_if_bind_r. eapply wp_intro; [exact Hs|].
    apply wp_if_bind_r. eapply wp_intro; [apply printf_ok; by eexists|].
    destruct (Nat.ltb_spec i (length (insn :: insns))) as [Hi|Hi].
    + destruct (lookup_lt_is_Some_2 (insn :: insns) i Hi) as [y Hy].
      apply wp_if_bind_r. eapply wp_at_index; [done|]. eapply wp_intro; [apply printf_ok; by eexists|].
      rewrite !on_outs_one, on_outs_app. by eexists.
    + apply bind_Undef. unfold at_index. by rewrite (lookup_ge_None_2 (insn :: insns) i).
Qed.

(** ** A stop on a breakpoint *)

(** The invariant sees the world through the bytes of the tracee only. *)
Lemma bp_inv_bytes orig B f s s' :
  st_sdb s' = st_sdb s → (∀ b, mem_at s' b = mem_at s b) → bp_inv orig B f s → bp_inv orig B f s'.
Proof.
  intros Hsdb Hmem Hinv.
  assert (used_addrs f s' = used_addrs f s) as Ha by (unfold used_addrs; by rewrite Hsdb).
  split.
  - rewrite Hsdb. apply Hinv.
  - intros b. rewrite Hmem. apply Hinv.
  - rewrite Ha. apply Hinv.
  - unfold used. rewrite Hsdb. apply (inv_saved _ _ _ _ Hinv).
  - unfold spaced, used. rewrite Hsdb. apply (inv_spaced _ _ _ _ Hinv).
Qed.

(** What holds after the stop was handled: the byte is uncovered, every other
    breakpoint is still planted, and the program is about to execute the
    instruction at the breakpoint. *)
Definition hit_post orig B f (a : Z) regs s s' : Prop :=
  bp_inv orig (B ∖ {[a]}) f s' ∧ view f s' ∧ st_sdb s' = st_sdb s ∧ st_mem s' = st_mem s ∧
  ∃ x, ptrace_getregs (st_world s') (sdb_pid (st_sdb s)) = Some x ∧ same_general x (rset RIP a regs).

(** The program is stopped, in [s], one byte past the planted breakpoint of
    slot [i], and the kernel lets [rip] be moved back. *)
Record hit orig B f i bp regs s : Prop := {
  hit_inv : bp_inv orig B f s;
  hit_view : view f s;
  hit_used : used s i bp;
  hit_planted : f (bp_addr bp) ∈ B;
  hit_mapped : is_Some (ptrace_peek (st_world s) (sdb_pid (st_sdb s)) (f (bp_addr bp)));
  hit_rip : wrap64 (u_rip regs - 1) = f (bp_addr bp);
  hit_regs : ptrace_getregs (st_world s) (sdb_pid (st_sdb s)) = Some regs;
  hit_moved : fst (ptrace_setregs
    (snd (ptrace_poke (st_world s) (sdb_pid (st_sdb s)) (f (bp_addr bp)) (original_word bp)))
    (sdb_pid (st_sdb s)) (rset RIP (f (bp_addr bp)) regs)) = 0 }.

(** The word that is peeked for the report is the program's own. *)
Lemma peek_own orig s a word w1 r w2 :
  (∀ k, 0 ≤ k < 8 → orig (a + k) = Some (byte_of word k)) →
  is_Some (ptrace_peek (st_world s) (sdb_pid (st_sdb s)) a) →
  ptrace_poke (st_world s) (sdb_pid (st_sdb s)) a word = (0, w1) →
  ptrace_setregs w1 (sdb_pid (st_sdb s)) r = (0, w2) →
  ∃ x, ptrace_peek w2 (sdb_pid (st_sdb s)) a = Some x ∧ own_insns orig a = cs_disasm (word_bytes x) a.
Proof.
  intros Hsv Hx E1 E2.
  destruct (setregs_peek _ _ _ _ _ a E2 (poke_peek _ _ _ _ _ a E1 Hx)) as [x Hx2]. exists x.
  split; [done|]. apply own_insns_word. intros k Hk. rewrite Hsv by done.
  rewrite <-(peek_bytes _ _ _ _ k Hx2 Hk), (setregs_bytes _ _ _ _ _ _ E2), (poke_bytes _ _ _ _ _ _ E1).
  rewrite decide_True by lia. by replace (a + k - a) with k by lia.
Qed.

Lemma check_hit_spec orig B f i bp regs s :
  hit orig B f i bp regs s →
  wp_if (reportable i (own_insns orig (f (bp_addr bp)))) (check_hit regs i)
    (λ r s', r = Some tt ∧ hit_post orig B f (f (bp_addr bp)) regs s s') s.
Proof.
  intros [Hinv Hv Hu HB Hx Hrip Hregs Hset]. pose proof (wrap64_range (u_rip regs - 1)) as Hran.
  set (a := f (bp_addr bp)) in *. rewrite Hrip in Hran.
  unfold check_hit. apply wp_if_bind_r. eapply wp_get_break; [apply Hu|].
  apply wp_if_bind_r. eapply wp_run_addr; [done|]. fold a.
  rewrite (proj2 Hu), Hrip, Z.eqb_refl. simpl andb. cbv iota.
  pose proof Hx as [x0 Hx0]. pose proof (poke_mapped _ _ _ (original_word bp) _ Hx0) as Hpoke.
  destruct (ptrace_poke (st_world s) (sdb_pid (st_sdb s)) a (original_word bp)) as [r w1] eqn:E1.
  simpl in Hpoke, Hset. subst r. apply wp_if_bind_r. eapply wp_poketext; [done|].
  pose proof (unplant_inv orig B f i bp s w1 Hinv Hu HB E1) as Hinv1. fold a in Hinv1.
  destruct (ptrace_setregs w1 (sdb_pid (st_sdb s)) (rset RIP a regs)) as [r w2] eqn:E2.
  simpl in Hset. subst r. apply wp_if_bind_r. eapply wp_setregs; [done|].
  destruct (peek_own orig s a (original_word bp) w1 (rset RIP a regs) w2) as (x & Hpk & ->); [|done..|].
  { intros k. by apply (inv_saved _ _ _ _ Hinv i bp k). }
  apply wp_if_bind_l. eapply wp_if_mono; [by apply report_hit_spec|].
  intros [] s' [es ->]. apply wp_ret. split; [done|]. split_and!; try done.
  - eapply bp_inv_bytes; [| |exact Hinv1]; [done|].
    intros b. unfold mem_at; simpl. by eapply setregs_bytes.
  - apply (view_frame f s); [done..| |done]. intros p. cbn.
    by rewrite (setregs_files _ _ _ _ _ _ E2), (poke_files _ _ _ _ _ _ E1).
  - apply (setregs_regs w1 (sdb_pid (st_sdb s)) (rset RIP a regs) w2); [|done].
    apply regs_ok_rset; [by eapply getregs_range|done].
Qed.

(** Slots whose breakpoint the program did not run into change nothing. *)
Lemma check_miss f regs i s :
  view f s → length (breaks (st_sdb s)) = MAX_BREAK → (i < MAX_BREAK)%nat →
  (∀ bp, used s i bp → f (bp_addr bp) ≠ wrap64 (u_rip regs - 1)) → check_hit regs i s = Ret (None, s).
Proof.
  intros Hv Hlen Hi Hne. destruct (lookup_lt_is_Some_2 (breaks (st_sdb s)) i) as [bp Hbp]; [lia|].
  unfold check_hit.
  erewrite bind_Ret by (unfold get_break, get_sdb, gets, at_index, mbind, M_bind; by rewrite Hbp).
  rewrite (bind_Ret _ _ _ _ _ (Hv _)).
  assert (is_used bp && (f (bp_addr bp) =? wrap64 (u_rip regs - 1)) = false) as ->; [|done].
  apply andb_false_iff. destruct (is_used bp) eqn:Hu; [right|by left]. by apply Z.eqb_neq, Hne.
Qed.

Lemma scan_miss f regs j n s :
  view f s → length (breaks (st_sdb s)) = MAX_BREAK → (j + n ≤ MAX_BREAK)%nat →
  (∀ i bp, used s i bp → (j ≤ i < j + n)%nat → f (bp_addr bp) ≠ wrap64 (u_rip regs - 1)) →
  for_each (seq j n) (check_hit regs) s = Ret (None, s).
Proof.
  intros Hv Hlen. revert j. induction n as [|n IH]; intros j Hj Hne; [done|]. cbn [seq for_each].
  rewrite (bind_Ret _ _ _ _ _ (check_miss f regs j s Hv Hlen ltac:(lia) ltac:(intros; eapply Hne; [done|lia]))).
  apply IH; [lia|]. intros i bp Hu Hi. eapply Hne; [done|lia].
Qed.

(** The scan of the ten slots finds the breakpoint that was hit. *)
Lemma scan_hit orig B f i bp regs s :
  hit orig B f i bp regs s →
  wp_if (reportable i (own_insns orig (f (bp_addr bp)))) (for_each (indices MAX_BREAK) (check_hit regs))
    (λ r s', r = Some tt ∧ hit_post orig B f (f (bp_addr bp)) regs s s') s.
Proof.
  intros Hh. destruct (Hh) as [Hinv Hv Hu _ _ Hrip _ _]. pose proof (used_lt _ _ _ _ _ _ Hinv Hu) as Hi.
  rewrite (slots_split i Hi).
  assert (for_each (seq 0 i) (check_hit regs) s = Ret (None, s)) as Hbefore.
  { apply (scan_miss f); [done|apply Hinv|lia|]. intros j bj Hj Hlt. rewrite Hrip.
    pose proof (inv_spaced _ _ _ _ Hinv j i bj bp Hj Hu ltac:(lia)). lia. }
  pose proof (check_hit_spec _ _ _ _ _ _ _ Hh) as Hc. unfold wp_if, wp in *.
  rewrite for_each_app, (bind_Ret _ _ _ _ _ Hbefore). cbn [for_each].
  destruct (reportable _ _); [|by apply bind_Undef].
  destruct (check_hit regs i s) as [[r s']| | | | |] eqn:E; try done. destruct Hc as [-> Hpost].
  by rewrite (bind_Ret _ _ _ _ _ E).
Qed.

(** A stop at a breakpoint: when [waitpid] reports the program stopped one
    byte past a planted breakpoint, the loop of [sdb_cont] and [sdb_run]
    returns with the program's own byte restored there, [rip] moved back onto
    it, and every other breakpoint still planted; if the report does not fit
    its arrays, it overruns them. *)
Theorem wait_loop_hit orig B f i bp regs s fuel status r st w :
  sys_waitpid (st_world s) (sdb_pid (st_sdb s)) = Some (r, st, w) → 0 < r → WIFSTOPPED st = true →
  hit orig B f i bp regs (on_world w s) →
  wp_if (reportable i (own_insns orig (f (bp_addr bp)))) (wait_loop (S fuel) status)
    (λ o s', o = inl tt ∧ hit_post orig B f (f (bp_addr bp)) regs s s') s.
Proof.
  intros Hw Hr Hst Hh. cbn [wait_loop]. apply wp_if_bind_r. eapply wp_waitpid; [done|].
  rewrite (proj2 (Z.ltb_lt 0 r)), Hst by done.
  apply wp_if_bind_r, wp_getregs. rewrite (hit_regs _ _ _ _ _ _ _ Hh). apply wp_if_bind_r, wp_read_init.
  apply wp_if_bind_l. eapply wp_if_mono; [by apply scan_hit|].
  intros o s' (-> & Hpost). apply wp_ret. by split.
Qed.

End theorems.

(** ** What the loops come to *)

Section termination.
Context {W : Type} `{Kernel W} `{Capstone}.
Implicit Types (s : St W).

(** Calls in which nothing loops. *)
Definition fuel_free {A} (m : M (St W) A) : Prop := ∀ s, m s ≠ NoFuel.

Lemma ff_ret {A} (a : A) : fuel_free (mret a).
Proof. done. Qed.
Lemma ff_bind {A B} (m : M (St W) A) (k : A → M (St W) B) :
  fuel_free m → (∀ a, fuel_free (k a)) → fuel_free (m ≫= k).
Proof.
  intros Hm Hk s. unfold mbind, M_bind. specialize (Hm s).
  destruct (m s) as [[a s']| | | | |]; done || apply Hk.
Qed.
Lemma ff_for_each {A R} (l : list A) (body : A → M (St W) (option R)) :
  (∀ x, fuel_free (body x)) → fuel_free (for_each l body).
Proof.
  intros Hb. induction l as [|x l IH]; simpl; [done|].
  apply ff_bind; [done|]. by intros [].
Qed.
Lemma ff_printf fmt args : fuel_free (printf fmt args).
Proof. intros s. unfold printf. by destruct (format fmt args). Qed.
Lemma ff_perror p : fuel_free (perror p).
Proof. done. Qed.
Lemma ff_puts t : fuel_free (puts t).
Proof. done. Qed.
Lemma ff_at_index {A} (l : list A) i : fuel_free (at_index l i).
Proof. intros s. unfold at_index. by destruct (l !! i). Qed.
Lemma ff_read_init {A} (o : option A) : fuel_free (read_init o).
Proof. by destruct o. Qed.
Lemma ff_deref {A} (o : option A) : fuel_free (deref o).
Proof. by destruct o. Qed.
Lemma ff_undef {A} u : fuel_free (undef u : M (St W) A).
Proof. done. Qed.
Lemma ff_world {A} (g : W → A * W) : fuel_free (world g).
Proof. intros s. unfold world. by destruct (g (st_world s)). Qed.
Lemma ff_get : fuel_free get.
Proof. done. Qed.
Lemma ff_gets {A} (g : St W → A) : fuel_free (gets g).
Proof. done. Qed.
Lemma ff_modify g : fuel_free (modify g).
Proof. done. Qed.

Lemma convert_tokens_ff path ts k ex ar b : convert_tokens path k ts ex ar b ≠ NoFuel.
Proof.
  revert k ex ar b. induction ts as [|t ts IH]; intros k ex ar b; simpl; [done|].
  destruct k as [|[|[|[|[|[|k]]]]]]; try apply IH.
  - destruct (split_at "-" t) as [[l r]|]; [apply IH|done].
  - by destruct (String.length t <? 3)%nat.
Qed.
Lemma convert_lines_ff path ls b : convert_lines path ls b ≠ NoFuel.
Proof.
  revert b. induction ls as [|l ls IH]; intros b; simpl; [done|].
  unfold mbind, outcome_bind.
  pose proof (convert_tokens_ff path (strtok_all l (" " +:+ newline)) 0 false false b) as Hff.
  destruct (convert_tokens _ _ _ _ _ _) as [[[ex ar] b']| | | | |]; try done.
  by destruct (ex && ar).
Qed.
Lemma ff_handle : fuel_free handle.
Proof.
  unfold handle. apply ff_bind; [done|]. intros sd. apply ff_bind; [apply ff_deref|].
  intros l s. unfold elf, load_handle, load, mbind, M_bind.
  destruct (m_heap _ !! l) as [[]|]; done.
Qed.
Lemma ff_run_addr a : fuel_free (run_addr a).
Proof.
  unfold run_addr. apply ff_bind; [apply ff_handle|]. intros h.
  destruct (e_type h =? 3); [|done]. unfold convert_dynamic_addr.
  apply ff_bind; [done|]. intros s. apply ff_bind; [apply ff_deref|]. intros ls.
  apply ff_bind.
  - intros s'. unfold pure, mbind, outcome_bind.
    pose proof (convert_lines_ff (sdb_path (st_sdb s)) ls None).
    by destruct (convert_lines _ _ _).
  - intros b. apply ff_bind; [apply ff_read_init|done].
Qed.
Lemma ff_bytes_str bs n j acc : fuel_free (bytes_str bs n j acc).
Proof.
  revert j acc. induction n as [|n IH]; intros j acc; [done|]. cbn [bytes_str].
  apply ff_bind; [apply ff_at_index|]. intros b. apply ff_bind; [apply ff_read_init|].
  intros t. destruct (16 <=? _)%nat; [done|apply IH].
Qed.

Create HintDb fuel discriminated.
#[local] Hint Resolve ff_ret ff_printf ff_perror ff_puts ff_at_index ff_read_init ff_deref ff_undef
  ff_world ff_get ff_gets ff_modify ff_handle ff_run_addr ff_bytes_str : fuel.
Ltac fuel_free :=
  repeat first
    [ progress intros
    | solve [eauto with fuel nocore]
    | simple apply ff_for_each
    | simple apply ff_bind
    | match goal with |- fuel_free (match ?x with _ => _ end) => destruct x end ].

Lemma ff_getregs : fuel_free getregs.
Proof. unfold getregs, pid, get_sdb. fuel_free. Qed.
Lemma ff_peektext a : fuel_free (peektext a).
Proof. unfold peektext, peek_opt, pid, get_sdb. fuel_free. Qed.
Lemma ff_poketext a v : fuel_free (poketext a v).
Proof. unfold poketext, pid, get_sdb. fuel_free. Qed.
Lemma ff_get_break i : fuel_free (get_break i).
Proof. unfold get_break, get_sdb. fuel_free. Qed.
Lemma ff_set_break i b : fuel_free (set_break i b).
Proof. unfold set_break, get_sdb, put_sdb. fuel_free. Qed.
Lemma ff_waitpid : fuel_free waitpid.
Proof.
  intros s. unfold waitpid, pid, get_sdb, gets, get, mbind, M_bind. simpl.
  by destruct (sys_waitpid _ _) as [[[]]|].
Qed.
#[local] Hint Resolve ff_getregs ff_peektext ff_poketext ff_get_break ff_set_break ff_waitpid : fuel.

Lemma ff_patch_all : fuel_free sdb_patch_all_bp.
Proof.
  unfold sdb_patch_all_bp, patch_bp, step_off, plant, singlestep, pid, get_sdb. fuel_free.
Qed.
Lemma ff_check_hit regs i : fuel_free (check_hit regs i).
Proof.
  unfold check_hit, report_hit, insn_bytes_str, setregs, pid, get_sdb. fuel_free.
Qed.
Lemma ff_spawn : fuel_free spawn.
Proof.
  unfold spawn, put_sdb, setoptions, pid, get_sdb. fuel_free; done.
Qed.
Lemma ff_child_gone st : fuel_free (child_gone st).
Proof. unfold child_gone, put_sdb, pid, get_sdb. fuel_free. Qed.

(** A breakpoint that was not hit changes nothing. *)
Lemma run_addr_state a s v s' : run_addr a s = Ret (v, s') → s' = s.
Proof.
  unfold run_addr, handle, convert_dynamic_addr, get_sdb, gets, get, elf, deref, pure, read_init,
    load_handle, load, mbind, M_bind, outcome_bind, mret, M_ret, undef.
  destruct s as [sd me ou wo]. cbn [st_sdb st_mem st_out st_world].
  destruct (sdb_eh sd) as [l|]; [|done]. cbn [st_sdb st_mem st_out st_world].
  destruct (m_heap me !! l) as [[]|]; try done. cbn [st_sdb st_mem st_out st_world].
  destruct (e_type h =? 3); [|congruence]. cbn [st_sdb st_mem st_out st_world].
  destruct (fopen_lines wo _); [|done].
  destruct (convert_lines _ _ _) as [[b|]| | | | |]; cbv beta iota; congruence.
Qed.

Lemma check_hit_none regs i s s' : check_hit regs i s = Ret (None, s') → s' = s.
Proof.
  unfold check_hit, get_break, get_sdb, gets, at_index, mbind, M_bind, mret, M_ret, undef.
  destruct (breaks (st_sdb s) !! i) as [bp|]; [|done]. cbv beta iota.
  destruct (run_addr (bp_addr bp) s) as [[v s1]| | | | |] eqn:E; try done.
  apply run_addr_state in E as ->.
  destruct (is_used bp && _).
  - destruct (poketext _ _ s) as [[? s2]| | | | |]; try done.
    destruct (setregs _ s2) as [[? s3]| | | | |]; try done.
    destruct (report_hit _ _ s3) as [[? s4]| | | | |]; try done.
  - congruence.
Qed.

Lemma scan_none regs l s s' : for_each l (check_hit regs) s = Ret (None, s') → s' = s.
Proof.
  revert s. induction l as [|i l IH]; intros s; simpl.
  - unfold mret, M_ret. congruence.
  - unfold mbind, M_bind. destruct (check_hit regs i s) as [[[u|] s1]| | | | |] eqn:E; try done.
    apply check_hit_none in E as ->. apply IH.
Qed.

(** More fuel does not change a result. *)
Lemma wait_loop_mono fuel fuel' status s :
  (fuel ≤ fuel')%nat → wait_loop fuel status s ≠ NoFuel →
  wait_loop fuel' status s = wait_loop fuel status s.
Proof.
  revert fuel' status s. induction fuel as [|fuel IH]; intros [|fuel'] status s Hle; try (done || lia).
  cbn [wait_loop]. unfold mbind, M_bind.
  destruct (waitpid s) as [[[r st] s1]| | | | |]; try done.
  destruct (0 <? r); [|done]. destruct (WIFSTOPPED st); [|apply IH; lia].
  destruct (getregs s1) as [[o s2]| | | | |]; try done.
  destruct (read_init o s2) as [[regs s3]| | | | |]; try done.
  destruct (for_each (indices MAX_BREAK) (check_hit regs) s3) as [[[u|] s4]| | | | |]; try done. apply IH. lia.
Qed.

(** *** What the kernel reports *)

Context `{!WaitLaws W}.

(** After the message about a program that is gone. *)
Definition gone (status : Z) (w : W) (s : St W) : St W :=
  State (with_pid (-1) (st_sdb s)) (st_mem s)
    (st_out s ++ [Stdout (default "" (format
       (if status =? 0 then "** child process %d terminated normally (code %d)" +:+ newline
        else "** child process %d exited with error (code %d)" +:+ newline)
       [AInt (sdb_pid (st_sdb s)); AInt status]))]) w.

Lemma child_gone_eq status s : child_gone status s = Ret (tt, gone status (st_world s) s).
Proof.
  unfold child_gone, gone, pid, mbind, M_bind, get_sdb, gets, put_sdb, modify. simpl.
  destruct (status =? 0); rewrite printf_ok by (eexists; reflexivity); reflexivity.
Qed.

(** Nothing more is reported: the loop ends with the status it had. *)
Lemma wait_fails fuel status s r st w :
  sys_waitpid (st_world s) (sdb_pid (st_sdb s)) = Some (r, st, w) → r ≤ 0 →
  wait_loop (S fuel) status s = Ret (inr status, on_world w s).
Proof.
  intros Hw Hr. cbn [wait_loop]. unfold mbind, M_bind. rewrite waitpid_eq, Hw.
  by rewrite (proj2 (Z.ltb_ge 0 r) Hr).
Qed.

(** The end of the program is reported: the next [waitpid] ends the loop. *)
Lemma wait_end fuel status s r st w :
  0 < sdb_pid (st_sdb s) → sys_waitpid (st_world s) (sdb_pid (st_sdb s)) = Some (r, st, w) →
  0 < r → WIFSTOPPED st = false →
  ∃ w', wait_loop (S (S fuel)) status s = Ret (inr (Some st), on_world w' s).
Proof.
  intros Hp Hw Hr Hst. destruct (wait_gone _ _ _ _ _ Hp Hw Hr Hst) as (r' & st' & w2 & Hw2 & Hr2).
  exists w2. pose proof (wait_fails fuel (Some st) (on_world w s) r' st' w2 Hw2 Hr2) as E.
  cbn [wait_loop] in *. unfold mbind, M_bind in *. rewrite waitpid_eq, Hw.
  by rewrite (proj2 (Z.ltb_lt 0 r) Hr), Hst.
Qed.

(** A stop: the breakpoints are looked at. *)
Lemma wait_stop_eq fuel status s r st w regs :
  sys_waitpid (st_world s) (sdb_pid (st_sdb s)) = Some (r, st, w) → 0 < r → WIFSTOPPED st = true →
  ptrace_getregs w (sdb_pid (st_sdb s)) = Some regs →
  wait_loop (S fuel) status s
  = (for_each (indices MAX_BREAK) (check_hit regs) ≫= λ h,
       match h with Some _ => mret (inl tt) | None => wait_loop fuel (Some st) end) (on_world w s).
Proof.
  intros Hw Hr Hst Hg. cbn [wait_loop].
  rewrite (bind_Ret waitpid _ s (r, st) (on_world w s)) by (by rewrite waitpid_eq, Hw). cbv beta iota.
  rewrite (proj2 (Z.ltb_lt 0 r) Hr), Hst, (bind_Ret _ _ _ _ _ (getregs_eq _)).
  cbn [st_world st_sdb on_world]. by rewrite Hg, read_Some_bind.
Qed.

(** A stop at none of the breakpoints: the loop waits again, for a program
    that was not resumed. *)
Lemma wait_stop fuel status s r st w regs :
  sys_waitpid (st_world s) (sdb_pid (st_sdb s)) = Some (r, st, w) → 0 < r → WIFSTOPPED st = true →
  ptrace_getregs w (sdb_pid (st_sdb s)) = Some regs →
  for_each (indices MAX_BREAK) (check_hit regs) (on_world w s) = Ret (None, on_world w s) →
  wait_loop (S fuel) status s = wait_loop fuel (Some st) (on_world w s).
Proof.
  intros Hw Hr Hst Hg Hscan. rewrite (wait_stop_eq _ _ _ _ _ _ _ Hw Hr Hst Hg).
  by rewrite (bind_Ret _ _ _ _ _ Hscan).
Qed.

(** Once stopped, the program is not reported stopped again. *)
Lemma wait_after_stop fuel s r0 st0 w0 :
  0 < sdb_pid (st_sdb s) → sys_waitpid w0 (sdb_pid (st_sdb s)) = Some (r0, st0, st_world s) → 0 < r0 →
  WIFSTOPPED st0 = true →
  match sys_waitpid (st_world s) (sdb_pid (st_sdb s)) with
  | None => wait_loop (S (S fuel)) (Some st0) s = Blocks
  | Some (r, st, _) =>
      ∃ w, wait_loop (S (S fuel)) (Some st0) s = Ret (inr (Some (if 0 <? r then st else st0)), on_world w s)
  end.
Proof.
  intros Hp Hw0 Hr0 Hst0. destruct (sys_waitpid (st_world s) _) as [[[r st] w]|] eqn:Hw.
  - destruct (Z.ltb_spec 0 r) as [Hr|Hr].
    + eapply wait_end; [done..|]. by apply (wait_stopped_once w0 (sdb_pid (st_sdb s)) r0 st0 (st_world s) r st w).
    + exists w. by eapply wait_fails.
  - cbn [wait_loop]. unfold mbind, M_bind. by rewrite waitpid_eq, Hw.
Qed.

(** Three iterations are enough. *)
Lemma wait_loop_terminates fuel status s :
  0 < sdb_pid (st_sdb s) → (3 ≤ fuel)%nat → wait_loop fuel status s ≠ NoFuel.
Proof.
  intros Hp. destruct fuel as [|[|[|fuel]]]; [lia..|]. intros _.
  destruct (sys_waitpid (st_world s) (sdb_pid (st_sdb s))) as [[[r st] w]|] eqn:Hw; cycle 1.
  { cbn [wait_loop]. unfold mbind, M_bind. by rewrite waitpid_eq, Hw. }
  destruct (Z.ltb_spec 0 r) as [Hr|Hr]; [|by rewrite (wait_fails _ _ _ _ _ _ Hw Hr)].
  destruct (WIFSTOPPED st) eqn:Hst; cycle 1.
  { by destruct (wait_end (S fuel) status s r st w) as [w' ->]. }
  destruct (ptrace_getregs w (sdb_pid (st_sdb s))) as [regs|] eqn:Hg; cycle 1.
  { cbn [wait_loop]. unfold mbind, M_bind.
    rewrite waitpid_eq, Hw, (proj2 (Z.ltb_lt 0 r) Hr), Hst, getregs_eq. cbn. by rewrite Hg. }
  rewrite (wait_stop_eq _ _ _ _ _ _ _ Hw Hr Hst Hg). unfold mbind, M_bind.
  pose proof (ff_for_each (indices MAX_BREAK) (check_hit regs) (ff_check_hit regs) (on_world w s)) as Hf.
  destruct (for_each _ _ _) as [[[u|] s4]| | | | |] eqn:E; try done. apply scan_none in E as ->.
  pose proof (wait_after_stop fuel (on_world w s) r st (st_world s) Hp Hw Hr Hst) as Ha.
  destruct (sys_waitpid (st_world (on_world w s)) _) as [[[]]|]; [destruct Ha as [w' ->]|rewrite Ha]; done.
Qed.

Lemma resume_terminates fuel status s c w :
  ptrace_cont (st_world s) (sdb_pid (st_sdb s)) = (c, w) → 0 < sdb_pid (st_sdb s) → (3 ≤ fuel)%nat →
  resume fuel status s = resume 3 status s ∧ resume 3 status s ≠ NoFuel.
Proof.
  intros Hc Hp Hle. unfold resume. rewrite !(bind_Ret _ _ _ _ _ (cont_eq _ _ _ Hc)).
  pose proof (wait_loop_terminates 3 status (on_world w s) Hp ltac:(lia)) as Ht.
  unfold mbind, M_bind. rewrite (wait_loop_mono _ _ _ _ Hle) by done. split; [done|].
  destruct (wait_loop 3 _ _) as [[[u|[st|]] s2]| | | | |]; try done. cbn [read_init]. unfold mret, M_ret.
  by rewrite child_gone_eq.
Qed.

(** The two commands that let the program go on, the status they hold when
    they do, and the state in which they do. *)
Inductive lets_go s : (nat → M (St W) unit) → option Z → St W → Prop :=
  | go_cont s1 :
      sdb_is_running (st_sdb s) = true → sdb_patch_all_bp s = Ret (tt, s1) → lets_go s sdb_cont None s1
  | go_run st s0 s1 :
      sdb_is_loaded (st_sdb s) = true → sdb_is_running (st_sdb s) = false →
      spawn s = Ret (inr st, s0) → sdb_patch_all_bp s0 = Ret (tt, s1) → lets_go s sdb_run (Some st) s1
  | go_run_again s0 s1 :
      sdb_is_loaded (st_sdb s) = true → sdb_is_running (st_sdb s) = true →
      printf ("** program %s is already running." +:+ newline) [AStr (sdb_path (st_sdb s))] s = Ret (tt, s0) →
      sdb_patch_all_bp s0 = Ret (tt, s1) → lets_go s sdb_run None s1.

Lemma lets_go_resume s cmd status s1 fuel : lets_go s cmd status s1 → cmd fuel s = resume fuel status s1.
Proof.
  intros [s2 Hr Hp|st s0 s2 Hl Hr Hsp Hp|s0 s2 Hl Hr Hpr Hp].
  - unfold sdb_cont. rewrite get_sdb_bind, Hr. cbn [negb]. by rewrite (bind_Ret _ _ _ _ _ Hp).
  - unfold sdb_run. rewrite get_sdb_bind, Hl, Hr. cbn [negb]. rewrite bind_assoc_M, (bind_Ret _ _ _ _ _ Hsp).
    rewrite ret_bind. cbv beta iota. by rewrite (bind_Ret _ _ _ _ _ Hp).
  - unfold sdb_run. rewrite get_sdb_bind, Hl, Hr. cbn [negb]. rewrite bind_assoc_M, (bind_Ret _ _ _ _ _ Hpr).
    rewrite ret_bind. cbv beta iota. by rewrite (bind_Ret _ _ _ _ _ Hp).
Qed.

(** C19. [sdb_cont] and [sdb_run] once the program goes on.  Three iterations of
    their loop are always enough, and what they come to is what the kernel
    reports.  Nothing: they wait for ever.  An error at once: [sdb_cont] prints
    a status it never had.  The end of the program: it is told with its status
    and the process forgotten.  A stop at none of the breakpoints - a signal,
    say: the program is not resumed but waited for again, so unless it is
    killed the command never returns. *)
Theorem cont_and_run_end f s cmd status s1 fuel c w0 :
  lets_go s cmd status s1 →
  let p := sdb_pid (st_sdb s1) in
  0 < p → length (breaks (st_sdb s1)) = MAX_BREAK → (3 ≤ fuel)%nat →
  ptrace_cont (st_world s1) p = (c, w0) →
  (cmd fuel s = cmd 3%nat s ∧ cmd fuel s ≠ NoFuel) ∧
  match sys_waitpid w0 p with
  | None => cmd fuel s = Blocks
  | Some (r, st, w1) =>
      if r <=? 0 then
        cmd fuel s = match status with Some st0 => Ret (tt, gone st0 w1 s1) | None => Undef Uninit end
      else if negb (WIFSTOPPED st) then ∃ w2, cmd fuel s = Ret (tt, gone st w2 s1)
      else ∀ regs, ptrace_getregs w1 p = Some regs → view f (on_world w1 s1) →
        wrap64 (u_rip regs - 1) ∉ used_addrs f s1 →
        match sys_waitpid w1 p with
        | None => cmd fuel s = Blocks
        | Some (r2, st2, _) => ∃ w3, cmd fuel s = Ret (tt, gone (if 0 <? r2 then st2 else st) w3 s1)
        end
  end.
Proof.
  intros Hgo p Hp Hlen Hfuel Hc. rewrite !(lets_go_resume _ _ _ _ _ Hgo).
  destruct (resume_terminates fuel status s1 c w0 Hc Hp Hfuel) as [E Hn]. rewrite E. split; [done|].
  assert (∀ st w, wait_loop 3 status (on_world w0 s1) = Ret (inr (Some st), on_world w s1) →
    resume 3 status s1 = Ret (tt, gone st w s1)) as Hgone.
  { intros st w El. unfold resume. rewrite (bind_Ret _ _ _ _ _ (cont_eq _ _ _ Hc)), (bind_Ret _ _ _ _ _ El).
    cbv beta iota. by rewrite read_Some_bind, child_gone_eq. }
  assert (wait_loop 3 status (on_world w0 s1) = Blocks → resume 3 status s1 = Blocks) as Hblocks.
  { intros El. unfold resume. rewrite (bind_Ret _ _ _ _ _ (cont_eq _ _ _ Hc)). unfold mbind, M_bind. by rewrite El. }
  destruct (sys_waitpid w0 p) as [[[r st] w1]|] eqn:Hw; cycle 1.
  { apply Hblocks. cbn [wait_loop]. unfold mbind, M_bind. rewrite waitpid_eq. cbn. fold p. by rewrite Hw. }
  destruct (Z.leb_spec r 0) as [Hr|Hr].
  { pose proof (wait_fails 2 status (on_world w0 s1) r st w1 Hw Hr) as El. destruct status as [st0|]; [by apply Hgone|].
    unfold resume. by rewrite (bind_Ret _ _ _ _ _ (cont_eq _ _ _ Hc)), (bind_Ret _ _ _ _ _ El). }
  destruct (WIFSTOPPED st) eqn:Hst; cbn [negb]; cycle 1.
  { destruct (wait_end 1 status (on_world w0 s1) r st w1) as [w2 El]; [done..|]. exists w2. by apply Hgone. }
  intros regs Hg Hv Hmiss.
  assert (wait_loop 3 status (on_world w0 s1) = wait_loop 2 (Some st) (on_world w1 s1)) as El.
  { eapply (wait_stop 2 status (on_world w0 s1)); [done..|]. apply (scan_miss f); [done|done|lia|].
    intros i bp Hu _ Ea. apply Hmiss. rewrite <-Ea. apply elem_of_used_addrs. by exists i, bp. }
  pose proof (wait_after_stop 0 (on_world w1 s1) r st w0 Hp Hw Hr Hst) as Ha. cbn [st_world st_sdb on_world] in Ha.
  fold p in Ha. destruct (sys_waitpid w1 p) as [[[r2 st2] w2]|].
  - destruct Ha as [w3 Ha]. exists w3. apply Hgone. by rewrite El.
  - apply Hblocks. by rewrite El.
Qed.

End termination.
