(* ===== verification/SdbSession.v ===== *)
(** * sdb: from one breakpoint to the next

    The commands that let the program go on, composed with what the program
    and the kernel do meanwhile: run and cont stop at a breakpoint with its
    byte put back, and a program that is stopped on a breakpoint executes the
    instruction there before the breakpoint is planted again. *)
From S2P Require Import Prelude Libc Elftool Kernel SdbState SdbBreak SdbRun.

Section session.
Context {W : Type} `{KernelLaws W} `{CapstoneLaws}.
Implicit Types (s : St W) (f : Z → Z) (orig : Z → option Z) (B : gset Z) (w : W).

(** ** What the program does between two stops *)

(** The program's own bytes after it ran from the world [w] to [w']: what it
    wrote, and its bytes as they were everywhere else. *)
Definition after orig w w' (p b : Z) : option Z :=
  if decide (tbyte w' p b = tbyte w p b) then orig b else tbyte w' p b.

(** The program ran on from [s] to the world [w'] and is stopped with [regs].
    It may write anywhere but to the words of the breakpoints. *)
Record went_on f s w' regs : Prop := {
  wo_text a k : a ∈ used_addrs f s → 0 ≤ k < 8 →
    tbyte w' (sdb_pid (st_sdb s)) (a + k) = tbyte (st_world s) (sdb_pid (st_sdb s)) (a + k);
  wo_view : view f (on_world w' s);
  wo_mapped i bp : used s i bp → is_Some (ptrace_peek w' (sdb_pid (st_sdb s)) (f (bp_addr bp)));
  wo_regs : ptrace_getregs w' (sdb_pid (st_sdb s)) = Some regs }.

Lemma used_in_addrs f s i bp : used s i bp → f (bp_addr bp) ∈ used_addrs f s.
Proof. intros Hu. apply elem_of_used_addrs. by exists i, bp. Qed.

Lemma after_same orig f s w' regs a k :
  went_on f s w' regs → a ∈ used_addrs f s → 0 ≤ k < 8 →
  after orig (st_world s) w' (sdb_pid (st_sdb s)) (a + k) = orig (a + k).
Proof. intros Hw Ha Hk. unfold after. by rewrite decide_True by (by eapply wo_text). Qed.

Lemma after_same_0 orig f s w' regs a :
  went_on f s w' regs → a ∈ used_addrs f s → after orig (st_world s) w' (sdb_pid (st_sdb s)) a = orig a.
Proof. intros Hw Ha. rewrite <-(Z.add_0_r a). eapply after_same; [done|done|lia]. Qed.

Lemma own_insns_after orig f s w' regs a :
  went_on f s w' regs → a ∈ used_addrs f s →
  own_insns (after orig (st_world s) w' (sdb_pid (st_sdb s))) a = own_insns orig a.
Proof.
  intros Hw Ha. unfold own_insns. f_equal. cbn [map]. by rewrite !(after_same orig f s w' regs) by (done || lia).
Qed.

(** The breakpoints are where they were. *)
Lemma bp_inv_after orig B f s w' regs :
  bp_inv orig B f s → went_on f s w' regs →
  bp_inv (after orig (st_world s) w' (sdb_pid (st_sdb s))) B f (on_world w' s).
Proof.
  intros Hinv Hw. split.
  - apply Hinv.
  - intros b. unfold overlay, after.
    assert (b ∈ B → tbyte w' (sdb_pid (st_sdb s)) b = tbyte (st_world s) (sdb_pid (st_sdb s)) b) as Hb.
    { intros Hb. rewrite <-(Z.add_0_r b). eapply wo_text; [done| |lia]. by apply (inv_sub _ _ _ _ Hinv). }
    pose proof (inv_mem _ _ _ _ Hinv b) as Hm. unfold mem_at, overlay in Hm. unfold mem_at.
    cbn [st_world st_sdb on_world]. destruct (decide (b ∈ B)); [by rewrite Hb|]. case_decide; congruence.
  - apply (inv_sub _ _ _ _ Hinv).
  - intros i bp k Hu HB Hk. rewrite (after_same orig f s w' regs); [|done|by eapply used_in_addrs|done].
    by apply (inv_saved _ _ _ _ Hinv i bp k).
  - apply (inv_spaced _ _ _ _ Hinv).
Qed.

Lemma patchable_after orig f s w' regs :
  patchable orig f s → went_on f s w' regs →
  patchable (after orig (st_world s) w' (sdb_pid (st_sdb s))) f (on_world w' s).
Proof.
  intros Hp Hw i bp Hu. split; [exact (wo_mapped _ _ _ _ Hw i bp Hu)|].
  rewrite (after_same_0 orig f s w' regs); [|done|by eapply used_in_addrs]. by apply (Hp i).
Qed.

(** ** Off a breakpoint *)

Lemma wp_singlestep (Q : Z → St W → Prop) s c w :
  ptrace_singlestep (st_world s) (sdb_pid (st_sdb s)) = (c, w) → Q c (on_world w s) → wp singlestep Q s.
Proof.
  intros E HQ. unfold wp, singlestep, pid, world, get_sdb, gets, mbind, M_bind, mret, M_ret.
  rewrite E. exact HQ.
Qed.

(** One instruction: the request, and the stop it ends with. *)
Definition stepped f s w' regs : Prop := ∃ c w1 r st,
  ptrace_singlestep (st_world s) (sdb_pid (st_sdb s)) = (c, w1) ∧
  sys_waitpid w1 (sdb_pid (st_sdb s)) = Some (r, st, w') ∧ 0 ≤ r ∧ went_on f s w' regs.

Lemma patch_bp_over orig B f i bp regs s w' regs' :
  bp_inv orig B f s → view f s → patchable orig f s → used s i bp →
  ptrace_getregs (st_world s) (sdb_pid (st_sdb s)) = Some regs → u_rip regs = f (bp_addr bp) →
  stepped f s w' regs' →
  wp (patch_bp i) (λ r s', r = None ∧ same_but_saved (on_world w' s) s' ∧
    bp_inv (after orig (st_world s) w' (sdb_pid (st_sdb s))) ({[f (bp_addr bp)]} ∪ B) f s') s.
Proof.
  intros Hinv Hv Hp Hu Hr Hrip (c & w1 & r & st & Hs & Hw & Hr0 & Hgo).
  unfold patch_bp. apply wp_bind. eapply wp_get_break; [apply Hu|]. rewrite (proj2 Hu).
  apply wp_bind. eapply wp_run_addr; [done|].
  apply wp_bind. unfold step_off. apply wp_bind, wp_getregs. rewrite Hr.
  apply wp_bind, wp_read_init. rewrite (proj2 (Z.eqb_eq _ _) Hrip).
  apply wp_bind. eapply wp_singlestep; [done|]. apply wp_bind. eapply wp_waitpid; [done|].
  rewrite (proj2 (Z.ltb_ge r 0)) by done. apply wp_ret.
  change (on_world w' (on_world w1 s)) with (on_world w' s).
  apply (plant_inv _ B f i bp (on_world w' s)); [by eapply bp_inv_after|by eapply patchable_after|exact Hu].
Qed.

(** The program is stopped on the breakpoint of slot [i]: the slots before it
    are looked at first and leave [si]; one instruction then takes the program
    to the world [w'], stopped with [regs'], and not on a later breakpoint. *)
Record steps_off f s i bp si w' regs' : Prop := {
  so_used : used s i bp;
  so_rip : ∃ regs, ptrace_getregs (st_world s) (sdb_pid (st_sdb s)) = Some regs ∧
                   u_rip regs = f (bp_addr bp);
  so_before : for_each (seq 0 i) patch_bp s = Ret (None, si);
  so_step : stepped f si w' regs';
  so_after k bk : used s k bk → (i < k)%nat → u_rip regs' ≠ f (bp_addr bk) }.

(** Before the instruction: the breakpoint the program is on is planted if it
    was. *)
Lemma before_step orig B f s i bp si w' regs' :
  bp_inv orig B f s → view f s → patchable orig f s →
  steps_off f s i bp si w' regs' →
  same_but_saved s si ∧ ∃ B', bp_inv orig B' f si ∧ (f (bp_addr bp) ∈ B' ↔ f (bp_addr bp) ∈ B) ∧
    ∀ k bk, used s k bk → (k < i)%nat → f (bp_addr bk) ∈ B'.
Proof.
  intros Hinv Hv Hp [Hu (regs & Hr & Hrip) E _ _].
  pose proof (used_lt _ _ _ _ _ _ Hinv Hu) as Hi.
  assert (∀ k bk, used s k bk → (0 ≤ k < 0 + i)%nat → f (bp_addr bp) ≠ f (bp_addr bk)) as Hne.
  { intros k bk Hk Hki Ee. pose proof (inv_spaced _ _ _ _ Hinv k i bk bp Hk Hu ltac:(lia)). lia. }
  pose proof (patch_range orig B f 0 i regs s Hinv Hv Hp ltac:(lia) Hr) as Hw.
  rewrite Hrip in Hw. specialize (Hw Hne). unfold wp in Hw. rewrite E in Hw.
  destruct Hw as (_ & Hs & B' & Hsub & Hinv' & Hin & Hout). split; [done|]. exists B'. split_and!; [done| |].
  - split; [|by apply Hsub]. intros [|(k & bk & Hk & Hki & Ee)]%Hout; [done|]. by destruct (Hne k bk Hk Hki).
  - intros k bk Hk Hki. by apply (Hin k); [|lia].
Qed.

(** The word the program is about to execute. *)
Lemma word_at_step orig B B' f s i bp si w' regs' k :
  bp_inv orig B' f si → same_but_saved s si → (f (bp_addr bp) ∈ B' ↔ f (bp_addr bp) ∈ B) →
  steps_off f s i bp si w' regs' → spaced f s → 0 ≤ k < 8 →
  mem_at si (f (bp_addr bp) + k)
  = overlay orig (B ∩ {[f (bp_addr bp)]}) (f (bp_addr bp) + k).
Proof.
  intros Hinv Hs HB Hso Hsp Hk. rewrite (inv_mem _ _ _ _ Hinv). unfold overlay.
  destruct (decide (_ ∈ B ∩ _)) as [[Ha Ek%elem_of_singleton]%elem_of_intersection|Hna].
  { rewrite Ek in *. rewrite decide_True; [done|]. by apply HB. }
  rewrite decide_False; [done|]. intros HkB. apply Hna, elem_of_intersection. rewrite elem_of_singleton.
  pose proof (inv_sub _ _ _ _ Hinv _ HkB) as HkB'. rewrite (used_addrs_same _ _ _ Hs) in HkB'.
  apply elem_of_used_addrs in HkB' as (j & bj & Hj & Ej). destruct (decide (i = j)) as [<-|Hij].
  - assert (bj = bp) as -> by (destruct Hj, (so_used _ _ _ _ _ _ _ Hso); congruence).
    rewrite <-Ej in HkB |- *. split; [|done]. by apply HB.
  - pose proof (Hsp i j bp bj (so_used _ _ _ _ _ _ _ Hso) Hj Hij). lia.
Qed.

Lemma steps_over orig B f s i bp si w' regs' :
  bp_inv orig B f s → view f s → patchable orig f s →
  steps_off f s i bp si w' regs' →
  wp sdb_patch_all_bp (λ _ s',
    bp_inv (after orig (st_world si) w' (sdb_pid (st_sdb s))) (used_addrs f s) f s' ∧
    same_but_saved (on_world w' si) s') s.
Proof.
  intros Hinv Hv Hp Hso. pose proof (before_step _ _ _ _ _ _ _ _ _ Hinv Hv Hp Hso) as (Hs & B1 & Hinv1 & _ & Hin).
  destruct Hso as [Hu (regs & Hr & Hrip) E Hst Haft]. pose proof (used_lt _ _ _ _ _ _ Hinv Hu) as Hi.
  pose proof (sbs_pid _ _ Hs) as Hpid. rewrite <-(used_addrs_same f _ _ Hs), <-Hpid.
  destruct (used_same_l _ _ _ _ Hs Hu) as (bpi & Hui & Ea).
  unfold sdb_patch_all_bp. rewrite (slots_split i Hi). apply wp_bind. unfold wp. rewrite for_each_app.
  apply (wp_bind (for_each (seq 0 i) patch_bp)). eapply wp_intro; [exact E|]. cbn [for_each].
  apply wp_bind. eapply wp_mono.
  { apply (patch_bp_over orig B1 f i bpi regs si w' regs'); try done.
    - by eapply view_same. - by eapply patchable_same. - by rewrite Hpid, (sbs_regs _ _ Hs). - by rewrite Ea. }
  destruct Hst as (c & w1 & r & st & _ & _ & _ & Hgo).
  intros o s2 (-> & Hs2 & Hinv2). cbv beta iota. eapply wp_mono.
  { apply (patch_range _ _ f (S i) (MAX_BREAK - S i) regs' s2 Hinv2).
    - eapply view_same; [done|apply Hgo].
    - eapply patchable_same; [done|]. eapply patchable_after; [|done]. by eapply patchable_same.
    - lia.
    - rewrite (sbs_pid _ _ Hs2), (sbs_regs _ _ Hs2). apply Hgo.
    - intros k bk Hk Hki. destruct (used_same _ _ _ _ Hs2 Hk) as (b2 & Hb2 & <-).
      destruct (used_same _ _ _ _ Hs Hb2) as (b3 & Hb3 & <-). eapply Haft; [done|lia]. }
  intros o' s3 (_ & Hs3 & B3 & Hsub3 & Hinv3 & Hin3 & _). apply wp_ret.
  assert (same_but_saved (on_world w' si) s3) as Hs' by (by transitivity s2). split; [|done].
  change (used_addrs f si) with (used_addrs f (on_world w' si)).
  eapply planted_all; [done..|]. intros k bk Hk. change (used si k bk) in Hk.
  destruct (decide (k = i)) as [->|Hki].
  - apply Hsub3, elem_of_union_l, elem_of_singleton. destruct Hk, Hui. by simplify_eq.
  - destruct (decide (k < i)%nat).
    + apply Hsub3, elem_of_union_r. destruct (used_same _ _ _ _ Hs Hk) as (b & Hb & <-). by eapply Hin.
    + destruct (used_same_l _ _ _ _ Hs2 Hk) as (b & Hb & <-). eapply Hin3; [done|].
      pose proof (used_lt _ _ _ _ _ _ Hinv1 Hk). lia.
Qed.

(** C6. Off a breakpoint: when the program is stopped on a breakpoint,
    [sdb_patch_all_bp] executes one instruction there before it plants the
    breakpoint again.  The instruction is the program's own when the byte is,
    as it is after a stop there; when the breakpoint is planted, as after [si]
    up to it, it is the int3.  What the instruction wrote is kept, and at the end every breakpoint
    that is set is planted, the one the program just left included. *)
Theorem patch_all_steps_over orig B f s i bp si w' regs' :
  bp_inv orig B f s → view f s → patchable orig f s →
  steps_off f s i bp si w' regs' →
  let a := f (bp_addr bp) in
  (∀ k, 0 ≤ k < 8 → mem_at si (a + k) = overlay orig (B ∩ {[a]}) (a + k)) ∧
  wp sdb_patch_all_bp (λ _ s',
    bp_inv (after orig (st_world si) w' (sdb_pid (st_sdb s))) (used_addrs f s) f s' ∧
    slot_key <$> breaks (st_sdb s') = slot_key <$> breaks (st_sdb s) ∧
    ptrace_getregs (st_world s') (sdb_pid (st_sdb s)) = Some regs') s.
Proof.
  intros Hinv Hv Hp Hso a. destruct (before_step _ _ _ _ _ _ _ _ _ Hinv Hv Hp Hso) as (Hs & B1 & Hinv1 & HB1 & _).
  split.
  - intros k Hk. eapply word_at_step; [done|done|done|done|apply Hinv|done].
  - eapply wp_mono; [by eapply steps_over|]. intros [] s' [Hinv' Hs']. split; [done|].
    pose proof (sbs_pid _ _ Hs') as Hpid. pose proof (sbs_regs _ _ Hs') as Hregs. cbn in Hpid, Hregs.
    rewrite (sbs_slots _ _ Hs'). split; [apply Hs|].
    destruct (so_step _ _ _ _ _ _ _ Hso) as (c & w1 & r & st & _ & _ & _ & Hgo).
    rewrite <-(sbs_pid _ _ Hs), Hregs. apply Hgo.
Qed.

(** ** To the next breakpoint *)

(** From [s] the program runs to the breakpoint of slot [i] and is reported
    stopped one byte past it, with [regs], in the world [w'], where the kernel
    lets sdb move [rip] back once the byte is the program's. *)
Record runs_to f s i bp w' regs : Prop := {
  rt_used : used s i bp;
  rt_stop : ∃ c w1 r st, ptrace_cont (st_world s) (sdb_pid (st_sdb s)) = (c, w1) ∧
    sys_waitpid w1 (sdb_pid (st_sdb s)) = Some (r, st, w') ∧ 0 < r ∧ WIFSTOPPED st = true;
  rt_went : went_on f s w' regs;
  rt_rip : wrap64 (u_rip regs - 1) = f (bp_addr bp);
  rt_moved : fst (ptrace_setregs
    (snd (ptrace_poke w' (sdb_pid (st_sdb s)) (f (bp_addr bp)) (original_word bp)))
    (sdb_pid (st_sdb s)) (rset RIP (f (bp_addr bp)) regs)) = 0 }.

(** The command has come back at the breakpoint at [a]: its byte is the
    program's again, all the others that were set at [s] are planted, [rip] is
    on it and the other general registers are those of the stop. *)
Record stopped_at orig f s a regs s' : Prop := {
  sa_inv : bp_inv orig (used_addrs f s ∖ {[a]}) f s';
  sa_view : view f s';
  sa_saved : all_saved orig f s';
  sa_slots : slot_key <$> breaks (st_sdb s') = slot_key <$> breaks (st_sdb s);
  sa_regs : ∃ x, ptrace_getregs (st_world s') (sdb_pid (st_sdb s')) = Some x ∧
                 same_general x (rset RIP a regs) }.

Lemma wp_cont (Q : Z → St W → Prop) s c w :
  ptrace_cont (st_world s) (sdb_pid (st_sdb s)) = (c, w) → Q c (on_world w s) → wp cont Q s.
Proof.
  intros E HQ. unfold wp, cont, pid, world, get_sdb, gets, mbind, M_bind, mret, M_ret.
  rewrite E. exact HQ.
Qed.

Lemma resume_hits orig f s i bp w' regs fuel status :
  bp_inv orig (used_addrs f s) f s → runs_to f s i bp w' regs →
  wp_if (reportable i (own_insns orig (f (bp_addr bp)))) (resume (S fuel) status)
    (λ _ s', stopped_at (after orig (st_world s) w' (sdb_pid (st_sdb s))) f s (f (bp_addr bp)) regs s' ∧
             sdb_pid (st_sdb s') = sdb_pid (st_sdb s)) s.
Proof.
  intros Hinv [Hu (c & w1 & r & st & Hc & Hw & Hr & Hst) Hgo Hrip Hmv].
  unfold resume. apply wp_if_bind_r. eapply wp_cont; [done|]. apply wp_if_bind_l.
  pose proof (bp_inv_after _ _ _ _ _ _ Hinv Hgo) as Hinv'.
  pose proof (used_in_addrs f s i bp Hu) as Ha.
  rewrite <-(own_insns_after orig f s w' regs) by done. eapply wp_if_mono.
  { eapply (wait_loop_hit _ (used_addrs f s) f i bp regs (on_world w1 s) fuel status r st w'); [done..|].
    split; try done; [apply Hgo|by apply (wo_mapped _ _ _ _ Hgo i)|apply Hgo]. }
  intros o s' (-> & Hinv2 & Hv' & Hsdb & _ & Hregs'). apply wp_ret. cbn [st_sdb on_world] in *.
  rewrite Hsdb. split; [|done]. split; [done|done| |by rewrite Hsdb|by rewrite Hsdb].
  pose proof (planted_saved _ f (on_world w' s) Hinv') as Hsv. intros j bj k. unfold used. rewrite Hsdb. apply Hsv.
Qed.

(** [cont], once it is known what patching leaves. *)
Lemma cont_from_patched orig f s s1 i bp w' regs fuel :
  sdb_is_running (st_sdb s) = true → sdb_patch_all_bp s = Ret (tt, s1) →
  bp_inv orig (used_addrs f s) f s1 → slot_key <$> breaks (st_sdb s1) = slot_key <$> breaks (st_sdb s) →
  used_addrs f s1 = used_addrs f s → runs_to f s1 i bp w' regs →
  wp_if (reportable i (own_insns orig (f (bp_addr bp)))) (sdb_cont (S fuel))
    (λ _ s', stopped_at (after orig (st_world s1) w' (sdb_pid (st_sdb s1))) f s (f (bp_addr bp)) regs s') s.
Proof.
  intros Hrun E Hinv Hk Ha Hto. unfold sdb_cont. apply wp_if_bind_r, wp_get_sdb. rewrite Hrun. cbn [negb].
  apply wp_if_bind_r. eapply wp_intro; [exact E|]. rewrite <-Ha in Hinv.
  eapply wp_if_mono; [by eapply resume_hits|]. intros [] s' [[Hi Hv Hsv Hs Hr] _].
  split; [by rewrite <-Ha|done|done|congruence|done].
Qed.

(** C3. The command [cont] runs the program to a breakpoint: every breakpoint in
    use is planted first; when the program, whatever it wrote outside the words
    of the breakpoints, is then reported stopped one byte past one of them, and
    the kernel accepts [rip] moved back, the command ends with the program's own
    byte back in that place, [rip] on it, every other breakpoint still planted,
    and the same breakpoints in the table - provided the report stays inside its
    arrays: the program's first instruction there has at most five bytes, and
    its eight bytes there are more instructions than the number of the
    breakpoint.  Otherwise the report overruns them. *)
Theorem cont_stops_at_breakpoint orig B f s s1 i bp w' regs fuel :
  sdb_is_running (st_sdb s) = true →
  bp_inv orig B f s → view f s → patchable orig f s → rip_clear f s →
  sdb_patch_all_bp s = Ret (tt, s1) → runs_to f s1 i bp w' regs →
  if reportable i (own_insns orig (f (bp_addr bp))) then
    wp (sdb_cont (S fuel))
      (λ _ s', stopped_at (after orig (st_world s1) w' (sdb_pid (st_sdb s))) f s (f (bp_addr bp)) regs s') s
  else sdb_cont (S fuel) s = Undef OutOfBounds.
Proof.
  intros Hrun Hinv Hv Hp Hr E Hto. pose proof (patch_all_spec orig B f s Hinv Hv Hp Hr) as Hpatch.
  unfold wp in Hpatch. rewrite E in Hpatch. destruct Hpatch as [Hinv1 Hs]. rewrite <-(sbs_pid _ _ Hs).
  exact (cont_from_patched _ _ _ _ _ _ _ _ fuel Hrun E Hinv1 (sbs_slots _ _ Hs) (used_addrs_same _ _ _ Hs) Hto).
Qed.


(** ** From the start of the program *)

(** The debugger once the program is there: [p] is its process. *)
Definition started s p w : St W :=
  on_out (Stdout (default "" (format ("** pid %d" +:+ newline) [AInt p]))) (on_world w (on_sdb (with_pid p) s)).

Lemma wp_spawn (Q : unit + Z → St W → Prop) s p w0 r st w1 :
  sys_fork (st_world s) = (p, w0) → 0 < p → sys_waitpid w0 p = Some (r, st, w1) → 0 ≤ r →
  Q (inr st) (started s p (ptrace_setoptions w1 p)) → wp spawn Q s.
Proof.
  intros Ef Hp Hw Hr HQ. unfold spawn. apply wp_bind.
  eapply (wp_intro _ _ _ p (on_world w0 s)); [by unfold world; rewrite Ef|].
  apply wp_bind, wp_put_sdb. rewrite (proj2 (Z.ltb_ge p 0)), (proj2 (Z.eqb_neq p 0)) by lia.
  apply wp_bind. eapply wp_waitpid; [done|]. rewrite (proj2 (Z.ltb_ge r 0)) by done.
  apply wp_bind. eapply (wp_intro setoptions); [done|].
  apply wp_bind. eapply wp_intro; [apply printf_ok; by eexists|]. by apply wp_ret.
Qed.

(** [run], once it is known what patching leaves. *)
Lemma run_from_patched orig f s p w0 r st w1 s1 i bp w' regs fuel :
  sdb_is_loaded (st_sdb s) = true → sdb_is_running (st_sdb s) = false →
  sys_fork (st_world s) = (p, w0) → 0 < p → sys_waitpid w0 p = Some (r, st, w1) → 0 ≤ r →
  sdb_patch_all_bp (started s p (ptrace_setoptions w1 p)) = Ret (tt, s1) →
  bp_inv orig (used_addrs f s1) f s1 → runs_to f s1 i bp w' regs →
  wp_if (reportable i (own_insns orig (f (bp_addr bp)))) (sdb_run (S fuel))
    (λ _ s', stopped_at (after orig (st_world s1) w' (sdb_pid (st_sdb s1))) f s1 (f (bp_addr bp)) regs s' ∧
             sdb_pid (st_sdb s') = sdb_pid (st_sdb s1)) s.
Proof.
  intros Hl Hrun Ef Hp Hw Hr E Hinv Hto.
  unfold sdb_run. apply wp_if_bind_r, wp_get_sdb. rewrite Hl, Hrun. cbn [negb]. apply wp_if_bind_r, wp_bind.
  eapply wp_spawn; [done..|]. apply wp_ret. cbv beta iota.
  apply wp_if_bind_r. eapply wp_intro; [exact E|]. by apply resume_hits.
Qed.

(** C5. The command [run] on a program that is loaded and not running, in the
    debugger's process: the tracee is created and its number printed, every
    breakpoint is planted in its fresh text, and when it is reported on one of
    them the command ends there, with that byte its own again, or overruns its
    arrays when the report does not fit them. *)
Theorem run_stops_at_breakpoint f s p w0 r st w1 s1 i bp w' regs fuel :
  sdb_is_loaded (st_sdb s) = true → sdb_is_running (st_sdb s) = false →
  length (breaks (st_sdb s)) = MAX_BREAK → spaced f s →
  sys_fork (st_world s) = (p, w0) → 0 < p → sys_waitpid w0 p = Some (r, st, w1) → 0 ≤ r →
  let s0 := started s p (ptrace_setoptions w1 p) in
  view f s0 → patchable (mem_at s0) f s0 → rip_clear f s0 →
  sdb_patch_all_bp s0 = Ret (tt, s1) → runs_to f s1 i bp w' regs →
  if reportable i (own_insns (mem_at s0) (f (bp_addr bp))) then
    wp (sdb_run (S fuel))
      (λ _ s', stopped_at (after (mem_at s0) (st_world s1) w' p) f s (f (bp_addr bp)) regs s' ∧
               sdb_pid (st_sdb s') = p) s
  else sdb_run (S fuel) s = Undef OutOfBounds.
Proof.
  intros Hl Hrun Hlen Hsp Ef Hp Hw Hr s0 Hv Hpa Hrc E Hto.
  pose proof (patch_all_spec _ ∅ f s0 (bp_inv_fresh f s0 Hlen Hsp) Hv Hpa Hrc) as Hpatch.
  unfold wp in Hpatch. rewrite E in Hpatch. destruct Hpatch as [Hinv1 Hs].
  change (used_addrs f s0) with (used_addrs f s) in Hinv1.
  assert (used_addrs f s1 = used_addrs f s) as Ha by apply (used_addrs_same f _ _ Hs).
  rewrite <-Ha in Hinv1. pose proof (sbs_pid _ _ Hs) as Hpid. cbn in Hpid. rewrite <-Hpid.
  pose proof (run_from_patched _ f s p w0 r st w1 s1 i bp w' regs fuel Hl Hrun Ef Hp Hw Hr E Hinv1 Hto) as Hend.
  eapply wp_if_mono; [exact Hend|]. intros [] s' [[Hi Hv' Hsv Hk Hg] Hq]. split; [|done].
  split; [by rewrite <-Ha|done|done|rewrite Hk; apply Hs|done].
Qed.
End session.
