(* ===== verification/SdbInspect.v ===== *)
(** * sdb: loading a program and looking at it *)
From S2P Require Import Prelude Libc Elftool Kernel SdbState SdbBreak SdbRun.

Section sdb_inspect.
Context {W : Type} `{Kernel W} `{ElfEnv} `{Capstone}.

(** ** sdb_create *)

(** The new object: [junk] is what [malloc] leaves in the breakpoint slots. *)
Definition new_sdb (junk : nat → Z * Z) : SDB :=
  Sdb None None "" (-1)
    ((λ i, Bp false (fst (junk i)) (snd (junk i))) <$> indices MAX_BREAK) 0.
Definition sdb_create (junk : nat → Z * Z) : M (St W) unit :=
  elf elf_init ≫= λ _, put_sdb (λ _, new_sdb junk).

(** ** sdb_load *)

(** [strcmp] of the text at the head of [b] with [lit]: is it equal?  [None]
    when the comparison runs off the end of [b]. *)
Fixpoint streq (b : list Z) (lit : string) : option bool :=
  match b, lit with
  | [], _ => None
  | z :: _, EmptyString => Some (z =? 0)
  | z :: b, String c lit => if z =? code c then streq b lit else Some false
  end.

(** [strcmp(&tab->data[s.name], lit) == 0] *)
Definition section_is (tab : option loc) (s : elf_shdr_t) (lit : string) : M (St W) bool :=
  t ← deref tab;
  n ← elf (load_node t);
  d ← deref (st_data n);
  b ← elf (load_bytes d);
  if sh_name s <? 0 then undef OutOfBounds
  else match streq (drop (Z.to_nat (sh_name s)) b) lit with
       | Some r => mret r
       | None => undef OutOfBounds
       end.

(** The string table whose id is [shstrndx]. *)
Fixpoint find_shstrtab (fuel : nat) (id : Z) (tab : option loc) : M (St W) (option loc) :=
  match tab with
  | None => mret None
  | Some t =>
      match fuel with
      | O => no_fuel
      | S fuel =>
          n ← elf (load_node t);
          if st_id n =? id then mret (Some t) else find_shstrtab fuel id (st_next n)
      end
  end.

(** The first section, from [i] on, called ".text". *)
Fixpoint find_text (tab : option loc) (shdr : list elf_shdr_t) (ixs : list nat)
  : M (St W) (option elf_shdr_t) :=
  match ixs with
  | [] => mret None
  | i :: ixs =>
      s ← at_index shdr i;
      r ← section_is tab s ".text";
      if (r : bool) then mret (Some s) else find_text tab shdr ixs
  end.

(** [e->shdr], dereferenced only when the loop over it is entered. *)
Definition shdr_array (eh : elf_handle_t) : M (St W) (list elf_shdr_t) :=
  if e_shnum eh <=? 1 then mret []
  else a ← deref (e_shdr eh); elf (load_shdrs a).

Definition sdb_load (new_filename : string) : M (St W) unit :=
  s ← get_sdb;
  (match sdb_eh s with
   | Some _ => elf (elf_close (sdb_eh s)) ≫= λ _, put_sdb (with_eh None)
   | None => mret tt
   end) ≫= λ _,
  eh ← elf (elf_open new_filename);
  put_sdb (with_eh eh) ≫= λ _,
  match eh with
  | None => eprintf ("** unabel to open '%s'." +:+ newline) [AStr new_filename]
  | Some l =>
      r ← elf (elf_load_all l);
      if r <? 0 then eprintf ("** unable to load '%s." +:+ newline) [AStr new_filename]
      else
        eh ← handle;
        m ← gets (λ s : St W, st_mem s);
        tab ← find_shstrtab (size (m_heap m)) (e_shstrndx eh) (e_strtab eh);
        put_sdb (with_tab tab) ≫= λ _,
        match tab with
        | None => eprintf ("** section header string table not found." +:+ newline) []
        | Some _ =>
            shdr ← shdr_array eh;
            text ← find_text tab shdr (seq 1 (Z.to_nat (e_shnum eh) - 1));
            (match text with
             | Some s =>
                 printf ("** program '%s' loaded. entry point 0x%lx, vaddr 0x%llx, offset 0x%llx, size 0x%llx"
                         +:+ newline)
                   [AStr new_filename; AInt (e_entrypoint eh); AInt (sh_addr s);
                    AInt (sh_offset s); AInt (sh_size s)]
             | None => mret tt
             end) ≫= λ _,
            if (128 <=? String.length new_filename)%nat then undef OutOfBounds
            else
              put_sdb (λ s, Sdb (sdb_eh s) (sdb_strtab s) new_filename (-1)
                              ((λ b, Bp false (bp_addr b) (original_word b)) <$> breaks s) 0)
        end
  end.

(** ** sdb_vmmap *)

(** The [while] of [print_vm_maps] over the tokens of a line. *)
Fixpoint print_vm_tokens (count : nat) (tokens : list string) : M (St W) unit :=
  match tokens with
  | [] => mret tt
  | token :: tokens =>
      (match count with
       | 0%nat =>
           match split_at "-" token with
           | None => undef NullDeref
           | Some (first, second) =>
               begin_ ← read_init (scan_llx first);
               end_ ← read_init (scan_llx second);
               printf "%016llx-%016llx " [AInt begin_; AInt end_]
           end
       | 1%nat =>
           if (String.length token <? 3)%nat then undef OutOfBounds
           else printf "%s " [AStr (String.substring 0 3 token)]
       | 2%nat => offset ← read_init (scan_x token); printf "%-8x " [AInt offset]
       | 5%nat => printf "%s " [AStr token]
       | _ => mret tt
       end) ≫= λ _,
      print_vm_tokens (S count) tokens
  end.
Definition print_vm_maps (line : string) : M (St W) unit :=
  print_vm_tokens 0 (strtok_all line (" " +:+ newline)) ≫= λ _, puts "".

Fixpoint print_all_maps (lines : list string) : M (St W) unit :=
  match lines with
  | [] => mret tt
  | line :: lines => print_vm_maps line ≫= λ _, print_all_maps lines
  end.

Definition sdb_vmmap : M (St W) unit :=
  s ← get_sdb;
  if negb (sdb_is_loaded s) then printf ("No program loaded" +:+ newline) []
  else if negb (sdb_is_running s) then
    eh ← handle;
    shdr ← shdr_array eh;
    text ← find_text (sdb_strtab s) shdr (seq 1 (Z.to_nat (e_shnum eh) - 1));
    match text with
    | Some x =>
        printf ("%016llx-%016llx r-x %llx       %s" +:+ newline)
          [AInt (sh_addr x); AInt (sh_addr x + sh_size x); AInt (sh_offset x); AStr (sdb_path s)]
    | None => mret tt
    end
  else
    w ← gets (λ s : St W, st_world s);
    lines ← deref (fopen_lines w (proc_maps_path (sdb_pid s)));
    print_all_maps lines.

(** ** Registers *)

(** The order in which [MATCH_REG_NAME] and [SET_IF_MATCHED] are expanded. *)
Definition reg_list : list reg :=
  [RAX; RBX; RCX; RDX; R8; R9; R10; R11; R12; R13; R14; R15; RDI; RSI; RBP; RSP; RIP; EFLAGS].

Definition match_reg_name (regs : user_regs) (name : string) (reg_val : option Z) (r : reg) : option Z :=
  if bool_decide (name = reg_name r) then Some (rget r regs) else reg_val.
Definition set_if_matched (name : string) (val : Z) (regs : user_regs) (r : reg) : user_regs :=
  if bool_decide (name = reg_name r) then rset r val regs else regs.

Definition sdb_get (name : string) : M (St W) Z :=
  o ← getregs;
  regs ← read_init o;
  reg_val ← read_init (foldl (match_reg_name regs name) None reg_list);
  printf ("%s = %llu (0x%llx)" +:+ newline) [AStr name; AInt reg_val; AInt reg_val] ≫= λ _,
  mret reg_val.

Definition sdb_getregs : M (St W) unit :=
  o ← getregs;
  regs ← read_init o;
  let v r := AInt (rget r regs) in
  printf ("RAX %-18llxRBX %-18llxRCX %-18llxRDX %-18llx" +:+ newline) [v RAX; v RBX; v RCX; v RDX] ≫= λ _,
  printf ("R8  %-18llxR9  %-18llxR10 %-18llxR11 %-18llx" +:+ newline) [v R8; v R9; v R10; v R11] ≫= λ _,
  printf ("R12 %-18llxR13 %-18llxR14 %-18llxR15 %-18llx" +:+ newline) [v R12; v R13; v R14; v R15] ≫= λ _,
  printf ("RDI %-18llxRSI %-18llxRBP %-18llxRSP %-18llx" +:+ newline) [v RDI; v RSI; v RBP; v RSP] ≫= λ _,
  printf ("RIP %-18llxFLAGS %016llx" +:+ newline) [v RIP; v EFLAGS].

Definition sdb_set (name : string) (val : Z) : M (St W) unit :=
  o ← getregs;
  regs ← read_init o;
  r ← setregs (foldl (set_if_matched name val) regs reg_list);
  if negb (r =? 0) then puts "Failed to set regs" else mret tt.

(** ** Reading memory *)

(** [for(ptr = addr; ptr < addr + sizeof(buffer); ptr += 8)]: reads words until
    a request fails; [n] is the number of words the buffer holds.  The bytes
    read and the value of [ptr] after the loop. *)
Fixpoint peek_words (n : nat) (addr limit ptr : Z) (buffer : list Z) : M (St W) (list Z * Z) :=
  if ptr <? limit then
    match n with
    | O => undef OutOfBounds
    | S n =>
        o ← peek_opt ptr;
        match o with
        | None => mret (buffer, ptr)
        | Some peek => peek_words n addr limit (wrap64 (ptr + 8)) (buffer ++ word_bytes peek)
        end
    end
  else mret (buffer, ptr).

(** The section an address belongs to. *)
Fixpoint find_offset (addr : Z) (shdr : list elf_shdr_t) : option Z :=
  match shdr with
  | [] => None
  | s :: shdr =>
      if (wrap64 (sh_addr s) <=? addr) && (addr <? wrap64 (sh_addr s + sh_size s))
      then Some (wrap64 (sh_offset s + addr - sh_addr s))
      else find_offset addr shdr
  end.

Definition restore_bp (i : nat) : M (St W) (option unit) :=
  bp ← get_break i;
  if is_used bp then
    r ← poketext (bp_addr bp) (original_word bp);
    (if negb (r =? 0) then puts "failed to patch the code" else mret tt) ≫= λ _, mret None
  else mret None.

(** The bytes handed to the disassembler: from the file or from the tracee.
    [None] is the [return] on an address outside every section. *)
Definition disasm_bytes (addr : Z) : M (St W) (option (list Z)) :=
  s ← get_sdb;
  if negb (sdb_is_running s) then
    eh ← handle;
    shdr ← (if e_shnum eh <=? 0 then mret []
            else a ← deref (e_shdr eh); elf (load_shdrs a));
    match find_offset addr (take (Z.to_nat (e_shnum eh)) shdr) with
    | None => printf ("Invalid addr!" +:+ newline) [] ≫= λ _, mret None
    | Some file_offset =>
        w ← gets (λ s : St W, st_world s);
        file ← deref (fopen_bytes w (sdb_path s));
        (* fseek refuses an offset that is negative as a long *)
        let pos := if file_offset <? 2 ^ 63 then file_offset else 0 in
        mret (Some (take 64 (drop (Z.to_nat pos) file)))
    end
  else
    _ ← for_each (indices MAX_BREAK) restore_bp;
    '(buffer, ptr) ← peek_words 8 addr (wrap64 (addr + 64)) addr [];
    sdb_patch_all_bp ≫= λ _,
    mret (Some buffer).

(** The loop that prints at most ten instructions. *)
Definition print_insn (insns : list cs_insn) (i : nat) : M (St W) (option unit) :=
  insn ← at_index insns i;
  s ← insn_bytes_str insn;
  put_sdb (λ s, with_last (wrap64 (last_disasm_addr s + ci_size insn)) s) ≫= λ _,
  printf "%10lx: %-21s" [AInt (ci_address insn); AStr s] ≫= λ _,
  printf ("%-7s%s" +:+ newline) [AStr (ci_mnemonic insn); AStr (ci_op_str insn)] ≫= λ _,
  mret None.

Definition print_disasm (buffer : list Z) (addr : Z) : M (St W) unit :=
  let insns := cs_disasm buffer addr in
  if (0 <? length insns)%nat then
    for_each (indices (length insns `min` 10)) (print_insn insns) ≫= λ _, mret tt
  else printf ("ERROR: Failed to disassemble given code!" +:+ newline) [].

(** The address to start from; [None] is the [return] when there is none. *)
Definition disasm_addr (addr_str : string) : M (St W) (option Z) :=
  puts addr_str ≫= λ _,
  s ← get_sdb;
  if bool_decide (addr_str = "") then
    if last_disasm_addr s =? 0 then puts "** no addr is given" ≫= λ _, mret None
    else mret (Some (last_disasm_addr s))
  else
    addr ← read_init (scan_llx (skip_0x addr_str));
    put_sdb (with_last addr) ≫= λ _, mret (Some addr).

Definition sdb_disasm (addr_str : string) : M (St W) unit :=
  a ← disasm_addr addr_str;
  match a with
  | None => mret tt
  | Some addr =>
      b ← disasm_bytes addr;
      match b with
      | None => mret tt
      | Some buffer => print_disasm buffer addr
      end
  end.

(** ** sdb_dump *)

(** One of the five rows: 16 bytes in hexadecimal, then as text. *)
Fixpoint print_hex (bs : list Z) : M (St W) unit :=
  match bs with
  | [] => mret tt
  | c :: bs => printf " %02x" [AInt c] ≫= λ _, print_hex bs
  end.
Fixpoint print_chars (bs : list Z) : M (St W) unit :=
  match bs with
  | [] => mret tt
  | c :: bs =>
      (if isprint (sint 8 c) then printf "%c" [AInt (sint 8 c)] else printf "." []) ≫= λ _,
      print_chars bs
  end.
Definition dump_row (addr : Z) (buffer : list Z) (i : nat) : M (St W) (option unit) :=
  printf "%10llx:" [AInt (addr + Z.of_nat i * 16)] ≫= λ _,
  let row := take 16 (drop (16 * i) buffer) in
  (* a byte no word was copied to was never written *)
  if (length row <? 16)%nat then undef Uninit
  else
    print_hex row ≫= λ _,
    printf "  |" [] ≫= λ _,
    print_chars row ≫= λ _,
    printf ("|" +:+ newline) [] ≫= λ _, mret None.

Definition sdb_dump (addr_str : string) : M (St W) unit :=
  s ← get_sdb;
  if bool_decide (addr_str = "") then puts "** no addr is given"
  else if negb (sdb_is_running s) then puts "not running"
  else
    addr ← read_init (scan_llx (skip_0x addr_str));
    '(buffer, _) ← peek_words 10 addr (wrap64 (addr + 80)) addr [];
    for_each (indices 5) (dump_row addr buffer) ≫= λ _, mret tt.

End sdb_inspect.

(** * Theorems *)

Section theorems.
Context {W : Type} `{KernelLaws W} `{ElfEnv} `{Capstone}.
Implicit Types (s : St W).

(** ** Registers *)

Lemma set_matched r v regs : foldl (set_if_matched (reg_name r) v) regs reg_list = rset r v regs.
Proof. by destruct r. Qed.
Lemma match_matched r regs : foldl (match_reg_name regs (reg_name r)) None reg_list = Some (rget r regs).
Proof. by destruct r. Qed.

(** A name that is none of the registers'. *)
Definition unknown_reg (name : string) : Prop := ∀ r, name ≠ reg_name r.

Lemma set_unknown name v regs : unknown_reg name → foldl (set_if_matched name v) regs reg_list = regs.
Proof.
  intros Hn. generalize reg_list. intros l. revert regs.
  induction l as [|r l IH]; intros regs; [done|]. simpl.
  unfold set_if_matched at 2. rewrite bool_decide_eq_false_2 by apply Hn. apply IH.
Qed.
Lemma match_unknown name regs : unknown_reg name → foldl (match_reg_name regs name) None reg_list = None.
Proof.
  intros Hn. generalize reg_list. intros l.
  induction l as [|r l IH]; [done|]. simpl.
  unfold match_reg_name at 2. by rewrite bool_decide_eq_false_2 by apply Hn.
Qed.

(** After a request to write the registers that gave [c] and the world [w]. *)
Definition set_done (c : Z) (w : W) s : St W :=
  if c =? 0 then on_world w s else on_out (Stdout ("Failed to set regs" +:+ newline)) (on_world w s).

Lemma sdb_set_ret name v regs s :
  ptrace_getregs (st_world s) (sdb_pid (st_sdb s)) = Some regs →
  ∃ c w, ptrace_setregs (st_world s) (sdb_pid (st_sdb s)) (foldl (set_if_matched name v) regs reg_list) = (c, w) ∧
         sdb_set name v s = Ret (tt, set_done c w s).
Proof.
  intros Hr. destruct (ptrace_setregs _ _ (foldl _ _ _)) as [c w] eqn:E. exists c, w. split; [done|].
  unfold sdb_set, set_done. rewrite (bind_Ret _ _ _ _ _ (getregs_eq s)), Hr, read_Some_bind.
  rewrite (bind_Ret _ _ _ c (on_world w s)).
  - by destruct (c =? 0).
  - unfold setregs, pid, get_sdb, gets, world, mbind, M_bind, mret, M_ret. by rewrite E.
Qed.

Lemma sdb_get_ret r regs s :
  ptrace_getregs (st_world s) (sdb_pid (st_sdb s)) = Some regs →
  sdb_get (reg_name r) s =
    Ret (rget r regs, on_out (Stdout (default "" (format ("%s = %llu (0x%llx)" +:+ newline)
           [AStr (reg_name r); AInt (rget r regs); AInt (rget r regs)]))) s).
Proof.
  intros Hr. unfold sdb_get. rewrite (bind_Ret _ _ _ _ _ (getregs_eq s)), Hr. rewrite read_Some_bind. cbv beta. rewrite match_matched. rewrite read_Some_bind. cbv beta.
  by rewrite printf_bind by (by eexists).
Qed.

(** C20. [set] then [get]: on a stopped program [sdb_set] of a register by its
    name makes one request, to write the registers the program has with that
    one replaced; the memory of the program is untouched, and a message tells
    when the kernel refused.  When it did not, [sdb_get] of a general register
    then returns the value set, or the register's old value if it is another. *)
Theorem sdb_set_get r v regs s :
  0 ≤ v < 2 ^ 64 → ptrace_getregs (st_world s) (sdb_pid (st_sdb s)) = Some regs →
  ∃ c w, ptrace_setregs (st_world s) (sdb_pid (st_sdb s)) (rset r v regs) = (c, w) ∧
    sdb_set (reg_name r) v s = Ret (tt, set_done c w s) ∧
    (∀ b, mem_at (set_done c w s) b = mem_at s b) ∧
    (c = 0 → ∀ r', r' ≠ EFLAGS →
      wp (sdb_get (reg_name r'))
        (λ x _, x = if decide (r = r') then v else rget r' regs) (set_done c w s)).
Proof.
  intros Hv Hr. destruct (sdb_set_ret (reg_name r) v regs s Hr) as (c & w & E & Es).
  rewrite set_matched in E. exists c, w. split_and!; [done..| |].
  - intros b. unfold set_done. destruct (c =? 0); by eapply setregs_bytes.
  - intros -> r' Hne. pose proof (getregs_range _ _ _ Hr) as Hok.
    destruct (setregs_regs _ _ _ _ (regs_ok_rset r v regs Hok Hv) E) as (x & Hx & Hsame).
    eapply wp_intro; [by eapply sdb_get_ret|]. rewrite Hsame by done.
    destruct (decide (r = r')) as [->|?]; [apply rget_rset_eq|by apply rget_rset_ne].
Qed.

(** A register name the macros do not list: [sdb_get] prints and returns a
    variable that was never assigned, while [sdb_set] writes the registers back
    as they are. *)
Theorem unknown_register name v regs s :
  unknown_reg name → ptrace_getregs (st_world s) (sdb_pid (st_sdb s)) = Some regs →
  sdb_get name s = Undef Uninit ∧
  ∃ c w, ptrace_setregs (st_world s) (sdb_pid (st_sdb s)) regs = (c, w) ∧
         sdb_set name v s = Ret (tt, set_done c w s).
Proof.
  intros Hn Hr. split.
  - unfold sdb_get. rewrite (bind_Ret _ _ _ _ _ (getregs_eq s)), Hr. rewrite read_Some_bind. cbv beta. by rewrite match_unknown.
  - destruct (sdb_set_ret name v regs s Hr) as (c & w & E & Es). rewrite set_unknown in E by done. by exists c, w.
Qed.

(** ** Memory *)

(** The words from [p] on, as bytes. *)
Fixpoint read_words s (p : Z) (n : nat) : list Z :=
  match n with
  | O => []
  | S n => word_bytes (default 0 (ptrace_peek (st_world s) (sdb_pid (st_sdb s)) p))
             ++ read_words s (p + 8) n
  end.

Definition readable s (p : Z) (n : nat) : Prop := ∀ i : nat, (i < n)%nat →
  is_Some (ptrace_peek (st_world s) (sdb_pid (st_sdb s)) (p + 8 * Z.of_nat i)).

Lemma peek_words_spec n addr p buffer s :
  0 ≤ p → p + 8 * Z.of_nat n < 2 ^ 64 → readable s p n →
  peek_words n addr (p + 8 * Z.of_nat n) p buffer s
  = Ret ((buffer ++ read_words s p n, p + 8 * Z.of_nat n), s).
Proof.
  revert p buffer. induction n as [|n IH]; intros p buffer Hp Hlim Hr; cbn [peek_words read_words].
  - rewrite app_nil_r, (proj2 (Z.ltb_ge _ _)) by lia. by rewrite Z.add_0_r.
  - rewrite (proj2 (Z.ltb_lt _ _)) by lia.
    destruct (Hr 0%nat ltac:(lia)) as [x Hx]. rewrite Z.mul_0_r, Z.add_0_r in Hx.
    unfold peek_opt, pid, get_sdb, gets, get, mbind, M_bind, mret, M_ret. rewrite Hx.
    rewrite wrap64_small by lia.
    replace (p + 8 * Z.of_nat (S n)) with (p + 8 + 8 * Z.of_nat n) by lia.
    rewrite IH; [by rewrite <-app_assoc|lia..|].
    intros i Hi. destruct (Hr (S i) ltac:(lia)) as [y Hy].
    exists y. rewrite <-Hy. f_equal. lia.
Qed.

Lemma length_read_words s p n : length (read_words s p n) = (8 * n)%nat.
Proof.
  revert p. induction n as [|n IH]; intros p; [done|].
  cbn [read_words]. rewrite length_app, IH, length_word_bytes. lia.
Qed.

Lemma word_bytes_lookup w (k : nat) :
  (k < 8)%nat → word_bytes w !! k = Some (byte_of w (Z.of_nat k)).
Proof. intros Hk. do 8 (destruct k as [|k]; [done|]). lia. Qed.

Lemma read_words_lookup s p n (k : nat) :
  readable s p n → (k < 8 * n)%nat → read_words s p n !! k = mem_at s (p + Z.of_nat k).
Proof.
  revert p k. induction n as [|n IH]; intros p k Hr Hk; [lia|]. cbn [read_words].
  destruct (Hr 0%nat ltac:(lia)) as [x Hx]. rewrite Z.mul_0_r, Z.add_0_r in Hx. rewrite Hx.
  change (default 0 (Some x)) with x.
  destruct (decide (k < 8)%nat) as [Hlt|Hge].
  - rewrite lookup_app_l by (rewrite length_word_bytes; lia). rewrite word_bytes_lookup by done.
    symmetry. eapply peek_bytes; [done|lia].
  - rewrite lookup_app_r, length_word_bytes by (rewrite length_word_bytes; lia).
    rewrite IH; [f_equal; lia| |lia].
    intros i Hi. destruct (Hr (S i) ltac:(lia)) as [y Hy]. exists y. rewrite <-Hy. f_equal. lia.
Qed.

(** ** sdb_dump *)

Definition hex_chunk (c : Z) : event := Stdout (default "" (format " %02x" [AInt c])).
Definition char_chunk (c : Z) : event :=
  Stdout (if isprint (sint 8 c) then default "" (format "%c" [AInt (sint 8 c)]) else ".").

(** What one row prints. *)
Definition row_output (addr : Z) (bytes : list Z) (i : nat) : list event :=
  let row := take 16 (drop (16 * i) bytes) in
  [Stdout (default "" (format "%10llx:" [AInt (addr + Z.of_nat i * 16)]))]
  ++ (hex_chunk <$> row) ++ [Stdout "  |"] ++ (char_chunk <$> row) ++ [Stdout ("|" +:+ newline)].

Lemma print_hex_spec bs s : print_hex bs s = Ret (tt, on_outs (hex_chunk <$> bs) s).
Proof.
  revert s. induction bs as [|c bs IH]; intros s; [by rewrite on_outs_nil|].
  cbn [print_hex]. rewrite printf_bind by (by eexists). rewrite IH.
  by rewrite on_outs_one, on_outs_app.
Qed.

Lemma print_chars_spec bs s : print_chars bs s = Ret (tt, on_outs (char_chunk <$> bs) s).
Proof.
  revert s. induction bs as [|c bs IH]; intros s; [by rewrite on_outs_nil|].
  cbn [print_chars].
  rewrite (bind_Ret _ _ _ tt (on_outs [char_chunk c] s)); [by rewrite IH, on_outs_app|].
  unfold char_chunk. destruct (isprint (sint 8 c)).
  - by rewrite printf_ok by (by eexists).
  - reflexivity.
Qed.

Lemma dump_row_spec addr bytes i s :
  (16 * i + 16 ≤ length bytes)%nat →
  dump_row addr bytes i s = Ret (None, on_outs (row_output addr bytes i) s).
Proof.
  intros Hlen. unfold dump_row.
  rewrite printf_bind by (by eexists).
  set (row := take 16 (drop (16 * i) bytes)).
  assert (length row = 16%nat) as Hrow.
  { unfold row. rewrite length_take, length_drop. lia. }
  rewrite Hrow. change (16 <? 16)%nat with false. cbv iota.
  rewrite (bind_Ret _ _ _ _ _ (print_hex_spec _ _)).
  rewrite printf_bind by (by eexists).
  rewrite (bind_Ret _ _ _ _ _ (print_chars_spec _ _)).
  rewrite printf_bind by (by eexists).
  unfold mret, M_ret. rewrite !on_outs_one, !on_outs_app. unfold row_output. fold row.
  reflexivity.
Qed.

Lemma dump_rows_spec addr bytes l s :
  Forall (λ i, (16 * i + 16 ≤ length bytes)%nat) l →
  for_each l (dump_row addr bytes) s = Ret (None, on_outs (flat_map (row_output addr bytes) l) s).
Proof.
  intros Hl. revert s. induction Hl as [|i l Hi Hl IH]; intros s; [by rewrite on_outs_nil|].
  cbn [for_each]. rewrite (bind_Ret _ _ _ _ _ (dump_row_spec addr bytes i s Hi)), IH.
  by rewrite on_outs_app.
Qed.

(** C29. [sdb_dump] of 80 readable bytes prints five rows of sixteen: the
    address, each byte of the tracee in hexadecimal, and the same bytes as
    text with a dot for those that do not print; nothing else changes. *)
Theorem dump_shows_memory addr_str addr s :
  addr_str ≠ "" → sdb_is_running (st_sdb s) = true →
  scan_llx (skip_0x addr_str) = Some addr → 0 ≤ addr → addr + 80 < 2 ^ 64 → readable s addr 10 →
  ∃ bytes, length bytes = 80%nat ∧
    (∀ k : nat, (k < 80)%nat → bytes !! k = mem_at s (addr + Z.of_nat k)) ∧
    sdb_dump addr_str s = Ret (tt, on_outs (flat_map (row_output addr bytes) (indices 5)) s).
Proof.
  intros Hne Hrun Hscan Hpos Hlim Hread. exists (read_words s addr 10). split_and!.
  - by rewrite length_read_words.
  - intros k Hk. apply read_words_lookup; [done|lia].
  - unfold sdb_dump. unfold get_sdb at 1, gets at 1. unfold mbind at 1, M_bind at 1.
    rewrite bool_decide_eq_false_2, Hrun, Hscan by done. cbv iota beta delta [negb].
    rewrite read_Some_bind. cbv beta. rewrite wrap64_small by lia.
    rewrite (bind_Ret _ _ _ _ _ (peek_words_spec 10 addr addr [] s Hpos Hlim Hread)).
    erewrite bind_Ret; [done|]. apply dump_rows_spec.
    rewrite length_read_words. repeat (constructor; [simpl; lia|]). constructor.
Qed.

(** ** sdb_disasm on a running program *)

Definition all_readable (f : Z → Z) s : Prop := ∀ i bp,
  used s i bp → is_Some (ptrace_peek (st_world s) (sdb_pid (st_sdb s)) (f (bp_addr bp))).

(** A saved word poked back uncovers the program's bytes, planted or not. *)
Lemma restore_inv orig B f i bp s w' :
  bp_inv orig B f s → all_saved orig f s → used s i bp →
  ptrace_poke (st_world s) (sdb_pid (st_sdb s)) (f (bp_addr bp)) (original_word bp) = (0, w') →
  bp_inv orig (B ∖ {[f (bp_addr bp)]}) f (on_world w' s).
Proof.
  intros Hinv Hsaved Hu Hp.
  destruct (decide (f (bp_addr bp) ∈ B)) as [HB|HB]; [by apply (unplant_inv orig B f i)|].
  replace (B ∖ {[f (bp_addr bp)]}) with B by set_solver.
  eapply bp_inv_bytes; [| |exact Hinv]; [done|].
  intros b. unfold mem_at at 1; simpl. rewrite (poke_bytes _ _ _ _ _ _ Hp).
  destruct (decide _) as [Hb|Hb]; [|done].
  rewrite (inv_mem _ _ _ _ Hinv). unfold overlay. rewrite decide_False.
  - rewrite <-(Hsaved i bp (b - f (bp_addr bp)) Hu) by lia. f_equal. lia.
  - intros Hin. pose proof Hin as (j & bj & Hj & E)%(inv_sub _ _ _ _ Hinv)%elem_of_used_addrs.
    destruct (decide (i = j)) as [<-|Hij].
    + destruct Hu, Hj. simplify_eq. congruence.
    + pose proof (inv_spaced _ _ _ _ Hinv i j bp bj Hu Hj Hij). lia.
Qed.

(** The loop that lifts the breakpoints: afterwards the tracee shows the
    program's own bytes. *)
Lemma restore_all orig B s :
  bp_inv orig B id s → all_saved orig id s → all_readable id s →
  wp (for_each (indices MAX_BREAK) restore_bp)
    (λ r s', r = None ∧ same_but_saved s s' ∧ breaks (st_sdb s') = breaks (st_sdb s) ∧
             bp_inv orig ∅ id s') s.
Proof.
  intros Hinv Hsaved Hread.
  apply (wp_for_each _ _ (λ visited s', same_but_saved s s' ∧ breaks (st_sdb s') = breaks (st_sdb s) ∧
    ∃ B', bp_inv orig B' id s' ∧
      ∀ i bp, used s i bp → (i < length visited)%nat → bp_addr bp ∉ B')).
  - split_and!; [done..|]. exists B. split; [done|]. simpl. lia.
  - intros visited i rest s1 E (Hs & Hbr & B1 & Hinv1 & HB1).
    apply indices_prefix in E as (_ & -> & Hi).
    destruct (lookup_lt_is_Some_2 (breaks (st_sdb s)) (length visited)) as [bp Hbp].
    { by rewrite (inv_len _ _ _ _ Hinv). }
    assert (Hbp1 := Hbp). rewrite <-Hbr in Hbp1.
    unfold restore_bp. apply wp_bind. eapply wp_get_break; [done|].
    destruct (is_used bp) eqn:Hu.
    + assert (used s (length visited) bp) as Hus by done.
      destruct (Hread _ _ Hus) as [x Hx].
      destruct (sbs_peek _ _ Hs (bp_addr bp)) as [x1 Hx1]; [by exists x|].
      rewrite <-(sbs_pid _ _ Hs) in Hx1.
      pose proof (poke_mapped _ _ _ (original_word bp) _ Hx1) as Hp.
      destruct (ptrace_poke (st_world s1) (sdb_pid (st_sdb s1)) (bp_addr bp) (original_word bp))
        as [r w] eqn:E1. simpl in Hp. subst r.
      apply wp_bind. eapply wp_poketext; [done|]. apply wp_bind, wp_ret, wp_ret.
      split_and!; [|done|].
      * transitivity s1; [done|]. by eapply same_poke.
      * exists (B1 ∖ {[bp_addr bp]}). split.
        -- apply (restore_inv orig B1 id (length visited) bp); [done| |done|done].
           intros j bj k [Hj Huj]. rewrite Hbr in Hj. by apply (Hsaved j).
        -- intros j bj Hj. rewrite length_app; simpl. intros Hlt.
           destruct (decide (j = length visited)) as [->|].
           ++ destruct Hj. simplify_eq. set_solver.
           ++ intros [Hin _]%elem_of_difference. revert Hin. apply (HB1 j); [done|lia].
    + apply wp_ret. split_and!; [done..|]. exists B1. split; [done|].
      intros j bj Hj. rewrite length_app; simpl. intros Hlt.
      destruct (decide (j = length visited)) as [->|].
      * destruct Hj. congruence.
      * apply (HB1 j); [done|lia].
  - intros s1 (Hs & Hbr & B1 & Hinv1 & HB1). split_and!; [done..|].
    replace ∅ with B1; [done|]. apply set_eq. intros b. split; [|set_solver].
    intros Hb. pose proof Hb as (i & bp & [Hi Hu] & <-)%(inv_sub _ _ _ _ Hinv1)%elem_of_used_addrs.
    rewrite Hbr in Hi. exfalso. apply (HB1 i bp); [done| |done].
    unfold indices. rewrite length_seq, <-(inv_len _ _ _ _ Hinv). by eapply lookup_lt_Some.
Qed.

(** C7. [disasm] sees through the breakpoints: on a running program that is not
    position independent and not stopped on a breakpoint, the bytes handed to
    the disassembler are the program's own, and afterwards every breakpoint is
    planted again. *)
Theorem disasm_reads_program orig B addr s :
  bp_inv orig B id s → all_saved orig id s → patchable orig id s → view id s → rip_clear id s →
  sdb_is_running (st_sdb s) = true →
  0 ≤ addr → addr + 64 < 2 ^ 64 →
  (∀ s', same_but_saved s s' → readable s' addr 8) →
  wp (disasm_bytes addr)
    (λ r s', ∃ buffer, r = Some buffer ∧ length buffer = 64%nat ∧
       (∀ k : nat, (k < 64)%nat → buffer !! k = orig (addr + Z.of_nat k)) ∧
       bp_inv orig (used_addrs id s) id s' ∧ same_but_saved s s') s.
Proof.
  intros Hinv Hsaved Hpatch Hv Hrip Hrun Hpos Hlim Hread.
  unfold disasm_bytes. apply wp_bind, wp_get_sdb. rewrite Hrun. cbv beta iota delta [negb].
  apply wp_bind. eapply wp_mono.
  { apply (restore_all orig B); [done..|]. intros i bp Hu. by apply (Hpatch i bp). }
  intros r s1 (-> & Hs1 & Hbr & Hinv1).
  rewrite wrap64_small by lia.
  apply wp_bind. eapply wp_intro.
  { apply (peek_words_spec 8 addr addr [] s1); [lia|lia|by apply Hread]. }
  apply wp_bind. eapply wp_mono.
  { apply (patch_all_spec orig ∅ id); [done| | |].
    - by eapply view_same.
    - by eapply patchable_same.
    - by eapply rip_clear_same. }
  intros [] s2 [Hinv2 Hs2]. apply wp_ret.
  exists (read_words s1 addr 8). split_and!; [done| | | |].
  - by rewrite length_read_words.
  - intros k Hk. rewrite read_words_lookup; [|by apply Hread|lia].
    rewrite (inv_mem _ _ _ _ Hinv1). unfold overlay. by rewrite decide_False by set_solver.
  - by rewrite <-(used_addrs_same _ _ _ Hs1).
  - by transitivity s1.
Qed.

(** ** Where the next [disasm] continues *)

(** Instructions short enough for the report. *)
Definition printable (insn : cs_insn) : Prop :=
  Forall (λ b, 0 ≤ b < 256) (ci_bytes insn) ∧
  0 ≤ ci_size insn ≤ Z.of_nat (length (ci_bytes insn)) ∧ ci_size insn ≤ 5.

Definition total_size (insns : list cs_insn) : Z := foldr (λ i acc, ci_size i + acc) 0 insns.

Lemma print_insn_spec insns i insn s :
  insns !! i = Some insn → printable insn →
  ∃ es, print_insn insns i s
        = Ret (None, on_outs es (on_sdb (with_last (wrap64 (last_disasm_addr (st_sdb s) + ci_size insn))) s)).
Proof.
  intros Hi (Hb & Hsize & H5). unfold print_insn, at_index. rewrite Hi, ret_bind. cbv beta.
  erewrite bind_Ret.
  2:{ rewrite insn_bytes_str_spec by done. by rewrite (proj2 (Z.leb_le _ _)). }
  erewrite bind_Ret; [|reflexivity].
  rewrite printf_bind by (by eexists). rewrite printf_bind by (by eexists).
  rewrite !on_outs_one, on_outs_app. by eexists.
Qed.

Lemma wrap64_add_l a b : wrap64 (wrap64 a + b) = wrap64 (a + b).
Proof. unfold wrap64. by rewrite Zplus_mod_idemp_l. Qed.

Lemma print_insns_spec insns l n s :
  (∀ i, i ∈ l → ∃ insn, insns !! i = Some insn ∧ printable insn) → l = seq n (length l) →
  0 ≤ last_disasm_addr (st_sdb s) < 2 ^ 64 →
  ∃ es, for_each l (print_insn insns) s
        = Ret (None, on_outs es (on_sdb (with_last (wrap64 (last_disasm_addr (st_sdb s)
                       + total_size (take (length l) (drop n insns))))) s)).
Proof.
  revert n s. induction l as [|i l IH]; intros n s Hall Hl Hrange.
  - exists []. cbn. rewrite Z.add_0_r, wrap64_small, on_outs_nil by done.
    by destruct s as [[] ? ? ?].
  - injection Hl as -> Hl.
    destruct (Hall n) as (insn & Hi & Hp); [by left|].
    destruct (print_insn_spec insns n insn s Hi Hp) as [es E].
    cbn [for_each]. rewrite (bind_Ret _ _ _ _ _ E).
    destruct (IH (S n) (on_outs es (on_sdb (with_last (wrap64 (last_disasm_addr (st_sdb s)
      + ci_size insn))) s))) as [es' E'].
    { intros i Hi'. apply Hall. by right. }
    { exact Hl. }
    { simpl. apply wrap64_range. }
    rewrite E'. exists (es ++ es').
    rewrite (drop_S insns insn n Hi). cbn [length take total_size foldr].
    rewrite <-on_outs_app. simpl. rewrite wrap64_add_l, <-Z.add_assoc. done.
Qed.

(** After printing, [last_disasm_addr] is the address just past the last
    instruction shown (ten at most), so that [disasm] without an address goes
    on from there. *)
Theorem print_disasm_advances buffer addr s :
  let insns := cs_disasm buffer addr in
  insns ≠ [] → Forall printable insns → 0 ≤ last_disasm_addr (st_sdb s) < 2 ^ 64 →
  ∃ es, print_disasm buffer addr s
        = Ret (tt, on_outs es (on_sdb (with_last (wrap64 (last_disasm_addr (st_sdb s)
                     + total_size (take 10 insns)))) s)).
Proof.
  intros insns Hne Hall Hrange. unfold print_disasm. fold insns.
  assert ((0 <? length insns)%nat = true) as -> by (destruct insns; done).
  destruct (print_insns_spec insns (indices (length insns `min` 10)) 0 s) as [es E].
  - intros i Hi. unfold indices in Hi. apply elem_of_seq in Hi.
    destruct (lookup_lt_is_Some_2 insns i ltac:(lia)) as [insn Hin]. exists insn. split; [done|].
    rewrite Forall_lookup in Hall. eauto.
  - unfold indices. by rewrite length_seq.
  - done.
  - exists es. rewrite (bind_Ret _ _ _ _ _ E). unfold indices. rewrite length_seq, drop_0.
    replace (take (length insns `min` 10) insns) with (take 10 insns); [done|].
    destruct (decide (length insns ≤ 10)%nat).
    + by rewrite !take_ge by lia.
    + by rewrite Nat.min_r by lia.
Qed.

(** ** A load that fails *)

Lemma handle_null s : sdb_eh (st_sdb s) = None → handle s = Undef NullDeref.
Proof. unfold handle, get_sdb, gets, mbind, M_bind. by intros ->. Qed.

(** Loading a file that cannot be opened over a loaded program: the old
    program is closed but [path] still names it, so sdb believes a program is
    loaded, and [vmmap] and [disasm] then dereference the null handle. *)
Theorem failed_load_leaves_null_handle file a addr s :
  sdb_is_loaded (st_sdb s) = true → sdb_is_running (st_sdb s) = false →
  wp (elf_close (sdb_eh (st_sdb s))) (λ _ _, True) (st_mem s) →
  (∀ fds, sys_open file fds = None) →
  a ≠ "" → scan_llx (skip_0x a) = Some addr →
  wp (sdb_load file)
    (λ _ s', sdb_is_loaded (st_sdb s') = true ∧ sdb_eh (st_sdb s') = None ∧
       sdb_vmmap s' = Undef NullDeref ∧ sdb_disasm a s' = Undef NullDeref) s.
Proof.
  intros Hl Hr Hclose Hopen Hne Hscan.
  assert (∀ s', sdb_path (st_sdb s') = sdb_path (st_sdb s) → sdb_pid (st_sdb s') = sdb_pid (st_sdb s) →
    sdb_eh (st_sdb s') = None →
    sdb_is_loaded (st_sdb s') = true ∧ sdb_eh (st_sdb s') = None ∧
    sdb_vmmap s' = Undef NullDeref ∧ sdb_disasm a s' = Undef NullDeref) as Hgoal.
  { intros s' Hpath Hpid Heh. unfold sdb_is_loaded, sdb_is_running in *. rewrite <-Hpath in Hl.
    rewrite <-Hpid in Hr. split_and!; [done..| |].
    - unfold sdb_vmmap. rewrite get_sdb_bind. unfold sdb_is_loaded, sdb_is_running.
      rewrite Hl, Hr. apply bind_Undef.
      by apply handle_null.
    - unfold sdb_disasm, disasm_addr. rewrite bind_assoc_M, (bind_Ret _ _ _ _ _ (puts_ok a s')), bind_assoc_M.
      rewrite get_sdb_bind, bool_decide_eq_false_2, Hscan by done.
      erewrite bind_Ret; [|unfold read_init, put_sdb, modify, mbind, M_bind, mret, M_ret; done].
      cbv beta iota. apply bind_Undef.
      unfold disasm_bytes. rewrite get_sdb_bind. unfold sdb_is_running. cbn [st_sdb on_sdb on_out with_last sdb_pid]. rewrite Hr.
      apply bind_Undef. by apply handle_null. }
  unfold sdb_load. apply wp_bind, wp_get_sdb.
  apply wp_bind. eapply (wp_mono _ (λ _ s', sdb_path (st_sdb s') = sdb_path (st_sdb s) ∧
    sdb_pid (st_sdb s') = sdb_pid (st_sdb s))).
  { destruct (sdb_eh (st_sdb s)); [|by apply wp_ret].
    apply wp_bind, wp_elf. eapply wp_mono; [exact Hclose|]. intros _ m _. by apply wp_put_sdb. }
  intros [] s1 [Hpath Hpid]. apply wp_bind, wp_elf.
  unfold elf_open. apply wp_bind, wp_get. rewrite Hopen. apply wp_ret.
  apply wp_bind, wp_put_sdb. unfold eprintf.
  destruct (format _ _) eqn:E; [|discriminate E]. apply wp_modify. by apply Hgoal.
Qed.

End theorems.
