(* ===== verification/SdbMaps.v ===== *)
(** * sdb: reading /proc/<pid>/maps

    [convert_dynamic_addr] and [print_vm_maps] against the format proc(5)
    documents: a mapping is rendered as the kernel prints it, and the parsers
    of sdb.h recover its fields. *)
From S2P Require Import Prelude Libc Elftool Kernel SdbState SdbBreak SdbRun SdbInspect.

(** ** The documented format *)

Record mapping : Type := Mapping {
  mp_begin : Z; mp_end : Z; mp_perms : string; mp_offset : Z;
  mp_dev : string; mp_inode : string; mp_gap : nat; mp_path : string }.

Definition space (s : string) : string := String " " s.

(** [begin-end perms offset dev inode      path]; the path may be missing. *)
Definition render (m : mapping) : string :=
  (hex8 (mp_begin m) +:+ String "-" (hex8 (mp_end m))) +:+ space (
  mp_perms m +:+ space (
  hex8 (mp_offset m) +:+ space (
  mp_dev m +:+ space (
  mp_inode m +:+ space (
  repeat_char (mp_gap m) " " +:+ (mp_path m +:+ newline)))))).

Definition delims : string := " " +:+ newline.

Record wf_mapping (m : mapping) : Prop := WfMapping {
  wf_begin : 0 ≤ mp_begin m < 2 ^ 64;
  wf_end : 0 ≤ mp_end m < 2 ^ 64;
  wf_offset : 0 ≤ mp_offset m < 2 ^ 32;
  wf_perms : no_delim delims (mp_perms m) = true;
  wf_perms_length : (3 ≤ String.length (mp_perms m))%nat;
  wf_dev : mp_dev m ≠ "" ∧ no_delim delims (mp_dev m) = true;
  wf_inode : mp_inode m ≠ "" ∧ no_delim delims (mp_inode m) = true;
  wf_path : no_delim delims (mp_path m) = true }.

Definition map_tokens (m : mapping) : list string :=
  [hex8 (mp_begin m) +:+ String "-" (hex8 (mp_end m)); mp_perms m; hex8 (mp_offset m);
   mp_dev m; mp_inode m] ++ (if bool_decide (mp_path m = "") then [] else [mp_path m]).

Lemma delims_not_hex : all_chars (λ c, negb (is_hex c)) delims = true.
Proof. reflexivity. Qed.

Lemma strtok_render m : wf_mapping m → strtok_all (render m) delims = map_tokens m.
Proof.
  intros []. unfold render, space, map_tokens. simpl app.
  destruct wf_dev0, wf_inode0.
  rewrite !strtok_token; try done.
  - do 5 f_equal. rewrite strtok_spaces by done.
    destruct (decide (mp_path m = "")) as [->|Hp].
    + rewrite bool_decide_eq_true_2 by done. reflexivity.
    + rewrite bool_decide_eq_false_2 by done. by apply strtok_last.
  - apply hex8_nonempty.
  - apply no_delim_hex; [apply delims_not_hex|apply hex8_hex; lia].
  - by destruct (mp_perms m); [simpl in *; lia|].
  - destruct (hex8 (mp_begin m)) eqn:E; [|done]. by apply hex8_nonempty in E.
  - rewrite no_delim_app. apply andb_true_iff. split.
    + apply no_delim_hex; [apply delims_not_hex|apply hex8_hex; lia].
    + change (no_delim delims (String "-" (hex8 (mp_end m))))
        with (no_delim delims (hex8 (mp_end m))).
      apply no_delim_hex; [apply delims_not_hex|apply hex8_hex; lia].
Qed.

Lemma split_range m :
  wf_mapping m →
  split_at "-" (hex8 (mp_begin m) +:+ String "-" (hex8 (mp_end m)))
  = Some (hex8 (mp_begin m), hex8 (mp_end m)).
Proof.
  intros []. apply split_at_app. apply has_char_hex; [apply hex8_hex; lia|reflexivity].
Qed.

(** ** convert_dynamic_addr *)

(** The executable mapping of the program file. *)
Definition is_text_of (path : string) (m : mapping) : bool :=
  bool_decide (String.substring 0 3 (mp_perms m) = "r-x")
  && (bool_decide (mp_path m ≠ "") && bool_decide (basename (mp_path m) = basename path)).

Lemma convert_tokens_render path m base :
  wf_mapping m →
  ∃ ex area,
    convert_tokens path 0 (strtok_all (render m) delims) false false base
    = Ret (ex, area, Some (mp_begin m)) ∧ ex && area = is_text_of path m.
Proof.
  intros Hwf. rewrite strtok_render by done. unfold map_tokens.
  simpl convert_tokens. rewrite split_range by done.
  rewrite scan_llx_hex8 by apply Hwf.
  assert ((String.length (mp_perms m) <? 3)%nat = false) as ->.
  { apply Nat.ltb_ge. apply Hwf. }
  unfold is_text_of. destruct (decide (mp_path m = "")) as [Hp|Hp].
  - rewrite (bool_decide_eq_true_2 (mp_path m = "")) by done. simpl.
    rewrite (bool_decide_eq_false_2 (mp_path m ≠ "")) by (by intros ?). eauto.
  - rewrite (bool_decide_eq_false_2 (mp_path m = "")) by done. simpl.
    rewrite (bool_decide_eq_true_2 (mp_path m ≠ "")) by done. eauto.
Qed.

(** The mapping whose base the function uses: the first executable one of the
    program, or the last of the file when there is none. *)
Fixpoint base_mapping (path : string) (ms : list mapping) : option mapping :=
  match ms with
  | [] => None
  | m :: ms =>
      if is_text_of path m then Some m
      else match base_mapping path ms with Some m' => Some m' | None => Some m end
  end.

Lemma convert_lines_render path ms base :
  Forall wf_mapping ms →
  convert_lines path (render <$> ms) base
  = Ret (match base_mapping path ms with Some m => Some (mp_begin m) | None => base end).
Proof.
  intros Hms. revert base. induction Hms as [|m ms Hm Hms IH]; intros base; [done|].
  simpl. destruct (convert_tokens_render path m base Hm) as (ex & area & E & Hex).
  fold delims. unfold mbind, outcome_bind. rewrite E, Hex.
  destruct (is_text_of path m); [done|]. rewrite IH.
  by destruct (base_mapping path ms).
Qed.

Lemma base_mapping_first path pre m post :
  Forall (λ m, is_text_of path m = false) pre → is_text_of path m = true →
  base_mapping path (pre ++ m :: post) = Some m.
Proof.
  intros Hpre Hm. induction Hpre as [|x pre Hx Hpre IH]; simpl; [by rewrite Hm|].
  by rewrite Hx, IH.
Qed.

Section maps.
Context {W : Type} `{Kernel W}.

(** C31. [convert_dynamic_addr] on a maps file in the documented format adds to
    the address the start of the program's first executable mapping: the one
    with permissions r-x whose file name is the program's.  When no mapping is
    executable and the program's, it silently uses the last line of the file. *)
Theorem convert_dynamic_addr_base ms m addr (s : St W) :
  Forall wf_mapping ms →
  fopen_lines (st_world s) (proc_maps_path (sdb_pid (st_sdb s))) = Some (render <$> ms) →
  base_mapping (sdb_path (st_sdb s)) ms = Some m →
  convert_dynamic_addr addr s = Ret (wrap64 (mp_begin m + addr), s).
Proof.
  intros Hms Hf Hm. unfold convert_dynamic_addr, get, mbind, M_bind.
  rewrite Hf. simpl deref. cbv beta iota delta [mret M_ret]. unfold pure.
  rewrite convert_lines_render by done. rewrite Hm. reflexivity.
Qed.

(** ** sdb_vmmap *)

(** The chunks [print_vm_maps] prints for a mapping. *)
Definition map_output (m : mapping) : list event :=
  Stdout <$>
    ([default "" (format "%016llx-%016llx " [AInt (mp_begin m); AInt (mp_end m)]);
      String.substring 0 3 (mp_perms m) +:+ " ";
      default "" (format "%-8x " [AInt (mp_offset m)])]
     ++ (if bool_decide (mp_path m = "") then [] else [mp_path m +:+ " "])
     ++ [newline]).

Lemma print_vm_maps_render m (s : St W) :
  wf_mapping m → print_vm_maps (render m) s = Ret (tt, on_outs (map_output m) s).
Proof.
  intros Hm. unfold print_vm_maps. fold delims. rewrite strtok_render by done.
  unfold map_tokens, map_output. simpl app.
  assert ((String.length (mp_perms m) <? 3)%nat = false) as Hperms.
  { apply Nat.ltb_ge. apply Hm. }
  destruct (decide (mp_path m = "")) as [Hp|Hp];
    [rewrite (bool_decide_eq_true_2 (mp_path m = "")) by done
    |rewrite (bool_decide_eq_false_2 (mp_path m = "")) by done];
    simpl print_vm_tokens; rewrite split_range, Hperms by done;
    rewrite !scan_llx_hex8, scan_x_hex8 by apply Hm;
    unfold mbind, M_bind, read_init, mret, M_ret;
    repeat (rewrite printf_ok by (eexists; reflexivity));
    rewrite puts_ok, !on_outs_one, !on_outs_app; reflexivity.
Qed.

Lemma print_all_maps_render ms (s : St W) :
  Forall wf_mapping ms →
  print_all_maps (render <$> ms) s = Ret (tt, on_outs (flat_map map_output ms) s).
Proof.
  intros Hms. revert s. induction Hms as [|m ms Hm Hms IH]; intros s.
  - by rewrite on_outs_nil.
  - simpl. rewrite (bind_Ret _ _ _ _ _ (print_vm_maps_render m s Hm)), IH.
    by rewrite on_outs_app.
Qed.

(** C30. [sdb_vmmap] on a running program: for a maps file in the documented
    format it prints, for every mapping in order, the range in 16 hexadecimal
    digits, the first three permissions, the offset and the path, and changes
    nothing else. *)
Theorem vmmap_running ms (s : St W) :
  Forall wf_mapping ms →
  sdb_is_loaded (st_sdb s) = true → sdb_is_running (st_sdb s) = true →
  fopen_lines (st_world s) (proc_maps_path (sdb_pid (st_sdb s))) = Some (render <$> ms) →
  sdb_vmmap s = Ret (tt, on_outs (flat_map map_output ms) s).
Proof.
  intros Hms Hl Hr Hf. unfold sdb_vmmap, get_sdb, gets, mbind, M_bind. rewrite Hl, Hr.
  cbv beta iota delta [negb]. rewrite Hf. by apply print_all_maps_render.
Qed.

End maps.
