(* ===== verification/SdbMain.v ===== *)
(** * sdb: the command loop of main.c *)
From S2P Require Import Prelude Libc Elftool Kernel SdbState SdbBreak SdbRun SdbInspect.

(** The variables of [main]: [command] and [line] keep their contents from one
    iteration to the next; the lines not yet read from standard input. *)
Record Repl (W : Type) : Type := Loop {
  rp_st : St W;
  rp_command : option string;
  rp_line : option string;
  rp_input : list string }.
Arguments Loop {W} _ _ _ _.
Arguments rp_st {W} _.
Arguments rp_command {W} _.
Arguments rp_line {W} _.
Arguments rp_input {W} _.

Definition help_msg : string :=
  "- break {instruction-address}: add a break point" +:+ newline +:+
  "- cont: continue execution" +:+ newline +:+
  "- delete {break-point-id}: remove a break point" +:+ newline +:+
  "- disasm addr: disassemble instructions in a file or a memory region" +:+ newline +:+
  "- dump addr [length]: dump memory content" +:+ newline +:+
  "- exit: terminate the debugger" +:+ newline +:+
  "- get reg: get a single value from a register" +:+ newline +:+
  "- getregs: show registers" +:+ newline +:+
  "- help: show this message" +:+ newline +:+
  "- list: list break points" +:+ newline +:+
  "- load {path/to/a/program}: load a program" +:+ newline +:+
  "- run: run the program" +:+ newline +:+
  "- vmmap: show memory layout" +:+ newline +:+
  "- set reg val: get a single value to a register" +:+ newline +:+
  "- si: step into instruction" +:+ newline +:+
  "- start: start the program and stop at the first instruction" +:+ newline.

Section sdb_main.
Context {W : Type} `{Kernel W} `{ElfEnv} `{Capstone}.

(** A call of sdb.h. *)
Definition sdb {A} (m : M (St W) A) : M (Repl W) A := λ r,
  match m (rp_st r) with
  | Ret (a, s) => Ret (a, Loop s (rp_command r) (rp_line r) (rp_input r))
  | Undef u => Undef u
  | Blocks => Blocks
  | NoFuel => NoFuel
  | Exits c => Exits c
  | Execs p => Execs p
  end.

(** [getline]: at the end of the input [line] keeps what it holds. *)
Definition getline : M (Repl W) unit := modify (λ r,
  match rp_input r with
  | [] => r
  | l :: ls => Loop (rp_st r) (rp_command r) (Some l) ls
  end).

(** The words [sscanf(line, "%s %s ...", ...)] converts, up to [n] of them. *)
Fixpoint scan_words (n : nat) (line : string) : list string :=
  match n with
  | O => []
  | S n => match scan_s line with
           | None => []
           | Some (w, rest) => w :: scan_words n rest
           end
  end.

(** [sscanf(line, "%s", command)]: nothing is stored when the line is blank. *)
Definition scan_command (line : string) : M (Repl W) unit :=
  match scan_words 1 line with
  | [] => mret tt
  | w :: _ =>
      if (64 <=? String.length w)%nat then undef OutOfBounds
      else modify (λ r, Loop (rp_st r) (Some w) (rp_line r) (rp_input r))
  end.

(** The [k]-th operand, stored in a buffer of [size] bytes; [None] when the
    buffer is left as it was. *)
Definition operand (k size : nat) (line : string) : M (Repl W) (option string) :=
  match scan_words (S k) line !! k with
  | None => mret None
  | Some w => if (size <=? String.length w)%nat then undef OutOfBounds else mret (Some w)
  end.

(** [sscanf(line, "%s %d", command, &index)] *)
Definition int_operand (line : string) : option Z :=
  '(_, rest) ← scan_s line; scan_d rest.

Definition is_cmd (command : string) (names : list string) : bool :=
  existsb (λ n, bool_decide (command = n)) names.

(** [set reg val]: the value is read in base 16 after a [0x], else in base 10. *)
Definition set_value (oprand2 : string) : option Z :=
  match oprand2 with
  | String "0" (String "x" s) => scan_llx s
  | _ => scan_llu oprand2
  end.
Definition set_command (line : string) : M (Repl W) bool :=
  o1 ← operand 1 16 line;
  o2 ← operand 2 16 line;
  oprand2 ← read_init o2;
  oprand1 ← read_init o1;
  val ← read_init (set_value oprand2);
  sdb (sdb_set oprand1 val) ≫= λ _, mret true.

(** The [if]-[else if] chain; the result says whether the loop goes on. *)
Definition dispatch (fuel : nat) (command line : string) : M (Repl W) bool :=
  if is_cmd command ["break"; "b"] then
    o ← operand 1 16 line; bp_addr ← read_init o;
    sdb (sdb_set_break bp_addr) ≫= λ _, mret true
  else if is_cmd command ["cont"; "c"] then sdb (sdb_cont fuel) ≫= λ _, mret true
  else if is_cmd command ["delete"] then
    index ← read_init (int_operand line); sdb (sdb_delete index) ≫= λ _, mret true
  else if is_cmd command ["disasm"; "d"] then
    o ← operand 1 16 line; sdb (sdb_disasm (default "" o)) ≫= λ _, mret true
  else if is_cmd command ["dump"] then
    o ← operand 1 16 line; addr ← read_init o;
    sdb (sdb_dump addr) ≫= λ _, mret true
  else if is_cmd command ["exit"; "q"] then mret false
  else if is_cmd command ["get"; "g"] then
    o ← operand 1 16 line; oprand ← read_init o;
    sdb (sdb_get oprand) ≫= λ _, mret true
  else if is_cmd command ["getregs"] then sdb sdb_getregs ≫= λ _, mret true
  else if is_cmd command ["help"; "h"] then sdb (printf "%s" [AStr help_msg]) ≫= λ _, mret true
  else if is_cmd command ["list"; "l"] then sdb sdb_list ≫= λ _, mret true
  else if is_cmd command ["load"] then
    o ← operand 1 64 line; new_filename ← read_init o;
    sdb (sdb_load new_filename) ≫= λ _, mret true
  else if is_cmd command ["run"; "r"] then sdb (sdb_run fuel) ≫= λ _, mret true
  else if is_cmd command ["vmmap"; "m"] then sdb sdb_vmmap ≫= λ _, mret true
  else if is_cmd command ["set"; "s"] then
    set_command line
  else if is_cmd command ["si"] then sdb sdb_step ≫= λ _, mret true
  else if is_cmd command ["start"] then sdb sdb_start ≫= λ _, mret true
  else sdb (printf ("Unknown command: %s" +:+ newline) [AStr command]) ≫= λ _, mret true.

(** One iteration of [while(1)]. *)
Definition iteration (fuel : nat) : M (Repl W) bool :=
  sdb (printf "sdb> " []) ≫= λ _,
  getline ≫= λ _,
  r ← get;
  line ← read_init (rp_line r);
  scan_command line ≫= λ _,
  r ← get;
  command ← read_init (rp_command r);
  dispatch fuel command line.

Fixpoint main_loop (n fuel : nat) : M (Repl W) Z :=
  match n with
  | O => no_fuel
  | S n =>
      go ← iteration fuel;
      if (go : bool) then main_loop n fuel else mret 0
  end.

Definition main (junk : nat → Z * Z) (argv : list string) (n fuel : nat) : M (Repl W) Z :=
  sdb (sdb_create junk) ≫= λ _,
  (match argv with
   | [_; file] => sdb (sdb_load file)
   | _ => mret tt
   end) ≫= λ _,
  main_loop n fuel.

(** ** What one line does *)

Implicit Types (r : Repl W).

(** The variables at the moment [dispatch] runs. *)
Definition reading (command line : string) (rest : list string) r : Repl W :=
  Loop (on_outs [Stdout "sdb> "] (rp_st r)) (Some command) (Some line) rest.

Lemma sdb_bind {A B} (m : M (St W) A) (k : A → M (Repl W) B) a s r :
  m (rp_st r) = Ret (a, s) →
  (sdb m ≫= k) r = k a (Loop s (rp_command r) (rp_line r) (rp_input r)).
Proof. intros E. unfold mbind, M_bind, sdb. by rewrite E. Qed.

Lemma prompt_ok (s : St W) : printf "sdb> " [] s = Ret (tt, on_outs [Stdout "sdb> "] s).
Proof. by rewrite printf_ok by (by eexists). Qed.

(** The line the iteration looks at, and what is left to read. *)
Definition next_line r : option (string * list string) :=
  match rp_input r with
  | [] => (λ l, (l, [])) <$> rp_line r
  | l :: ls => Some (l, ls)
  end.

(** The command it finds there: the first word, or the previous command when
    the line is blank. *)
Definition next_command r (line : string) : option string :=
  match scan_words 1 line with [] => rp_command r | w :: _ => Some w end.

Lemma getline_eq r line rest :
  next_line r = Some (line, rest) →
  getline r = Ret (tt, Loop (rp_st r) (rp_command r) (Some line) rest).
Proof.
  destruct r as [s c l [|l0 i]]; unfold next_line, getline, modify;
    cbn [rp_st rp_command rp_line rp_input]; [destruct l|]; by intros; simplify_eq/=.
Qed.

(** The command is never too long for its buffer when it is a known one. *)
Definition too_long (line : string) : bool :=
  existsb (λ w, 64 <=? String.length w)%nat (scan_words 1 line).

Lemma not_too_long r line command :
  next_command r line = Some command → (String.length command < 64)%nat → too_long line = false.
Proof.
  unfold next_command, too_long. cbn [scan_words]. destruct (scan_s line) as [[w t]|]; [|done].
  intros [= ->] Hlen. cbn [existsb]. by rewrite (proj2 (Nat.leb_gt _ _) Hlen).
Qed.

Lemma iteration_steps fuel r line rest command :
  next_line r = Some (line, rest) → next_command r line = Some command →
  iteration fuel r =
    if too_long line then Undef OutOfBounds
    else dispatch fuel command line (reading command line rest r).
Proof.
  intros Hline Hcmd. unfold iteration.
  rewrite (sdb_bind _ _ _ _ _ (prompt_ok _)). cbv beta.
  erewrite bind_Ret; [|by apply getline_eq].
  rewrite (bind_Ret get _ _ _ _ eq_refl). cbn [rp_line]. rewrite read_Some_bind. cbv beta.
  unfold scan_command, next_command, too_long in *.
  destruct (scan_words 1 line) as [|w ws] eqn:E.
  - rewrite ret_bind, (bind_Ret get _ _ _ _ eq_refl). cbn [rp_command existsb].
    by rewrite Hcmd, read_Some_bind.
  - simplify_eq. assert (ws = []) as ->.
    { revert E. cbn [scan_words]. destruct (scan_s line) as [[]|]; congruence. }
    cbn [existsb]. rewrite orb_false_r. destruct (_ <=? _)%nat; [done|].
    erewrite bind_Ret; [|done]. rewrite (bind_Ret get _ _ _ _ eq_refl). cbn [rp_command].
    by rewrite read_Some_bind.
Qed.

(** ** What a command leaves alone *)

Definition same_vars r r' : Prop :=
  rp_command r' = rp_command r ∧ rp_line r' = rp_line r ∧ rp_input r' = rp_input r.

(** When [m] returns it has not touched the variables of [main], and [P] holds
    of the result. *)
Definition keeps {A} (P : A → Prop) (m : M (Repl W) A) : Prop :=
  ∀ r a r', m r = Ret (a, r') → same_vars r r' ∧ P a.

Lemma keeps_ret {A} (P : A → Prop) a : P a → keeps P (mret a).
Proof. intros HP r x r' E. by injection E as -> ->. Qed.
Lemma keeps_undef {A} (P : A → Prop) u : keeps P (undef u).
Proof. intros r x r' E. discriminate E. Qed.
Lemma keeps_bind {A B} (P : B → Prop) (m : M (Repl W) A) k :
  keeps (λ _, True) m → (∀ a, keeps P (k a)) → keeps P (m ≫= k).
Proof.
  intros Hm Hk r b r'. unfold mbind, M_bind.
  destruct (m r) as [[a r1]| | | | |] eqn:E; try done. intros E'.
  destruct (Hm _ _ _ E) as [(? & ? & ?) _]. destruct (Hk _ _ _ _ E') as [(? & ? & ?) HP].
  unfold same_vars. split; [|done]. split_and!; congruence.
Qed.
Lemma keeps_sdb {A} (m : M (St W) A) : keeps (λ _, True) (sdb m).
Proof.
  intros r a r'. unfold sdb. destruct (m (rp_st r)) as [[x s]| | | | |]; try done.
  intros E. by injection E as -> <-.
Qed.
Lemma keeps_read_init {A} (o : option A) : keeps (λ _, True) (read_init o).
Proof. destruct o; [by apply keeps_ret|apply keeps_undef]. Qed.
Lemma keeps_operand k size line : keeps (λ _, True) (operand k size line).
Proof.
  unfold operand. destruct (_ !! _); [|by apply keeps_ret].
  destruct (_ <=? _)%nat; [apply keeps_undef|by apply keeps_ret].
Qed.

Ltac keeps_steps :=
  repeat first
    [ simple apply keeps_sdb | simple apply keeps_read_init | simple apply keeps_operand
    | simple apply keeps_ret; reflexivity | simple apply keeps_bind; [|intros] ].

Definition is_exit (command : string) : bool := is_cmd command ["exit"; "q"].

Lemma is_exit_cases command : is_exit command = true → command = "exit" ∨ command = "q".
Proof.
  unfold is_exit, is_cmd. cbn [existsb]. rewrite orb_false_r, orb_true_iff, !bool_decide_eq_true.
  done.
Qed.

Lemma dispatch_keeps fuel command line :
  keeps (λ go, go = negb (is_exit command)) (dispatch fuel command line).
Proof.
  destruct (is_exit command) eqn:Hexit.
  - apply is_exit_cases in Hexit as [-> | ->]; by refine (keeps_ret _ false _).
  - unfold dispatch, is_exit in *. rewrite Hexit.
    repeat (destruct (is_cmd command _); [by try unfold set_command; keeps_steps|]). by keeps_steps.
Qed.

(** ** End of input *)

(** C39. When the input ends, [getline] fails and [line] keeps the last line:
    unless that was [exit], [main] never returns, whatever number of rounds and
    of iterations of the wait loops is allowed. *)
Theorem eof_never_returns n fuel r line command code r' :
  rp_input r = [] → rp_line r = Some line → next_command r line = Some command →
  is_exit command = false →
  main_loop n fuel r ≠ Ret (code, r').
Proof.
  intros Hin Hline Hcmd Hexit. revert r Hin Hline Hcmd.
  induction n as [|n IH]; intros r Hin Hline Hcmd; [done|]. cbn [main_loop].
  assert (next_line r = Some (line, [])) as Hnext.
  { unfold next_line. by rewrite Hin, Hline. }
  unfold mbind, M_bind. rewrite (iteration_steps _ _ _ _ _ Hnext Hcmd).
  destruct (too_long line); [done|].
  destruct (dispatch _ _ _ _) as [[go r1]| | | | |] eqn:E; try done.
  apply dispatch_keeps in E as [(Hc & Hl & Hi) ->]. rewrite Hexit.
  apply IH; [by rewrite Hi|by rewrite Hl|].
  unfold next_command in *. rewrite Hc. cbn [reading rp_command].
  by destruct (scan_words 1 line).
Qed.

(** [exit] ends the debugger with status 0, whatever the state. *)
Theorem exit_ends n fuel r line rest command :
  next_line r = Some (line, rest) → next_command r line = Some command → is_exit command = true →
  main_loop (S n) fuel r = Ret (0, reading command line rest r).
Proof.
  intros Hline Hcmd Hexit. cbn [main_loop].
  unfold mbind, M_bind. rewrite (iteration_steps _ _ _ _ _ Hline Hcmd).
  rewrite (not_too_long r line command Hcmd).
  - by apply is_exit_cases in Hexit as [-> | ->].
  - apply is_exit_cases in Hexit as [-> | ->]; simpl; lia.
Qed.

(** ** Operands *)

Lemma scan_words_step n w c t :
  is_word w = true → isspace c = true →
  scan_words (S n) (w +:+ String c t) = w :: scan_words n (String c t).
Proof. intros Hw Hc. cbn [scan_words]. by rewrite scan_s_word. Qed.
Lemma scan_words_space n c t : isspace c = true → scan_words n (String c t) = scan_words n t.
Proof. intros Hc. destruct n; [done|]. cbn [scan_words]. by rewrite scan_s_space. Qed.
Lemma scan_words_take m n line : (m ≤ n)%nat → scan_words m line = take m (scan_words n line).
Proof.
  revert n line. induction m as [|m IH]; intros [|n] line Hmn; [done|done|lia|].
  cbn [scan_words]. destruct (scan_s line) as [[w t]|]; [|done]. cbn [take]. f_equal.
  apply IH. lia.
Qed.
Lemma operand_eq ws n k size line r :
  scan_words n line = ws → (k < n)%nat →
  operand k size line r =
    match ws !! k with
    | None => Ret (None, r)
    | Some w => if (size <=? String.length w)%nat then Undef OutOfBounds else Ret (Some w, r)
    end.
Proof.
  intros <- Hk. unfold operand. rewrite (scan_words_take (S k) n), lookup_take_lt by lia.
  destruct (_ !! _); [|done]. by destruct (_ <=? _)%nat.
Qed.

(** The line [set reg 0xval]. *)
Definition set_line (reg : Kernel.reg) (v : Z) : string :=
  "set " +:+ reg_name reg +:+ " 0x" +:+ to_digits false 16 v +:+ newline.

Lemma reg_name_word reg : is_word (reg_name reg) = true.
Proof. by destruct reg. Qed.

Lemma set_line_words reg v :
  0 ≤ v → scan_words 3 (set_line reg v) = ["set"; reg_name reg; "0x" +:+ to_digits false 16 v].
Proof.
  intros Hv. transitivity (scan_words 3 ("set" +:+ String " " (reg_name reg +:+ String " "
    (("0x" +:+ to_digits false 16 v) +:+ newline)))); [by rewrite <-string_app_assoc|].
  rewrite scan_words_step, scan_words_space by done.
  rewrite scan_words_step, scan_words_space by (done || apply reg_name_word).
  unfold newline. rewrite scan_words_step; [done| |done].
  unfold is_word. rewrite all_chars_app, (hex_not_spaces (to_digits _ _ _)) by (apply to_digits_hex; lia).
  by rewrite bool_decide_eq_false_2.
Qed.

Lemma length_0x_digits v :
  0 ≤ v < 2 ^ 64 → (16 <=? String.length ("0x" +:+ to_digits false 16 v))%nat = negb (v <? 2 ^ 52).
Proof.
  intros Hv. change (String.length ("0x" +:+ ?s)) with (2 + String.length s)%nat. unfold to_digits.
  destruct (Z.ltb_spec v (2 ^ 52)).
  - pose proof (length_digits_from (up := false) 64 16 v EmptyString 13 ltac:(lia) ltac:(simpl; lia) ltac:(lia)).
    change (String.length EmptyString) with 0%nat in *. apply Nat.leb_gt. lia.
  - pose proof (length_digits_from_ge 64 16 v EmptyString 13 ltac:(lia) ltac:(simpl; lia) ltac:(lia)).
    change (String.length EmptyString) with 0%nat in *. apply Nat.leb_le. lia.
Qed.

(** C32. [set reg 0xval] reaches [sdb_set] with the register and the value that
    were typed when the value has thirteen hexadecimal digits or less; a
    longer one overruns [oprand2], which holds fifteen characters. *)
Theorem set_line_operands fuel r reg v rest :
  rp_input r = set_line reg v :: rest → 0 ≤ v < 2 ^ 64 →
  iteration fuel r =
    if v <? 2 ^ 52 then
      (sdb (sdb_set (reg_name reg) v) ≫= λ _, mret true) (reading "set" (set_line reg v) rest r)
    else Undef OutOfBounds.
Proof.
  intros Hin Hv. pose proof (set_line_words reg v ltac:(lia)) as Hw.
  assert (next_line r = Some (set_line reg v, rest)) as Hline by (unfold next_line; by rewrite Hin).
  assert (next_command r (set_line reg v) = Some "set") as Hcmd.
  { unfold next_command. by rewrite (scan_words_take 1 3), Hw by lia. }
  rewrite (iteration_steps _ _ _ _ _ Hline Hcmd), (not_too_long _ _ _ Hcmd) by (simpl; lia).
  change (dispatch fuel "set" ?l) with (set_command l). unfold set_command.
  unfold mbind at 1, M_bind at 1. rewrite (operand_eq _ _ _ _ _ _ Hw) by lia. cbn [lookup list_lookup].
  assert ((16 <=? String.length (reg_name reg))%nat = false) as -> by (by destruct reg).
  unfold mbind at 1, M_bind at 1. rewrite (operand_eq _ _ _ _ _ _ Hw) by lia. cbn [lookup list_lookup].
  rewrite length_0x_digits by done. destruct (v <? 2 ^ 52); [|done]. cbn [negb].
  rewrite !read_Some_bind. change (set_value ("0x" +:+ ?s)) with (scan_llx s).
  by rewrite scan_llx_digits, read_Some_bind.
Qed.

Definition operand_commands : list string :=
  ["break"; "b"; "delete"; "dump"; "get"; "g"; "load"; "set"; "s"].

Lemma no_word_no_number line : scan_s line = None → scan_d line = None.
Proof.
  unfold scan_s, scan_d, scan_num. pose proof (skip_space_head line) as Hs.
  destruct (skip_space line) as [|c t]; [done|]. cbn [take_word]. rewrite Hs.
  by destruct (take_word t).
Qed.

Lemma lone_int_operand line : (length (scan_words 2 line) ≤ 1)%nat → int_operand line = None.
Proof.
  unfold int_operand. cbn [scan_words]. destruct (scan_s line) as [[w t]|]; [|done].
  destruct (scan_s t) as [[w' t']|] eqn:E; [simpl; lia|].
  intros _. by apply no_word_no_number.
Qed.

Lemma lone_operand size line k r :
  (length (scan_words 2 line) ≤ 1)%nat → (0 < k)%nat → operand k size line r = Ret (None, r).
Proof.
  intros Hlen Hk. assert (scan_words (S k) line !! k = None) as E.
  { revert Hlen. cbn [scan_words]. destruct (scan_s line) as [[w t]|]; [|done].
    destruct (scan_s t) as [[w' t']|] eqn:E; [simpl; lia|]. intros _.
    destruct k as [|k]; [lia|]. cbn [scan_words]. by rewrite E. }
  unfold operand. by rewrite E.
Qed.

(** A command that needs an operand, on a line without one, works on an
    uninitialised variable; a blank line that repeats such a command does too. *)
Theorem missing_operand_undefined fuel r line rest command :
  next_line r = Some (line, rest) → next_command r line = Some command →
  (length (scan_words 2 line) ≤ 1)%nat → In command operand_commands →
  iteration fuel r = Undef Uninit.
Proof.
  intros Hline Hcmd Hlen Hin. rewrite (iteration_steps _ _ _ _ _ Hline Hcmd).
  rewrite (not_too_long _ _ _ Hcmd).
  2:{ revert Hin. cbn [In operand_commands]. intros. repeat destruct Hin as [<-|Hin]; simpl; lia. }
  set (r1 := reading _ _ _ _).
  assert (∀ size (k : string → M (Repl W) bool),
    (operand 1 size line ≫= λ o, read_init o ≫= k) r1 = Undef Uninit) as Hop.
  { intros size k. rewrite (bind_Ret _ _ _ _ _ (lone_operand size line 1 r1 Hlen ltac:(lia))). done. }
  assert (set_command line r1 = Undef Uninit) as Hset.
  { unfold set_command. do 2 (erewrite bind_Ret; [|apply lone_operand; [done|lia]]). done. }
  clearbody r1. clear Hcmd. cbn [In operand_commands] in Hin.
  destruct Hin as [<-|[<-|[<-|[<-|[<-|[<-|[<-|[<-|[<-|[]]]]]]]]]].
  3:{ apply bind_Undef. by rewrite lone_int_operand. }
  7,8: exact Hset.
  6: exact (Hop 64%nat _).
  all: exact (Hop 16%nat _).
Qed.

End sdb_main.
