(* ===== verification/SdbInv.v ===== *)
(** * sdb: the invariant of the debugger object

    Every command keeps the object well formed: ten slots whose words fit 64
    bits, a path that fits its buffer, and, while no program is loaded, no
    process and no breakpoint.  So it holds in every state the command loop can
    reach. *)
From S2P Require Import Prelude Libc Elftool Kernel SdbState SdbBreak SdbRun SdbInspect SdbMain.

Definition word64 (z : Z) : Prop := 0 ≤ z < 2 ^ 64.

Record wf_bp (b : bp_t) : Prop := { wf_addr : word64 (bp_addr b); wf_word : word64 (original_word b) }.

Record wf (d : SDB) : Prop := {
  wf_slots : length (breaks d) = MAX_BREAK;
  wf_bps : Forall wf_bp (breaks d);
  wf_last : word64 (last_disasm_addr d);
  wf_path : (String.length (sdb_path d) < 128)%nat;
  wf_unloaded : sdb_path d = "" → sdb_pid d = -1 ∧ Forall (λ b, is_used b = false) (breaks d) }.

(** ** Triples over the object *)

(** [m] does not touch the object. *)
Abbreviation quiet := (frame st_sdb).
(** All but what was printed. *)
Definition look {W} (s : St W) : SDB * cmem * W := (st_sdb s, st_mem s, st_world s).
Abbreviation looking := (frame look).
Lemma looking_quiet {W A} (m : M (St W) A) : looking m → quiet m.
Proof. intros Hm s a s' E. by injection (Hm s a s' E). Qed.

Section triples.
Context {W : Type}.
Implicit Types (P : SDB → Prop) (s : St W) (d : SDB).

(** If [m] returns, from an object with [P], the object has [Q]. *)
Definition triple {A} (P : SDB → Prop) (m : M (St W) A) (Q : A → SDB → Prop) : Prop :=
  ∀ s a s', P (st_sdb s) → m s = Ret (a, s') → Q a (st_sdb s').
(** [m] keeps it well formed. *)
Definition keeps {A} (m : M (St W) A) : Prop := triple wf m (λ _, wf).

Lemma triple_bind {A B} P (m : M (St W) A) (R : A → SDB → Prop) (k : A → M (St W) B) Q :
  triple P m R → (∀ a, triple (R a) (k a) Q) → triple P (m ≫= k) Q.
Proof. intros Hm Hk s b s' HP (a & s1 & E1 & E2)%bind_inv. eapply Hk; [|exact E2]. by eapply Hm. Qed.
Lemma triple_ret {A} P (a : A) (Q : A → SDB → Prop) : (∀ d, P d → Q a d) → triple P (mret a) Q.
Proof. intros HQ s b s' HP E. injection E as -> ->. by apply HQ. Qed.
Lemma triple_weaken {A} P P' (m : M (St W) A) (Q Q' : A → SDB → Prop) :
  triple P m Q → (∀ d, P' d → P d) → (∀ a d, Q a d → Q' a d) → triple P' m Q'.
Proof. intros Hm HP HQ s a s' HP' E. eapply HQ, Hm; [|exact E]. by apply HP. Qed.
Lemma triple_pure {A} (φ : Prop) P (m : M (St W) A) Q :
  (φ → triple P m Q) → triple (λ d, φ ∧ P d) m Q.
Proof. intros Hm s a s' [Hφ HP] E. by eapply Hm. Qed.
(** The value of the object may be named. *)
Lemma triple_name {A} P (m : M (St W) A) Q :
  (∀ d, P d → triple (λ d', d' = d) m Q) → triple P m Q.
Proof. intros Hm s a s' HP E. by eapply Hm. Qed.
Lemma triple_quiet {A} P (m : M (St W) A) : quiet m → triple P m (λ _, P).
Proof. intros Hm s a s' HP E. by rewrite (Hm _ _ _ E). Qed.
Lemma triple_undef {A} P u (Q : A → SDB → Prop) : triple P (undef u) Q.
Proof. intros s a s' _ E. discriminate E. Qed.

Lemma triple_read {A} P (o : option A) (Q : A → SDB → Prop) :
  (∀ a d, o = Some a → P d → Q a d) → triple P (read_init o) Q.
Proof. intros HQ. destruct o as [a|]; [|apply triple_undef]. apply triple_ret. by intros d; apply HQ. Qed.
Lemma triple_get_sdb P : triple P get_sdb (λ a d, a = d ∧ P d).
Proof. intros s a s' HP E. by injection E as <- <-. Qed.
Lemma triple_put_sdb P (f : SDB → SDB) (Q : SDB → Prop) :
  (∀ d, P d → Q (f d)) → triple P (put_sdb f) (λ _, Q).
Proof. intros HQ s a s' HP E. injection E as <- <-. by apply HQ. Qed.
Lemma triple_get_break P i : triple P (get_break i) (λ b d, breaks d !! i = Some b ∧ P d).
Proof.
  intros s b s' HP E. unfold get_break, get_sdb, gets, mbind, M_bind, at_index in E.
  destruct (breaks (st_sdb s) !! i) eqn:Hb; [|discriminate]. by injection E as <- <-.
Qed.
Lemma triple_set_break P i b (Q : SDB → Prop) :
  (∀ d, P d → (i < length (breaks d))%nat → Q (with_breaks (<[i := b]> (breaks d)) d)) →
  triple P (set_break i b) (λ _, Q).
Proof.
  intros HQ s u s' HP E. unfold set_break, get_sdb, gets, put_sdb, modify, mbind, M_bind, at_index in E.
  destruct (breaks (st_sdb s) !! i) eqn:Hb; [|discriminate]. injection E as <- <-.
  apply HQ; [done|by eapply lookup_lt_Some].
Qed.
Lemma triple_for_each {R} P (l : list nat) (body : nat → M (St W) (option R)) :
  (∀ i, triple P (body i) (λ _, P)) → triple P (for_each l body) (λ _, P).
Proof.
  intros Hb. induction l as [|x l IH]; [by apply triple_ret|]. cbn [for_each].
  eapply triple_bind; [apply Hb|]. intros [v|]; [by apply triple_ret|apply IH].
Qed.

End triples.

(** *** Quiet calls *)

Lemma quiet_elf {W A} (m : M cmem A) : quiet (elf m : M (St W) A).
Proof.
  intros s a s' E. unfold elf in E. destruct (m (st_mem s)) as [[x mem]| | | | |]; [|discriminate..].
  by injection E as <- <-.
Qed.
Lemma looks_elf {W A} (m : M cmem A) : frame (λ x, x) m → looking (elf m : M (St W) A).
Proof.
  intros Hm s a s' E. unfold elf in E. destruct (m (st_mem s)) as [[x mem]| | | | |] eqn:Em; [|discriminate..].
  injection E as <- <-. unfold look. cbn. by rewrite (Hm _ _ _ Em).
Qed.
Lemma quiet_world {W A} (f : W → A * W) : quiet (world f).
Proof.
  intros s a s' E. unfold world in E. destruct (f (st_world s)). by injection E as <- <-.
Qed.
Lemma frame_load l : frame (λ x, x) (load l).
Proof. intros s a s' E. unfold load in E. destruct (_ !! _); [|discriminate]. by injection E as _ <-. Qed.
#[export] Hint Resolve frame_load : frame.
Lemma frame_load_handle l : frame (λ x, x) (load_handle l).
Proof. unfold load_handle. frame. Qed.
Lemma frame_load_shdrs l : frame (λ x, x) (load_shdrs l).
Proof. unfold load_shdrs. frame. Qed.
Lemma frame_load_node l : frame (λ x, x) (load_node l).
Proof. unfold load_node. frame. Qed.
Lemma frame_load_bytes l : frame (λ x, x) (load_bytes l).
Proof. unfold load_bytes. frame. Qed.
#[export] Hint Resolve quiet_elf quiet_world looking_quiet looks_elf frame_load_handle frame_load_shdrs
  frame_load_node frame_load_bytes : frame.

Section quiet_calls.
Context {W : Type} `{Kernel W} `{ElfEnv} `{Capstone}.

Lemma looks_printf fmt args : looking (printf fmt args : M (St W) unit).
Proof. unfold printf. destruct (format fmt args) as [t|]; [|apply frame_undef]. intros s a s' E. by injection E as <- <-. Qed.
Lemma looks_eprintf fmt args : looking (eprintf fmt args : M (St W) unit).
Proof. unfold eprintf. destruct (format fmt args) as [t|]; [|apply frame_undef]. intros s a s' E. by injection E as <- <-. Qed.
Lemma looks_puts t : looking (puts t : M (St W) unit).
Proof. intros s a s' E. by injection E as <- <-. Qed.
Lemma looks_perror t : looking (perror t : M (St W) unit).
Proof. intros s a s' E. by injection E as <- <-. Qed.
Lemma looks_get_sdb : looking (get_sdb : M (St W) SDB).
Proof. apply frame_gets. Qed.
Lemma quiet_waitpid : quiet (waitpid : M (St W) (Z * Z)).
Proof.
  intros s a s'. rewrite waitpid_eq. destruct (sys_waitpid _ _) as [[[r st] w]|]; [|discriminate].
  intros E. by injection E as <- <-.
Qed.
#[local] Hint Resolve looks_printf looks_eprintf looks_puts looks_perror looks_get_sdb quiet_waitpid : frame.

Lemma looks_pid : looking (pid : M (St W) Z).
Proof. unfold pid. frame. Qed.
#[local] Hint Resolve looks_pid : frame.
Lemma looks_handle : looking (handle : M (St W) elf_handle_t).
Proof. unfold handle. frame. Qed.
Lemma looks_getregs : looking (getregs : M (St W) (option user_regs)).
Proof. unfold getregs. frame. Qed.
Lemma quiet_setregs r : quiet (setregs r : M (St W) Z).
Proof. unfold setregs. frame. Qed.
Lemma looks_peek_opt a : looking (peek_opt a : M (St W) (option Z)).
Proof. unfold peek_opt. frame. Qed.
#[local] Hint Resolve looks_handle looks_getregs quiet_setregs looks_peek_opt : frame.
Lemma looks_peektext a : looking (peektext a : M (St W) Z).
Proof. unfold peektext. frame. Qed.
Lemma quiet_poketext a v : quiet (poketext a v : M (St W) Z).
Proof. unfold poketext. frame. Qed.
Lemma quiet_singlestep : quiet (singlestep : M (St W) Z).
Proof. unfold singlestep. frame. Qed.
Lemma quiet_cont : quiet (cont : M (St W) Z).
Proof. unfold cont. frame. Qed.
Lemma quiet_setoptions : quiet (setoptions : M (St W) unit).
Proof. unfold setoptions. frame. Qed.
Lemma looks_get_break i : looking (get_break i : M (St W) bp_t).
Proof. unfold get_break. frame. Qed.
#[local] Hint Resolve looks_peektext quiet_poketext quiet_singlestep quiet_cont quiet_setoptions looks_get_break : frame.

Lemma looks_run_addr a : looking (run_addr a : M (St W) Z).
Proof. unfold run_addr, convert_dynamic_addr. frame. Qed.
Lemma quiet_step_off a : quiet (step_off a : M (St W) unit).
Proof. unfold step_off. frame. Qed.
Lemma looks_bytes_str bs n j acc : looking (bytes_str bs n j acc : M (St W) string).
Proof. revert j acc. induction n as [|n IH]; intros j acc; cbn [bytes_str]; frame. Qed.
#[local] Hint Resolve looks_run_addr quiet_step_off looks_bytes_str : frame.
Lemma looks_insn_bytes_str i : looking (insn_bytes_str i : M (St W) string).
Proof. unfold insn_bytes_str. frame. Qed.
#[local] Hint Resolve looks_insn_bytes_str : frame.
Lemma looks_report_hit i a : looking (report_hit i a : M (St W) unit).
Proof. unfold report_hit. frame. Qed.
#[local] Hint Resolve looks_report_hit : frame.
Lemma quiet_check_hit regs i : quiet (check_hit regs i : M (St W) (option unit)).
Proof. unfold check_hit. frame. Qed.
#[local] Hint Resolve quiet_check_hit : frame.
Lemma quiet_wait_loop fuel st : quiet (wait_loop fuel st : M (St W) (unit + option Z)).
Proof.
  revert st. induction fuel as [|fuel IH]; intros st; cbn [wait_loop]; [|frame].
  intros s a s' E. discriminate E.
Qed.
Lemma looks_peek_words n addr limit ptr buffer : looking (peek_words n addr limit ptr buffer : M (St W) (list Z * Z)).
Proof. revert ptr buffer. induction n as [|n IH]; intros ptr buffer; cbn [peek_words]; frame. Qed.
Lemma looks_list_bp i : looking (list_bp i : M (St W) (option unit)).
Proof. unfold list_bp. frame. Qed.
Lemma quiet_restore_bp i : quiet (restore_bp i : M (St W) (option unit)).
Proof. unfold restore_bp. frame. Qed.
Lemma looks_section_is tab x lit : looking (section_is tab x lit : M (St W) bool).
Proof. unfold section_is. frame. Qed.
#[local] Hint Resolve looks_section_is : frame.
Lemma looks_find_shstrtab fuel id tab : looking (find_shstrtab fuel id tab : M (St W) (option loc)).
Proof.
  revert tab. induction fuel as [|fuel IH]; intros [t|]; cbn [find_shstrtab]; frame.
  intros s a s' E. discriminate E.
Qed.
Lemma looks_find_text tab shdr ixs : looking (find_text tab shdr ixs : M (St W) (option elf_shdr_t)).
Proof. induction ixs as [|i ixs IH]; cbn [find_text]; frame. Qed.
Lemma looks_shdr_array eh : looking (shdr_array eh : M (St W) (list elf_shdr_t)).
Proof. unfold shdr_array. frame. Qed.
Lemma looks_print_vm_tokens n l : looking (print_vm_tokens n l : M (St W) unit).
Proof. revert n. induction l as [|t l IH]; intros n; cbn [print_vm_tokens]; frame. Qed.
#[local] Hint Resolve quiet_wait_loop looks_peek_words looks_list_bp quiet_restore_bp looks_find_shstrtab
  looks_find_text looks_shdr_array looks_print_vm_tokens : frame.
Lemma looks_print_all_maps l : looking (print_all_maps l : M (St W) unit).
Proof. induction l as [|t l IH]; cbn [print_all_maps]; unfold print_vm_maps; frame. Qed.
Lemma looks_print_hex l : looking (print_hex l : M (St W) unit).
Proof. induction l as [|t l IH]; cbn [print_hex]; frame. Qed.
Lemma looks_print_chars l : looking (print_chars l : M (St W) unit).
Proof. induction l as [|t l IH]; cbn [print_chars]; frame. Qed.
#[local] Hint Resolve looks_print_all_maps looks_print_hex looks_print_chars : frame.

(** The commands that only look. *)
Lemma looks_list : looking (sdb_list : M (St W) unit).
Proof. unfold sdb_list. frame. Qed.
Lemma quiet_step : quiet (sdb_step : M (St W) unit).
Proof. unfold sdb_step. frame. Qed.
Lemma looks_vmmap : looking (sdb_vmmap : M (St W) unit).
Proof. unfold sdb_vmmap. frame. Qed.
Lemma looks_get_reg name : looking (sdb_get name : M (St W) Z).
Proof. unfold sdb_get. frame. Qed.
Lemma looks_get_all : looking (sdb_getregs : M (St W) unit).
Proof. unfold sdb_getregs. frame. Qed.
Lemma quiet_set_reg name v : quiet (sdb_set name v : M (St W) unit).
Proof. unfold sdb_set. frame. Qed.
Lemma looks_dump a : looking (sdb_dump a : M (St W) unit).
Proof. unfold sdb_dump, dump_row. frame. Qed.
End quiet_calls.
#[export] Hint Resolve looks_printf looks_eprintf looks_puts looks_perror looks_get_sdb quiet_waitpid looks_pid
  looks_handle looks_getregs quiet_setregs looks_peek_opt looks_peektext quiet_poketext quiet_singlestep
  quiet_cont quiet_setoptions looks_get_break looks_run_addr quiet_step_off looks_insn_bytes_str
  looks_report_hit quiet_wait_loop looks_peek_words quiet_restore_bp looks_find_shstrtab looks_find_text
  looks_shdr_array looks_list quiet_step looks_vmmap looks_get_reg looks_get_all quiet_set_reg looks_dump : frame.

(** ** Changes of a well-formed object *)

Lemma used_loaded d i b : wf d → breaks d !! i = Some b → is_used b = true → sdb_path d ≠ "".
Proof.
  intros Hd Hi Hu Hp. destruct (wf_unloaded _ Hd Hp) as [_ Hb].
  rewrite (proj1 (Forall_lookup _ _) Hb i b Hi) in Hu. done.
Qed.

Lemma wf_with_break d i b :
  wf d → wf_bp b → (is_used b = true → sdb_path d ≠ "") → wf (with_breaks (<[i:=b]> (breaks d)) d).
Proof.
  intros [] Hb Hu. split; cbn; try done.
  - by rewrite length_insert.
  - by apply Forall_insert.
  - intros Hp. destruct (wf_unloaded0 Hp) as [? ?]. split; [done|]. apply Forall_insert; [done|].
    destruct (is_used b); [|done]. by destruct Hu.
Qed.
Lemma wf_with_pid d p : wf d → sdb_path d ≠ "" ∨ p = -1 → wf (with_pid p d).
Proof. intros [] Hp. split; cbn; try done. intros E. destruct Hp as [? | ->]; naive_solver. Qed.
Lemma wf_with_eh d p : wf d → wf (with_eh p d).
Proof. by intros []. Qed.
Lemma wf_with_tab d p : wf d → wf (with_tab p d).
Proof. by intros []. Qed.
Lemma wf_with_last d a : wf d → word64 a → wf (with_last a d).
Proof. by intros [] Ha. Qed.
Lemma loaded_iff d : sdb_is_loaded d = true ↔ sdb_path d ≠ "".
Proof. unfold sdb_is_loaded. rewrite negb_true_iff. apply bool_decide_eq_false. Qed.

Lemma word64_wrap z : word64 (wrap64 z).
Proof. apply wrap64_range. Qed.

Lemma eat_digits_nonneg b acc t : 0 ≤ b → 0 ≤ acc → 0 ≤ fst (eat_digits b acc t).
Proof.
  intros Hb. revert acc. induction t as [|c t IH]; intros acc Ha; [done|]. cbn [eat_digits].
  destruct (digit_val c) as [d|] eqn:Hd; [|done]. destruct (d <? b); [|done]. apply IH.
  assert ((default 0 (digit_val c) >=? 0) = true) as Hall.
  { clear Hd. revert c. apply (ascii_ind_N (λ c, default 0 (digit_val c) >=? 0)). by vm_compute. }
  rewrite Hd in Hall. cbn in Hall. lia.
Qed.
Lemma strtoull_word64 x : 0 ≤ snd x → word64 (strtoull_value x).
Proof.
  destruct x as [neg m]. cbn. intros Hm. unfold word64.
  destruct (Z.leb_spec (2 ^ 64) m); [lia|]. destruct neg; [apply wrap64_range|lia].
Qed.
Lemma scan_llx_word64 t a : scan_llx t = Some a → word64 a.
Proof.
  unfold scan_llx, scan_num. destruct (eat_sign (skip_space t)) as [neg u].
  assert (∀ v, word64 (strtoull_value (neg, fst (eat_digits 16 0 v)))) as Hw.
  { intros v. apply strtoull_word64, eat_digits_nonneg; lia. }
  destruct (eat_0x 16 u) as [v|]; [|destruct (starts_with_digit 16 u)]; cbn [fmap option_fmap option_map];
    intros E; [injection E as <-; apply Hw..|discriminate E].
Qed.

Section commands.
Context {W : Type} `{KernelLaws W} `{ElfEnv} `{Capstone}.
Implicit Types (s : St W) (d : SDB).

Lemma keeps_quiet {A} (m : M (St W) A) : quiet m → keeps m.
Proof. apply triple_quiet. Qed.

Lemma triple_peektext P a : triple P (peektext a : M (St W) Z) (λ w d, word64 w ∧ P d).
Proof.
  intros s w s' HP E. split; [|by rewrite (looking_quiet _ (looks_peektext _) _ _ _ E)].
  unfold peektext, peek_opt, pid, get_sdb, gets, get, mbind, M_bind, mret, M_ret in E. injection E as <- _.
  destruct (ptrace_peek (st_world s) (sdb_pid (st_sdb s)) a) as [v|] eqn:Hv; cbn; [|unfold word64; lia].
  by eapply peek_range.
Qed.

(** ** Planting *)

Lemma triple_plant i bp a :
  triple (λ d, breaks d !! i = Some bp ∧ is_used bp = true ∧ wf d) (plant i bp a) (λ _, @wf).
Proof.
  unfold plant. eapply triple_bind; [apply triple_peektext|]. intros word.
  destruct (_ =? _); [by apply triple_ret; intros d (_ & _ & _ & ?)|].
  eapply triple_bind.
  - apply (triple_set_break _ i _ wf). intros d (Hw & Hi & Hu & Hd) _. apply wf_with_break; [done| |].
    + split; [|done]. by apply (proj1 (Forall_lookup _ _) (wf_bps _ Hd) i bp Hi).
    + intros _. by eapply used_loaded.
  - intros ?. apply triple_quiet. frame.
Qed.

Lemma keeps_patch : keeps (sdb_patch_all_bp : M (St W) unit).
Proof.
  unfold keeps, sdb_patch_all_bp. apply (triple_bind _ _ (λ _, wf)); [|intros r; by apply triple_ret].
  apply triple_for_each. intros i. unfold patch_bp.
  eapply triple_bind; [apply triple_get_break|]. intros bp.
  destruct (is_used bp) eqn:Hu; [|by apply triple_ret; intros d [_ ?]].
  eapply triple_bind; [apply triple_quiet; frame|]. intros a.
  eapply triple_bind; [apply triple_quiet; frame|]. intros [].
  eapply triple_weaken; [apply triple_plant| |done]. by intros d [Hi Hd].
Qed.

(** ** The commands that change the object *)

Lemma free_slot_unused bs k i : free_slot bs k = Some i → ∃ b, bs !! (i - k)%nat = Some b ∧ (k ≤ i)%nat.
Proof.
  revert k. induction bs as [|b bs IH]; intros k; [done|]. cbn [free_slot].
  destruct (is_used b).
  - intros (b' & Hb & Hk)%IH. exists b'. replace (i - k)%nat with (S (i - S k)) by lia. split; [done|lia].
  - intros [= ->]. exists b. by rewrite Nat.sub_diag.
Qed.

Lemma keeps_set_break t : keeps (sdb_set_break t : M (St W) unit).
Proof.
  unfold keeps, sdb_set_break. eapply triple_bind; [apply triple_get_sdb|]. intros d0.
  destruct (sdb_is_loaded d0) eqn:Hl; cbn [negb].
  2: { eapply triple_weaken; [apply (triple_quiet wf); frame|by intros d [_ ?]|done]. }
  apply loaded_iff in Hl.
  eapply triple_bind; [apply (triple_read _ _ (λ a d, word64 a ∧ d0 = d ∧ wf d))|].
  { intros a d Ha Hd. split; [by eapply scan_llx_word64|done]. }
  intros a. destruct (free_slot (breaks d0) 0) as [i|]; [|apply triple_undef].
  eapply triple_bind; [apply triple_get_break|]. intros bp.
  eapply triple_bind.
  - apply (triple_set_break _ i _ wf). intros d (Hi & Ha & -> & Hd) _. apply wf_with_break; [done| |done].
    split; [done|]. cbn. by apply (proj1 (Forall_lookup _ _) (wf_bps _ Hd) i bp Hi).
  - intros ?. destruct (sdb_is_running d0); [apply keeps_patch|]. by apply triple_ret.
Qed.

Lemma keeps_delete index : keeps (sdb_delete index : M (St W) unit).
Proof.
  unfold keeps, sdb_delete. destruct (_ && _); [|by apply triple_ret].
  eapply triple_bind; [apply triple_get_break|]. intros bp.
  destruct (is_used bp) eqn:Hu; [|by apply triple_ret; intros d [_ ?]].
  eapply triple_bind; [apply triple_quiet; frame|]. intros word.
  eapply triple_bind; [apply triple_quiet; frame|]. intros ?.
  eapply triple_bind.
  - apply (triple_set_break _ _ _ wf). intros d (Hi & Hd) _. apply wf_with_break; [done| |done].
    split; by apply (proj1 (Forall_lookup _ _) (wf_bps _ Hd) _ bp Hi).
  - intros ?. apply triple_quiet. frame.
Qed.

Lemma triple_spawn : triple (λ d, wf d ∧ sdb_path d ≠ "") (spawn : M (St W) _) (λ _, wf).
Proof.
  unfold spawn. eapply triple_bind; [apply triple_quiet; frame|]. intros p.
  eapply triple_bind.
  - apply (triple_put_sdb _ _ wf). intros d [Hd Hp]. apply wf_with_pid; auto.
  - intros ?. apply triple_quiet. frame.
Qed.

Lemma keeps_resume fuel st : keeps (resume fuel st : M (St W) unit).
Proof.
  unfold keeps, resume. eapply triple_bind; [apply triple_quiet; frame|]. intros ?.
  eapply triple_bind; [apply triple_quiet; frame|]. intros [?|st']; [by apply triple_ret|].
  eapply triple_bind; [apply triple_quiet; frame|]. intros v. unfold child_gone.
  eapply triple_bind; [apply triple_quiet; frame|]. intros p.
  eapply triple_bind; [apply triple_quiet; frame|]. intros ?.
  apply (triple_put_sdb _ _ wf). intros d Hd. apply wf_with_pid; auto.
Qed.

(** A command that first tests whether a program is loaded. *)
Lemma triple_loaded {A} (m : SDB → M (St W) A) (n : SDB → M (St W) A) :
  (∀ d, keeps (m d)) → (∀ d0, triple (λ d, wf d ∧ sdb_path d ≠ "") (n d0) (λ _, wf)) →
  keeps (s ← get_sdb; if negb (sdb_is_loaded s) then m s else n s).
Proof.
  intros Hm Hn. eapply triple_bind; [apply triple_get_sdb|]. intros d0.
  destruct (sdb_is_loaded d0) eqn:Hl; cbn [negb].
  - eapply triple_weaken; [apply Hn| |done]. intros d [-> Hd]. split; [done|]. by apply loaded_iff.
  - eapply triple_weaken; [apply Hm| |done]. by intros d [_ Hd].
Qed.

Lemma keeps_start : keeps (sdb_start : M (St W) unit).
Proof.
  unfold sdb_start. apply triple_loaded; [intros d; apply keeps_quiet; frame|]. intros d0.
  eapply triple_bind; [apply triple_spawn|]. intros [?|st]; [by apply triple_ret|apply keeps_patch].
Qed.

Lemma keeps_cont fuel : keeps (sdb_cont fuel : M (St W) unit).
Proof.
  unfold keeps, sdb_cont. eapply triple_bind; [apply triple_quiet; frame|]. intros d0.
  destruct (negb _); [apply triple_quiet; frame|].
  eapply triple_bind; [apply keeps_patch|]. intros ?. apply keeps_resume.
Qed.

Lemma keeps_run fuel : keeps (sdb_run fuel : M (St W) unit).
Proof.
  unfold sdb_run. apply triple_loaded; [intros d; apply keeps_quiet; frame|]. intros d0.
  eapply (triple_bind _ _ (λ _, wf)).
  - destruct (negb _).
    + eapply triple_bind; [apply triple_spawn|]. intros r. by apply triple_ret.
    + eapply triple_weaken; [apply (triple_quiet wf); frame| |done]. by intros d [Hd _].
  - intros [?|st]; [by apply triple_ret|].
    eapply triple_bind; [apply keeps_patch|]. intros ?. apply keeps_resume.
Qed.

Lemma wf_loaded d name :
  wf d → (String.length name < 128)%nat →
  wf (Sdb (sdb_eh d) (sdb_strtab d) name (-1) ((λ b, Bp false (bp_addr b) (original_word b)) <$> breaks d) 0).
Proof.
  intros [] Hn. split; cbn [sdb_pid breaks sdb_path last_disasm_addr]; try done.
  - by rewrite length_fmap.
  - apply Forall_fmap. eapply Forall_impl; [done|]. intros b []. by split.
  - intros _. split; [done|]. by apply Forall_fmap, Forall_true.
Qed.

Lemma keeps_load name : keeps (sdb_load name : M (St W) unit).
Proof.
  unfold keeps, sdb_load. eapply triple_bind; [apply triple_quiet; frame|]. intros d0.
  eapply (triple_bind _ _ (λ _, wf)).
  { destruct (sdb_eh d0); [|by apply triple_ret].
    eapply triple_bind; [apply triple_quiet; frame|]. intros ?.
    apply (triple_put_sdb _ _ wf). intros d Hd. by apply wf_with_eh. }
  intros ?. eapply triple_bind; [apply triple_quiet; frame|]. intros eh.
  eapply triple_bind; [apply (triple_put_sdb _ _ wf); intros d Hd; by apply wf_with_eh|]. intros ?.
  destruct eh as [l|]; [|apply triple_quiet; frame].
  eapply triple_bind; [apply triple_quiet; frame|]. intros r.
  destruct (_ <? _); [apply triple_quiet; frame|].
  do 3 (eapply triple_bind; [apply triple_quiet; frame|]; intros ?).
  eapply triple_bind; [apply (triple_put_sdb _ _ wf); intros d Hd; by apply wf_with_tab|]. intros ?.
  match goal with |- triple _ (match ?tab with _ => _ end) _ => destruct tab end; [|apply triple_quiet; frame].
  do 3 (eapply triple_bind; [apply triple_quiet; frame|]; intros ?).
  destruct (Nat.leb_spec 128 (String.length name)); [apply triple_undef|].
  apply (triple_put_sdb _ _ wf). intros d Hd. by apply wf_loaded.
Qed.

Lemma keeps_disasm_addr t : keeps (disasm_addr t : M (St W) (option Z)).
Proof.
  unfold keeps, disasm_addr. eapply triple_bind; [apply triple_quiet; frame|]. intros ?.
  eapply triple_bind; [apply triple_quiet; frame|]. intros d0.
  destruct (bool_decide _); [destruct (_ =? _); apply triple_quiet; frame|].
  eapply triple_bind; [apply (triple_read _ _ (λ v d, word64 v ∧ wf d))|].
  { intros v d Hv Hd. split; [by eapply scan_llx_word64|done]. }
  intros addr. eapply triple_bind; [|intros ?; apply triple_quiet; frame].
  apply (triple_put_sdb _ _ wf). intros d [Ha Hd]. by apply wf_with_last.
Qed.

Lemma keeps_disasm t : keeps (sdb_disasm t : M (St W) unit).
Proof.
  unfold keeps, sdb_disasm. eapply triple_bind; [apply keeps_disasm_addr|].
  intros [addr|]; [|by apply triple_ret].
  eapply (triple_bind _ _ (λ _, wf)).
  { unfold disasm_bytes. eapply triple_bind; [apply triple_quiet; frame|]. intros d.
    destruct (negb _); [apply triple_quiet; frame|].
    eapply triple_bind; [apply triple_quiet; frame|]. intros ?.
    eapply triple_bind; [apply triple_quiet; frame|]. intros [b p].
    eapply triple_bind; [apply keeps_patch|]. intros ?. by apply triple_ret. }
  intros [b|]; [|by apply triple_ret]. unfold print_disasm. cbv zeta.
  destruct (_ <? _)%nat; [|apply triple_quiet; frame].
  eapply triple_bind; [apply triple_for_each|intros ?; by apply triple_ret].
  intros i. unfold print_insn.
  eapply triple_bind; [apply triple_quiet; frame|]. intros insn.
  eapply triple_bind; [apply triple_quiet; frame|]. intros t'.
  eapply triple_bind; [|intros ?; apply triple_quiet; frame].
  apply (triple_put_sdb _ _ wf). intros d Hd. apply wf_with_last; [done|apply word64_wrap].
Qed.

Lemma wf_new junk : (∀ i, word64 (fst (junk i)) ∧ word64 (snd (junk i))) → wf (new_sdb junk).
Proof.
  intros Hj. split; cbn -[fmap indices]; try done.
  - apply Forall_fmap, Forall_true. intros i. by destruct (Hj i).
  - simpl. lia.
  - intros _. split; [done|]. by apply Forall_fmap, Forall_true.
Qed.

(** ** The command loop *)

Implicit Types (r : Repl W).

Definition rwf r : Prop := wf (st_sdb (rp_st r)).
Definition rkeeps {A} (m : M (Repl W) A) : Prop := ∀ r a r', rwf r → m r = Ret (a, r') → rwf r'.

Lemma rkeeps_bind {A B} (m : M (Repl W) A) (k : A → M (Repl W) B) :
  rkeeps m → (∀ a, rkeeps (k a)) → rkeeps (m ≫= k).
Proof. intros Hm Hk r b r' Hr (a & r1 & E1 & E2)%bind_inv. eapply Hk; [|exact E2]. by eapply Hm. Qed.
Lemma rkeeps_ret {A} (a : A) : rkeeps (mret a).
Proof. intros r b r' Hr E. by injection E as -> ->. Qed.
Lemma rkeeps_undef {A} u : rkeeps (undef u : M (Repl W) A).
Proof. intros r a r' _ E. discriminate E. Qed.
Lemma rkeeps_read {A} (o : option A) : rkeeps (read_init o).
Proof. destruct o; [apply rkeeps_ret|apply rkeeps_undef]. Qed.
Lemma rkeeps_get : rkeeps get.
Proof. intros r a r' Hr E. by injection E as <- <-. Qed.
Lemma rkeeps_modify (f : Repl W → Repl W) : (∀ r, rp_st (f r) = rp_st r) → rkeeps (modify f).
Proof. intros Hf r a r' Hr E. injection E as <- <-. unfold rwf. by rewrite Hf. Qed.
Lemma rkeeps_sdb {A} (m : M (St W) A) : keeps m → rkeeps (sdb m).
Proof.
  intros Hm r a r' Hr E. unfold sdb in E. destruct (m (rp_st r)) as [[x s]| | | | |] eqn:Em; [|discriminate..].
  injection E as <- <-. exact (Hm _ _ _ Hr Em).
Qed.
Lemma rkeeps_operand k n line : rkeeps (operand k n line).
Proof.
  unfold operand. destruct (_ !! _); [|apply rkeeps_ret]. destruct (_ <=? _)%nat; [apply rkeeps_undef|apply rkeeps_ret].
Qed.
Lemma rkeeps_getline : rkeeps getline.
Proof. apply rkeeps_modify. intros r. by destruct (rp_input r). Qed.
Lemma rkeeps_scan line : rkeeps (scan_command line).
Proof.
  unfold scan_command. destruct (scan_words 1 line); [apply rkeeps_ret|].
  destruct (_ <=? _)%nat; [apply rkeeps_undef|by apply rkeeps_modify].
Qed.

Create HintDb keeps discriminated.
#[local] Hint Resolve rkeeps_ret rkeeps_read rkeeps_get rkeeps_sdb rkeeps_operand rkeeps_getline rkeeps_scan
  keeps_set_break keeps_cont keeps_delete keeps_disasm keeps_load keeps_run keeps_start : keeps.
#[local] Hint Extern 3 (keeps _) => apply keeps_quiet; solve [auto with frame nocore] : keeps.
Ltac rkeeps := repeat (intros; first [ solve [auto with keeps nocore] | apply rkeeps_bind ]).

Lemma rkeeps_dispatch fuel command line : rkeeps (dispatch fuel command line).
Proof.
  unfold dispatch. repeat (match goal with |- rkeeps (if ?b then _ else _) => destruct b end; [rkeeps|]);
    unfold set_command; rkeeps.
Qed.
Lemma rkeeps_iteration fuel : rkeeps (iteration fuel).
Proof. pose proof rkeeps_dispatch. unfold iteration. rkeeps. Qed.

(** ** The states of the debugger *)

(** What main does before the loop. *)
Definition startup (junk : nat → Z * Z) (argv : list string) : M (Repl W) unit :=
  sdb (sdb_create junk) ≫= λ _,
  match argv with [_; file] => sdb (sdb_load file) | _ => mret tt end.

Lemma main_startup junk argv n fuel r :
  main junk argv n fuel r = (startup junk argv ≫= λ _, main_loop n fuel) r.
Proof. unfold main, startup. by rewrite bind_assoc_M. Qed.

(** A run of main from [r0]: the start, and any number of iterations, each with
    some bound on its wait loops. *)
Inductive reachable (junk : nat → Z * Z) (argv : list string) (r0 : Repl W) : Repl W → Prop :=
  | reach_start r : startup junk argv r0 = Ret (tt, r) → reachable junk argv r0 r
  | reach_iteration r fuel go r' :
      reachable junk argv r0 r → iteration fuel r = Ret (go, r') → reachable junk argv r0 r'.

(** The state in which main ends is one of them. *)
Lemma main_loop_reachable junk argv n fuel r0 r a r' :
  reachable junk argv r0 r → main_loop n fuel r = Ret (a, r') → reachable junk argv r0 r'.
Proof.
  revert r. induction n as [|n IH]; intros r Hr E; [discriminate|]. cbn [main_loop] in E.
  apply bind_inv in E as (go & r1 & E1 & E2).
  pose proof (reach_iteration _ _ _ _ _ _ _ Hr E1) as Hr1. destruct go; [by eapply IH|].
  by injection E2 as _ <-.
Qed.
Lemma main_reachable junk argv n fuel r0 a r :
  main junk argv n fuel r0 = Ret (a, r) → reachable junk argv r0 r.
Proof.
  rewrite main_startup. intros (u & r1 & E1 & E2)%bind_inv. destruct u.
  eapply main_loop_reachable; [by apply reach_start|done].
Qed.

Lemma rkeeps_load_arg (argv : list string) :
  rkeeps (match argv with [_; file] => sdb (sdb_load file) | _ => mret tt end).
Proof. destruct argv as [|p [|file [|]]]; rkeeps. Qed.

Lemma startup_wf junk argv r0 r :
  (∀ i, word64 (fst (junk i)) ∧ word64 (snd (junk i))) → startup junk argv r0 = Ret (tt, r) → rwf r.
Proof.
  intros Hj (u & r1 & E1 & E2)%bind_inv.
  assert (rwf r1) as Hr1.
  { unfold sdb, sdb_create in E1.
    destruct ((elf elf_init ≫= _) (rp_st r0)) as [[x s]| | | | |] eqn:E; [|discriminate..].
    injection E1 as <- <-. apply bind_inv in E as (y & s1 & _ & E). injection E as <- <-.
    by apply wf_new. }
  eapply rkeeps_load_arg; [exact Hr1|exact E2].
Qed.

(** C12. The object is well formed in every state the debugger reaches, whatever
    the commands, the file and the traced program do: the table has its ten
    slots and every word in it fits 64 bits, the path fits its buffer, and while
    no program is loaded there is no process and no breakpoint. *)
Theorem reachable_wf junk argv r0 r :
  (∀ i, word64 (fst (junk i)) ∧ word64 (snd (junk i))) →
  reachable junk argv r0 r → wf (st_sdb (rp_st r)).
Proof.
  intros Hj Hr. induction Hr as [r E|r fuel go r' _ IH E].
  - by eapply startup_wf.
  - by eapply rkeeps_iteration.
Qed.
End commands.
