(* ===== verification/SdbTest.v ===== *)
(** * sdb: the test program

    test.c calls the functions of sdb.h one after the other, with no command
    loop between them: six test cases on the files of sample/. *)
From S2P Require Import Prelude Libc Elftool Kernel SdbState SdbBreak SdbRun SdbInspect SdbMain SdbInv.

Section test.
Context {W : Type} `{Kernel W} `{ElfEnv} `{Capstone}.

(** [puts] of a heading that starts with a newline. *)
Definition test_heading (t : string) : M (St W) unit := puts (newline +:+ t).

Definition test_load (fuel : nat) : M (St W) unit :=
  test_heading "Test Case 1..." ≫= λ _,
  sdb_load "sample/hello64" ≫= λ _,
  sdb_vmmap ≫= λ _,
  sdb_start ≫= λ _,
  sdb_vmmap ≫= λ _,
  sdb_get "rip" ≫= λ _,
  sdb_run fuel.

Definition test_regs : M (St W) unit :=
  test_heading "Test Case 2..." ≫= λ _,
  sdb_load "sample/hello64" ≫= λ _,
  sdb_start ≫= λ _,
  sdb_getregs.

Definition test_disasm : M (St W) unit :=
  test_heading "Test Case 3..." ≫= λ _,
  sdb_load "sample/hello64" ≫= λ _,
  sdb_disasm "" ≫= λ _,
  sdb_disasm "0x4000b0" ≫= λ _,
  sdb_start ≫= λ _,
  sdb_set_break "0x4000c6" ≫= λ _,
  sdb_disasm "0x4000c6" ≫= λ _,
  sdb_dump "0x4000c6".

Definition test_break (fuel : nat) : M (St W) unit :=
  test_heading "Test Case 4..." ≫= λ _,
  sdb_load "sample/hello64" ≫= λ _,
  sdb_disasm "0x4000b0" ≫= λ _,
  sdb_set_break "0x4000c6" ≫= λ _,
  sdb_list ≫= λ _,
  sdb_run fuel ≫= λ _,
  sdb_set "rip" 0x4000b0 ≫= λ _,
  sdb_cont fuel ≫= λ _,
  sdb_delete 0 ≫= λ _,
  sdb_set "rip" 0x4000b0 ≫= λ _,
  sdb_cont fuel.

Definition test_pie (fuel : nat) : M (St W) unit :=
  test_heading "Test Case 5..." ≫= λ _,
  sdb_load "sample/guess" ≫= λ _,
  sdb_vmmap ≫= λ _,
  sdb_disasm "0x985" ≫= λ _,
  sdb_disasm "" ≫= λ _,
  sdb_set_break "0x9cc" ≫= λ _,
  sdb_start ≫= λ _,
  sdb_vmmap ≫= λ _,
  sdb_cont fuel ≫= λ _,
  sdb_get "rax" ≫= λ _,
  val ← sdb_get "rdx";
  sdb_set "rax" val ≫= λ _,
  sdb_cont fuel.

Definition test_step : M (St W) unit :=
  test_heading "Test Case 6...Test step command" ≫= λ _,
  sdb_load "sample/hello64" ≫= λ _,
  sdb_start ≫= λ _,
  for_each (seq 0 10) (λ _, sdb_step ≫= λ _, mret (@None unit)) ≫= λ _, mret tt.

(** main; [fuel] bounds the wait loops. *)
Definition test_main (junk : nat → Z * Z) (fuel : nat) : M (St W) Z :=
  sdb_create junk ≫= λ _,
  sdb_vmmap ≫= λ _,
  test_load fuel ≫= λ _,
  test_regs ≫= λ _,
  test_disasm ≫= λ _,
  test_break fuel ≫= λ _,
  test_pie fuel ≫= λ _,
  test_step ≫= λ _,
  mret 0.
End test.

Section theorems.
Context {W : Type} `{KernelLaws W} `{ElfEnv} `{Capstone}.
Implicit Types (s : St W).

Lemma keeps_then {A B} (m : M (St W) A) (k : A → M (St W) B) :
  SdbInv.keeps m → (∀ a, SdbInv.keeps (k a)) → SdbInv.keeps (m ≫= k).
Proof. intros Hm Hk. unfold SdbInv.keeps. by eapply triple_bind. Qed.
Lemma keeps_loop {R} (l : list nat) (body : nat → M (St W) (option R)) :
  (∀ i, SdbInv.keeps (body i)) → SdbInv.keeps (for_each l body).
Proof. apply triple_for_each. Qed.
Create HintDb sdb_keeps discriminated.
#[local] Hint Resolve keeps_set_break keeps_cont keeps_delete keeps_disasm keeps_load keeps_run keeps_start : sdb_keeps.
#[local] Hint Extern 3 (SdbInv.keeps _) => apply keeps_quiet; solve [auto with frame nocore] : sdb_keeps.
Ltac keeps := repeat (intros; first [ solve [auto with sdb_keeps nocore] | apply keeps_loop | apply keeps_then ]).

Lemma keeps_heading t : SdbInv.keeps (test_heading t : M (St W) unit).
Proof. unfold test_heading. keeps. Qed.
#[local] Hint Resolve keeps_heading : sdb_keeps.

Lemma keeps_cases fuel :
  SdbInv.keeps (test_load fuel : M (St W) unit) ∧ SdbInv.keeps (test_regs : M (St W) unit) ∧
  SdbInv.keeps (test_disasm : M (St W) unit) ∧ SdbInv.keeps (test_break fuel : M (St W) unit) ∧
  SdbInv.keeps (test_pie fuel : M (St W) unit) ∧ SdbInv.keeps (test_step : M (St W) unit).
Proof.
  unfold test_load, test_regs, test_disasm, test_break, test_pie, test_step. split_and!; keeps.
Qed.

(** The test program leaves a well-formed object, whatever the samples are and
    whatever the traced programs do. *)
Theorem test_keeps_wf junk fuel s r s' :
  (∀ i, word64 (fst (junk i)) ∧ word64 (snd (junk i))) →
  test_main junk fuel s = Ret (r, s') → r = 0 ∧ wf (st_sdb s').
Proof.
  intros Hj E.
  assert (triple (λ _, True) (test_main junk fuel : M (St W) Z) (λ r d, r = 0 ∧ wf d)) as Ht;
    [|exact (Ht s r s' I E)].
  destruct (keeps_cases fuel) as (K1 & K2 & K3 & K4 & K5 & K6). unfold test_main.
  eapply (triple_bind _ _ (λ _, wf)); [|intros ?].
  - eapply triple_bind; [apply triple_quiet; frame|intros ?].
    apply (triple_put_sdb _ _ wf). intros d _. by apply wf_new.
  - eapply triple_bind; [apply (keeps_quiet sdb_vmmap); frame|intros ?].
    do 6 (eapply triple_bind; [eassumption|intros ?]). by apply triple_ret.
Qed.
End theorems.
