(* ===== verification/SdbTrace.v ===== *)
(** * sdb: a whole session

    The commands in any order, as a user gives them: what the tracee's memory
    shows in every state such a session reaches.  The program is one that is
    not position independent.  What the program and the kernel do between two
    stops is free, but for what the steps of the session state. *)
From S2P Require Import Prelude Libc Elftool Kernel SdbState SdbBreak SdbRun SdbSession SdbInspect SdbInv.

(** All but the output and [last_disasm_addr]. *)
Definition grip {W} (s : St W) : list bp_t * Z * option loc * string * cmem * W :=
  (breaks (st_sdb s), sdb_pid (st_sdb s), sdb_eh (st_sdb s), sdb_path (st_sdb s), st_mem s, st_world s).

Lemma looking_grip {W A} (m : M (St W) A) : looking m → frame grip m.
Proof. intros Hm s a s' E. pose proof (Hm s a s' E) as Hl. injection Hl as Hs Hm1 Hw. unfold grip. by rewrite Hs, Hm1, Hw. Qed.

Section trace.
Context {W : Type} `{KernelLaws W} `{ElfEnv} `{CapstoneLaws}.
Implicit Types (s : St W) (orig : Z → option Z) (B : gset Z) (w : W).

(** ** The steps of a session *)

(** What [sdb_patch_all_bp] needs of the stopped program, and the program's own
    bytes after it: off every breakpoint, it does not move; on one, it executes
    the instruction it finds there. *)
Inductive ready orig s : (Z → option Z) → Prop :=
  | ready_clear : patchable orig id s → rip_clear id s → ready orig s orig
  | ready_over i bp si w' regs' :
      patchable orig id s → steps_off id s i bp si w' regs' →
      ready orig s (after orig (st_world si) w' (sdb_pid (st_sdb s))).

(** A command given while the program is there: [orig] are the program's own
    bytes before it, and after it. *)
Inductive turn orig s : (Z → option Z) → St W → Prop :=
  | turn_break addr_str addr i bp0 orig' s' :
      sdb_is_loaded (st_sdb s) = true → sdb_is_running (st_sdb s) = true →
      scan_llx (skip_0x addr_str) = Some addr →
      free_slot (breaks (st_sdb s)) 0 = Some i → breaks (st_sdb s) !! i = Some bp0 →
      (∀ j bj, used s j bj → 8 ≤ Z.abs (bp_addr bj - addr)) →
      ready orig (slot_set i addr (original_word bp0) s) orig' →
      sdb_set_break addr_str s = Ret (tt, s') → turn orig s orig' s'
  | turn_delete i bp s' :
      used s i bp → is_Some (ptrace_peek (st_world s) (sdb_pid (st_sdb s)) (bp_addr bp)) →
      orig (bp_addr bp) ≠ Some 0xcc →
      sdb_delete (Z.of_nat i) s = Ret (tt, s') → turn orig s orig s'
  | turn_cont orig1 s1 i bp w' regs fuel s' :
      sdb_is_running (st_sdb s) = true → ready orig s orig1 → sdb_patch_all_bp s = Ret (tt, s1) →
      runs_to id s1 i bp w' regs → sdb_cont (S fuel) s = Ret (tt, s') →
      turn orig s (after orig1 (st_world s1) w' (sdb_pid (st_sdb s1))) s'
  | turn_step c w1 r st w' regs' s' :
      sdb_is_running (st_sdb s) = true →
      ptrace_singlestep (st_world s) (sdb_pid (st_sdb s)) = (c, w1) → 0 ≤ c →
      sys_waitpid w1 (sdb_pid (st_sdb s)) = Some (r, st, w') → 0 ≤ r → went_on id s w' regs' →
      sdb_step s = Ret (tt, s') →
      turn orig s (after orig (st_world s) w' (sdb_pid (st_sdb s))) s'
  | turn_disasm t addr s0 s1 orig' s' :
      sdb_is_running (st_sdb s) = true → patchable orig id s →
      disasm_addr t s = Ret (Some addr, s0) →
      for_each (indices MAX_BREAK) restore_bp s0 = Ret (None, s1) → ready orig s1 orig' →
      sdb_disasm t s = Ret (tt, s') → turn orig s orig' s'
  | turn_set name v s' : sdb_set name v s = Ret (tt, s') → turn orig s orig s'
  | turn_look {A} (m : M (St W) A) a s' : looking m → m s = Ret (a, s') → turn orig s orig s'.

(** The tracee [p] is created in [s]. *)
Record spawns s p w0 r st w1 : Prop := {
  sp_loaded : sdb_is_loaded (st_sdb s) = true;
  sp_slots : length (breaks (st_sdb s)) = MAX_BREAK;
  sp_spaced : spaced id s;
  sp_fork : sys_fork (st_world s) = (p, w0);
  sp_parent : 0 < p;
  sp_wait : sys_waitpid w0 p = Some (r, st, w1);
  sp_stopped : 0 ≤ r;
  sp_view : view id (started s p (ptrace_setoptions w1 p)) }.

(** The states of a session: the program is started, or run up to a
    breakpoint, and then any number of commands. *)
Inductive session : (Z → option Z) → St W → Prop :=
  | session_start s p w0 r st w1 orig s' :
      spawns s p w0 r st w1 →
      let s0 := started s p (ptrace_setoptions w1 p) in
      ready (mem_at s0) s0 orig → sdb_start s = Ret (tt, s') → session orig s'
  | session_run s p w0 r st w1 orig s1 i bp w' regs fuel s' :
      spawns s p w0 r st w1 → sdb_is_running (st_sdb s) = false →
      let s0 := started s p (ptrace_setoptions w1 p) in
      ready (mem_at s0) s0 orig → sdb_patch_all_bp s0 = Ret (tt, s1) → runs_to id s1 i bp w' regs →
      sdb_run (S fuel) s = Ret (tt, s') → session (after orig (st_world s1) w' p) s'
  | session_turn orig s orig' s' : session orig s → turn orig s orig' s' → session orig' s'.

(** ** What holds throughout *)

(** [B] is planted: all the breakpoints but at most one. *)
Record shows orig s : Prop := {
  sh_inv : ∃ B a, bp_inv orig B id s ∧ used_addrs id s ∖ {[a]} ⊆ B;
  sh_saved : all_saved orig id s;
  sh_view : view id s }.

Lemma shows_planted orig s : bp_inv orig (used_addrs id s) id s → view id s → shows orig s.
Proof.
  intros Hinv Hv. split; [|by apply planted_saved|done]. exists (used_addrs id s), 0. set_solver.
Qed.
Lemma shows_stopped orig s a regs s' : stopped_at orig id s a regs s' → shows orig s'.
Proof.
  intros [Hinv Hv Hsv Hk _]. split; [|done..]. exists (used_addrs id s ∖ {[a]}), a.
  by rewrite (used_addrs_keys id s s').
Qed.
Lemma shows_grip orig s s' : grip s' = grip s → shows orig s → shows orig s'.
Proof.
  intros [= Eb Ep Eh Epath Em Ew] [(B & a & [Hl Hm Hsub Hsv Hsp] & HB) Hall Hv].
  assert (∀ i bp, used s' i bp ↔ used s i bp) as Hu by (intros; unfold used; by rewrite Eb).
  assert (used_addrs id s' = used_addrs id s) as Ha by (unfold used_addrs; by rewrite Eb).
  split.
  - exists B, a. rewrite Ha. split; [|done]. split; rewrite ?Eb, ?Ha; [done| |done| |].
    + intros b. unfold mem_at. rewrite Ew, Ep. apply Hm.
    + intros i bp k Hi. exact (Hsv i bp k (proj1 (Hu _ _) Hi)).
    + intros i j bi bj Hi Hj. exact (Hsp i j bi bj (proj1 (Hu _ _) Hi) (proj1 (Hu _ _) Hj)).
  - intros i bp k Hi. exact (Hall i bp k (proj1 (Hu _ _) Hi)).
  - apply (view_frame id s); try done. by rewrite Ew.
Qed.

(** ** Each step keeps it *)

Lemma ready_patch orig orig' B s :
  bp_inv orig B id s → view id s → ready orig s orig' →
  wp sdb_patch_all_bp (λ _ s', bp_inv orig' (used_addrs id s') id s' ∧ view id s' ∧
    slot_key <$> breaks (st_sdb s') = slot_key <$> breaks (st_sdb s) ∧
    sdb_pid (st_sdb s') = sdb_pid (st_sdb s)) s.
Proof.
  intros Hinv Hv [Hp Hr|i bp si w' regs' Hp Hso].
  - eapply wp_mono; [by eapply patch_all_spec|]. intros [] s' [Hinv' Hs].
    rewrite (used_addrs_same _ _ _ Hs). split_and!; [done|by eapply view_same|apply Hs..].
  - destruct (before_step _ _ _ _ _ _ _ _ _ Hinv Hv Hp Hso) as (Hs & _).
    eapply wp_mono; [by eapply steps_over|]. intros [] s' [Hinv' Hs'].
    pose proof (sbs_slots _ _ Hs') as Hk. cbn in Hk. rewrite (sbs_slots _ _ Hs) in Hk.
    rewrite (used_addrs_keys id s s') by done. split_and!; [done| |done|].
    + eapply view_same; [exact Hs'|]. by destruct (so_step _ _ _ _ _ _ _ Hso) as (? & ? & ? & ? & _ & _ & _ & []).
    + etransitivity; [exact (sbs_pid _ _ Hs')|]. apply Hs.
Qed.

Lemma wp_elim {A} (m : M (St W) A) Q s a s' : wp m Q s → m s = Ret (a, s') → Q a s'.
Proof. unfold wp. intros Hw E. by rewrite E in Hw. Qed.

Lemma wp_if_elim {A} b (m : M (St W) A) Q s a s' : wp_if b m Q s → m s = Ret (a, s') → Q a s'.
Proof. destruct b; [apply wp_elim|]. cbn. congruence. Qed.

Lemma shows_break orig s addr_str addr i bp0 orig' s' :
  shows orig s → sdb_is_loaded (st_sdb s) = true → sdb_is_running (st_sdb s) = true →
  scan_llx (skip_0x addr_str) = Some addr →
  free_slot (breaks (st_sdb s)) 0 = Some i → breaks (st_sdb s) !! i = Some bp0 →
  (∀ j bj, used s j bj → 8 ≤ Z.abs (bp_addr bj - addr)) →
  ready orig (slot_set i addr (original_word bp0) s) orig' →
  sdb_set_break addr_str s = Ret (tt, s') → shows orig' s'.
Proof.
  intros [(B & a & Hinv & _) _ Hv] Hl Hr Hscan Hfree Hi Hsp Hready E.
  rewrite (set_break_eq addr_str addr i bp0), Hr in E by done.
  pose proof (free_slot_spec (breaks (st_sdb s)) 0) as Hslot. rewrite Hfree, Nat.sub_0_r in Hslot.
  destruct Hslot as (_ & (b & Hb & Hu) & _). rewrite Hi in Hb. injection Hb as <-.
  destruct (slot_set_inv orig B id i addr (original_word bp0) s bp0) as [Hinv1 _]; [done..|].
  assert (view id (slot_set i addr (original_word bp0) s)) as Hv1 by (by apply (view_frame id s)).
  destruct (wp_elim _ _ _ _ _ (ready_patch _ _ _ _ Hinv1 Hv1 Hready) E) as (Hinv' & Hv' & _).
  by apply shows_planted.
Qed.

Lemma shows_delete orig s i bp s' :
  shows orig s → used s i bp → is_Some (ptrace_peek (st_world s) (sdb_pid (st_sdb s)) (bp_addr bp)) →
  orig (bp_addr bp) ≠ Some 0xcc → sdb_delete (Z.of_nat i) s = Ret (tt, s') → shows orig s'.
Proof.
  intros [(B & a & Hinv & HB) Hsv Hv] Hu Hx Hcc E.
  destruct (wp_elim _ _ _ _ _ (delete_spec orig B s i bp Hinv Hu Hx Hcc) E) as (Hinv' & Ha & _ & Hsub & Hv').
  split; [|intros j bj k Hj; exact (Hsv j bj k (Hsub j bj Hj))|by apply Hv'].
  exists (B ∖ {[bp_addr bp]}), a. split; [done|]. rewrite Ha. set_solver.
Qed.

Lemma shows_cont orig orig1 s s1 i bp w' regs fuel s' :
  shows orig s → sdb_is_running (st_sdb s) = true → ready orig s orig1 → sdb_patch_all_bp s = Ret (tt, s1) →
  runs_to id s1 i bp w' regs → sdb_cont (S fuel) s = Ret (tt, s') →
  shows (after orig1 (st_world s1) w' (sdb_pid (st_sdb s1))) s'.
Proof.
  intros [(B & a & Hinv & _) _ Hv] Hr Hready Ep Hto E.
  destruct (wp_elim _ _ _ _ _ (ready_patch _ _ _ _ Hinv Hv Hready) Ep) as (Hinv1 & _ & Hk & _).
  pose proof (used_addrs_keys id s s1 Hk) as Ha. rewrite Ha in Hinv1. eapply shows_stopped.
  exact (wp_if_elim _ _ _ _ _ _ (cont_from_patched orig1 id s s1 i bp w' regs fuel Hr Ep Hinv1 Hk Ha Hto) E).
Qed.

Lemma shows_step orig s c w1 r st w' regs' s' :
  shows orig s → sdb_is_running (st_sdb s) = true →
  ptrace_singlestep (st_world s) (sdb_pid (st_sdb s)) = (c, w1) → 0 ≤ c →
  sys_waitpid w1 (sdb_pid (st_sdb s)) = Some (r, st, w') → 0 ≤ r → went_on id s w' regs' →
  sdb_step s = Ret (tt, s') → shows (after orig (st_world s) w' (sdb_pid (st_sdb s))) s'.
Proof.
  intros [(B & a & Hinv & HB) Hsv Hv] Hrun Hs Hc Hw Hr Hgo E.
  assert (wp sdb_step (λ _ s', s' = on_world w' s) s) as Hstep.
  { unfold sdb_step. apply wp_bind, wp_get_sdb. rewrite Hrun. cbn [negb].
    apply wp_bind. eapply wp_singlestep; [done|]. rewrite (proj2 (Z.ltb_ge c 0)) by done.
    apply wp_bind. eapply wp_waitpid; [done|]. rewrite (proj2 (Z.ltb_ge r 0)) by done. by apply wp_ret. }
  rewrite (wp_elim _ _ _ _ _ Hstep E). split.
  - exists B, a. split; [by eapply bp_inv_after|done].
  - intros i bp k Hu Hk. change (used s i bp) in Hu.
    rewrite (after_same orig id s w' regs'); [by apply (Hsv i)|done|by eapply used_in_addrs|done].
  - apply Hgo.
Qed.

Lemma shows_set orig s name v s' : shows orig s → sdb_set name v s = Ret (tt, s') → shows orig s'.
Proof.
  intros [(B & a & Hinv & HB) Hsv Hv] E.
  assert (∃ es c r w, ptrace_setregs (st_world s) (sdb_pid (st_sdb s)) r = (c, w) ∧
    s' = on_outs es (on_world w s)) as (es & c & r & w & Hset & ->).
  { unfold sdb_set in E. apply bind_inv in E as (o & s1 & E1 & E). rewrite getregs_eq in E1.
    injection E1 as <- <-. destruct (ptrace_getregs _ _) as [regs|]; [|discriminate E].
    unfold read_init, setregs, pid, world, get_sdb, gets, mbind, M_bind, mret, M_ret in E.
    destruct (ptrace_setregs _ _ _) as [c w] eqn:Hset. destruct (negb (c =? 0)); injection E as <-.
    - exists [Stdout ("Failed to set regs" +:+ newline)], c, (foldl (set_if_matched name v) regs reg_list), w. split; [exact Hset|done].
    - exists [], c, (foldl (set_if_matched name v) regs reg_list), w. split; [exact Hset|by rewrite on_outs_nil]. }
  split.
  - exists B, a. split; [|done]. eapply bp_inv_bytes; [| |exact Hinv]; [done|].
    intros b. unfold mem_at; simpl. by eapply setregs_bytes.
  - done.
  - apply (view_frame id s); try done. intros p. by eapply setregs_files.
Qed.
(** *** disasm *)

Lemma grip_printf fmt args : frame grip (printf fmt args : M (St W) unit).
Proof. apply looking_grip, looks_printf. Qed.
Lemma grip_puts t : frame grip (puts t : M (St W) unit).
Proof. apply looking_grip, looks_puts. Qed.
Lemma grip_get_sdb : frame grip (get_sdb : M (St W) SDB).
Proof. apply looking_grip, looks_get_sdb. Qed.
Lemma grip_insn_bytes i : frame grip (insn_bytes_str i : M (St W) string).
Proof. apply looking_grip, looks_insn_bytes_str. Qed.
Lemma grip_last (g : SDB → Z) : frame grip (put_sdb (λ d, with_last (g d) d) : M (St W) unit).
Proof. intros s a s' E. by injection E as <- <-. Qed.
Lemma grip_last_const a : frame grip (put_sdb (with_last a) : M (St W) unit).
Proof. apply (grip_last (λ _, a)). Qed.
#[local] Hint Resolve grip_printf grip_puts grip_get_sdb grip_insn_bytes grip_last grip_last_const : frame.

Lemma grip_disasm_addr t : frame grip (disasm_addr t : M (St W) (option Z)).
Proof. unfold disasm_addr. frame. Qed.
Lemma grip_print_disasm b a : frame grip (print_disasm b a : M (St W) unit).
Proof. unfold print_disasm, print_insn. frame. Qed.

Lemma same_peek_opt a : frame (λ x, x) (peek_opt a : M (St W) (option Z)).
Proof. intros s v s' E. unfold peek_opt, pid, get_sdb, gets, get, mbind, M_bind, mret, M_ret in E. by injection E as _ <-. Qed.
#[local] Hint Resolve same_peek_opt : frame.
Lemma same_peek_words n addr limit ptr b : frame (λ x, x) (peek_words n addr limit ptr b : M (St W) (list Z * Z)).
Proof. revert ptr b. induction n as [|n IH]; intros ptr b; cbn [peek_words]; frame. Qed.

Lemma shows_disasm orig s t addr s0 s1 orig' s' :
  shows orig s → sdb_is_running (st_sdb s) = true → patchable orig id s →
  disasm_addr t s = Ret (Some addr, s0) →
  for_each (indices MAX_BREAK) restore_bp s0 = Ret (None, s1) → ready orig s1 orig' →
  sdb_disasm t s = Ret (tt, s') → shows orig' s'.
Proof.
  intros Hsh Hrun Hp E0 E1 Hready E. pose proof (grip_disasm_addr _ _ _ _ E0) as Hg.
  destruct (shows_grip _ _ _ Hg Hsh) as [(B & a & Hinv & _) Hsv Hv].
  assert (all_readable id s0) as Hread.
  { intros i bp Hu. injection Hg as Eb Ep _ _ _ Ew. rewrite Ew, Ep. apply (Hp i bp). unfold used. by rewrite <-Eb. }
  destruct (wp_elim _ _ _ _ _ (restore_all orig B s0 Hinv Hsv Hread) E1) as (_ & Hs & Hb & Hinv1).
  unfold sdb_disasm in E. rewrite (bind_Ret _ _ _ _ _ E0) in E. cbv beta iota in E.
  apply bind_inv in E as (b & s4 & E2 & E). unfold disasm_bytes in E2. rewrite get_sdb_bind in E2.
  assert (sdb_is_running (st_sdb s0) = true) as Hrun0.
  { injection Hg as _ Ep _ _ _ _. unfold sdb_is_running. by rewrite Ep. }
  rewrite Hrun0 in E2. cbn [negb] in E2. rewrite (bind_Ret _ _ _ _ _ E1) in E2.
  apply bind_inv in E2 as ([buffer ptr] & s2 & Epk & E2). apply same_peek_words in Epk. cbn in Epk. subst s2.
  apply bind_inv in E2 as ([] & s3 & Epa & E2). injection E2 as <- <-.
  destruct (wp_elim _ _ _ _ _ (ready_patch orig orig' ∅ s1 Hinv1 (view_same _ _ _ Hs Hv) Hready) Epa)
    as (Hinv3 & Hv3 & _).
  eapply shows_grip; [by eapply grip_print_disasm|]. by apply shows_planted.
Qed.

Lemma turn_shows orig s orig' s' : shows orig s → turn orig s orig' s' → shows orig' s'.
Proof.
  intros Hs [].
  - by eapply shows_break.
  - by eapply shows_delete.
  - by eapply shows_cont.
  - by eapply shows_step.
  - by eapply shows_disasm.
  - by eapply shows_set.
  - eapply shows_grip; [|done]. by eapply looking_grip.
Qed.

(** ** Where a session starts *)

Lemma bp_inv_started s p w0 r st w1 :
  spawns s p w0 r st w1 →
  bp_inv (mem_at (started s p (ptrace_setoptions w1 p))) ∅ id (started s p (ptrace_setoptions w1 p)).
Proof. intros []. by apply bp_inv_fresh. Qed.

Lemma shows_start s p w0 r st w1 orig s' :
  spawns s p w0 r st w1 → let s0 := started s p (ptrace_setoptions w1 p) in
  ready (mem_at s0) s0 orig → sdb_start s = Ret (tt, s') → shows orig s'.
Proof.
  intros Hsp s0 Hready E. pose proof (bp_inv_started _ _ _ _ _ _ Hsp) as Hinv. fold s0 in Hinv.
  destruct Hsp as [Hl _ _ Hf Hp Hw Hr Hv]. fold s0 in Hv.
  assert (wp sdb_start (λ _ s', shows orig s') s) as Hwp; [|exact (wp_elim _ _ _ _ _ Hwp E)].
  unfold sdb_start. apply wp_bind, wp_get_sdb. rewrite Hl. cbn [negb]. apply wp_bind.
  eapply wp_spawn; [done..|]. fold s0. cbv beta iota.
  eapply wp_mono; [by eapply ready_patch|]. intros [] s1 (Hi & Hv1 & _). by apply shows_planted.
Qed.

Lemma shows_run s p w0 r st w1 orig s1 i bp w' regs fuel s' :
  spawns s p w0 r st w1 → sdb_is_running (st_sdb s) = false →
  let s0 := started s p (ptrace_setoptions w1 p) in
  ready (mem_at s0) s0 orig → sdb_patch_all_bp s0 = Ret (tt, s1) → runs_to id s1 i bp w' regs →
  sdb_run (S fuel) s = Ret (tt, s') → shows (after orig (st_world s1) w' p) s'.
Proof.
  intros Hsp Hrun s0 Hready Ep Hto E. pose proof (bp_inv_started _ _ _ _ _ _ Hsp) as Hinv. fold s0 in Hinv.
  destruct Hsp as [Hl _ _ Hf Hp Hw Hr Hv]. fold s0 in Hv.
  destruct (wp_elim _ _ _ _ _ (ready_patch _ _ _ _ Hinv Hv Hready) Ep) as (Hinv1 & _ & _ & Hpid).
  change (sdb_pid (st_sdb s0)) with p in Hpid. rewrite <-Hpid.
  pose proof (run_from_patched _ id s p w0 r st w1 s1 i bp w' regs fuel Hl Hrun Hf Hp Hw Hr Ep Hinv1 Hto) as Hend.
  destruct (wp_if_elim _ _ _ _ _ _ Hend E) as [Hst _]. by eapply shows_stopped.
Qed.

Lemma session_shows_inv orig s : session orig s → shows orig s.
Proof. induction 1; [by eapply shows_start|by eapply shows_run|by eapply turn_shows]. Qed.

(** C2. Through a whole session - the program started or run, then breakpoints
    set and deleted, cont, si, registers written, disasm and the commands that
    only look, in any order - the tracee shows the program's own bytes
    everywhere but for 0xcc at breakpoints that are set, and every breakpoint
    that is set is planted but at most one.  What the program wrote itself is
    part of its own bytes.  Breakpoints are set a word apart, in readable words
    without an int3 of the program's own; cont and run come to a breakpoint,
    with a report that fits its arrays, since they return. *)
Theorem session_shows orig s :
  session orig s →
  (∀ b, mem_at s b = orig b ∨ mem_at s b = Some 0xcc ∧ b ∈ used_addrs id s) ∧
  (∃ a, ∀ b, b ∈ used_addrs id s → b ≠ a → mem_at s b = Some 0xcc) ∧
  (∀ i bp k, used s i bp → 0 ≤ k < 8 → orig (bp_addr bp + k) = Some (byte_of (original_word bp) k)).
Proof.
  intros [(B & a & Hinv & HB) Hsv _]%session_shows_inv. split_and!; [| |exact Hsv].
  - intros b. rewrite (inv_mem _ _ _ _ Hinv). unfold overlay. case_decide as Hb; [|by left].
    right. split; [done|]. by apply (inv_sub _ _ _ _ Hinv).
  - exists a. intros b Hb Hne. rewrite (inv_mem _ _ _ _ Hinv). unfold overlay.
    rewrite decide_True; [done|]. set_solver.
Qed.
End trace.
