(* ===== verification/SdbExamples.v ===== *)
(** * sdb on a concrete program

    The loader's toy file and the toy kernel put together: one traced process
    with its text at 0x400000, breakpoints set and planted.  The theorems
    about sdb are applied to it. *)
From S2P Require Import Prelude Libc Elftool ToyElf Kernel ToyKernel.
From S2P Require Import SdbState SdbBreak SdbRun SdbSession SdbInspect SdbMaps SdbMain SdbInv.

#[local] Instance ex_env : ElfEnv := toy_elf 2.

(** Every byte is an instruction of one byte. *)
#[local] Instance ex_disasm : Capstone := λ bytes a,
  imap (λ i b, CsInsn (a + Z.of_nat i) 1 [b mod 256] "byte" "") bytes.

Definition ex_path : string := "a.out".

#[local] Instance ex_disasm_laws : CapstoneLaws.
Proof.
  split; intros code a insn Hin; apply list_elem_of_lookup in Hin as [i Hi];
    unfold cs_disasm, ex_disasm in Hi; rewrite list_lookup_imap in Hi;
    apply fmap_Some_1 in Hi as (b & _ & ->); simpl; [|lia].
  constructor; [|constructor]. apply Z.mod_pos_bound. lia.
Qed.

(** What [sdb_load "a.out"] leaves in memory. *)
Definition ex_heap : option loc * cmem :=
  match (p ← elf_open ex_path; l ← deref p; elf_load_all l ≫= λ _, mret p) empty_mem with
  | Ret x => x
  | _ => (None, empty_mem)
  end.

Definition ex_regs : user_regs := rset RIP 0x400010 (UserRegs 1 2 3 4 5 6 7 8 9 10 11 12 13 14 15 16 17 18 []).

(** 128 bytes of text at 0x400000. *)
Definition ex_bytes : gmap Z Z :=
  list_to_map (imap (λ i b, (0x400000 + Z.of_nat i, b)) (toy_text ++ repeat 0x90 112)).

Definition ex_map : mapping := Mapping 0x400000 0x401000 "r-xp" 0 "08:01" "42" 10 "/bin/a.out".

Definition ex_world : toy :=
  Toy 77 ex_bytes ex_regs [] {[ "/proc/77/maps" := [render ex_map] ]} {[ ex_path := toy_image ]}.

Definition ex_slots (bs : list bp_t) : list bp_t := bs ++ repeat (Bp false 0 0) (MAX_BREAK - length bs).

(** sdb with the breakpoints [bs], on the process [pid] of the world [w]. *)
Definition ex_state (pid : Z) (bs : list bp_t) (w : toy) : St toy :=
  State (Sdb (fst ex_heap) None ex_path pid (ex_slots bs) 0) (snd ex_heap) [] w.

Example ex_loaded : fst ex_heap ≠ None.
Proof. vm_compute. discriminate. Qed.

Lemma ex_view pid bs w : view id (ex_state pid bs w).
Proof. intros a. vm_compute. reflexivity. Qed.

(** ** Reading the example's slots *)

Lemma used_slots bs (s : St toy) i bp :
  breaks (st_sdb s) = ex_slots bs → used s i bp → bs !! i = Some bp.
Proof.
  intros E [Hi Hu]. rewrite E in Hi. unfold ex_slots in Hi.
  apply lookup_app_Some in Hi as [Hi|[_ Hi]]; [done|].
  apply list_elem_of_lookup_2, list_elem_of_In, repeat_spec in Hi. by subst.
Qed.

Lemma used_ex pid bs w i bp : used (ex_state pid bs w) i bp → bs !! i = Some bp.
Proof. by apply used_slots. Qed.

Lemma used_ex_intro pid bs w i bp :
  bs !! i = Some bp → is_used bp = true → used (ex_state pid bs w) i bp.
Proof. intros Hi Hu. split; [|done]. simpl. by apply lookup_app_l_Some. Qed.

(** Every used slot of a concrete table, one goal each. *)
Ltac each_slot H :=
  apply used_ex in H;
  repeat first
    [ discriminate H | match type of H with _ !! ?i = _ => destruct i; discriminate H end
    | match type of H with (_ :: _) !! ?i = _ => destruct i as [|i]; cbn [lookup list_lookup] in H end ];
  try (injection H as <-).

Definition ex_one : list bp_t := [Bp true 0x400004 0].
Definition ex_two : list bp_t := [Bp true 0x400004 0; Bp true 0x40000c 0].

Lemma ex_two_spaced pid w : spaced id (ex_state pid ex_two w).
Proof. intros i j bi bj Hi Hj Hij. unfold ex_two in *. each_slot Hi; each_slot Hj; done. Qed.
Lemma ex_one_spaced pid w : spaced id (ex_state pid ex_one w).
Proof. intros i j bi bj Hi Hj Hij. unfold ex_one in *. each_slot Hi; each_slot Hj; done. Qed.

(** The first breakpoint planted; the second was, and was lifted when it was hit. *)
Definition ex_planted : list bp_t :=
  [Bp true 0x400004 0x90c3c031c35d9090; Bp true 0x40000c 0x9090909090909090].
Definition ex_world_hit (script : list (Z * user_regs)) (regs : user_regs) : toy :=
  Toy 77 (<[0x400004 := 0xcc]> ex_bytes) regs script (ty_text ex_world) (ty_files ex_world).
Definition ex_world_planted : toy := ex_world_hit [] ex_regs.

Lemma ex_saved : ptrace_peek ex_world 77 0x400004 = Some 0x90c3c031c35d9090.
Proof. vm_compute. reflexivity. Qed.

Lemma ex_saved2 : ptrace_peek ex_world 77 0x40000c = Some 0x9090909090909090.
Proof. vm_compute. reflexivity. Qed.

(** The program's own bytes. *)
Definition ex_orig (b : Z) : option Z := tbyte ex_world 77 b.

Lemma mem_at_ex bs m r sc tx fl b :
  mem_at (ex_state 77 bs (Toy 77 m r sc tx fl)) b = (λ z, z mod 256) <$> m !! b.
Proof. reflexivity. Qed.

Lemma ex_planted_inv script regs :
  bp_inv ex_orig {[0x400004]} id (ex_state 77 ex_planted (ex_world_hit script regs)).
Proof.
  split.
  - reflexivity.
  - intros b. unfold ex_world_hit. rewrite mem_at_ex. unfold overlay.
    destruct (decide (b ∈ _)) as [->%elem_of_singleton|Hb].
    + by rewrite lookup_insert_eq.
    + rewrite lookup_insert_ne; [reflexivity|].
      intros <-. by apply Hb, elem_of_singleton.
  - intros b ->%elem_of_singleton. apply elem_of_used_addrs. eexists 0%nat, _.
    split; [by apply used_ex_intro|done].
  - intros i bp k Hu HB Hk. unfold ex_planted in Hu. each_slot Hu.
    + by apply (peek_bytes ex_world 77 0x400004 _ k ex_saved).
    + apply elem_of_singleton in HB. discriminate HB.
  - intros i j bi bj Hi Hj Hij. unfold ex_planted in *. each_slot Hi; each_slot Hj; done.
Qed.

Lemma is_Some_by {A} (o : option A) : bool_decide (is_Some o) = true → is_Some o.
Proof. apply bool_decide_eq_true_1. Qed.

Definition ex_s : St toy := ex_state 77 ex_planted ex_world_planted.

Lemma ex_patchable : patchable ex_orig id ex_s.
Proof.
  intros i bp Hu. change ex_s with (ex_state 77 ex_planted ex_world_planted) in Hu.
  unfold ex_planted in Hu. each_slot Hu; (split; [apply is_Some_by; vm_compute; reflexivity|vm_compute; discriminate]).
Qed.

Lemma ex_rip_clear : rip_clear id ex_s.
Proof.
  exists ex_regs. split; [reflexivity|].
  intros (i & bp & Hu & E)%elem_of_used_addrs.
  change ex_s with (ex_state 77 ex_planted ex_world_planted) in Hu. unfold ex_planted in Hu.
  each_slot Hu; discriminate E.
Qed.

(** ** Breakpoints *)

Lemma patch_all_overlay_witness :
  wp sdb_patch_all_bp
    (λ _ s', bp_inv ex_orig (used_addrs id ex_s) id s' ∧
             same_but_saved ex_s s')
    ex_s.
Proof.
  apply (patch_all_overlay ex_orig {[0x400004]} id ex_s).
  - apply ex_planted_inv.
  - apply ex_view.
  - apply ex_patchable.
  - apply ex_rip_clear.
Defined.

Lemma delete_restores_witness :
  wp (sdb_delete (Z.of_nat 0))
    (λ _ s', bp_inv ex_orig ({[0x400004]} ∖ {[0x400004]}) id s' ∧
       used_addrs id s' = used_addrs id ex_s ∖ {[0x400004]} ∧
       ∃ t, st_out s' = st_out ex_s ++ [Stdout t] ∧ format ("** breakpoint %d deleted." +:+ newline) [AInt (Z.of_nat 0)] = Some t)
    ex_s.
Proof.
  apply (delete_restores ex_orig {[0x400004]} ex_s 0 (Bp true 0x400004 0x90c3c031c35d9090)).
  - apply ex_planted_inv.
  - by apply used_ex_intro.
  - apply is_Some_by. vm_compute. reflexivity.
  - vm_compute. discriminate.
Defined.

Lemma set_break_full_undefined_witness :
  sdb_set_break "0x400008" (ex_state 77 (repeat (Bp true 0x400004 0) MAX_BREAK) ex_world) = Undef Uninit.
Proof.
  apply (set_break_full_undefined _ 0x400008).
  - reflexivity.
  - reflexivity.
  - intros i bp Hi. change (repeat (Bp true 0x400004 0) MAX_BREAK !! i = Some bp) in Hi.
    apply list_elem_of_lookup_2, list_elem_of_In, repeat_spec in Hi. by subst.
Defined.

Definition ex_three (word : Z) : list bp_t := ex_planted ++ [Bp true 0x400020 word].

Lemma ex_slot_set word : slot_set 2 0x400020 word ex_s = ex_state 77 (ex_three word) ex_world_planted.
Proof. reflexivity. Qed.

Definition ex_idle (bs : list bp_t) : St toy := ex_state (-1) bs ex_world.

Lemma ex_idle_inv : bp_inv (λ _, None) ∅ id (ex_idle ex_two).
Proof.
  split; [reflexivity|done|set_solver| |apply ex_two_spaced]. intros i bp k _ []%not_elem_of_empty.
Qed.

Lemma set_break_adds_witness :
  wp (sdb_set_break "0x400020")
    (λ _ s', used_addrs id s' = {[0x400020]} ∪ used_addrs id ex_s ∧
       slot_key <$> breaks (st_sdb s') = <[2%nat := (true, 0x400020)]> (slot_key <$> breaks (st_sdb ex_s)) ∧
       bp_inv ex_orig ({[0x400020]} ∪ used_addrs id ex_s) id s') ex_s ∧
  wp (sdb_set_break "0x10")
    (λ _ s', used_addrs id s' = {[0x10]} ∪ used_addrs id (ex_idle ex_two) ∧
       slot_key <$> breaks (st_sdb s')
         = <[2%nat := (true, 0x10)]> (slot_key <$> breaks (st_sdb (ex_idle ex_two))) ∧
       bp_inv (λ _, None) ∅ id s' ∧ ∃ word, s' = slot_set 2 0x10 word (ex_idle ex_two)) (ex_idle ex_two).
Proof.
  split.
  - apply (set_break_adds ex_orig {[0x400004]} id "0x400020" 0x400020 2 ex_s).
    + apply ex_planted_inv.
    + reflexivity.
    + reflexivity.
    + reflexivity.
    + intros j bj Hj. change ex_s with (ex_state 77 ex_planted ex_world_planted) in Hj.
      unfold ex_planted in Hj. each_slot Hj; done.
    + intros _. split; [apply ex_view|]. intros word. rewrite ex_slot_set. split.
      * intros j bj Hj. unfold ex_three, ex_planted in Hj. cbn [app] in Hj.
        each_slot Hj; (split; [apply is_Some_by; vm_compute; reflexivity|vm_compute; discriminate]).
      * exists ex_regs. split; [reflexivity|].
        intros (j & bj & Hj & E)%elem_of_used_addrs. unfold ex_three, ex_planted in Hj. cbn [app] in Hj.
        each_slot Hj; discriminate E.
  - apply (set_break_adds (λ _, None) ∅ id "0x10" 0x10 2 (ex_idle ex_two)).
    + apply ex_idle_inv.
    + reflexivity.
    + reflexivity.
    + reflexivity.
    + intros j bj Hj. unfold ex_idle, ex_two in Hj. each_slot Hj; done.
    + discriminate.
Defined.

(** ** Resuming *)

Lemma insn_bytes_str_bound_witness :
  insn_bytes_str (CsInsn 0 7 [0x48; 0x8b; 0x3d; 0; 0; 0; 0] "mov" "rdi, [rip]") ex_s = Undef OutOfBounds.
Proof.
  apply (insn_bytes_str_bound (CsInsn 0 7 [0x48; 0x8b; 0x3d; 0; 0; 0; 0] "mov" "rdi, [rip]") ex_s).
  - simpl. repeat (constructor; [lia|]). constructor.
  - simpl. lia.
Defined.

(** The stop [waitpid] reports: the program ran into the planted byte. *)
Definition ex_hit_regs : user_regs := rset RIP 0x400005 ex_regs.
Definition ex_before_hit : St toy := ex_state 77 ex_planted (ex_world_hit [(0x57f, ex_hit_regs)] ex_regs).

Lemma wait_loop_hit_witness :
  wp (wait_loop 1 None)
    (λ o s', o = inl tt ∧
       hit_post ex_orig {[0x400004]} id 0x400004 ex_hit_regs ex_before_hit s')
    ex_before_hit.
Proof.
  apply (wp_if_true (reportable 0 (own_insns ex_orig 0x400004))); [vm_compute; reflexivity|].
  apply (wait_loop_hit ex_orig {[0x400004]} id 0 (Bp true 0x400004 0x90c3c031c35d9090) ex_hit_regs
    ex_before_hit 0 None 77 0x57f (ex_world_hit [] ex_hit_regs)).
  - reflexivity.
  - lia.
  - reflexivity.
  - split.
    + apply (ex_planted_inv [] ex_hit_regs).
    + exact (ex_view 77 ex_planted (ex_world_hit [] ex_hit_regs)).
    + by apply used_ex_intro.
    + by apply elem_of_singleton.
    + apply is_Some_by. vm_compute. reflexivity.
    + reflexivity.
    + reflexivity.
    + vm_compute. reflexivity.
Defined.

(** The program runs and stops at the first breakpoint. *)
Definition ex_to_run : St toy := ex_state 77 ex_planted (ex_world_hit [(0x57f, ex_hit_regs)] ex_regs).
Definition ex_replanted : St toy :=
  match sdb_patch_all_bp ex_to_run with Ret (_, s) => s | _ => ex_to_run end.
Definition ex_stopped : toy :=
  match sys_waitpid (st_world ex_replanted) 77 with Some (_, _, w) => w | None => ex_world end.

(** The toy kernel's program stops at the next entry of the script, having
    written nothing. *)
Lemma ex_went_on bs (s : St toy) w' regs :
  breaks (st_sdb s) = ex_slots bs →
  (∀ b, tbyte w' (sdb_pid (st_sdb s)) b = tbyte (st_world s) (sdb_pid (st_sdb s)) b) →
  view id (on_world w' s) →
  (∀ i bp, bs !! i = Some bp → is_Some (ptrace_peek w' (sdb_pid (st_sdb s)) (bp_addr bp))) →
  ptrace_getregs w' (sdb_pid (st_sdb s)) = Some regs → went_on id s w' regs.
Proof.
  intros Hb Hm Hv Hp Hr. split; [done|done| |done].
  intros i bp Hu. by apply (Hp i), (used_slots bs s).
Qed.

(** Both breakpoints of the example are in the text. *)
Ltac ex_mapped :=
  let i := fresh in let H := fresh in
  intros i ? H; destruct i as [|[|i]]; [| |discriminate H]; injection H as <-;
  apply is_Some_by; vm_compute; reflexivity.

Lemma ex_runs_to : runs_to id ex_replanted 0 (Bp true 0x400004 0x90c3c031c35d9090) ex_stopped ex_hit_regs.
Proof.
  split.
  - split; vm_compute; reflexivity.
  - exists 0, (st_world ex_replanted), 77, 0x57f. split_and!; vm_compute; reflexivity.
  - apply (ex_went_on ex_planted); [vm_compute; reflexivity|done|intros x; vm_compute; reflexivity| |vm_compute; reflexivity].
    ex_mapped.
  - vm_compute. reflexivity.
  - vm_compute. reflexivity.
Qed.

Lemma cont_stops_at_breakpoint_witness :
  wp (sdb_cont 1)
    (λ _ s', stopped_at (after ex_orig (st_world ex_replanted) ex_stopped 77) id ex_to_run 0x400004 ex_hit_regs s')
    ex_to_run.
Proof.
  apply (wp_if_true (reportable 0 (own_insns ex_orig 0x400004))); [vm_compute; reflexivity|].
  apply (cont_stops_at_breakpoint ex_orig {[0x400004]} id ex_to_run ex_replanted 0
    (Bp true 0x400004 0x90c3c031c35d9090) ex_stopped ex_hit_regs 0).
  - reflexivity.
  - apply ex_planted_inv.
  - apply ex_view.
  - exact ex_patchable.
  - exact ex_rip_clear.
  - vm_compute. reflexivity.
  - exact ex_runs_to.
Defined.

(** The program on its second breakpoint, which was lifted when it was hit: one
    step, then the first breakpoint. *)
Definition ex_second_regs : user_regs := rset RIP 0x40000c ex_regs.
Definition ex_next_regs : user_regs := rset RIP 0x40000d ex_regs.
Definition ex_on_second : St toy :=
  ex_state 77 ex_planted (ex_world_hit [(0x57f, ex_next_regs); (0x57f, ex_hit_regs)] ex_second_regs).
Definition ex_run_from {A} (m : M (St toy) A) (s : St toy) : St toy := match m s with Ret (_, s') => s' | _ => s end.
Definition ex_report (s : St toy) : toy :=
  match sys_waitpid (st_world s) 77 with Some (_, _, w) => w | None => st_world s end.
Definition ex_at_second : St toy := ex_run_from (for_each (seq 0 1) patch_bp) ex_on_second.
Definition ex_over_second : St toy := ex_run_from sdb_patch_all_bp ex_on_second.

Lemma ex_steps_off :
  steps_off id ex_on_second 1 (Bp true 0x40000c 0x9090909090909090) ex_at_second (ex_report ex_at_second) ex_next_regs.
Proof.
  split.
  - split; vm_compute; reflexivity.
  - exists ex_second_regs. split; vm_compute; reflexivity.
  - vm_compute. reflexivity.
  - exists 0, (st_world ex_at_second), 77, 0x57f. split_and!; [vm_compute; reflexivity..|lia|].
    apply (ex_went_on ex_planted); [vm_compute; reflexivity|done|intros x; vm_compute; reflexivity| |vm_compute; reflexivity].
    ex_mapped.
  - intros k bk Hk Hlt. apply (used_slots ex_planted) in Hk; [|done].
    destruct k as [|[|k]]; [lia|lia|discriminate Hk].
Qed.

Lemma ex_off_second :
  bp_inv ex_orig {[0x400004]} id ex_on_second ∧ view id ex_on_second ∧ patchable ex_orig id ex_on_second.
Proof. split_and!; [apply ex_planted_inv|apply ex_view|exact ex_patchable]. Qed.

(** The one that is planted. *)
Definition ex_first : gset Z := {[0x400004]}.

Lemma patch_all_steps_over_witness :
  (∀ k, 0 ≤ k < 8 → mem_at ex_at_second (0x40000c + k)
     = overlay ex_orig (ex_first ∩ {[0x40000c]}) (0x40000c + k)) ∧
  wp sdb_patch_all_bp (λ _ s',
    bp_inv (after ex_orig (st_world ex_at_second) (ex_report ex_at_second) 77) (used_addrs id ex_on_second) id s' ∧
    slot_key <$> breaks (st_sdb s') = slot_key <$> breaks (st_sdb ex_on_second) ∧
    ptrace_getregs (st_world s') 77 = Some ex_next_regs) ex_on_second.
Proof.
  destruct ex_off_second as (Hinv & Hv & Hp).
  exact (patch_all_steps_over ex_orig ex_first id ex_on_second 1 (Bp true 0x40000c 0x9090909090909090)
    ex_at_second (ex_report ex_at_second) ex_next_regs Hinv Hv Hp ex_steps_off).
Defined.

Lemma ex_over_runs_to :
  runs_to id ex_over_second 0 (Bp true 0x400004 0x90c3c031c35d9090) (ex_report ex_over_second) ex_hit_regs.
Proof.
  split.
  - split; vm_compute; reflexivity.
  - exists 0, (st_world ex_over_second), 77, 0x57f. split_and!; vm_compute; reflexivity.
  - apply (ex_went_on ex_planted); [vm_compute; reflexivity|done|intros x; vm_compute; reflexivity| |vm_compute; reflexivity].
    ex_mapped.
  - vm_compute. reflexivity.
  - vm_compute. reflexivity.
Qed.


(** A program not yet running, with two breakpoints. *)
Definition ex_new : St toy :=
  ex_state (-1) ex_two (Toy 77 ex_bytes ex_second_regs [(0x57f, ex_regs); (0x57f, ex_hit_regs)]
    (ty_text ex_world) (ty_files ex_world)).
Definition ex_new_started : St toy := started ex_new 77 (ptrace_setoptions (ex_report ex_new) 77).
Definition ex_first_planted : St toy := ex_run_from sdb_patch_all_bp ex_new_started.

Lemma ex_new_runs_to :
  runs_to id ex_first_planted 0 (Bp true 0x400004 0x90c3c031c35d9090) (ex_report ex_first_planted) ex_hit_regs.
Proof.
  split.
  - split; vm_compute; reflexivity.
  - exists 0, (st_world ex_first_planted), 77, 0x57f. split_and!; vm_compute; reflexivity.
  - apply (ex_went_on ex_planted); [vm_compute; reflexivity|done|intros x; vm_compute; reflexivity| |vm_compute; reflexivity].
    ex_mapped.
  - vm_compute. reflexivity.
  - vm_compute. reflexivity.
Qed.

Lemma run_stops_at_breakpoint_witness :
  wp (sdb_run 1)
    (λ _ s', stopped_at (after (mem_at ex_new_started) (st_world ex_first_planted) (ex_report ex_first_planted) 77)
               id ex_new 0x400004 ex_hit_regs s' ∧ sdb_pid (st_sdb s') = 77) ex_new.
Proof.
  pose proof (run_stops_at_breakpoint id ex_new 77 (st_world ex_new) 77 0x57f (ex_report ex_new) ex_first_planted 0
    (Bp true 0x400004 0x90c3c031c35d9090) (ex_report ex_first_planted) ex_hit_regs 0) as Hc.
  cbv zeta in Hc. fold ex_new_started in Hc.
  match type of Hc with context [if ?b then wp _ _ _ else _] =>
    assert (b = true) as Hb by (vm_compute; reflexivity); rewrite Hb in Hc; clear Hb end.
  apply Hc.
  - reflexivity.
  - reflexivity.
  - reflexivity.
  - apply ex_two_spaced.
  - reflexivity.
  - lia.
  - reflexivity.
  - lia.
  - intros x. vm_compute. reflexivity.
  - intros i bp Hu. apply (used_slots ex_two) in Hu; [|reflexivity].
    destruct i as [|[|i]]; [| |discriminate Hu]; injection Hu as <-;
      (split; [apply is_Some_by; vm_compute; reflexivity|vm_compute; discriminate]).
  - exists ex_regs. split; [reflexivity|]. intros (i & bp & Hu & E)%elem_of_used_addrs.
    apply (used_slots ex_two) in Hu; [|reflexivity].
    destruct i as [|[|i]]; [| |discriminate Hu]; injection Hu as <-; discriminate E.
  - vm_compute. reflexivity.
  - exact ex_new_runs_to.
Defined.

(** The program on the kernel that knows whether it runs: it is stopped, its
    breakpoint planted, and will report what the script says. *)
Definition ex_live (script : list (Z * user_regs)) : St live :=
  State (Sdb (fst ex_heap) None ex_path 77 (ex_slots [Bp true 0x400004 0x90c3c031c35d9090]) 0) (snd ex_heap) []
    (Live (ex_world_hit script ex_regs) false).

(** Exit with code 0: the process is forgotten.  A segmentation fault: [cont]
    waits for ever. *)
Lemma cont_and_run_end_witness :
  (∃ w, sdb_cont 5 (ex_live [(0, ex_regs)]) = Ret (tt, gone 0 w (ex_live [(0, ex_regs)]))) ∧
  sdb_cont 5 (ex_live [(0xb7f, ex_regs); (0, ex_regs)]) = Blocks.
Proof.
  split.
  - destruct (cont_and_run_end id (ex_live [(0, ex_regs)]) sdb_cont None (ex_live [(0, ex_regs)]) 5 0
      (Live (ex_world_hit [(0, ex_regs)] ex_regs) true)) as [_ Hend].
    + apply go_cont; [reflexivity|vm_compute; reflexivity].
    + cbn. lia.
    + reflexivity.
    + lia.
    + reflexivity.
    + exact Hend.
  - destruct (cont_and_run_end id (ex_live [(0xb7f, ex_regs); (0, ex_regs)]) sdb_cont None
      (ex_live [(0xb7f, ex_regs); (0, ex_regs)]) 5 0
      (Live (ex_world_hit [(0xb7f, ex_regs); (0, ex_regs)] ex_regs) true)) as [_ Hend].
    + apply go_cont; [reflexivity|vm_compute; reflexivity].
    + cbn. lia.
    + reflexivity.
    + lia.
    + reflexivity.
    + refine (Hend ex_regs _ _ _).
      * reflexivity.
      * intros a. vm_compute. reflexivity.
      * vm_compute. intros H. inversion H.
Defined.

(** ** Inspecting *)

Lemma sdb_set_get_witness :
  ∃ c w, ptrace_setregs (st_world ex_s) 77 (rset RAX 42 ex_regs) = (c, w) ∧
    sdb_set (reg_name RAX) 42 ex_s = Ret (tt, set_done c w ex_s) ∧
    (∀ b, mem_at (set_done c w ex_s) b = mem_at ex_s b) ∧
    (c = 0 → ∀ r', r' ≠ EFLAGS →
      wp (sdb_get (reg_name r'))
        (λ x _, x = if decide (RAX = r') then 42 else rget r' ex_regs) (set_done c w ex_s)).
Proof. apply (sdb_set_get RAX 42 ex_regs ex_s); [lia|reflexivity]. Defined.

Lemma unknown_register_witness :
  sdb_get "xyz" ex_s = Undef Uninit ∧
  ∃ c w, ptrace_setregs (st_world ex_s) 77 ex_regs = (c, w) ∧
         sdb_set "xyz" 7 ex_s = Ret (tt, set_done c w ex_s).
Proof.
  apply (unknown_register "xyz" 7 ex_regs ex_s); [|reflexivity]. intros []; discriminate.
Defined.

Lemma ex_readable n s0 :
  (n ≤ 14)%nat → same_but_saved ex_s s0 → readable s0 0x400000 n.
Proof.
  intros Hn Hs i Hi. rewrite (sbs_pid _ _ Hs). apply (sbs_peek _ _ Hs). clear Hs.
  do 14 (destruct i as [|i]; [apply is_Some_by; vm_compute; reflexivity|]). lia.
Qed.

Lemma dump_shows_memory_witness :
  ∃ bytes, length bytes = 80%nat ∧
    (∀ k : nat, (k < 80)%nat → bytes !! k = mem_at ex_s (0x400000 + Z.of_nat k)) ∧
    sdb_dump "0x400000" ex_s = Ret (tt, on_outs (flat_map (row_output 0x400000 bytes) (indices 5)) ex_s).
Proof.
  apply dump_shows_memory.
  - discriminate.
  - reflexivity.
  - reflexivity.
  - lia.
  - lia.
  - by apply ex_readable; [lia|].
Defined.

Lemma disasm_reads_program_witness :
  wp (disasm_bytes 0x400000)
    (λ r s', ∃ buffer, r = Some buffer ∧ length buffer = 64%nat ∧
       (∀ k : nat, (k < 64)%nat → buffer !! k = ex_orig (0x400000 + Z.of_nat k)) ∧
       bp_inv ex_orig (used_addrs id ex_s) id s' ∧ same_but_saved ex_s s') ex_s.
Proof.
  apply (disasm_reads_program ex_orig {[0x400004]} 0x400000 ex_s).
  - apply ex_planted_inv.
  - intros i bp k Hu Hk. change ex_s with (ex_state 77 ex_planted ex_world_planted) in Hu.
    unfold ex_planted in Hu. each_slot Hu.
    + by apply (peek_bytes ex_world 77 0x400004 _ k ex_saved).
    + by apply (peek_bytes ex_world 77 0x40000c _ k ex_saved2).
  - apply ex_patchable.
  - apply ex_view.
  - apply ex_rip_clear.
  - reflexivity.
  - lia.
  - lia.
  - intros s' Hs. apply ex_readable; [lia|done].
Defined.

Lemma ex_printable bytes a : Forall printable (ex_disasm bytes a).
Proof.
  apply Forall_lookup. intros i insn Hi. unfold ex_disasm in Hi. rewrite list_lookup_imap in Hi.
  apply fmap_Some_1 in Hi as (b & _ & ->). unfold printable. simpl. split_and!; try lia.
  constructor; [|constructor]. apply Z.mod_pos_bound. lia.
Qed.

Lemma print_disasm_advances_witness :
  ∃ es, print_disasm [0x90; 0x90; 0xc3] 0x400000 ex_s
        = Ret (tt, on_outs es (on_sdb (with_last (wrap64 (last_disasm_addr (st_sdb ex_s)
                     + total_size (take 10 (ex_disasm [0x90; 0x90; 0xc3] 0x400000))))) ex_s)).
Proof.
  apply (print_disasm_advances [0x90; 0x90; 0xc3] 0x400000 ex_s).
  - discriminate.
  - apply ex_printable.
  - simpl. lia.
Defined.

(** ** Loading *)

Definition ex_loaded_sdb : St toy := ex_state (-1) [] ex_world.

Lemma failed_load_leaves_null_handle_witness :
  wp (sdb_load "missing")
    (λ _ s', sdb_is_loaded (st_sdb s') = true ∧ sdb_eh (st_sdb s') = None ∧
       sdb_vmmap s' = Undef NullDeref ∧ sdb_disasm "0x400000" s' = Undef NullDeref) ex_loaded_sdb.
Proof.
  apply (failed_load_leaves_null_handle "missing" "0x400000" 0x400000 ex_loaded_sdb).
  - reflexivity.
  - reflexivity.
  - vm_compute. exact I.
  - reflexivity.
  - discriminate.
  - reflexivity.
Defined.

Lemma ex_map_wf : Forall wf_mapping [ex_map].
Proof.
  constructor; [|constructor]. split; try (simpl; lia); try reflexivity; split; reflexivity || discriminate.
Qed.

Lemma convert_dynamic_addr_base_witness :
  convert_dynamic_addr 0x1130 ex_s = Ret (wrap64 (0x400000 + 0x1130), ex_s).
Proof.
  apply (convert_dynamic_addr_base [ex_map] ex_map 0x1130 ex_s).
  - apply ex_map_wf.
  - vm_compute. reflexivity.
  - reflexivity.
Defined.

Lemma vmmap_running_witness :
  sdb_vmmap ex_s = Ret (tt, on_outs (flat_map map_output [ex_map]) ex_s).
Proof.
  apply (vmmap_running [ex_map] ex_s).
  - apply ex_map_wf.
  - reflexivity.
  - reflexivity.
  - vm_compute. reflexivity.
Defined.

(** ** The command loop *)

Definition ex_repl (line : option string) (input : list string) : Repl toy :=
  Loop ex_s (Some "si") line input.

Lemma eof_never_returns_witness :
  main_loop 7 5 (ex_repl (Some "help") []) ≠ Ret (0, ex_repl (Some "help") []).
Proof. apply (eof_never_returns 7 5 _ "help" "help"); reflexivity. Defined.

Lemma exit_ends_witness :
  main_loop 1 5 (ex_repl None ["exit"; "help"]) = Ret (0, reading "exit" "exit" ["help"] (ex_repl None ["exit"; "help"])).
Proof. apply (exit_ends 0 5 _ "exit" ["help"] "exit"); reflexivity. Defined.

Lemma set_line_operands_witness :
  iteration 5 (ex_repl None [set_line RIP 0x400004]) =
    if 0x400004 <? 2 ^ 52 then
      (sdb (sdb_set (reg_name RIP) 0x400004) ≫= λ _, mret true)
        (reading "set" (set_line RIP 0x400004) [] (ex_repl None [set_line RIP 0x400004]))
    else Undef OutOfBounds.
Proof. apply (set_line_operands 5 _ RIP 0x400004 []); [reflexivity|lia]. Defined.

Lemma missing_operand_undefined_witness :
  iteration 5 (ex_repl None ["break" +:+ newline]) = Undef Uninit.
Proof.
  apply (missing_operand_undefined 5 _ ("break" +:+ newline) [] "break").
  - reflexivity.
  - reflexivity.
  - vm_compute. lia.
  - by left.
Defined.

(** ** Breakpoints that are closer than a word *)

Definition ex_running : St toy := ex_state 77 [] ex_world.

(** Two breakpoints a byte apart, the later address first, and deleted in the
    same order. *)
Definition ex_adjacent : M (St toy) unit :=
  sdb_set_break "0x400005" ≫= λ _, sdb_set_break "0x400004" ≫= λ _,
  sdb_delete 0 ≫= λ _, sdb_delete 1.

(** The distance between breakpoints matters: of two breakpoints a byte
    apart, the word saved for the lower one holds the 0xcc of the other, and
    deleting both puts that 0xcc back: no breakpoint is left, but the program
    is not what it was. *)
Theorem adjacent_breakpoints_leave_int3 :
  match ex_adjacent ex_running with
  | Ret (_, s') =>
      Forall (λ bp, is_used bp = false) (breaks (st_sdb s')) ∧
      mem_at s' 0x400005 = Some 0xcc ∧ mem_at ex_running 0x400005 = Some 0x90
  | _ => False
  end.
Proof. vm_compute. split_and!; [repeat (constructor; [done|]); constructor|done..]. Qed.

(** ** A position-independent program *)

(** Loaded at 0x400000, with a breakpoint at 4 planted. *)
Definition ex_base (a : Z) : Z := 0x400000 + a.
Definition ex_pie : list bp_t := [Bp true 4 0x90c3c031c35d9090].

Lemma ex_pie_inv : bp_inv ex_orig {[0x400004]} ex_base (ex_state 77 ex_pie ex_world_planted).
Proof.
  split.
  - reflexivity.
  - apply (inv_mem _ _ _ _ (ex_planted_inv [] ex_regs)).
  - intros b ->%elem_of_singleton. apply elem_of_used_addrs. eexists 0%nat, _.
    split; [by apply used_ex_intro|done].
  - intros i bp k Hu HB Hk. unfold ex_pie in Hu. each_slot Hu.
    by apply (peek_bytes ex_world 77 0x400004 _ k ex_saved).
  - intros i j bi bj Hi Hj Hij. unfold ex_pie in *. each_slot Hi; each_slot Hj; done.
Qed.

Lemma delete_unconverted_leaves_int3_witness :
  wp (sdb_delete (Z.of_nat 0))
    (λ _ s', used_addrs ex_base s' = used_addrs ex_base (ex_state 77 ex_pie ex_world_planted) ∖ {[0x400004]} ∧
             mem_at s' 0x400004 = Some 0xcc ∧ st_world s' = ex_world_planted)
    (ex_state 77 ex_pie ex_world_planted).
Proof.
  apply (delete_unconverted_leaves_int3 ex_orig {[0x400004]} ex_base
    (ex_state 77 ex_pie ex_world_planted) 0 (Bp true 4 0x90c3c031c35d9090)).
  - apply ex_pie_inv.
  - by apply used_ex_intro.
  - by apply elem_of_singleton.
  - vm_compute. reflexivity.
Defined.

(** ** A session *)

(** The program is started, stops at a breakpoint and exits. *)
Definition ex_fresh (script : list (Z * user_regs)) : Repl toy :=
  Loop (State (new_sdb (λ _, (7, 7))) empty_mem []
         (Toy 77 ex_bytes ex_regs script {[ "/proc/77/maps" := [render ex_map] ]} {[ ex_path := toy_image ]}))
    None None [].

Definition ex_typed (lines : list string) (r : Repl toy) : Repl toy :=
  Loop (rp_st r) (rp_command r) (rp_line r) ((λ l, l +:+ newline) <$> lines).

Definition ex_output (o : outcome (Z * Repl toy)) : option (list string) :=
  match o with
  | Ret (0, r) => Some ((λ e, match e with Stdout t => t | Stderr t => t end) <$> st_out (rp_st r))
  | _ => None
  end.

Example ex_session :
  ex_output (main (λ _, (0, 0)) ["sdb"; ex_path] 9 9
    (ex_typed ["b 0x400004"; "run"; "get rip"; "cont"; "exit"]
      (ex_fresh [(0x57f, ex_regs); (0x57f, ex_hit_regs); (0x57f, ex_hit_regs); (0, ex_regs)])))
  = Some
     ["** program 'a.out' loaded. entry point 0x400000, vaddr 0x400000, offset 0x50, size 0x10" +:+ newline;
      "sdb> "; "sdb> "; "** pid 77" +:+ newline;
      "** breakpoint @     400004: 90                   "; "byte   " +:+ newline;
      "sdb> "; "rip = 4194308 (0x400004)" +:+ newline; "sdb> ";
      "** child process 77 terminated normally (code 0)" +:+ newline; "sdb> "].
Proof. vm_compute. reflexivity. Qed.

(** The state after the program was loaded and a breakpoint set. *)
Definition ex_reached : Repl toy :=
  match (startup (λ _, (7, 7)) ["sdb"; ex_path] ≫= λ _, iteration 9) (ex_typed ["b 0x400004"] (ex_fresh [])) with
  | Ret (_, r) => r
  | _ => ex_fresh []
  end.
Definition ex_started : Repl toy :=
  match startup (λ _, (7, 7)) ["sdb"; ex_path] (ex_typed ["b 0x400004"] (ex_fresh [])) with
  | Ret (_, r) => r
  | _ => ex_fresh []
  end.

Lemma reachable_wf_witness :
  wf (st_sdb (rp_st ex_reached)) ∧ is_used <$> breaks (st_sdb (rp_st ex_reached)) = true :: replicate 9 false.
Proof.
  split; [|vm_compute; reflexivity].
  apply (reachable_wf (λ _, (7, 7)) ["sdb"; ex_path] (ex_typed ["b 0x400004"] (ex_fresh []))).
  - intros i. split; done.
  - apply (reach_iteration _ _ _ ex_started 9 true).
    + apply reach_start. vm_compute. reflexivity.
    + vm_compute. reflexivity.
Defined.
