(* ===== verification/SdbSessionExample.v ===== *)
(** * sdb: a session on the concrete program

    run up to the first of two breakpoints, list, cont over it to the second,
    delete, si, set, disasm and a new breakpoint, on the toy kernel. *)
From S2P Require Import Prelude Libc Elftool ToyElf Kernel ToyKernel.
From S2P Require Import SdbState SdbBreak SdbRun SdbSession SdbInspect SdbInv SdbTrace SdbExamples.

#[local] Existing Instances ex_env ex_disasm ex_disasm_laws.

(** The stops of the program: at its start, at the first breakpoint, after the
    instruction there, at the second breakpoint, and after one si. *)
Definition tr_next : user_regs := rset RIP 0x400008 ex_regs.
Definition tr_hit2 : user_regs := rset RIP 0x40000d ex_regs.
Definition tr_si : user_regs := rset RIP 0x400018 ex_regs.
Definition tr_new : St toy :=
  ex_state (-1) ex_two (Toy 77 ex_bytes ex_second_regs
    ((0x57f,.) <$> [ex_regs; ex_hit_regs; tr_next; tr_hit2; tr_si]) (ty_text ex_world) (ty_files ex_world)).
Definition tr_started : St toy := started tr_new 77 (ptrace_setoptions (ex_report tr_new) 77).
Definition tr_first : St toy := ex_run_from sdb_patch_all_bp tr_started.
Definition tr_run : St toy := ex_run_from (sdb_run 1) tr_new.
Definition tr_list : St toy := ex_run_from sdb_list tr_run.
Definition tr_over : St toy := ex_run_from sdb_patch_all_bp tr_list.
Definition tr_cont : St toy := ex_run_from (sdb_cont 1) tr_list.
Definition tr_delete : St toy := ex_run_from (sdb_delete 0) tr_cont.
Definition tr_step : St toy := ex_run_from sdb_step tr_delete.
Definition tr_set : St toy := ex_run_from (sdb_set "rax" 5) tr_step.
Definition tr_disasm_addr : St toy := ex_run_from (disasm_addr "0x400000") tr_set.
Definition tr_restored : St toy := ex_run_from (for_each (indices MAX_BREAK) restore_bp) tr_disasm_addr.
Definition tr_disasm : St toy := ex_run_from (sdb_disasm "0x400000") tr_set.
Definition tr_end : St toy := ex_run_from (sdb_set_break "0x400030") tr_disasm.

Example tr_ends : sdb_set_break "0x400030" tr_disasm = Ret (tt, tr_end) ∧
  mem_at tr_end 0x400030 = Some 0xcc ∧ mem_at tr_end 0x40000c = Some 0xcc ∧ mem_at tr_end 0x400004 = Some 0x90.
Proof. vm_compute. done. Qed.

(** ** The session is one *)

(** Both words saved; the first breakpoint deleted; its slot taken again. *)
Definition tr_deleted : list bp_t :=
  [Bp false 0x400004 0x90c3c031c35d9090; Bp true 0x40000c 0x9090909090909090].
Definition tr_taken : list bp_t :=
  [Bp true 0x400030 0x90c3c031c35d9090; Bp true 0x40000c 0x9090909090909090].

(** The used slots of a state whose table is [bs], one goal each. *)
Ltac tr_slots bs H :=
  let Hu := fresh in pose proof (proj2 H) as Hu;
  apply (used_slots bs) in H; [|vm_compute; reflexivity];
  match type of H with _ !! ?i = _ => destruct i as [|[|i]]; [injection H as <-|injection H as <-|discriminate H] end;
  try discriminate Hu; clear Hu.
Ltac tr_patchable bs :=
  let Hu := fresh in intros ? ? Hu; tr_slots bs Hu;
  (split; [apply is_Some_by; vm_compute; reflexivity|vm_compute; discriminate]).
(** The program stops where the script says. *)
Ltac tr_went bs :=
  apply (ex_went_on bs);
    [vm_compute; reflexivity|done|intros x; vm_compute; reflexivity|ex_mapped|vm_compute; reflexivity].
Ltac tr_clear bs regs :=
  exists regs; split; [vm_compute; reflexivity|]; intros (? & ? & Hu & E)%elem_of_used_addrs;
  tr_slots bs Hu; discriminate E.

Lemma tr_spawns : spawns tr_new 77 (st_world tr_new) 77 0x57f (ex_report tr_new).
Proof.
  split; try reflexivity; [apply ex_two_spaced|lia|]. intros x. vm_compute. reflexivity.
Qed.

Lemma tr_runs_to : runs_to id tr_first 0 (Bp true 0x400004 0x90c3c031c35d9090) (ex_report tr_first) ex_hit_regs.
Proof.
  split.
  - split; vm_compute; reflexivity.
  - exists 0, (st_world tr_first), 77, 0x57f. split_and!; vm_compute; reflexivity.
  - tr_went ex_planted.
  - vm_compute. reflexivity.
  - vm_compute. reflexivity.
Qed.

Lemma tr_steps_off :
  steps_off id tr_list 0 (Bp true 0x400004 0x90c3c031c35d9090) tr_list (ex_report tr_list) tr_next.
Proof.
  split.
  - split; vm_compute; reflexivity.
  - exists (rset RIP 0x400004 ex_hit_regs). split; vm_compute; reflexivity.
  - reflexivity.
  - exists 0, (st_world tr_list), 77, 0x57f. split_and!; [vm_compute; reflexivity..|lia|]. tr_went ex_planted.
  - intros k bk Hk Hlt. tr_slots ex_planted Hk; vm_compute; [lia|discriminate].
Qed.

Lemma tr_runs_on : runs_to id tr_over 1 (Bp true 0x40000c 0x9090909090909090) (ex_report tr_over) tr_hit2.
Proof.
  split.
  - split; vm_compute; reflexivity.
  - exists 0, (st_world tr_over), 77, 0x57f. split_and!; vm_compute; reflexivity.
  - tr_went ex_planted.
  - vm_compute. reflexivity.
  - vm_compute. reflexivity.
Qed.

(** The program's own bytes after it ran, went on and made one step. *)
Definition tr_orig1 : Z → option Z := after (mem_at tr_started) (st_world tr_first) (ex_report tr_first) 77.
Definition tr_orig2 : Z → option Z :=
  after (after tr_orig1 (st_world tr_list) (ex_report tr_list) (sdb_pid (st_sdb tr_list)))
    (st_world tr_over) (ex_report tr_over) (sdb_pid (st_sdb tr_over)).
Definition tr_orig3 : Z → option Z :=
  after tr_orig2 (st_world tr_delete) (ex_report tr_delete) (sdb_pid (st_sdb tr_delete)).

Lemma tr_session_list : session tr_orig1 tr_list.
Proof.
  apply (session_turn tr_orig1 tr_run); [|eapply (turn_look _ _ sdb_list); [apply looks_list|vm_compute; reflexivity]].
  apply (session_run tr_new 77 (st_world tr_new) 77 0x57f (ex_report tr_new) (mem_at tr_started) tr_first 0
    (Bp true 0x400004 0x90c3c031c35d9090) (ex_report tr_first) ex_hit_regs 0).
  - exact tr_spawns.
  - reflexivity.
  - apply ready_clear; [tr_patchable ex_two|tr_clear ex_two ex_regs].
  - vm_compute. reflexivity.
  - exact tr_runs_to.
  - vm_compute. reflexivity.
Qed.

Lemma tr_session_cont : session tr_orig2 tr_cont.
Proof.
  apply (session_turn tr_orig1 tr_list); [exact tr_session_list|].
  apply (turn_cont tr_orig1 tr_list _ tr_over 1 (Bp true 0x40000c 0x9090909090909090) (ex_report tr_over) tr_hit2 0).
  - reflexivity.
  - apply (ready_over tr_orig1 tr_list 0 (Bp true 0x400004 0x90c3c031c35d9090) tr_list (ex_report tr_list) tr_next).
    + tr_patchable ex_planted.
    + exact tr_steps_off.
  - vm_compute. reflexivity.
  - exact tr_runs_on.
  - vm_compute. reflexivity.
Qed.

Lemma tr_session_step : session tr_orig3 tr_step.
Proof.
  apply (session_turn tr_orig2 tr_delete).
  - apply (session_turn tr_orig2 tr_cont); [exact tr_session_cont|].
    apply (turn_delete tr_orig2 tr_cont 0 (Bp true 0x400004 0x90c3c031c35d9090)).
    + split; vm_compute; reflexivity.
    + apply is_Some_by. vm_compute. reflexivity.
    + vm_compute. discriminate.
    + vm_compute. reflexivity.
  - apply (turn_step tr_orig2 tr_delete 0 (st_world tr_delete) 77 0x57f (ex_report tr_delete) tr_si).
    + vm_compute. reflexivity.
    + vm_compute. reflexivity.
    + lia.
    + vm_compute. reflexivity.
    + lia.
    + tr_went tr_deleted.
    + vm_compute. reflexivity.
Qed.

Lemma tr_session_disasm : session tr_orig3 tr_disasm.
Proof.
  apply (session_turn tr_orig3 tr_set).
  - apply (session_turn tr_orig3 tr_step); [exact tr_session_step|].
    apply (turn_set tr_orig3 tr_step "rax" 5). vm_compute. reflexivity.
  - apply (turn_disasm tr_orig3 tr_set "0x400000" 0x400000 tr_disasm_addr tr_restored).
    + vm_compute. reflexivity.
    + tr_patchable tr_deleted.
    + vm_compute. reflexivity.
    + vm_compute. reflexivity.
    + apply ready_clear; [tr_patchable tr_deleted|tr_clear tr_deleted (rset RAX 5 tr_si)].
    + vm_compute. reflexivity.
Qed.

Lemma tr_session_end : session tr_orig3 tr_end.
Proof.
  apply (session_turn tr_orig3 tr_disasm); [exact tr_session_disasm|].
  apply (turn_break tr_orig3 tr_disasm "0x400030" 0x400030 0 (Bp false 0x400004 0x90c3c031c35d9090)).
  - vm_compute. reflexivity.
  - vm_compute. reflexivity.
  - reflexivity.
  - vm_compute. reflexivity.
  - vm_compute. reflexivity.
  - intros j bj Hj. tr_slots tr_deleted Hj. done.
  - apply ready_clear; [tr_patchable tr_taken|tr_clear tr_taken (rset RAX 5 tr_si)].
  - vm_compute. reflexivity.
Qed.

Lemma session_shows_witness :
  (∀ b, mem_at tr_end b = tr_orig3 b ∨ mem_at tr_end b = Some 0xcc ∧ b ∈ used_addrs id tr_end) ∧
  (∃ a, ∀ b, b ∈ used_addrs id tr_end → b ≠ a → mem_at tr_end b = Some 0xcc) ∧
  (∀ i bp k, used tr_end i bp → 0 ≤ k < 8 →
     tr_orig3 (bp_addr bp + k) = Some (byte_of (original_word bp) k)).
Proof. exact (session_shows tr_orig3 tr_end tr_session_end). Defined.
