(* ===== verification/MiniSig.v ===== *)
(** * libmini: signal sets

    The inline functions of libmini.h on [sigset_t], an unsigned 64-bit word,
    and the set of signals such a word stands for. *)
From S2P Require Import Prelude.

(** [1UL << (sig - 1)]: defined for the signals 1 to 64. *)
Definition sig_bit (sig : Z) : outcome Z :=
  if (0 <=? sig - 1) && (sig - 1 <? 64) then Ret (wrap64 (Z.shiftl 1 (sig - 1))) else Undef BadShift.

Definition sigemptyset : Z := 0.
Definition sigfillset : Z := wrap64 (Z.lnot 0).
Definition sigaddset (set sig : Z) : outcome Z := b ← sig_bit sig; mret (Z.lor set b).
Definition sigdelset (set sig : Z) : outcome Z :=
  b ← sig_bit sig; mret (Z.land set (wrap64 (Z.lnot b))).
Definition sigismember (set sig : Z) : outcome Z :=
  b ← sig_bit sig; mret (if Z.land set b =? 0 then 0 else 1).

(** ** The set a word stands for *)

Definition all_signals : list Z := Z.of_nat <$> seq 1 64.

Definition signals (set : Z) : gset Z :=
  list_to_set (filter (λ sig, Z.testbit set (sig - 1) = true) all_signals).

Lemma elem_of_all_signals sig : sig ∈ all_signals ↔ 1 ≤ sig ≤ 64.
Proof.
  unfold all_signals. rewrite list_elem_of_fmap. setoid_rewrite elem_of_seq. split.
  - intros (n & -> & Hn). lia.
  - intros Hs. exists (Z.to_nat sig). lia.
Qed.

Lemma elem_of_signals set sig : sig ∈ signals set ↔ 1 ≤ sig ≤ 64 ∧ Z.testbit set (sig - 1) = true.
Proof.
  unfold signals. rewrite elem_of_list_to_set, list_elem_of_filter, elem_of_all_signals. tauto.
Qed.

(** Words with the same signals are equal. *)
Lemma signals_inj a b : 0 ≤ a < 2 ^ 64 → 0 ≤ b < 2 ^ 64 → signals a = signals b → a = b.
Proof.
  intros Ha Hb E. apply Z.bits_inj'. intros n Hn.
  destruct (decide (n < 64)) as [Hlt|Hge].
  - pose proof (elem_of_signals a (n + 1)) as Hsa. pose proof (elem_of_signals b (n + 1)) as Hsb.
    rewrite E, Hsb in Hsa. replace (n + 1 - 1) with n in Hsa by lia.
    destruct (Z.testbit a n), (Z.testbit b n); try done; exfalso.
    + destruct Hsa as [_ [_ ?]]; [split; [lia|done]|done].
    + destruct Hsa as [[_ ?] _]; [split; [lia|done]|done].
  - assert (∀ x, 0 ≤ x < 2 ^ 64 → Z.testbit x n = false) as Hhigh.
    { intros x Hx. destruct (decide (x = 0)) as [->|]; [apply Z.bits_0|].
      apply Z.bits_above_log2; [lia|]. apply Z.lt_le_trans with 64; [|lia].
      apply Z.log2_lt_pow2; lia. }
    by rewrite !Hhigh.
Qed.

Lemma wrap64_testbit z n : 0 ≤ n → Z.testbit (wrap64 z) n = (n <? 64) && Z.testbit z n.
Proof.
  intros Hn. unfold wrap64. destruct (Z.ltb_spec n 64).
  - by rewrite Z.mod_pow2_bits_low.
  - rewrite Z.mod_pow2_bits_high; [done|lia].
Qed.

Lemma sig_bit_ok sig : 1 ≤ sig ≤ 64 → sig_bit sig = Ret (wrap64 (Z.shiftl 1 (sig - 1))).
Proof.
  intros Hs. unfold sig_bit. rewrite (proj2 (Z.leb_le _ _)), (proj2 (Z.ltb_lt _ _)) by lia. done.
Qed.

Lemma sig_bit_testbit sig n :
  1 ≤ sig ≤ 64 → 0 ≤ n → Z.testbit (wrap64 (Z.shiftl 1 (sig - 1))) n = (n =? sig - 1).
Proof.
  intros Hs Hn. rewrite wrap64_testbit, Z.shiftl_1_l, Z.pow2_bits_eqb by lia.
  destruct (Z.eqb_spec (sig - 1) n), (Z.eqb_spec n (sig - 1)), (Z.ltb_spec n 64); simpl; lia.
Qed.

Lemma word_high z : 0 ≤ z → (∀ n, 64 ≤ n → Z.testbit z n = false) → 0 ≤ z < 2 ^ 64.
Proof.
  intros Hz Hhigh. split; [done|].
  assert (z = wrap64 z) as -> by (apply Z.bits_inj'; intros n Hn; rewrite wrap64_testbit by done;
    destruct (Z.ltb_spec n 64); [done|by apply Hhigh]).
  apply wrap64_range.
Qed.
Lemma high_bits z n : 0 ≤ z < 2 ^ 64 → 64 ≤ n → Z.testbit z n = false.
Proof.
  intros Hz Hn. rewrite <-(wrap64_small z), wrap64_testbit by lia.
  by rewrite (proj2 (Z.ltb_ge _ _)).
Qed.

Lemma sigaddset_spec set sig :
  0 ≤ set < 2 ^ 64 → 1 ≤ sig ≤ 64 →
  ∃ w, sigaddset set sig = Ret w ∧ signals w = {[sig]} ∪ signals set ∧ 0 ≤ w < 2 ^ 64.
Proof.
  intros Hset Hs. unfold sigaddset. rewrite sig_bit_ok by done. eexists. split; [done|]. split.
  - apply set_eq. intros x. rewrite elem_of_union, elem_of_singleton, !elem_of_signals.
    destruct (decide (1 ≤ x ≤ 64)) as [Hx|Hx]; [|lia].
    rewrite Z.lor_spec, sig_bit_testbit by lia. rewrite orb_true_iff, Z.eqb_eq. intuition lia.
  - apply word_high.
    + apply Z.lor_nonneg. split; [lia|]. apply wrap64_range.
    + intros n Hn. rewrite Z.lor_spec, sig_bit_testbit, high_bits by lia. simpl. apply Z.eqb_neq. lia.
Qed.

Lemma sigdelset_spec set sig :
  0 ≤ set < 2 ^ 64 → 1 ≤ sig ≤ 64 →
  ∃ w, sigdelset set sig = Ret w ∧ signals w = signals set ∖ {[sig]} ∧ 0 ≤ w < 2 ^ 64.
Proof.
  intros Hset Hs. unfold sigdelset. rewrite sig_bit_ok by done. eexists. split; [done|]. split.
  - apply set_eq. intros x. rewrite elem_of_difference, elem_of_singleton, !elem_of_signals.
    destruct (decide (1 ≤ x ≤ 64)) as [Hx|Hx]; [|lia].
    rewrite Z.land_spec, (wrap64_testbit (Z.lnot _)), Z.lnot_spec, sig_bit_testbit by lia.
    destruct (Z.ltb_spec (x - 1) 64); [|lia]. simpl.
    rewrite andb_true_iff, negb_true_iff, Z.eqb_neq. intuition lia.
  - apply word_high.
    + apply Z.land_nonneg. left. lia.
    + intros n Hn. rewrite Z.land_spec, high_bits by lia. done.
Qed.

Lemma land_bit set k : 0 ≤ k → (Z.land set (Z.shiftl 1 k) =? 0) = negb (Z.testbit set k).
Proof.
  intros Hk. destruct (Z.testbit set k) eqn:E; simpl.
  - apply Z.eqb_neq. intros E0.
    assert (Z.testbit (Z.land set (Z.shiftl 1 k)) k = false) as F by (rewrite E0; apply Z.bits_0).
    rewrite Z.land_spec, E, Z.shiftl_1_l, Z.pow2_bits_true in F by lia. done.
  - apply Z.eqb_eq, Z.bits_inj'. intros n Hn.
    rewrite Z.land_spec, Z.shiftl_1_l, Z.pow2_bits_eqb, Z.bits_0 by lia.
    destruct (Z.eqb_spec k n) as [->|]; [by rewrite E|]. by rewrite andb_false_r.
Qed.

Lemma sigismember_spec set sig :
  1 ≤ sig ≤ 64 → sigismember set sig = Ret (if decide (sig ∈ signals set) then 1 else 0).
Proof.
  intros Hs. unfold sigismember. rewrite sig_bit_ok by done. cbn [mbind outcome_bind].
  assert (wrap64 (Z.shiftl 1 (sig - 1)) = Z.shiftl 1 (sig - 1)) as ->.
  { apply wrap64_small. rewrite Z.shiftl_1_l. split; [apply Z.pow_nonneg; lia|].
    apply Z.pow_lt_mono_r; lia. }
  rewrite land_bit by lia. do 2 f_equal. destruct (decide _) as [Hin|Hn].
  - apply elem_of_signals in Hin as [_ ->]. done.
  - destruct (Z.testbit set (sig - 1)) eqn:E; [|done]. exfalso. by apply Hn, elem_of_signals.
Qed.

Lemma signals_fill : signals sigfillset = list_to_set all_signals.
Proof.
  apply set_eq. intros x. rewrite elem_of_signals, elem_of_list_to_set, elem_of_all_signals.
  split; [tauto|]. intros Hx. split; [done|]. unfold sigfillset.
  rewrite wrap64_testbit, Z.lnot_spec, Z.bits_0 by lia. simpl. rewrite andb_true_r. apply Z.ltb_lt. lia.
Qed.
Lemma signals_empty : signals sigemptyset = ∅.
Proof.
  apply set_eq. intros x. rewrite elem_of_signals. unfold sigemptyset. rewrite Z.bits_0. set_solver.
Qed.

(** C22. Refinement: on the signals 1 to 64 the five operations are the empty
    set, the set of all signals, adding, removing and membership of the set
    the word stands for; a word stays a 64-bit word.  Any other signal number
    is a shift out of range. *)
Theorem sigset_refines set sig :
  0 ≤ set < 2 ^ 64 →
  signals sigemptyset = ∅ ∧
  signals sigfillset = list_to_set all_signals ∧
  if decide (1 ≤ sig ≤ 64) then
    (∃ w, sigaddset set sig = Ret w ∧ signals w = {[sig]} ∪ signals set ∧ 0 ≤ w < 2 ^ 64) ∧
    (∃ w, sigdelset set sig = Ret w ∧ signals w = signals set ∖ {[sig]} ∧ 0 ≤ w < 2 ^ 64) ∧
    sigismember set sig = Ret (if decide (sig ∈ signals set) then 1 else 0)
  else sigaddset set sig = Undef BadShift ∧ sigdelset set sig = Undef BadShift ∧
       sigismember set sig = Undef BadShift.
Proof.
  intros Hset. split; [apply signals_empty|]. split; [apply signals_fill|].
  destruct (decide (1 ≤ sig ≤ 64)) as [Hs|Hs].
  - split_and!; [by apply sigaddset_spec|by apply sigdelset_spec|by apply sigismember_spec].
  - assert (sig_bit sig = Undef BadShift) as E.
    { unfold sig_bit. destruct (Z.leb_spec 0 (sig - 1)), (Z.ltb_spec (sig - 1) 64); simpl; done || lia. }
    unfold sigaddset, sigdelset, sigismember. by rewrite E.
Qed.

Lemma sigset_refines_witness :
  signals sigemptyset = ∅ ∧ signals sigfillset = list_to_set all_signals ∧
  if decide (1 ≤ 14 ≤ 64) then
    (∃ w, sigaddset 5 14 = Ret w ∧ signals w = {[14]} ∪ signals 5 ∧ 0 ≤ w < 2 ^ 64) ∧
    (∃ w, sigdelset 5 14 = Ret w ∧ signals w = signals 5 ∖ {[14]} ∧ 0 ≤ w < 2 ^ 64) ∧
    sigismember 5 14 = Ret (if decide (14 ∈ signals 5) then 1 else 0)
  else sigaddset 5 14 = Undef BadShift ∧ sigdelset 5 14 = Undef BadShift ∧ sigismember 5 14 = Undef BadShift.
Proof. apply (sigset_refines 5 14). lia. Defined.
