(* ===== verification/MiniMem.v ===== *)
(** * libmini: memory functions

    [bzero], [strlen] and [memcpy] of libmini.c on a memory of bytes.  An
    address is an integer; touching one that is not mapped is undefined.  The
    loops run on fuel; the theorems give an amount that is enough. *)
From S2P Require Import Prelude.

(** Bytes at their addresses. *)
Abbreviation mem := (gmap Z Z).

Definition load8 (a : Z) : M mem Z := λ m,
  match m !! a with Some b => Ret (b, m) | None => Undef InvalidAccess end.
(** A byte is stored as a [char]. *)
Definition store8 (a v : Z) : M mem unit := λ m,
  match m !! a with Some _ => Ret (tt, <[a := v mod 256]> m) | None => Undef InvalidAccess end.

(** [while(size-- > 0) *ptr++ = 0]; [size_t] is a signed [long long] here. *)
Fixpoint bzero_loop (fuel : nat) (ptr size : Z) : M mem unit :=
  match fuel with
  | O => no_fuel
  | S fuel =>
      if 0 <? size then store8 ptr 0 ≫= λ _, bzero_loop fuel (ptr + 1) (size - 1)
      else mret tt
  end.
Definition bzero (fuel : nat) (s size : Z) : M mem unit := bzero_loop fuel s size.

(** Counts the bytes up to the first zero. *)
Fixpoint strlen_loop (fuel : nat) (s count : Z) : M mem Z :=
  match fuel with
  | O => no_fuel
  | S fuel =>
      c ← load8 s;
      if c =? 0 then mret count else strlen_loop fuel (s + 1) (count + 1)
  end.
Definition strlen (fuel : nat) (s : Z) : M mem Z := strlen_loop fuel s 0.

(** [for(i = 0; i < num; ++i)] with [int i]: counting past the largest [int]
    overflows. *)
Fixpoint memcpy_loop (fuel : nat) (dst src num i : Z) : M mem unit :=
  match fuel with
  | O => no_fuel
  | S fuel =>
      if i <? num then
        c ← load8 (src + i);
        store8 (dst + i) c ≫= λ _,
        if i =? 2 ^ 31 - 1 then undef Overflow
        else memcpy_loop fuel dst src num (i + 1)
      else mret tt
  end.
Definition memcpy (fuel : nat) (dst src num : Z) : M mem Z :=
  memcpy_loop fuel dst src num 0 ≫= λ _, mret dst.

(** ** Regions *)

Definition mapped (m : mem) (a n : Z) : Prop := ∀ x, a ≤ x < a + n → is_Some (m !! x).

Lemma mapped_insert m a n b v : mapped m a n → mapped (<[b := v]> m) a n.
Proof.
  intros Hm x Hx. destruct (decide (b = x)) as [->|]; [by rewrite lookup_insert_eq|].
  rewrite lookup_insert_ne by done. by apply Hm.
Qed.

Lemma load8_eq a b m : m !! a = Some b → load8 a m = Ret (b, m).
Proof. unfold load8. by intros ->. Qed.
Lemma store8_eq a v m : is_Some (m !! a) → store8 a v m = Ret (tt, <[a := v mod 256]> m).
Proof. unfold store8. by intros [b ->]. Qed.

(** ** bzero *)

Lemma bzero_loop_spec fuel p n m :
  mapped m p n → Z.max 0 n < Z.of_nat fuel →
  wp (bzero_loop fuel p n)
    (λ _ m', ∀ x, m' !! x = if decide (p ≤ x < p + n) then Some 0 else m !! x) m.
Proof.
  revert p n m. induction fuel as [|fuel IH]; intros p n m Hm Hf; [lia|].
  cbn [bzero_loop]. destruct (Z.ltb_spec 0 n) as [Hn|Hn].
  - apply wp_bind. eapply wp_intro; [apply store8_eq, Hm; lia|].
    eapply wp_mono.
    { apply IH; [|lia]. apply mapped_insert. intros x Hx. apply Hm. lia. }
    intros [] m' Hm' x. rewrite Hm'. destruct (decide (x = p)) as [->|Hx].
    + rewrite decide_False, decide_True by lia. by rewrite lookup_insert_eq.
    + rewrite lookup_insert_ne by done.
      destruct (decide (p + 1 ≤ x < p + 1 + (n - 1))), (decide (p ≤ x < p + n)); done || lia.
  - apply wp_ret. intros x. by rewrite decide_False by lia.
Qed.

(** [bzero] ends, clears the bytes of the region and touches no other byte;
    a negative size is an empty region, since [size_t] is signed. *)
Theorem bzero_clears fuel s size m :
  mapped m s size → Z.max 0 size < Z.of_nat fuel →
  wp (bzero fuel s size)
    (λ _ m', ∀ x, m' !! x = if decide (s ≤ x < s + size) then Some 0 else m !! x) m.
Proof. apply bzero_loop_spec. Qed.

(** ** strlen *)

(** The string [bs] lies at [a], with its terminator. *)
Definition string_at (m : mem) (a : Z) (bs : list Z) : Prop :=
  (∀ (i : nat) b, bs !! i = Some b → m !! (a + Z.of_nat i) = Some b ∧ b ≠ 0) ∧
  m !! (a + Z.of_nat (length bs)) = Some 0.

Lemma strlen_loop_spec fuel s count bs m :
  string_at m s bs → (length bs < fuel)%nat →
  strlen_loop fuel s count m = Ret (count + Z.of_nat (length bs), m).
Proof.
  revert s count bs. induction fuel as [|fuel IH]; intros s count bs [Hbs Hnul] Hf; [lia|].
  cbn [strlen_loop]. destruct bs as [|b bs].
  - rewrite (bind_Ret _ _ _ 0 m); [|apply load8_eq; by rewrite Z.add_0_r in Hnul].
    rewrite Z.eqb_refl. simpl. by rewrite Z.add_0_r.
  - destruct (Hbs 0%nat b eq_refl) as [Hb Hne]. rewrite Z.add_0_r in Hb.
    rewrite (bind_Ret _ _ _ b m) by (by apply load8_eq).
    rewrite (proj2 (Z.eqb_neq _ _)) by done.
    rewrite (IH _ _ bs); [f_equal; f_equal; simpl length; lia| |simpl in Hf; lia]. split.
    + intros i c Hc. destruct (Hbs (S i) c Hc) as [E Hc0]. split; [|done].
      rewrite <-E. f_equal. lia.
    + rewrite <-Hnul. f_equal. simpl length. lia.
Qed.

(** [strlen] of a terminated string ends and is the number of bytes before
    the terminator. *)
Theorem strlen_counts fuel s bs m :
  string_at m s bs → (length bs < fuel)%nat →
  strlen fuel s m = Ret (Z.of_nat (length bs), m).
Proof. intros Hs Hf. unfold strlen. by rewrite (strlen_loop_spec _ _ _ bs). Qed.

(** ** memcpy *)

(** The bytes [i] to [num-1] still to be copied. *)
Lemma memcpy_loop_spec fuel dst src num i m0 m :
  0 ≤ i → num < 2 ^ 31 → Z.max 0 (num - i) < Z.of_nat fuel →
  (dst + num ≤ src ∨ src + num ≤ dst) →
  mapped m0 src num → mapped m0 dst num →
  (∀ x, m !! x = if decide (dst ≤ x < dst + Z.min i num) then (λ b, b mod 256) <$> m0 !! (src + (x - dst))
                 else m0 !! x) →
  wp (memcpy_loop fuel dst src num i)
    (λ _ m', ∀ x, m' !! x = if decide (dst ≤ x < dst + num) then (λ b, b mod 256) <$> m0 !! (src + (x - dst))
                            else m0 !! x) m.
Proof.
  intros Hi Hnum. revert i m Hi. induction fuel as [|fuel IH]; intros i m Hi Hf Hdisj Hs Hd Hm; [lia|].
  cbn [memcpy_loop]. destruct (Z.ltb_spec i num) as [Hlt|Hge].
  - destruct (Hs (src + i)) as [b Hb]; [lia|]. destruct (Hd (dst + i)) as [c Hc]; [lia|].
    apply wp_bind. eapply wp_intro.
    { apply (load8_eq _ b). rewrite Hm. by rewrite decide_False by lia. }
    apply wp_bind. eapply wp_intro.
    { apply store8_eq. rewrite Hm, decide_False by lia. by eexists. }
    rewrite (proj2 (Z.eqb_neq _ _)) by lia. apply IH; try done; [lia|lia|].
    intros x. destruct (decide (x = dst + i)) as [->|Hx].
    + rewrite lookup_insert_eq, decide_True by lia.
      replace (src + (dst + i - dst)) with (src + i) by lia. by rewrite Hb.
    + rewrite lookup_insert_ne, Hm by done.
      destruct (decide (dst ≤ x < dst + Z.min i num)), (decide (dst ≤ x < dst + Z.min (i + 1) num)); done || lia.
  - apply wp_ret. intros x. rewrite Hm. by replace (Z.min i num) with num by lia.
Qed.

Lemma memcpy_spec fuel dst src num m :
  num < 2 ^ 31 → Z.max 0 num < Z.of_nat fuel →
  (dst + num ≤ src ∨ src + num ≤ dst) → mapped m src num → mapped m dst num →
  wp (memcpy fuel dst src num)
    (λ r m', r = dst ∧
       ∀ x, m' !! x = if decide (dst ≤ x < dst + num) then (λ b, b mod 256) <$> m !! (src + (x - dst))
                      else m !! x) m.
Proof.
  intros Hnum Hf Hdisj Hs Hd. unfold memcpy. apply wp_bind. eapply wp_mono.
  { apply (memcpy_loop_spec fuel dst src num 0 m); try done; [lia|].
    intros x. by rewrite decide_False by lia. }
  intros [] m' Hm'. by apply wp_ret.
Qed.

(** C38. [memcpy] between regions that do not overlap, shorter than 2^31 bytes:
    it ends, copies the bytes in order, changes nothing else and returns the
    destination. *)
Theorem memcpy_copies fuel dst src num m :
  num < 2 ^ 31 → Z.max 0 num < Z.of_nat fuel →
  (dst + num ≤ src ∨ src + num ≤ dst) → mapped m src num → mapped m dst num →
  wp (memcpy fuel dst src num)
    (λ r m', r = dst ∧
       ∀ x, m' !! x = if decide (dst ≤ x < dst + num) then (λ b, b mod 256) <$> m !! (src + (x - dst))
                      else m !! x) m.
Proof. apply memcpy_spec. Qed.

(** [memcpy] of 2^31 bytes or more overflows its [int] counter, although
    [num] is 64 bits wide. *)
Theorem memcpy_long_overflows dst src num m :
  2 ^ 31 ≤ num → mapped m src num → mapped m dst num →
  memcpy (Z.to_nat (2 ^ 31)) dst src num m = Undef Overflow.
Proof.
  intros Hnum Hs Hd. unfold memcpy. apply bind_Undef.
  assert (∀ fuel i m, 0 ≤ i → i + Z.of_nat fuel = 2 ^ 31 → (0 < fuel)%nat →
    mapped m src num → mapped m dst num → memcpy_loop fuel dst src num i m = Undef Overflow) as Hloop.
  { clear m Hs Hd. induction fuel as [|fuel IH]; intros i m Hi Hsum Hpos Hs Hd; [lia|].
    cbn [memcpy_loop]. rewrite (proj2 (Z.ltb_lt _ _)) by lia.
    destruct (Hs (src + i)) as [b Hb]; [lia|].
    rewrite (bind_Ret _ _ _ b m) by (by apply load8_eq).
    erewrite bind_Ret by (apply store8_eq, Hd; lia).
    destruct (Z.eqb_spec i (2 ^ 31 - 1)) as [|Hne]; [done|].
    apply IH; [lia|lia|lia|by apply mapped_insert..]. }
  apply Hloop; [lia|rewrite Z2Nat.id; lia|lia|done..].
Qed.

(** ** The theorems on concrete memories *)

Definition zeros (a n : Z) : mem := list_to_map ((λ x, (x, 0)) <$> seqZ a n).

Lemma zeros_mapped a n b k : a ≤ b → b + k ≤ a + n → mapped (zeros a n) b k.
Proof.
  intros Hb Hk x Hx. destruct (zeros a n !! x) eqn:E; [by eexists|].
  apply not_elem_of_list_to_map_2 in E. exfalso. apply E.
  rewrite <-list_fmap_compose. apply list_elem_of_fmap. exists x. split; [done|].
  apply elem_of_seqZ. lia.
Qed.

Lemma bzero_clears_witness :
  wp (bzero 4 10 3)
    (λ _ m', ∀ x, m' !! x = if decide (10 ≤ x < 10 + 3) then Some 0 else zeros 10 5 !! x) (zeros 10 5).
Proof. apply (bzero_clears 4 10 3 (zeros 10 5)); [apply zeros_mapped; lia|lia]. Defined.

Definition abc : mem := {[ 7 := 97; 8 := 98; 9 := 99; 10 := 0 ]}.

Lemma strlen_counts_witness : strlen 4 7 abc = Ret (Z.of_nat (length [97; 98; 99]), abc).
Proof.
  apply (strlen_counts 4 7 [97; 98; 99] abc); [|simpl; lia]. split; [|reflexivity].
  intros [|[|[|i]]] b Hb; simplify_eq/=; split; reflexivity || lia.
Defined.

Lemma memcpy_copies_witness :
  wp (memcpy 4 20 7 3)
    (λ r m', r = 20 ∧
       ∀ x, m' !! x = if decide (20 ≤ x < 20 + 3) then (λ b, b mod 256) <$> zeros 5 30 !! (7 + (x - 20))
                      else zeros 5 30 !! x) (zeros 5 30).
Proof. apply (memcpy_copies 4 20 7 3 (zeros 5 30)); try lia; apply zeros_mapped; lia. Defined.

Lemma memcpy_long_overflows_witness :
  memcpy (Z.to_nat (2 ^ 31)) 0 (2 ^ 31) (2 ^ 31) (zeros 0 (2 ^ 32)) = Undef Overflow.
Proof. apply (memcpy_long_overflows 0 (2 ^ 31) (2 ^ 31)); [lia|apply zeros_mapped; lia..]. Defined.
