(* ===== verification/MiniCall.v ===== *)
(** * libmini: system-call wrappers and perror

    Each wrapper of libmini.c makes one system call and turns its result into
    a return value and [errno].  The kernel is a parameter. *)
From S2P Require Import Prelude Libc.

(** The kernel: a system call by number, on the values of its argument
    registers; write(2) of the bytes of a string; and nanosleep(2) of a request
    in seconds, with what it stored as the time that remains, if anything. *)
Class MiniKernel (K : Type) : Type := {
  syscall : Z → list Z → K → Z * K;
  sys_nanosleep : Z → K → Z * option Z * K;
  sys_write_text : Z → string → K → Z * K }.

Record Mini (K : Type) : Type := MkMini { errno : Z; kern : K }.
Arguments MkMini {K} _ _.
Arguments errno {K} _.
Arguments kern {K} _.

Section minicall.
Context {K : Type} `{MiniKernel K}.

(** The macro [gensys nr, name] of libmini64.asm. *)
Definition gensys (nr : Z) (args : list Z) : M (Mini K) Z := λ s,
  let '(r, k) := syscall nr args (kern s) in Ret (r, MkMini (errno s) k).

Definition put_errno (e : Z) : M (Mini K) unit := modify (λ s, MkMini e (kern s)).

(** [-ret] on a [long], and what [neg rax] leaves in the register. *)
Definition neg_long (ret : Z) : option Z := if ret =? - 2 ^ 63 then None else Some (- ret).
Definition neg_rax (ret : Z) : option Z := Some (sint 64 (- ret)).

(** [errno = -ret; return failed;] *)
Definition fail (neg : Z → option Z) (ret failed : Z) : M (Mini K) Z :=
  match neg ret with
  | Some e => put_errno e ≫= λ _, mret failed
  | None => undef Overflow
  end.

(** [WRAPPER_RETval(type)]: [cast] is the conversion to the type. *)
Definition WRAPPER_RETval (cast : Z → Z) (ret : Z) : M (Mini K) Z :=
  put_errno 0 ≫= λ _,
  if ret <? 0 then fail neg_long ret (-1) else mret (cast ret).
(** [WRAPPER_RETptr(type)]: the null pointer is 0. *)
Definition WRAPPER_RETptr (ret : Z) : M (Mini K) Z :=
  put_errno 0 ≫= λ _,
  if ret <? 0 then fail neg_long ret 0 else mret ret.

Definition int : Z → Z := sint 32.
Definition ssize_t : Z → Z := sint 64.

Definition read (fd buf count : Z) : M (Mini K) Z :=
  ret ← gensys 0 [fd; buf; count]; WRAPPER_RETval ssize_t ret.
Definition write (fd buf count : Z) : M (Mini K) Z :=
  ret ← gensys 1 [fd; buf; count]; WRAPPER_RETval ssize_t ret.
(** [open] is written in assembly, with the test before the reset. *)
Definition open (filename flags mode : Z) : M (Mini K) Z :=
  ret ← gensys 2 [filename; flags; mode];
  if ret <? 0 then fail neg_rax ret (-1)
  else put_errno 0 ≫= λ _, mret (int ret).
Definition close (fd : Z) : M (Mini K) Z := ret ← gensys 3 [fd]; WRAPPER_RETval int ret.
Definition mmap (addr len prot flags fd off : Z) : M (Mini K) Z :=
  ret ← gensys 9 [addr; len; prot; flags; fd; off]; WRAPPER_RETptr ret.
Definition mprotect (addr len prot : Z) : M (Mini K) Z :=
  ret ← gensys 10 [addr; len; prot]; WRAPPER_RETval int ret.
Definition munmap (addr len : Z) : M (Mini K) Z := ret ← gensys 11 [addr; len]; WRAPPER_RETval int ret.
Definition pipe (filedes : Z) : M (Mini K) Z := ret ← gensys 22 [filedes]; WRAPPER_RETval int ret.
Definition dup (filedes : Z) : M (Mini K) Z := ret ← gensys 32 [filedes]; WRAPPER_RETval int ret.
Definition dup2 (oldfd newfd : Z) : M (Mini K) Z := ret ← gensys 33 [oldfd; newfd]; WRAPPER_RETval int ret.
Definition pause : M (Mini K) Z := ret ← gensys 34 []; WRAPPER_RETval int ret.

(** The wrapper calls itself, not [sys_nanosleep]; [fuel] counts the calls. *)
Fixpoint nanosleep (fuel : nat) (rqtp rmtp : Z) : M (Mini K) Z :=
  match fuel with
  | O => no_fuel
  | S fuel => ret ← nanosleep fuel rqtp rmtp; WRAPPER_RETval int ret
  end.

(** [sleep] of libmini64.asm: the full seconds of what remains when a signal
    interrupts it, 0 on another error; [errno] is left alone. *)
Definition EINTR : Z := 4.
Definition sleep (seconds : Z) : M (Mini K) Z := λ s,
  let '(rax, rem, k) := sys_nanosleep seconds (kern s) in
  (if 0 <=? rax then mret (wrap32 rax)
   else if - rax =? EINTR then tv_sec ← read_init rem; mret (wrap32 tv_sec)
   else mret 0) (MkMini (errno s) k).

Definition alarm (seconds : Z) : M (Mini K) Z := ret ← gensys 37 [seconds]; WRAPPER_RETval int ret.
Definition fork : M (Mini K) Z := ret ← gensys 57 []; WRAPPER_RETval int ret.
(** exit(2) does not return. *)
Definition exit (error_code : Z) : M (Mini K) unit := exits error_code.
Definition getcwd (buf size : Z) : M (Mini K) Z := ret ← gensys 79 [buf; size]; WRAPPER_RETptr ret.
Definition chdir (pathname : Z) : M (Mini K) Z := ret ← gensys 80 [pathname]; WRAPPER_RETval int ret.
Definition rename (oldname newname : Z) : M (Mini K) Z :=
  ret ← gensys 82 [oldname; newname]; WRAPPER_RETval int ret.
Definition mkdir (pathname mode : Z) : M (Mini K) Z := ret ← gensys 83 [pathname; mode]; WRAPPER_RETval int ret.
Definition rmdir (pathname : Z) : M (Mini K) Z := ret ← gensys 84 [pathname]; WRAPPER_RETval int ret.
Definition creat (pathname mode : Z) : M (Mini K) Z := ret ← gensys 85 [pathname; mode]; WRAPPER_RETval int ret.
Definition link (oldname newname : Z) : M (Mini K) Z :=
  ret ← gensys 86 [oldname; newname]; WRAPPER_RETval int ret.
(* the macro is called with the number 88, which is that of symlink(2) *)
Definition unlink (pathname : Z) : M (Mini K) Z := ret ← gensys 88 [pathname]; WRAPPER_RETval int ret.
Definition readlink (path buf bufsz : Z) : M (Mini K) Z :=
  ret ← gensys 89 [path; buf; bufsz]; WRAPPER_RETval ssize_t ret.
Definition chmod (filename mode : Z) : M (Mini K) Z := ret ← gensys 90 [filename; mode]; WRAPPER_RETval int ret.
Definition chown (filename user group : Z) : M (Mini K) Z :=
  ret ← gensys 92 [filename; user; group]; WRAPPER_RETval int ret.
Definition umask (mask : Z) : M (Mini K) Z := ret ← gensys 95 [mask]; WRAPPER_RETval int ret.
Definition gettimeofday (tv tz : Z) : M (Mini K) Z := ret ← gensys 96 [tv; tz]; WRAPPER_RETval int ret.
Definition getuid : M (Mini K) Z := ret ← gensys 102 []; WRAPPER_RETval int ret.
Definition getgid : M (Mini K) Z := ret ← gensys 104 []; WRAPPER_RETval int ret.
Definition setuid (uid : Z) : M (Mini K) Z := ret ← gensys 105 [uid]; WRAPPER_RETval int ret.
Definition setgid (gid : Z) : M (Mini K) Z := ret ← gensys 106 [gid]; WRAPPER_RETval int ret.
Definition geteuid : M (Mini K) Z := ret ← gensys 107 []; WRAPPER_RETval int ret.
Definition getegid : M (Mini K) Z := ret ← gensys 108 []; WRAPPER_RETval int ret.

(** *** perror *)

Definition PERRMSG_MIN : Z := 0.
Definition PERRMSG_MAX : Z := 34.
Definition errmsg : list string :=
  ["Success"; "Operation not permitted"; "No such file or directory"; "No such process";
   "Interrupted system call"; "I/O error"; "No such device or address";
   "Argument list too long"; "Exec format error"; "Bad file number"; "No child processes";
   "Try again"; "Out of memory"; "Permission denied"; "Bad address"; "Block device required";
   "Device or resource busy"; "File exists"; "Cross-device link"; "No such device";
   "Not a directory"; "Is a directory"; "Invalid argument"; "File table overflow";
   "Too many open files"; "Not a typewriter"; "Text file busy"; "File too large";
   "No space left on device"; "Illegal seek"; "Read-only file system"; "Too many links";
   "Broken pipe"; "Math argument out of domain of func"; "Math result not representable"].

(** [write(fd, s, strlen(s))] *)
Definition write_text (fd : Z) (s : string) : M (Mini K) Z :=
  ret ← (λ st, let '(r, k) := sys_write_text fd s (kern st) in Ret (r, MkMini (errno st) k));
  WRAPPER_RETval ssize_t ret.

(** [errmsg[i]] *)
Definition errmsg_at (i : Z) : M (Mini K) string :=
  if i <? 0 then undef OutOfBounds
  else match errmsg !! Z.to_nat i with Some m => mret m | None => undef OutOfBounds end.

Definition perror (prefix : option string) : M (Mini K) unit :=
  backup ← gets errno;
  (match prefix with
   | Some p => write_text 2 p ≫= λ _, write_text 2 ": " ≫= λ _, mret tt
   | None => mret tt
   end) ≫= λ _,
  e ← gets errno;
  (if (e <? PERRMSG_MIN) || (PERRMSG_MAX <? e) then write_text 2 "Unknown"
   else m ← errmsg_at backup; write_text 2 m) ≫= λ _,
  write_text 2 newline ≫= λ _, mret tt.

(** ** The convention of system calls *)

(** What a call of number [nr] must do: a negative result is an error number,
    whose negation [neg] is undefined if it overflows. *)
Definition convention (cast : Z → Z) (failed : Z) (neg : Z → option Z) (nr : Z) (args : list Z)
    (s : Mini K) : outcome (Z * Mini K) :=
  let '(r, k) := syscall nr args (kern s) in
  if r <? 0 then
    match neg r with Some e => Ret (failed, MkMini e k) | None => Undef Overflow end
  else Ret (cast r, MkMini 0 k).

(** Only [open], in assembly, negates the register. *)
Definition negation (name : string) : Z → option Z :=
  if decide (name = "open") then neg_rax else neg_long.

(** Numbers of the system calls of Linux on x86-64. *)
Definition linux_nr (name : string) : option Z :=
  list_to_map (M := gmap string Z)
    [("read", 0); ("write", 1); ("open", 2); ("close", 3); ("mprotect", 10); ("munmap", 11); ("pipe", 22);
     ("dup", 32); ("dup2", 33); ("pause", 34); ("nanosleep", 35); ("alarm", 37); ("fork", 57);
     ("chdir", 80); ("rename", 82); ("mkdir", 83); ("rmdir", 84); ("creat", 85); ("link", 86);
     ("unlink", 87); ("symlink", 88); ("readlink", 89); ("chmod", 90); ("chown", 92);
     ("umask", 95); ("gettimeofday", 96); ("getuid", 102); ("getgid", 104); ("setuid", 105);
     ("setgid", 106); ("geteuid", 107); ("getegid", 108)] !! name.

(** The wrappers that return a value, by the number of their parameters. *)
Inductive call : Type :=
  | Call0 (m : M (Mini K) Z)
  | Call1 (f : Z → M (Mini K) Z)
  | Call2 (f : Z → Z → M (Mini K) Z)
  | Call3 (f : Z → Z → Z → M (Mini K) Z).

Definition apply_call (c : call) (args : list Z) : option (M (Mini K) Z) :=
  match c, args with
  | Call0 m, [] => Some m
  | Call1 f, [a] => Some (f a)
  | Call2 f, [a; b] => Some (f a b)
  | Call3 f, [a; b; c] => Some (f a b c)
  | _, _ => None
  end.

Definition wrappers : list (string * (Z → Z) * call) :=
  [("read", ssize_t, Call3 read); ("write", ssize_t, Call3 write); ("open", int, Call3 open);
   ("close", int, Call1 close);
   ("mprotect", int, Call3 mprotect); ("munmap", int, Call2 munmap); ("pipe", int, Call1 pipe);
   ("dup", int, Call1 dup); ("dup2", int, Call2 dup2); ("pause", int, Call0 pause);
   ("alarm", int, Call1 alarm); ("fork", int, Call0 fork); ("chdir", int, Call1 chdir);
   ("rename", int, Call2 rename); ("mkdir", int, Call2 mkdir); ("rmdir", int, Call1 rmdir);
   ("creat", int, Call2 creat); ("link", int, Call2 link); ("readlink", ssize_t, Call3 readlink);
   ("chmod", int, Call2 chmod); ("chown", int, Call3 chown); ("umask", int, Call1 umask);
   ("gettimeofday", int, Call2 gettimeofday); ("getuid", int, Call0 getuid);
   ("getgid", int, Call0 getgid); ("setuid", int, Call1 setuid); ("setgid", int, Call1 setgid);
   ("geteuid", int, Call0 geteuid); ("getegid", int, Call0 getegid)].

Lemma retval_convention cast nr args s :
  (ret ← gensys nr args; WRAPPER_RETval cast ret) s = convention cast (-1) neg_long nr args s.
Proof.
  unfold gensys, WRAPPER_RETval, fail, convention, mbind, M_bind.
  destruct (syscall nr args (kern s)) as [r k]. simpl. by destruct (r <? 0), (neg_long r).
Qed.
Lemma retptr_convention nr args s :
  (ret ← gensys nr args; WRAPPER_RETptr ret) s = convention id 0 neg_long nr args s.
Proof.
  unfold gensys, WRAPPER_RETptr, fail, convention, mbind, M_bind.
  destruct (syscall nr args (kern s)) as [r k]. simpl. by destruct (r <? 0), (neg_long r).
Qed.

Lemma open_convention filename flags mode s :
  open filename flags mode s = convention int (-1) neg_rax 2 [filename; flags; mode] s.
Proof.
  unfold open, gensys, fail, convention, mbind, M_bind.
  destruct (syscall 2 _ (kern s)) as [r k]. simpl. by destruct (r <? 0).
Qed.

(** C21. Each of the 29 wrappers issues exactly the system call of its name, with
    its own arguments in order: a result that is not negative is returned,
    converted to the type, with [errno] 0; a negative one gives -1 with [errno]
    its opposite.  The opposite of the least [long], which is no error number,
    overflows in C and is itself in the register [open] negates. *)
Theorem wrappers_follow_convention name cast c args m nr s :
  In (name, cast, c) wrappers → apply_call c args = Some m → linux_nr name = Some nr →
  m s = convention cast (-1) (negation name) nr args s.
Proof.
  intros Hin Hm Hnr. revert Hm Hnr. cbn [In wrappers] in Hin.
  repeat destruct Hin as [[= <- <- <-]|Hin]; try (by destruct Hin);
    (destruct args as [|? [|? [|? [|]]]]; try (intros Hd; discriminate Hd); intros [= <-] Hnr;
     vm_compute in Hnr; injection Hnr as <-;
     first [apply retval_convention | apply open_convention]).
Qed.

(** [unlink] is wired to number 88: it makes the call symlink(2), which no
    wrapper offers, and never unlink(2), which is 87. *)
Theorem unlink_is_symlink pathname s :
  ∃ nr, linux_nr "symlink" = Some nr ∧ linux_nr "unlink" ≠ Some nr ∧
    unlink pathname s = convention int (-1) neg_long nr [pathname] s.
Proof.
  exists 88. split; [reflexivity|]. split; [vm_compute; congruence|]. apply retval_convention.
Qed.

(** [nanosleep] calls itself before anything else: whatever number of calls
    is allowed, it does not return and no system call is made. *)
Theorem nanosleep_never_returns fuel rqtp rmtp s : nanosleep fuel rqtp rmtp s = NoFuel.
Proof.
  induction fuel as [|fuel IH]; [done|]. cbn [nanosleep]. unfold mbind, M_bind. by rewrite IH.
Qed.

(** [sleep] returns 0 when it slept to its end or failed, and what remains when
    it was interrupted; [errno] keeps its value. *)
Theorem sleep_remaining seconds s rem k r :
  sys_nanosleep seconds (kern s) = (r, rem, k) → r ≤ 0 →
  (r = - EINTR → ∃ v, rem = Some v ∧ 0 ≤ v ≤ seconds) → seconds < 2 ^ 32 →
  sleep seconds s = Ret (if r =? - EINTR then default 0 rem else 0, MkMini (errno s) k).
Proof.
  intros E Hr Hrem Hs. unfold sleep. rewrite E. unfold EINTR in *.
  destruct (Z.leb_spec 0 r); [by replace r with 0 by lia|].
  destruct (Z.eqb_spec (- r) 4), (Z.eqb_spec r (- (4))); try lia; [|done].
  destruct Hrem as (v & -> & Hv); [done|]. rewrite read_Some_bind. cbn.
  rewrite wrap32_small by lia. done.
Qed.

(** [getcwd] returns what the system call returned, the length of the path,
    as if it were the pointer to it. *)
Theorem getcwd_returns_length buf size s r k :
  syscall 79 [buf; size] (kern s) = (r, k) → 0 ≤ r →
  getcwd buf size s = Ret (r, MkMini 0 k).
Proof.
  intros E Hr. unfold getcwd. rewrite retptr_convention. unfold convention. rewrite E.
  by rewrite (proj2 (Z.ltb_ge _ _)).
Qed.

(** ** perror *)

(** The texts of a call of [perror], when every write succeeds. *)
Definition writes_succeed : Prop := ∀ fd t k, 0 ≤ fst (sys_write_text fd t k).

Definition written (t : string) (k : K) : K := snd (sys_write_text 2 t k).

Lemma write_text_ok t s :
  writes_succeed → ∃ r, write_text 2 t s = Ret (r, MkMini 0 (written t (kern s))).
Proof.
  intros Hw. unfold write_text, WRAPPER_RETval, written, mbind, M_bind.
  specialize (Hw 2 t (kern s)). destruct (sys_write_text 2 t (kern s)) as [r k]. simpl in *.
  rewrite (proj2 (Z.ltb_ge _ _)) by done. by eexists.
Qed.

Lemma errmsg_at_spec i s :
  errmsg_at i s = match (if decide (PERRMSG_MIN ≤ i ≤ PERRMSG_MAX) then errmsg !! Z.to_nat i else None) with
                  | Some m => Ret (m, s)
                  | None => Undef OutOfBounds
                  end.
Proof.
  unfold errmsg_at, PERRMSG_MIN, PERRMSG_MAX. destruct (Z.ltb_spec i 0) as [Hneg|Hpos].
  - by rewrite decide_False by lia.
  - destruct (decide _) as [Hin|Hout].
    + by destruct (errmsg !! Z.to_nat i).
    + by rewrite lookup_ge_None_2 by (simpl; lia).
Qed.

(** The message of an error number, if the table has it. *)
Definition message (e : Z) : option string :=
  if decide (PERRMSG_MIN ≤ e ≤ PERRMSG_MAX) then errmsg !! Z.to_nat e else None.

Definition in_table (e : Z) : bool := negb ((e <? PERRMSG_MIN) || (PERRMSG_MAX <? e)).

Lemma message_table e : in_table e = bool_decide (is_Some (message e)).
Proof.
  unfold in_table, message, PERRMSG_MIN, PERRMSG_MAX.
  destruct (Z.ltb_spec e 0), (Z.ltb_spec 34 e); simpl.
  1-3: rewrite decide_False by lia; by rewrite bool_decide_eq_false_2 by (intros []; done).
  rewrite decide_True by lia. symmetry. apply bool_decide_eq_true_2, lookup_lt_is_Some_2. simpl. lia.
Qed.

(** The end of the function: the text, then the newline. *)
Lemma perror_tail t s :
  writes_succeed →
  (write_text 2 t ≫= λ _, write_text 2 newline ≫= λ _, mret tt) s
  = Ret (tt, MkMini 0 (written newline (written t (kern s)))).
Proof.
  intros Hw. destruct (write_text_ok t s Hw) as [r Er]. rewrite (bind_Ret _ _ _ _ _ Er).
  destruct (write_text_ok newline (MkMini 0 (written t (kern s))) Hw) as [r' Er']. rewrite (bind_Ret _ _ _ _ _ Er'). done.
Qed.

(** [perror] with a prefix, every write succeeding: the writes of the prefix
    reset [errno], so the range check passes whatever the error was; the table
    is then indexed with the original number.  A known error is reported and
    [errno] is 0 afterwards; an error number outside the table, which the check
    is there to catch, reads outside the array. *)
Lemma perror_with_prefix p s :
  writes_succeed →
  perror (Some p) s =
    match message (errno s) with
    | Some m => Ret (tt, MkMini 0 (written newline (written m (written ": " (written p (kern s))))))
    | None => Undef OutOfBounds
    end.
Proof.
  intros Hw. unfold perror. rewrite (bind_Ret (gets errno) _ s (errno s) s eq_refl).
  set (s1 := MkMini 0 (written ": " (written p (kern s)))).
  rewrite (bind_Ret _ _ s tt s1).
  2:{ destruct (write_text_ok p s Hw) as [r Er]. rewrite (bind_Ret _ _ _ _ _ Er).
      destruct (write_text_ok ": " (MkMini 0 (written p (kern s))) Hw) as [r' Er']. rewrite (bind_Ret _ _ _ _ _ Er'). done. }
  rewrite (bind_Ret (gets errno) _ s1 0 s1 eq_refl).
  change ((0 <? PERRMSG_MIN) || (PERRMSG_MAX <? 0)) with false. cbv iota.
  rewrite bind_assoc_M. unfold mbind at 1, M_bind at 1. rewrite errmsg_at_spec. fold (message (errno s)).
  destruct (message (errno s)) as [m|]; [|done]. by rewrite perror_tail.
Qed.

(** [perror] without a prefix reports the error by its message, or as
    unknown when the table does not have it. *)
Lemma perror_without_prefix s :
  writes_succeed →
  perror None s =
    Ret (tt, MkMini 0 (written newline (written (default "Unknown" (message (errno s))) (kern s)))).
Proof.
  intros Hw. unfold perror. rewrite (bind_Ret (gets errno) _ s (errno s) s eq_refl), ret_bind.
  rewrite (bind_Ret (gets errno) _ s (errno s) s eq_refl).
  pose proof (message_table (errno s)) as Ht. unfold in_table in Ht.
  destruct ((errno s <? PERRMSG_MIN) || (PERRMSG_MAX <? errno s)); simpl in Ht.
  - symmetry in Ht. apply bool_decide_eq_false in Ht.
    destruct (message (errno s)) as [m|]; [by destruct Ht; eexists|]. by rewrite perror_tail.
  - symmetry in Ht. apply bool_decide_eq_true in Ht as [m Hm].
    rewrite bind_assoc_M. unfold mbind at 1, M_bind at 1. rewrite errmsg_at_spec. fold (message (errno s)).
    rewrite Hm. by rewrite perror_tail.
Qed.

End minicall.
