(* ===== verification/MiniErrno.v ===== *)
(** * libmini: the error numbers, and what perror says of them

    libmini.h declares the numbers, each with a comment that says what it
    means; libmini.c has a table of messages of its own. *)
From S2P Require Import Prelude Libc MiniCall.

(** The name, the number and the comment of each. *)
Definition error_numbers : list (string * Z * string) :=
  [("EPERM", 1, "Operation not permitted"); ("ENOENT", 2, "No such file or directory");
   ("ESRCH", 3, "No such process"); ("EINTR", 4, "Interrupted system call"); ("EIO", 5, "I/O error");
   ("ENXIO", 6, "No such device or address"); ("E2BIG", 7, "Argument list too long");
   ("ENOEXEC", 8, "Exec format error"); ("EBADF", 9, "Bad file number");
   ("ECHILD", 10, "No child processes"); ("EAGAIN", 11, "Try again"); ("ENOMEM", 12, "Out of memory");
   ("EACCES", 13, "Permission denied"); ("EFAULT", 14, "Bad address");
   ("ENOTBLK", 15, "Block device required"); ("EBUSY", 16, "Device or resource busy");
   ("EEXIST", 17, "File exists"); ("EXDEV", 18, "Cross-device link"); ("ENODEV", 19, "No such device");
   ("ENOTDIR", 20, "Not a directory"); ("EISDIR", 21, "Is a directory");
   ("EINVAL", 22, "Invalid argument"); ("ENFILE", 23, "File table overflow");
   ("EMFILE", 24, "Too many open files"); ("ENOTTY", 25, "Not a typewriter");
   ("ETXTBSY", 26, "Text file busy"); ("EFBIG", 27, "File too large");
   ("ENOSPC", 28, "No space left on device"); ("ESPIPE", 29, "Illegal seek");
   ("EROFS", 30, "Read-only file system"); ("EMLINK", 31, "Too many links"); ("EPIPE", 32, "Broken pipe");
   ("EDOM", 33, "Math argument out of domain of func"); ("ERANGE", 34, "Math result not representable")].

(** What the header says of a number. *)
Definition error_text (e : Z) : option string :=
  if e =? 0 then Some "Success" else snd <$> find (λ x, x.1.2 =? e) error_numbers.

(** The numbers are 1 to 34. *)
Lemma error_numbers_range x : In x error_numbers → 1 ≤ x.1.2 ≤ 34.
Proof.
  assert (forallb (λ x, (1 <=? x.1.2) && (x.1.2 <=? 34)) error_numbers = true) as Hall by (vm_compute; reflexivity).
  intros Hx. rewrite forallb_forall in Hall. specialize (Hall x Hx). lia.
Qed.

(** The table of messages agrees with the header. *)
Lemma message_error_text e : message e = error_text e.
Proof.
  unfold message, PERRMSG_MIN, PERRMSG_MAX. destruct (decide (0 ≤ e ≤ 34)) as [He|He].
  - assert (∀ n, (n < 35)%nat → errmsg !! n = error_text (Z.of_nat n)) as Htab.
    { intros n Hn. do 35 (destruct n as [|n]; [vm_compute; reflexivity|]). lia. }
    rewrite Htab by lia. by rewrite Z2Nat.id by lia.
  - unfold error_text. rewrite (proj2 (Z.eqb_neq e 0)) by lia.
    destruct (find _ error_numbers) as [x|] eqn:E; [|done].
    apply find_some in E as [Hx%error_numbers_range E%Z.eqb_eq]. lia.
Qed.

Section perror.
Context {K : Type} `{MiniKernel K}.

(** What a line of texts leaves on the terminal, written piece by piece. *)
Definition lines (ts : list string) (k : K) : K := foldl (λ k t, written t k) k ts.

(** C37. [perror], every write succeeding, reports an error the way the header
    describes it, after the prefix when there is one, and leaves [errno] 0; a
    number the header does not have is reported as unknown without a prefix,
    and with one it is used to read outside the table. *)
Theorem perror_reports prefix (s : Mini K) :
  writes_succeed →
  perror prefix s =
    match prefix, error_text (errno s) with
    | None, o => Ret (tt, MkMini 0 (lines [default "Unknown" o; newline] (kern s)))
    | Some p, Some t => Ret (tt, MkMini 0 (lines [p; ": "; t; newline] (kern s)))
    | Some _, None => Undef OutOfBounds
    end.
Proof.
  intros Hw. rewrite <-message_error_text.
  destruct prefix as [p|]; [by apply perror_with_prefix|by apply perror_without_prefix].
Qed.
End perror.
