(* ===== verification/MiniSignal.v ===== *)
(** * libmini: signals and non-local jumps

    [sigprocmask], [sigpending], [sigaction], [signal], [setjmp] and [longjmp]
    of libmini.c.  An object passed by pointer is its value: [None] is the null
    pointer, or an object that was not filled. *)
From S2P Require Import Prelude MiniSig MiniCall.

Definition SIGKILL : Z := 9.
Definition SIGSTOP : Z := 19.
Definition SIG_BLOCK : Z := 0.
Definition SIG_UNBLOCK : Z := 1.
Definition SIG_SETMASK : Z := 2.
Definition SA_NODEFER : Z := 0x40000000.
Definition SA_RESETHAND : Z := 0x80000000.
Definition SA_ONESHOT : Z := 0x10.
Definition SA_NOMASK : Z := 0x08.
Definition SA_RESTORER : Z := 0x4000000.
Definition SIG_ERR : Z := -1.

(** [struct sigaction]; the restorer of a local variable is not initialised. *)
Record sigaction_t : Type := SigAction {
  sa_handler : Z; sa_mask : Z; sa_flags : Z; sa_restorer : option Z }.

Record kernel_sigaction : Type := KSigAction {
  k_sa_handler : Z; k_sa_flags : Z; k_sa_restorer : Z; k_sa_mask : Z }.

Record jmp_buf : Type := JmpBuf { reg : list Z; mask : option Z }.

(** The registers the jump functions save, as the caller of [setjmp] has them
    when the call returns. *)
Record cpu : Type := Cpu {
  c_rbx : Z; c_rsp : Z; c_rbp : Z; c_r12 : Z; c_r13 : Z; c_r14 : Z; c_r15 : Z; c_rip : Z }.

(** The signal calls of the kernel, with the objects they fill, and the address
    of [restore_rt]. *)
Class SignalKernel (K : Type) : Type := {
  rt_sigprocmask : Z → option Z → K → Z * Z * K;
  rt_sigpending : K → Z * Z * K;
  rt_sigaction : Z → kernel_sigaction → K → Z * kernel_sigaction * K;
  restore_rt : Z }.

Section minisignal.
Context {K : Type} `{SignalKernel K}.

(** A call that may fill an object: its result, and the object when it was. *)
Definition sys_call {A} (f : K → Z * A * K) : M (Mini K) (Z * option A) := λ s,
  let '(r, a, k) := f (kern s) in Ret ((r, if r <? 0 then None else Some a), MkMini (errno s) k).

(** [sigprocmask(how, set, oset)]: the result and what was stored in [*oset]. *)
Definition sigprocmask (how : Z) (set : option Z) : M (Mini K) (Z * option Z) :=
  '(ret, oset) ← sys_call (rt_sigprocmask how set);
  r ← WRAPPER_RETval int ret; mret (r, oset).

Definition sigpending : M (Mini K) (Z * option Z) :=
  '(ret, set) ← sys_call rt_sigpending;
  r ← WRAPPER_RETval int ret; mret (r, set).

(** [sigaction(sig, act, oact)]: [oact] says whether the pointer is not null. *)
Definition sigaction (sig : Z) (act : option sigaction_t) (oact : bool)
  : M (Mini K) (Z * option sigaction_t) :=
  act ← deref act;
  let kact := KSigAction (sa_handler act) (Z.lor (sa_flags act) SA_RESTORER) restore_rt (sa_mask act) in
  '(ret, koact) ← sys_call (rt_sigaction sig kact);
  let old := if oact && (0 <=? ret)
             then (λ k, SigAction (k_sa_handler k) (k_sa_mask k) (k_sa_flags k) (Some (k_sa_restorer k))) <$> koact
             else None in
  r ← WRAPPER_RETval int ret; mret (r, old).

Definition signal (signum handler : Z) : M (Mini K) Z :=
  let act := SigAction handler sigemptyset (Z.lor SA_ONESHOT SA_NOMASK) None in
  '(r, oact) ← sigaction signum (Some act) true;
  if r <? 0 then mret SIG_ERR
  else
    old ← read_init oact;
    WRAPPER_RETptr (sa_handler old).

(** ** Jumps *)

(** [setjmp] called with the registers [c]. *)
Definition setjmp (c : cpu) : M (Mini K) (jmp_buf * Z) :=
  '(_, m) ← sigprocmask SIG_UNBLOCK None;
  mret (JmpBuf [c_rbx c; c_rsp c; c_rbp c; c_r12 c; c_r13 c; c_r14 c; c_r15 c; c_rip c] m, 0).

(** [longjmp]: the registers it leaves and the value [setjmp] seems to return. *)
Definition longjmp (env : jmp_buf) (val : Z) : M (Mini K) (cpu * Z) :=
  m ← read_init (mask env);
  sigprocmask SIG_BLOCK (Some m) ≫= λ _,
  match reg env with
  | [rbx; rsp; rbp; r12; r13; r14; r15; rip] =>
      mret (Cpu rbx rsp rbp r12 r13 r14 r15 rip, if val =? 0 then 1 else val)
  | _ => undef OutOfBounds
  end.

End minisignal.

(** ** What the kernel documents *)

Definition unblockable : gset Z := {[SIGKILL; SIGSTOP]}.

Class SignalLaws (K : Type) `{SignalKernel K} : Type := {
  k_mask : K → Z;
  k_action : K → Z → kernel_sigaction;
  procmask_null how k : rt_sigprocmask how None k = (0, k_mask k, k);
  procmask_block w k : ∃ k', rt_sigprocmask SIG_BLOCK (Some w) k = (0, k_mask k, k') ∧
    signals (k_mask k') = (signals (k_mask k) ∪ signals w) ∖ unblockable ∧ k_action k' = k_action k;
  k_mask_blockable k : signals (k_mask k) ## unblockable;
  (** SIGKILL and SIGSTOP cannot be caught; the error is EINVAL *)
  sigaction_ok sig a k : 1 ≤ sig ≤ 64 → sig ∉ unblockable →
    ∃ k', rt_sigaction sig a k = (0, k_action k sig, k') ∧ k_action k' sig = a ∧
      (∀ sig', sig' ≠ sig → k_action k' sig' = k_action k sig') ∧ k_mask k' = k_mask k;
  sigaction_bad sig a k : ¬ (1 ≤ sig ≤ 64 ∧ sig ∉ unblockable) →
    rt_sigaction sig a k = (-22, k_action k sig, k) }.

Section theorems.
Context {K : Type} `{SignalLaws K}.
Implicit Types (s : Mini K).

Definition catchable (sig : Z) : Prop := 1 ≤ sig ≤ 64 ∧ sig ∉ unblockable.
#[local] Instance catchable_dec sig : Decision (catchable sig) := ltac:(unfold catchable; apply _).

(** What the kernel is given for [act]. *)
Definition installed (act : sigaction_t) : kernel_sigaction :=
  KSigAction (sa_handler act) (Z.lor (sa_flags act) SA_RESTORER) restore_rt (sa_mask act).
Definition reported (k : kernel_sigaction) : sigaction_t :=
  SigAction (k_sa_handler k) (k_sa_mask k) (k_sa_flags k) (Some (k_sa_restorer k)).

Lemma sigaction_spec sig act oact s :
  catchable sig →
  ∃ k', sigaction sig (Some act) oact s
        = Ret ((0, if oact then Some (reported (k_action (kern s) sig)) else None), MkMini 0 k') ∧
    k_action k' sig = installed act ∧ (∀ sig', sig' ≠ sig → k_action k' sig' = k_action (kern s) sig') ∧
    k_mask k' = k_mask (kern s).
Proof.
  intros [Hs Hu]. destruct (sigaction_ok sig (installed act) (kern s) Hs Hu) as (k' & E & Ha & Ho & Hm).
  exists k'. split_and!; [|done..]. unfold installed in E.
  unfold sigaction, deref. rewrite ret_bind. unfold sys_call, mbind, M_bind. rewrite E. simpl.
  unfold WRAPPER_RETval, fail, put_errno, modify, mbind, M_bind, mret, M_ret. simpl. by rewrite andb_true_r; destruct oact.
Qed.

(** [sigaction] on a signal that can be caught returns 0, installs the
    action with SA_RESTORER and [restore_rt], leaves the other signals and the
    mask alone, and a second call reports exactly what the first installed. *)
Theorem sigaction_reports_installed sig act act' s :
  catchable sig →
  ∃ s1, sigaction sig (Some act) false s = Ret ((0, None), s1) ∧ errno s1 = 0 ∧
    k_action (kern s1) sig = installed act ∧
    (∀ sig', sig' ≠ sig → k_action (kern s1) sig' = k_action (kern s) sig') ∧
    k_mask (kern s1) = k_mask (kern s) ∧
    ∃ s2, sigaction sig (Some act') true s1 =
          Ret ((0, Some (SigAction (sa_handler act) (sa_mask act) (Z.lor (sa_flags act) SA_RESTORER)
                           (Some restore_rt))), s2).
Proof.
  intros Hs. destruct (sigaction_spec sig act false s Hs) as (k1 & E1 & Ha & Ho & Hm).
  exists (MkMini 0 k1). split_and!; [done..|].
  destruct (sigaction_spec sig act' true (MkMini 0 k1) Hs) as (k2 & E2 & _).
  exists (MkMini 0 k2). rewrite E2. simpl. by rewrite Ha.
Qed.

(** The null action, with which a program asks for the current one, is
    dereferenced. *)
Theorem sigaction_null_undefined sig oact s : sigaction sig None oact s = Undef NullDeref.
Proof. done. Qed.

Lemma sigaction_fails sig act oact s :
  ¬ catchable sig →
  sigaction sig (Some act) oact s = Ret ((-1, None), MkMini 22 (kern s)).
Proof.
  intros Hs. unfold sigaction, deref. rewrite ret_bind. unfold sys_call, mbind, M_bind.
  rewrite (sigaction_bad sig _ (kern s) Hs). simpl. by rewrite andb_false_r.
Qed.

(** C33. [signal] on a signal that can be caught returns the handler it replaces
    and installs the new one with an empty mask; its flags SA_ONESHOT and
    SA_NOMASK have the values of neither SA_RESETHAND nor SA_NODEFER, so the
    handler stays installed and its signal is blocked while it runs.  Any other
    signal gives SIG_ERR with [errno] EINVAL and installs nothing. *)
Theorem signal_installs sig handler s :
  0 ≤ k_sa_handler (k_action (kern s) sig) →
  if decide (catchable sig) then
    ∃ k' a, signal sig handler s = Ret (k_sa_handler (k_action (kern s) sig), MkMini 0 k') ∧
      k_action k' sig = a ∧ k_sa_handler a = handler ∧ signals (k_sa_mask a) = ∅ ∧
      Z.land (k_sa_flags a) SA_RESETHAND = 0 ∧ Z.land (k_sa_flags a) SA_NODEFER = 0 ∧
      Z.land (k_sa_flags a) SA_RESTORER ≠ 0 ∧ k_sa_restorer a = restore_rt ∧
      (∀ sig', sig' ≠ sig → k_action k' sig' = k_action (kern s) sig') ∧
      k_mask k' = k_mask (kern s)
  else signal sig handler s = Ret (SIG_ERR, MkMini 22 (kern s)).
Proof.
  intros Hold. unfold signal. set (act := SigAction handler sigemptyset _ None).
  destruct (decide (catchable sig)) as [Hs|Hs].
  - destruct (sigaction_spec sig act true s Hs) as (k' & E & Ha & Ho & Hm).
    exists k', (installed act). split_and!; try done.
    rewrite (bind_Ret _ _ _ _ _ E). cbn -[Z.ltb].
    unfold WRAPPER_RETptr, fail, put_errno, modify, mbind, M_bind, mret, M_ret. cbn -[Z.ltb].
    change (0 <? 0) with false. cbv beta iota. by rewrite (proj2 (Z.ltb_ge _ 0) Hold).
  - by rewrite (bind_Ret _ _ _ _ _ (sigaction_fails sig act true s Hs)).
Qed.

(** ** A jump back *)

Lemma sigprocmask_query s :
  sigprocmask SIG_UNBLOCK None s = Ret ((0, Some (k_mask (kern s))), MkMini 0 (kern s)).
Proof. unfold sigprocmask, sys_call, mbind, M_bind. by rewrite procmask_null. Qed.

Lemma sigprocmask_block w s :
  ∃ k', sigprocmask SIG_BLOCK (Some w) s = Ret ((0, Some (k_mask (kern s))), MkMini 0 k') ∧
    k' = (rt_sigprocmask SIG_BLOCK (Some w) (kern s)).2 ∧
    signals (k_mask k') = (signals (k_mask (kern s)) ∪ signals w) ∖ unblockable ∧
    k_action k' = k_action (kern s).
Proof.
  destruct (procmask_block w (kern s)) as (k' & E & Hm & Ha). exists k'. split_and!; [| |done..].
  - unfold sigprocmask, sys_call, mbind, M_bind. by rewrite E.
  - by rewrite E.
Qed.

(** What [setjmp] called with the registers [c] fills while the mask is [m]. *)
Definition saved (c : cpu) (m : Z) : jmp_buf :=
  JmpBuf [c_rbx c; c_rsp c; c_rbp c; c_r12 c; c_r13 c; c_r14 c; c_r15 c; c_rip c] (Some m).

Lemma setjmp_ok c s : setjmp c s = Ret ((saved c (k_mask (kern s)), 0), MkMini 0 (kern s)).
Proof. unfold setjmp. by rewrite (bind_Ret _ _ _ _ _ (sigprocmask_query s)). Qed.

Lemma longjmp_ok c m val s :
  ∃ k', longjmp (saved c m) val s = Ret ((c, if val =? 0 then 1 else val), MkMini 0 k') ∧
    k' = (rt_sigprocmask SIG_BLOCK (Some m) (kern s)).2 ∧
    signals (k_mask k') = (signals (k_mask (kern s)) ∪ signals m) ∖ unblockable ∧
    k_action k' = k_action (kern s).
Proof.
  destruct (sigprocmask_block m s) as (k' & E & Hk). exists k'. split; [|done].
  unfold longjmp. cbn [saved mask read_init]. rewrite ret_bind, (bind_Ret _ _ _ _ _ E). cbn. by destruct c.
Qed.

(** C34. [longjmp] to what [setjmp] filled: [setjmp] returned 0 first and seems
    to return [val], or 1 for 0, in all the registers of its caller.  The
    signal mask is not restored but extended: the signals blocked afterwards
    are those blocked at the jump together with those blocked at [setjmp]. *)
Theorem setjmp_longjmp c val s s' :
  ∃ env s1, setjmp c s = Ret ((env, 0), s1) ∧ kern s1 = kern s ∧
  ∃ s2, longjmp env val s' = Ret ((c, if val =? 0 then 1 else val), s2) ∧ errno s2 = 0 ∧
    k_action (kern s2) = k_action (kern s') ∧
    signals (k_mask (kern s2)) = signals (k_mask (kern s')) ∪ signals (k_mask (kern s)).
Proof.
  eexists _, (MkMini 0 (kern s)). split; [apply setjmp_ok|]. split; [done|].
  destruct (longjmp_ok c (k_mask (kern s)) val s') as (k' & E & _ & Hm & Ha).
  exists (MkMini 0 k'). split_and!; [done..|]. cbn [kern]. rewrite Hm.
  pose proof (k_mask_blockable (kern s)). pose proof (k_mask_blockable (kern s')). set_solver.
Qed.

End theorems.
