(* ===== verification/MiniProgs.v ===== *)
(** * libmini: the programs that jump

    jmp1.c and jmp2.c are the two programs of hw3 that use setjmp and longjmp.
    A jump goes back to where [setjmp] returned: the program is the code after
    that point, entered with the value [setjmp] seems to return.  [here] are the
    registers main has there; a jump with other registers would go somewhere
    else. *)
From S2P Require Import Prelude Libc MiniSig MiniCall MiniSignal.

Definition SIGALRM : Z := 14.

Section programs.
Context {K : Type} `{MiniKernel K} `{!SignalKernel K} (here : cpu).

#[local] Instance cpu_eq_dec : EqDecision cpu.
Proof. solve_decision. Defined.

(** A jump to the point [after], which is entered with the value. *)
Definition jump_to {A} (after : Z → M (Mini K) A) (jb : jmp_buf) (val : Z) : M (Mini K) A :=
  '(c, v) ← longjmp jb val;
  if decide (c = here) then after v else undef InvalidAccess.

(** ** jmp1.c *)

(** [FUNBODY(m, from)] of each function: its text and the value it jumps with. *)
Definition funs : list (string * Z) :=
  map (λ f, ("This is function " +:+ fst f +:+ "()." +:+ newline, snd f))
    [("a", 1); ("b", 2); ("c", 3); ("d", 4); ("e", 5); ("f", 6); ("g", 7); ("h", 8); ("i", 9); ("j", 10)].

(** From the return of [setjmp] with [val]; [i] is the variable of main, and
    [fuel] bounds the jumps. *)
Fixpoint jmp1_after (fuel : nat) (jb : jmp_buf) (i val : Z) : M (Mini K) Z :=
  match fuel with
  | O => no_fuel
  | S fuel =>
      let i := if negb (val =? 0) then int (i + 1) else i in
      if i <? 10 then
        '(m, from) ← at_index funs (Z.to_nat i);
        write_text 1 m ≫= λ _,
        jump_to (jmp1_after fuel jb i) jb from
      else mret 0
  end.
Definition jmp1_main (fuel : nat) : M (Mini K) Z :=
  '(jb, val) ← setjmp here; jmp1_after fuel jb 0 val.

(** ** jmp2.c *)

Definition PRINT (s : string) : M (Mini K) Z := write_text 1 s.

Fixpoint jmp2_after (fuel : nat) (jb : jmp_buf) (has_jumped val : Z) : M (Mini K) Z :=
  match fuel with
  | O => no_fuel
  | S fuel =>
      has_jumped ←
        (if negb (val =? 0) then
           PRINT ("after setjmp" +:+ newline) ≫= λ _,
           '(_, set_after_jmp) ← sigprocmask 0 None;
           m ← pure (sigismember (default sigemptyset set_after_jmp) SIGALRM);
           (if negb (m =? 0) then PRINT ("PASS: The sigmask is preserved" +:+ newline)
            else PRINT ("FAIL: The sigmask is not preserved" +:+ newline)) ≫= λ _, mret 1
         else mret has_jumped);
      if has_jumped =? 0 then
        PRINT ("before longjmp" +:+ newline) ≫= λ _,
        jump_to (jmp2_after fuel jb has_jumped) jb 1
      else mret 0
  end.
Definition jmp2_main (fuel : nat) : M (Mini K) Z :=
  set ← pure (sigaddset sigemptyset SIGALRM);
  sigprocmask SIG_BLOCK (Some set) ≫= λ _,
  PRINT ("before setjmp" +:+ newline) ≫= λ _,
  '(jb, val) ← setjmp here;
  jmp2_after fuel jb 0 val.
End programs.

(** ** What they print *)

(** The text a terminal has received: writes to descriptor 1 reach it whole, and
    the calls about signals do not touch it. *)
Class Terminal (K : Type) `{MiniKernel K} `{SignalLaws K} : Type := {
  shown_text : K → string;
  write_shown t k : ∃ k', sys_write_text 1 t k = (Z.of_nat (String.length t), k') ∧
    shown_text k' = shown_text k +:+ t ∧ k_mask k' = k_mask k ∧ k_action k' = k_action k;
  procmask_shown how set k : shown_text (rt_sigprocmask how set k).2 = shown_text k }.

Section theorems.
Context {K : Type} `{Terminal K} (here : cpu).
Implicit Types (s : Mini K).

Lemma write_text_shown t s :
  ∃ r k', write_text 1 t s = Ret (r, MkMini 0 k') ∧ shown_text k' = shown_text (kern s) +:+ t ∧
    k_mask k' = k_mask (kern s) ∧ k_action k' = k_action (kern s).
Proof.
  destruct (write_shown t (kern s)) as (k' & E & Hk). eexists _, k'. split; [|done].
  unfold write_text, WRAPPER_RETval, fail, put_errno, modify, mbind, M_bind, mret, M_ret. rewrite E. cbn [errno kern].
  by rewrite (proj2 (Z.ltb_ge _ 0)) by lia.
Qed.

(** A jump back to main, with what was blocked at [setjmp] blocked. *)
Lemma jump_to_ok {A} (after : Z → M (Mini K) A) m val s :
  val ≠ 0 →
  ∃ k', jump_to here after (saved here m) val s = after val (MkMini 0 k') ∧ shown_text k' = shown_text (kern s) ∧
    signals (k_mask k') = (signals (k_mask (kern s)) ∪ signals m) ∖ unblockable ∧ k_action k' = k_action (kern s).
Proof.
  intros Hv. destruct (longjmp_ok here m val s) as (k' & E & Hk & Hm & Ha). exists k'. split; [|split_and!; [|done..]].
  - unfold jump_to. rewrite (bind_Ret _ _ _ _ _ E). rewrite (proj2 (Z.eqb_neq val 0)) by done. by rewrite decide_True.
  - rewrite Hk. apply procmask_shown.
Qed.

(** ** jmp1 *)

(** The text of the functions from [i] on. *)
Definition texts (i : nat) : string := foldr (λ f t, fst f +:+ t) EmptyString (drop i funs).

Lemma funs_lookup k : (k < 10)%nat → ∃ t, funs !! k = Some (t, Z.of_nat k + 1) ∧ texts k = t +:+ texts (S k).
Proof. intros Hk. do 10 (destruct k as [|k]; [by eexists|]). lia. Qed.

(** The blocked signals are those [setjmp] saw: the jumps add nothing. *)
Lemma mask_stays m k' s :
  signals (k_mask (kern s)) = signals m →
  signals (k_mask k') = (signals (k_mask (kern s)) ∪ signals m) ∖ unblockable → signals (k_mask k') = signals m.
Proof. intros E ->. pose proof (k_mask_blockable (kern s)) as Hd. rewrite E in Hd |- *. set_solver. Qed.

Lemma jmp1_from n k m fuel i val s :
  (k + n = 10)%nat → (n < fuel)%nat → (if negb (val =? 0) then int (i + 1) else i) = Z.of_nat k →
  signals (k_mask (kern s)) = signals m →
  ∃ s', jmp1_after here fuel (saved here m) i val s = Ret (0, s') ∧
    shown_text (kern s') = shown_text (kern s) +:+ texts k ∧
    signals (k_mask (kern s')) = signals m ∧ k_action (kern s') = k_action (kern s).
Proof.
  revert k fuel i val s. induction n as [|n IH]; intros k [|fuel] i val s Hk Hf Hi Hm; try lia;
    cbn [jmp1_after]; rewrite Hi.
  - replace k with 10%nat by lia. exists s. by rewrite string_app_nil_r.
  - destruct (funs_lookup k ltac:(lia)) as (t & Ht & Et).
    rewrite (proj2 (Z.ltb_lt _ _)), Nat2Z.id by lia. unfold at_index. rewrite Ht, ret_bind. cbv beta iota.
    destruct (write_text_shown t s) as (r & k1 & E1 & Ho1 & Hm1 & Ha1). rewrite (bind_Ret _ _ _ _ _ E1).
    destruct (jump_to_ok (jmp1_after here fuel (saved here m) (Z.of_nat k)) m (Z.of_nat k + 1) (MkMini 0 k1))
      as (k2 & -> & Ho2 & Hm2 & Ha2); [lia|]. cbn [kern] in *.
    destruct (IH (S k) fuel (Z.of_nat k) (Z.of_nat k + 1) (MkMini 0 k2)) as (s' & E & Ho & Hm' & Ha); [lia..| | |].
    + rewrite (proj2 (Z.eqb_neq (Z.of_nat k + 1) 0)) by lia. cbn [negb]. unfold int. rewrite sint_id; lia.
    + apply (mask_stays m k2 (MkMini 0 k1)); cbn [kern]; [by rewrite Hm1|done].
    + exists s'. cbn [kern] in *. rewrite Ho, Ho2, Ho1, Et, string_app_assoc. split_and!; [done..|congruence].
Qed.

(** C35. jmp1 of hw3 ends with 0 after ten jumps, having written the texts of its
    ten functions in their order; the blocked signals and the actions are as
    they were. *)
Theorem jmp1_writes fuel s :
  (10 < fuel)%nat →
  ∃ s', jmp1_main here fuel s = Ret (0, s') ∧
    shown_text (kern s') = shown_text (kern s) +:+ texts 0 ∧
    signals (k_mask (kern s')) = signals (k_mask (kern s)) ∧ k_action (kern s') = k_action (kern s).
Proof.
  intros Hf. unfold jmp1_main. rewrite (bind_Ret _ _ _ _ _ (setjmp_ok here s)).
  by apply (jmp1_from 10 0 (k_mask (kern s)) fuel 0 0 (MkMini 0 (kern s))).
Qed.

(** ** jmp2 *)

Lemma print_shown t s :
  ∃ r k', PRINT (t +:+ newline) s = Ret (r, MkMini 0 k') ∧ shown_text k' = shown_text (kern s) +:+ (t +:+ newline) ∧
    k_mask k' = k_mask (kern s) ∧ k_action k' = k_action (kern s).
Proof. apply write_text_shown. Qed.

Definition lines_text (l : list string) : string := foldr (λ t u, (t +:+ newline) +:+ u) EmptyString l.

(** After the jump, with [SIGALRM] blocked. *)
Lemma jmp2_end fuel jb s :
  SIGALRM ∈ signals (k_mask (kern s)) →
  ∃ s', jmp2_after here (S fuel) jb 0 1 s = Ret (0, s') ∧
    shown_text (kern s') = shown_text (kern s) +:+ lines_text ["after setjmp"; "PASS: The sigmask is preserved"] ∧
    k_mask (kern s') = k_mask (kern s) ∧ k_action (kern s') = k_action (kern s).
Proof.
  intros Hin. cbn [jmp2_after]. change (negb (1 =? 0)) with true. cbv iota. rewrite !bind_assoc_M.
  destruct (print_shown "after setjmp" s) as (r1 & k1 & E1 & Ho1 & Hm1 & Ha1). rewrite (bind_Ret _ _ _ _ _ E1).
  rewrite bind_assoc_M.
  assert (sigprocmask 0 None (MkMini 0 k1) = Ret ((0, Some (k_mask k1)), MkMini 0 k1)) as Eq.
  { unfold sigprocmask, sys_call, mbind, M_bind. cbn [kern errno]. by rewrite procmask_null. }
  rewrite (bind_Ret _ _ _ _ _ Eq). cbv beta iota. cbn [default from_option].
  rewrite sigismember_spec by (unfold SIGALRM; lia). rewrite decide_True by (by rewrite Hm1).
  unfold pure. rewrite !bind_assoc_M. change (negb (1 =? 0)) with true. cbv iota.
  destruct (print_shown "PASS: The sigmask is preserved" (MkMini 0 k1)) as (r2 & k2 & E2 & Ho2 & Hm2 & Ha2).
  eexists. split_and!.
  - cbn [mbind outcome_bind]. unfold mbind at 1, M_bind at 1. cbv beta iota.
    rewrite bind_assoc_M, (bind_Ret _ _ _ _ _ E2). cbv beta. rewrite ret_bind. done.
  - cbn [kern lines_text foldr] in *. by rewrite Ho2, Ho1, string_app_nil_r, !string_app_assoc.
  - cbn [kern] in *. congruence.
  - cbn [kern] in *. congruence.
Qed.

(** C36. jmp2 of hw3 ends with 0 after one jump, having written its four lines, the
    last of them PASS: SIGALRM, which it blocked before [setjmp], is blocked
    after the jump; and it stays blocked in addition to what was before. *)
Theorem jmp2_passes fuel s :
  (1 < fuel)%nat →
  ∃ s', jmp2_main here fuel s = Ret (0, s') ∧
    shown_text (kern s') = shown_text (kern s) +:+
      lines_text ["before setjmp"; "before longjmp"; "after setjmp"; "PASS: The sigmask is preserved"] ∧
    signals (k_mask (kern s')) = {[SIGALRM]} ∪ signals (k_mask (kern s)) ∧ k_action (kern s') = k_action (kern s).
Proof.
  intros Hf. destruct fuel as [|[|fuel]]; [lia..|].
  destruct (sigaddset_spec sigemptyset SIGALRM) as (w & Ew & Hw & _); [unfold sigemptyset; lia|unfold SIGALRM; lia|].
  rewrite signals_empty, union_empty_r_L in Hw. unfold jmp2_main, pure. rewrite Ew.
  cbn [mbind outcome_bind]. unfold mbind at 1, M_bind at 1. cbv beta iota.
  destruct (sigprocmask_block w s) as (k1 & E1 & Hk1 & Hm1 & Ha1). rewrite (bind_Ret _ _ _ _ _ E1).
  destruct (print_shown "before setjmp" (MkMini 0 k1)) as (r2 & k2 & E2 & Ho2 & Hm2 & Ha2).
  rewrite (bind_Ret _ _ _ _ _ E2), (bind_Ret _ _ _ _ _ (setjmp_ok here _)). cbn [kern] in *.
  assert (shown_text k1 = shown_text (kern s)) as Ho1 by (rewrite Hk1; apply procmask_shown).
  assert (signals (k_mask k2) = {[SIGALRM]} ∪ signals (k_mask (kern s))) as Hin.
  { rewrite Hm2, Hm1, Hw. pose proof (k_mask_blockable (kern s)).
    assert (SIGALRM ∉ unblockable) by (unfold unblockable, SIGALRM, SIGKILL, SIGSTOP; set_solver). set_solver. }
  cbn [jmp2_after]. change (negb (0 =? 0)) with false. cbv iota. rewrite ret_bind.
  change (0 =? 0) with true. cbv iota.
  destruct (print_shown "before longjmp" (MkMini 0 k2)) as (r3 & k3 & E3 & Ho3 & Hm3 & Ha3).
  rewrite (bind_Ret _ _ _ _ _ E3). cbn [kern] in *.
  destruct (jump_to_ok (jmp2_after here (S fuel) (saved here (k_mask k2)) 0) (k_mask k2) 1 (MkMini 0 k3))
    as (k4 & E4 & Ho4 & Hm4 & Ha4); [lia|]. cbn [kern] in *.
  apply (mask_stays (k_mask k2) k4 (MkMini 0 k3)) in Hm4; cbn [kern] in *; [|by rewrite Hm3].
  destruct (jmp2_end fuel (saved here (k_mask k2)) (MkMini 0 k4)) as (s' & E & Ho & Hm & Ha).
  { cbn [kern]. rewrite Hm4, Hin. set_solver. }
  exists s'. cbn [kern] in *. split; [|split_and!].
  - etransitivity; [exact E4|exact E].
  - rewrite Ho, Ho4, Ho3, Ho2, Ho1. cbn [lines_text foldr]. by rewrite string_app_nil_r, !string_app_assoc.
  - by rewrite Hm, Hm4, Hin.
  - congruence.
Qed.
End theorems.
