(* ===== verification/MiniExamples.v ===== *)
(** * libmini on a concrete kernel

    A kernel that keeps a log of its calls, the text written, the blocked
    signals and the installed actions.  It satisfies [SignalLaws]; the theorems
    about the wrappers, [perror], the signals and the jumps are applied to it. *)
From S2P Require Import Prelude Libc MiniSig MiniCall MiniErrno MiniSignal MiniProgs.

Record mk : Type := Mk {
  mk_log : list (Z * list Z); mk_out : string; mk_mask : Z; mk_actions : gmap Z kernel_sigaction }.

Definition unblockable_word : Z := Z.lor (2 ^ 8) (2 ^ 18).
Definition mk_blocked (k : mk) : Z := Z.ldiff (mk_mask k) unblockable_word.
Definition mk_action (k : mk) (sig : Z) : kernel_sigaction :=
  default (KSigAction 0 0 0 0) (mk_actions k !! sig).

Definition mk_result (nr : Z) (args : list Z) : Z :=
  match nr, args with
  | 3, [fd] => if fd <? 3 then 0 else -9
  | 79, [_; size] => if size <? 5 then -34 else 5
  | _, _ => 7
  end.

#[export] Instance mk_kernel : MiniKernel mk := {
  syscall nr args k :=
    (mk_result nr args, Mk (mk_log k ++ [(nr, args)]) (mk_out k) (mk_mask k) (mk_actions k));
  sys_nanosleep seconds k := if seconds <? 5 then (0, None, k) else (-4, Some (seconds - 5), k);
  sys_write_text fd t k :=
    (Z.of_nat (String.length t), Mk (mk_log k) (mk_out k +:+ t) (mk_mask k) (mk_actions k)) }.

Definition mk_set_mask (k : mk) (w : Z) : mk := Mk (mk_log k) (mk_out k) w (mk_actions k).

#[export] Instance mk_signals : SignalKernel mk := {
  rt_sigprocmask how set k :=
    match set with
    | None => (0, mk_blocked k, k)
    | Some w =>
        if how =? SIG_BLOCK then (0, mk_blocked k, mk_set_mask k (Z.lor (mk_blocked k) w))
        else if how =? SIG_UNBLOCK then (0, mk_blocked k, mk_set_mask k (Z.ldiff (mk_blocked k) w))
        else if how =? SIG_SETMASK then (0, mk_blocked k, mk_set_mask k w)
        else (-22, mk_blocked k, k)
    end;
  rt_sigpending k := (0, 0, k);
  rt_sigaction sig a k :=
    if decide (1 ≤ sig ≤ 64 ∧ sig ∉ unblockable)
    then (0, mk_action k sig, Mk (mk_log k) (mk_out k) (mk_mask k) (<[sig := a]> (mk_actions k)))
    else (-22, mk_action k sig, k);
  restore_rt := 0x401000 }.

Lemma elem_of_blocked x w :
  x ∈ signals (Z.ldiff w unblockable_word) ↔ x ∈ signals w ∧ x ∉ unblockable.
Proof.
  rewrite !elem_of_signals. unfold unblockable, SIGKILL, SIGSTOP.
  rewrite not_elem_of_union, !not_elem_of_singleton.
  destruct (decide (1 ≤ x ≤ 64)) as [Hx|Hx]; [|tauto].
  unfold unblockable_word. rewrite Z.ldiff_spec, Z.lor_spec, !Z.pow2_bits_eqb by lia.
  rewrite andb_true_iff, negb_true_iff, orb_false_iff, !Z.eqb_neq. intuition lia.
Qed.

#[export] Program Instance mk_laws : SignalLaws mk := {| k_mask := mk_blocked; k_action := mk_action |}.
Next Obligation. done. Qed.
Next Obligation.
  intros w k. eexists. split; [done|]. split; [|done]. apply set_eq. intros x.
  rewrite elem_of_difference, elem_of_union. unfold mk_blocked at 1. cbn [mk_set_mask mk_mask].
  rewrite elem_of_blocked, !elem_of_signals, Z.lor_spec, orb_true_iff. tauto.
Qed.
Next Obligation. intros k x Hx. apply elem_of_blocked in Hx. tauto. Qed.
Next Obligation.
  intros sig a k Hs Hu. eexists. cbn [rt_sigaction mk_signals]. rewrite decide_True by done.
  split; [done|]. unfold mk_action. cbn [mk_actions].
  split; [by rewrite lookup_insert_eq|]. split; [|done].
  intros sig' Hne. by rewrite lookup_insert_ne.
Qed.
Next Obligation. intros sig a k Hn. cbn [rt_sigaction mk_signals]. by rewrite decide_False. Qed.

Definition k0 : mk := Mk [] "" (2 ^ 13) ∅.
Definition s0 : Mini mk := MkMini 2 k0.

Lemma mk_writes_succeed : writes_succeed (K := mk).
Proof. intros fd t k. cbn. lia. Qed.

Lemma wrappers_follow_convention_witness :
  In ("close", int, Call1 close) (wrappers (K := mk)) ∧
  close 9 s0 = convention int (-1) neg_long 3 [9] s0 ∧
  convention int (-1) neg_long 3 [9] s0 = Ret (-1, MkMini 9 (Mk [(3, [9])] "" (2 ^ 13) ∅)).
Proof.
  split; [simpl; tauto|]. split; [|reflexivity].
  apply (wrappers_follow_convention "close" int (Call1 close) [9] (close 9) 3 s0);
    [simpl; tauto|reflexivity|reflexivity].
Defined.

Lemma perror_reports_witness :
  perror (Some "open") s0
  = Ret (tt, MkMini 0 (Mk [] ("open: No such file or directory" +:+ newline) (2 ^ 13) ∅)) ∧
  perror (Some "open") (MkMini 75 k0) = Undef OutOfBounds ∧
  perror None (MkMini 75 k0) = Ret (tt, MkMini 0 (Mk [] ("Unknown" +:+ newline) (2 ^ 13) ∅)).
Proof.
  split_and!.
  - rewrite (perror_reports (Some "open") s0 mk_writes_succeed). vm_compute. reflexivity.
  - rewrite (perror_reports (Some "open") (MkMini 75 k0) mk_writes_succeed). vm_compute. reflexivity.
  - rewrite (perror_reports None (MkMini 75 k0) mk_writes_succeed). vm_compute. reflexivity.
Defined.

Lemma catchable_14 : catchable 14.
Proof.
  unfold catchable, unblockable, SIGKILL, SIGSTOP. rewrite not_elem_of_union, !not_elem_of_singleton. lia.
Qed.
Lemma not_catchable_9 : ¬ catchable 9.
Proof. intros [_ Hu]. apply Hu. unfold unblockable, SIGKILL. set_solver. Qed.

Lemma sigaction_reports_installed_witness :
  catchable 14 ∧
  ∃ s1, sigaction 14 (Some (SigAction 0x400500 8 0 None)) false s0 = Ret ((0, None), s1) ∧ errno s1 = 0 ∧
    k_action (kern s1) 14 = installed (SigAction 0x400500 8 0 None) ∧
    (∀ sig', sig' ≠ 14 → k_action (kern s1) sig' = k_action (kern s0) sig') ∧
    k_mask (kern s1) = k_mask (kern s0) ∧
    ∃ s2, sigaction 14 (Some (SigAction 0 0 0 None)) true s1 =
          Ret ((0, Some (SigAction 0x400500 8 (Z.lor 0 SA_RESTORER) (Some restore_rt))), s2).
Proof.
  split; [exact catchable_14|]. exact (sigaction_reports_installed 14 _ _ s0 catchable_14).
Defined.

Lemma signal_installs_witness :
  signal 9 0x400500 s0 = Ret (SIG_ERR, MkMini 22 k0) ∧
  ∃ k' a, signal 14 0x400500 s0 = Ret (0, MkMini 0 k') ∧
    k_action k' 14 = a ∧ k_sa_handler a = 0x400500 ∧ signals (k_sa_mask a) = ∅ ∧
    Z.land (k_sa_flags a) SA_RESETHAND = 0 ∧ Z.land (k_sa_flags a) SA_NODEFER = 0 ∧
    Z.land (k_sa_flags a) SA_RESTORER ≠ 0 ∧ k_sa_restorer a = restore_rt ∧
    (∀ sig', sig' ≠ 14 → k_action k' sig' = k_action k0 sig') ∧ k_mask k' = k_mask k0.
Proof.
  split.
  - pose proof (signal_installs 9 0x400500 s0 (Z.eq_le_incl 0 _ eq_refl)) as H9.
    rewrite decide_False in H9 by apply not_catchable_9. exact H9.
  - pose proof (signal_installs 14 0x400500 s0 (Z.eq_le_incl 0 _ eq_refl)) as H14.
    rewrite decide_True in H14 by apply catchable_14. exact H14.
Defined.

(** A round of the wrappers: the log of the kernel has the calls in order. *)
Example ex_calls :
  (fd ← dup 1; dup2 fd 5 ≫= λ _, close 1 ≫= λ _, close 8) s0
  = Ret (-1, MkMini 9 (Mk [(32, [1]); (33, [7; 5]); (3, [1]); (3, [8])] "" (2 ^ 13) ∅)).
Proof. vm_compute. reflexivity. Qed.

Lemma setjmp_longjmp_witness :
  ∃ env s1, setjmp (Cpu 1 2 3 4 5 6 7 8) s0 = Ret ((env, 0), s1) ∧ kern s1 = kern s0 ∧
  ∃ s2, longjmp env 0 (MkMini 0 (Mk [] "" 1 ∅)) = Ret ((Cpu 1 2 3 4 5 6 7 8, 1), s2) ∧ errno s2 = 0 ∧
    k_action (kern s2) = k_action (Mk [] "" 1 ∅) ∧
    signals (k_mask (kern s2)) = signals (k_mask (Mk [] "" 1 ∅)) ∪ signals (k_mask (kern s0)).
Proof. exact (setjmp_longjmp (Cpu 1 2 3 4 5 6 7 8) 0 s0 (MkMini 0 (Mk [] "" 1 ∅))). Defined.

Lemma sleep_remaining_witness :
  sleep 9 (MkMini 7 (Mk [] "" 0 ∅)) = Ret (4, MkMini 7 (Mk [] "" 0 ∅)).
Proof.
  apply (sleep_remaining 9 (MkMini 7 (Mk [] "" 0 ∅)) (Some 4) (Mk [] "" 0 ∅) (-4)); [done..| |lia].
  intros _. exists 4. split; [done|lia].
Defined.

(** ** The programs that jump *)

#[export] Program Instance mk_terminal : Terminal mk := {| shown_text := mk_out |}.
Next Obligation. intros t k. eexists. by split_and!. Qed.
Next Obligation.
  intros how [w|] k; cbn [rt_sigprocmask mk_signals]; [|done]. by repeat case_match.
Qed.

Definition ex_here : cpu := Cpu 1 0x7ffe00 0x7ffe10 4 5 6 7 0x400600.

Lemma jmp1_writes_witness :
  ∃ s', jmp1_main ex_here 11 s0 = Ret (0, s') ∧ shown_text (kern s') = shown_text (kern s0) +:+ texts 0 ∧
    signals (k_mask (kern s')) = signals (k_mask (kern s0)) ∧ k_action (kern s') = k_action (kern s0).
Proof. apply (jmp1_writes ex_here 11 s0). lia. Defined.

Lemma jmp2_passes_witness :
  ∃ s', jmp2_main ex_here 2 s0 = Ret (0, s') ∧
    shown_text (kern s') = shown_text (kern s0) +:+
      lines_text ["before setjmp"; "before longjmp"; "after setjmp"; "PASS: The sigmask is preserved"] ∧
    signals (k_mask (kern s')) = {[SIGALRM]} ∪ signals (k_mask (kern s0)) ∧ k_action (kern s') = k_action (kern s0).
Proof. apply (jmp2_passes ex_here 2 s0). lia. Defined.

Example ex_jmp1 :
  match jmp1_main ex_here 11 s0 with Ret (r, s) => Some (r, mk_out (kern s)) | _ => None end
  = Some (0, lines_text (map (λ f, "This is function " +:+ f +:+ "().")
      ["a"; "b"; "c"; "d"; "e"; "f"; "g"; "h"; "i"; "j"])).
Proof. vm_compute. done. Qed.
