(* ===== verification/Fsmon.v ===== *)
(** * fsmon: the file-system monitor

    fsmon.c is preloaded in front of the C library: each function it defines
    calls the real one, which it looks up in libc.so.6, and writes a line to a
    log.  The real library, the log file and the environment are the class
    [RealLib] on a state [W]; the static buffers of fsmon.c are explicit, since
    the messages are formatted from them, and so is the type each function
    declares for its result, which for read and write is not the library's. *)
From S2P Require Import Prelude Libc.

(** The types of results, and the value an object of such a type has after an
    assignment. *)
Inductive ctype : Type := Int | Ssize | Size | Ptr.
Definition cast (t : ctype) (z : Z) : Z :=
  match t with
  | Int => sint 32 z
  | Ssize => sint 64 z
  | Size | Ptr => wrap64 z
  end.

Lemma cast_cast t z : cast t (cast t z) = cast t z.
Proof.
  destruct t; cbn [cast];
    [apply sint_id, sint_range; lia|apply sint_id, sint_range; lia|apply wrap64_small, wrap64_range..].
Qed.

(** What fsmon.c uses of the C library and of the objects its arguments point
    to.  A function returns an integer or a pointer; arguments are integers,
    pointers and strings.  A variadic function that is called with fewer
    arguments than it reads takes what it finds: that is up to the world. *)
Class RealLib (W : Type) : Type := {
  getenv : W → string → option string;
  dlopen_libc : W → bool;
  dlsym_libc : W → string → bool;
  real : string → list arg → W → Z * W;
  real_readlink : W → string → option string;         (* None: -1 *)
  fileno : W → Z → option Z;                          (* None: not an open stream *)
  dirfd : W → Z → option Z;
  d_name : W → Z → string;                            (* of a directory entry *)
  c_string : W → Z → option string;                   (* None: not terminated *)
  stat_of : W → Z → option (Z * Z);                   (* mode, size; None: not filled *)
  log_append : string → string → W → option W;        (* fopen "a", write, fclose *)
  err_write : string → W → W;
  stderr_stream : Z }.

(** The static variables of [fd_to_filename], [convert_to_verbose_newline] and
    [get_verbose_stat]; [buff1] is an array of 128 characters. *)
Record Statics : Type := MkStatics {
  filename : string; buff1 : list ascii; buff2 : string; stat_buff : string }.

Record Mon (W : Type) : Type := MkMon { statics : Statics; outside : W }.
Arguments MkMon {W} _ _.
Arguments statics {W} _.
Arguments outside {W} _.

Definition nul : ascii := chr 0.
Definition dq : string := String (chr 34) EmptyString.
(** ["%s"] between double quotes *)
Definition qs : string := dq +:+ "%s" +:+ dq.

(** The string that starts at the head of an array; [None]: no terminator. *)
Fixpoint cstr (b : list ascii) : option string :=
  match b with
  | [] => None
  | c :: b => if bool_decide (c = nul) then Some EmptyString else String c <$> cstr b
  end.

Section fsmon.
Context {W : Type} `{RealLib W}.

Definition set_statics (f : Statics → Statics) : M (Mon W) unit :=
  modify (λ s, MkMon (f (statics s)) (outside s)).
Definition put_filename (t : string) : M (Mon W) unit :=
  set_statics (λ x, MkStatics t (buff1 x) (buff2 x) (stat_buff x)).

(** A call of the real function. *)
Definition call_real (func : string) (args : list arg) : M (Mon W) Z := λ s,
  let '(r, w) := real func args (outside s) in Ret (r, MkMon (statics s) w).

(** [RT ret = old_func(...)]. *)
Definition call_as (RT : ctype) (func : string) (args : list arg) : M (Mon W) Z :=
  ret ← call_real func args; mret (cast RT ret).

(** [vfprintf] of a message: to the log or to stderr. *)
Definition text_of (msg : string) (args : Statics → list arg) : M (Mon W) string :=
  s ← get;
  match format msg (args (statics s)) with Some t => mret t | None => undef BadFormat end.

(** ** The functions before the macros *)

(** [load_function] reports a missing function through [fprintf], which is the
    monitored one: the functions it uses take it as an argument. *)
Section with_load.
Variable load : string → M (Mon W) bool.

(** The arguments are read from the static buffers when the text is formatted. *)
Definition write_msg_with (msg : string) (args : Statics → list arg) : M (Mon W) unit :=
  s ← get;
  match getenv (outside s) "MONITOR_OUTPUT" with
  | Some log_name =>
      my_fclose ← load "fclose";
      my_fopen ← load "fopen";
      if negb my_fopen then undef NullDeref
      else
        t ← text_of msg args;
        s ← get;
        (* a null stream, or no function to close it *)
        w ← deref (log_append log_name t (outside s));
        if negb my_fclose then undef NullDeref else modify (λ s, MkMon (statics s) w)
  | None =>
      t ← text_of msg args; modify (λ s, MkMon (statics s) (err_write t (outside s)))
  end.

Definition fd_to_filename_with (fd : Z) : M (Mon W) unit :=
  if fd =? 1 then put_filename "<STDOUT>"
  else if fd =? 2 then put_filename "<STDERR>"
  else
    fd_path ← read_init (format "/proc/self/fd/%d" [AInt fd]);
    my_readlink ← load "readlink";
    if negb my_readlink then undef NullDeref
    else
      s ← get;
      match real_readlink (outside s) fd_path with
      | None => undef OutOfBounds                        (* filename[-1] = 0 *)
      | Some target => put_filename (String.substring 0 127 target)
      end.

Definition get_file_name_with (fp : Z) : M (Mon W) unit :=
  s ← get;
  match fileno (outside s) fp with
  | Some fd => fd_to_filename_with fd
  | None => undef InvalidAccess
  end.

(** The result is the argument itself, or the buffer [buff2]. *)
Definition convert_to_verbose_newline (fmt : option string) : M (Mon W) (Statics → arg) :=
  match fmt with
  | None => mret (λ _, AStr "(null)")                    (* what glibc prints for it *)
  | Some f =>
      let n := (String.length f - 1)%nat in
      match String.get n f with
      | None => undef OutOfBounds                        (* format[-1] *)
      | Some c =>
          if bool_decide (c = chr 10) then
            s ← get;
            if (128 <? n)%nat then undef OutOfBounds
            else
              let b := take n (String.list_ascii_of_string f) ++ drop n (buff1 (statics s)) in
              match cstr b with
              | None => undef OutOfBounds
              | Some t =>
                  set_statics (λ x, MkStatics (filename x) b
                    (String.substring 0 131 (t +:+ String (chr 92) "n")) (stat_buff x)) ≫= λ _,
                  mret (λ x, AStr (buff2 x))
              end
          else mret (λ _, AStr f)
      end
  end.

(** [fprintf(stream, format, ...)]; [args] are the variable arguments. *)
Definition fprintf_with (stream : Z) (fmt : string) (args : list arg) : M (Mon W) Z :=
  ret ← call_as Int "vfprintf" (AInt stream :: AStr fmt :: args);
  get_file_name_with stream ≫= λ _,
  v ← convert_to_verbose_newline (Some fmt);
  write_msg_with ("fprintf(%s, " +:+ qs +:+ ", ...) = %d" +:+ newline)
    (λ x, [AStr (filename x); v x; AInt ret]) ≫= λ _,
  mret ret.
End with_load.

(** Is the function there?  Each missing function that is reported may need
    functions that are missing too; [fuel] bounds the depth. *)
Fixpoint load_function (fuel : nat) (func_name : string) : M (Mon W) bool :=
  match fuel with
  | O => no_fuel
  | S fuel =>
      s ← get;
      if negb (dlopen_libc (outside s)) then mret false
      else if dlsym_libc (outside s) func_name then mret true
      else
        fprintf_with (load_function fuel) stderr_stream
          ("Failed to load function: %s" +:+ newline) [AStr func_name] ≫= λ _, mret false
  end.

Section with_fuel.
Variable fuel : nat.

Definition write_msg : string → (Statics → list arg) → M (Mon W) unit := write_msg_with (load_function fuel).
Definition fd_to_filename : Z → M (Mon W) unit := fd_to_filename_with (load_function fuel).
Definition get_file_name : Z → M (Mon W) unit := get_file_name_with (load_function fuel).
Definition get_dir_name (dp : Z) : M (Mon W) unit :=
  s ← get;
  match dirfd (outside s) dp with
  | Some fd => fd_to_filename fd
  | None => undef InvalidAccess
  end.

Definition S_IFMT : Z := 0xf000.
Definition stat_type (st_mode : Z) : string :=
  let t := Z.land st_mode S_IFMT in
  if t =? 0x6000 then "block device"
  else if t =? 0x2000 then "character device"
  else if t =? 0x4000 then "directory"
  else if t =? 0x1000 then "FIFO/pipe"
  else if t =? 0xa000 then "symlink"
  else if t =? 0x8000 then "regular file"
  else if t =? 0xc000 then "socket"
  else "unknown".

(** [buff] has 64 bytes. *)
Definition get_verbose_stat (p : Z) : M (Mon W) unit :=
  s ← get;
  '(st_mode, st_size) ← read_init (stat_of (outside s) p);
  t ← read_init (format "{type=%s, mode=%d, size=%ld}" [AStr (stat_type st_mode); AInt st_mode; AInt st_size]);
  if (64 <=? String.length t)%nat then undef OutOfBounds
  else set_statics (λ x, MkStatics (filename x) (buff1 x) (buff2 x) t).

(** The macros [BEGIN_MON1] to [BEGIN_MON4] and [END_MON] around a body: the
    real function is called through a pointer to a function that returns [RT],
    and [RT] is what the monitored function returns. *)
Definition BEGIN_MON (RT : ctype) (func : string) (args : list arg) (body : Z → M (Mon W) unit) : M (Mon W) Z :=
  old ← load_function fuel func;
  if negb old then undef NullDeref
  else ret ← call_as RT func args; body ret ≫= λ _, mret ret.

(** ** The monitored functions *)

Definition closedir (p1 : Z) : M (Mon W) Z := BEGIN_MON Int "closedir" [AInt p1] (λ ret,
  get_dir_name p1 ≫= λ _,
  write_msg ("closedir(" +:+ qs +:+ ") = %d" +:+ newline) (λ x, [AStr (filename x); AInt ret])).
Definition opendir (p1 : string) : M (Mon W) Z := BEGIN_MON Ptr "opendir" [AStr p1] (λ ret,
  write_msg ("opendir(" +:+ qs +:+ ") = 0x%X" +:+ newline) (λ _, [AStr p1; AInt ret])).
Definition readdir (p1 : Z) : M (Mon W) Z := BEGIN_MON Ptr "readdir" [AInt p1] (λ ret,
  if negb (ret =? 0) then
    get_dir_name p1 ≫= λ _,
    s ← get;
    write_msg ("readdir(" +:+ qs +:+ ") = %s" +:+ newline)
      (λ x, [AStr (filename x); AStr (d_name (outside s) ret)])
  else mret tt).
Definition creat (p1 : string) (p2 : Z) : M (Mon W) Z := BEGIN_MON Int "creat" [AStr p1; AInt p2] (λ ret,
  write_msg ("creat(" +:+ qs +:+ ", %d) = %d" +:+ newline) (λ _, [AStr p1; AInt p2; AInt ret])).
Definition open (p1 : string) (p2 : Z) : M (Mon W) Z := BEGIN_MON Int "open" [AStr p1; AInt p2] (λ ret,
  write_msg ("open(" +:+ qs +:+ ", %d) = %d" +:+ newline) (λ _, [AStr p1; AInt p2; AInt ret])).
Definition read (p1 p2 p3 : Z) : M (Mon W) Z := BEGIN_MON Int "read" [AInt p1; AInt p2; AInt p3] (λ ret,
  fd_to_filename p1 ≫= λ _,
  write_msg ("read(%s, 0x%X, %d) = %d" +:+ newline) (λ x, [AStr (filename x); AInt p2; AInt p3; AInt ret])).
Definition write (p1 p2 p3 : Z) : M (Mon W) Z := BEGIN_MON Int "write" [AInt p1; AInt p2; AInt p3] (λ ret,
  write_msg ("write(%d, 0x%X, %d) = %d" +:+ newline) (λ _, [AInt p1; AInt p2; AInt p3; AInt ret])).
Definition dup (p1 : Z) : M (Mon W) Z := BEGIN_MON Int "dup" [AInt p1] (λ ret,
  write_msg ("dup(%d) = %d" +:+ newline) (λ _, [AInt p1; AInt ret])).
Definition dup2 (p1 p2 : Z) : M (Mon W) Z := BEGIN_MON Int "dup2" [AInt p1; AInt p2] (λ ret,
  write_msg ("dup2(%d, %d) = %d" +:+ newline) (λ _, [AInt p1; AInt p2; AInt ret])).
Definition close (p1 : Z) : M (Mon W) Z := BEGIN_MON Int "close" [AInt p1] (λ ret,
  write_msg ("close(%d) = %d" +:+ newline) (λ _, [AInt p1; AInt ret])).
Definition lstat (p1 : string) (p2 : Z) : M (Mon W) Z := BEGIN_MON Int "lstat" [AStr p1; AInt p2] (λ ret,
  write_msg ("lstat(" +:+ qs +:+ ", 0x%X) = %d" +:+ newline) (λ _, [AStr p1; AInt p2; AInt ret])).
Definition stat (p1 : string) (p2 : Z) : M (Mon W) Z := BEGIN_MON Int "stat" [AStr p1; AInt p2] (λ ret,
  write_msg ("stat(" +:+ qs +:+ ", 0x%X) = %d" +:+ newline) (λ _, [AStr p1; AInt p2; AInt ret])).
Definition pwrite (p1 p2 p3 p4 : Z) : M (Mon W) Z :=
  BEGIN_MON Ssize "pwrite" [AInt p1; AInt p2; AInt p3; AInt p4] (λ ret,
  write_msg ("pwrite(%d, 0x%X, %d, %d) = %d" +:+ newline)
    (λ _, [AInt p1; AInt p2; AInt p3; AInt p4; AInt ret])).
Definition fopen (p1 p2 : string) : M (Mon W) Z := BEGIN_MON Ptr "fopen" [AStr p1; AStr p2] (λ ret,
  write_msg ("fopen(" +:+ qs +:+ ", " +:+ qs +:+ ") = 0x%X" +:+ newline) (λ _, [AStr p1; AStr p2; AInt ret])).
(** Written out in the source: the name is read before the stream is closed. *)
Definition fclose (p1 : Z) : M (Mon W) Z :=
  old_fclose ← load_function fuel "fclose";
  get_file_name p1 ≫= λ _,
  if negb old_fclose then undef NullDeref
  else
    ret ← call_as Int "fclose" [AInt p1];
    write_msg ("fclose(" +:+ qs +:+ ") = %d" +:+ newline) (λ x, [AStr (filename x); AInt ret]) ≫= λ _,
    mret ret.
Definition fread (p1 p2 p3 p4 : Z) : M (Mon W) Z :=
  BEGIN_MON Size "fread" [AInt p1; AInt p2; AInt p3; AInt p4] (λ ret,
  get_file_name p4 ≫= λ _,
  write_msg ("pwrite(0x%X, %d, %d, %s) = %d" +:+ newline)
    (λ x, [AInt p1; AInt p2; AInt p3; AStr (filename x); AInt ret])).
Definition fwrite (p1 p2 p3 p4 : Z) : M (Mon W) Z :=
  BEGIN_MON Size "fwrite" [AInt p1; AInt p2; AInt p3; AInt p4] (λ ret,
  get_file_name p4 ≫= λ _,
  write_msg ("fwrite(0x%X, %d, %d, %s) = %d" +:+ newline)
    (λ x, [AInt p1; AInt p2; AInt p3; AStr (filename x); AInt ret])).
Definition fwrite_unlocked (p1 p2 p3 p4 : Z) : M (Mon W) Z :=
  BEGIN_MON Size "fwrite_unlocked" [AInt p1; AInt p2; AInt p3; AInt p4] (λ ret,
  get_file_name p4 ≫= λ _,
  write_msg ("fwrite_unlocked(0x%X, %d, %d, %s) = %d" +:+ newline)
    (λ x, [AInt p1; AInt p2; AInt p3; AStr (filename x); AInt ret])).
Definition fgetc (p1 : Z) : M (Mon W) Z := BEGIN_MON Int "fgetc" [AInt p1] (λ ret,
  get_file_name p1 ≫= λ _,
  if ret =? 10
  then write_msg ("fgetc(%s) = '" +:+ String (chr 92) "n'" +:+ newline) (λ x, [AStr (filename x)])
  else write_msg ("fgetc(%s) = '%c'" +:+ newline) (λ x, [AStr (filename x); AInt ret])).
(** The string a pointer to characters leads to; 0 is the null pointer. *)
Definition string_at_ptr (p : Z) : M (Mon W) (option string) :=
  if p =? 0 then mret None
  else
    s ← get;
    match c_string (outside s) p with Some t => mret (Some t) | None => undef OutOfBounds end.
Definition fgets (p1 p2 p3 : Z) : M (Mon W) Z := BEGIN_MON Ptr "fgets" [AInt p1; AInt p2; AInt p3] (λ ret,
  t ← string_at_ptr ret;
  get_file_name p3 ≫= λ _,
  v ← convert_to_verbose_newline t;
  write_msg ("fgets(0x%X, %d, %s) = " +:+ qs +:+ newline) (λ x, [AInt p1; AInt p2; AStr (filename x); v x])).
Definition fscanf (stream : Z) (fmt : string) (args : list arg) : M (Mon W) Z :=
  ret ← call_as Int "vfscanf" (AInt stream :: AStr fmt :: args);
  get_file_name stream ≫= λ _,
  v ← convert_to_verbose_newline (Some fmt);
  write_msg ("fscanf(%s, " +:+ qs +:+ ", ...) = %d" +:+ newline) (λ x, [AStr (filename x); v x; AInt ret]) ≫= λ _,
  mret ret.
Definition fprintf : Z → string → list arg → M (Mon W) Z := fprintf_with (load_function fuel).
Definition chdir (p1 : string) : M (Mon W) Z := BEGIN_MON Int "chdir" [AStr p1] (λ ret,
  write_msg ("chdir(" +:+ qs +:+ ") = %d" +:+ newline) (λ _, [AStr p1; AInt ret])).
Definition chown (p1 : string) (p2 p3 : Z) : M (Mon W) Z :=
  BEGIN_MON Int "chown" [AStr p1; AInt p2; AInt p3] (λ ret,
  write_msg ("chown(" +:+ qs +:+ ", %d, %d) = %d" +:+ newline) (λ _, [AStr p1; AInt p2; AInt p3; AInt ret])).
Definition chmod (p1 : string) (p2 : Z) : M (Mon W) Z := BEGIN_MON Int "chmod" [AStr p1; AInt p2] (λ ret,
  write_msg ("chmod(%s, %d) = %d" +:+ newline) (λ _, [AStr p1; AInt p2; AInt ret])).
Definition remove (p1 : string) : M (Mon W) Z := BEGIN_MON Int "remove" [AStr p1] (λ ret,
  write_msg ("remove(" +:+ qs +:+ ") = %d" +:+ newline) (λ _, [AStr p1; AInt ret])).
Definition rename (p1 p2 : string) : M (Mon W) Z := BEGIN_MON Int "rename" [AStr p1; AStr p2] (λ ret,
  write_msg ("rename(" +:+ qs +:+ ", " +:+ qs +:+ ") = %d" +:+ newline) (λ _, [AStr p1; AStr p2; AInt ret])).
Definition link (p1 p2 : string) : M (Mon W) Z := BEGIN_MON Int "link" [AStr p1; AStr p2] (λ ret,
  write_msg ("link(" +:+ qs +:+ ", " +:+ qs +:+ ") = %d" +:+ newline) (λ _, [AStr p1; AStr p2; AInt ret])).
Definition unlink (p1 : string) : M (Mon W) Z := BEGIN_MON Int "unlink" [AStr p1] (λ ret,
  write_msg ("unlink(" +:+ qs +:+ ") = %d" +:+ newline) (λ _, [AStr p1; AInt ret])).
(** The buffer [p2] is printed as a string. *)
Definition readlink (p1 : string) (p2 p3 : Z) : M (Mon W) Z :=
  BEGIN_MON Ssize "readlink" [AStr p1; AInt p2; AInt p3] (λ ret,
  t ← string_at_ptr p2;
  write_msg ("readlink(" +:+ qs +:+ ", " +:+ qs +:+ ", %d) = %d" +:+ newline)
    (λ _, [AStr p1; AStr (default "(null)" t); AInt p3; AInt ret])).
Definition symlink (p1 p2 : string) : M (Mon W) Z := BEGIN_MON Int "symlink" [AStr p1; AStr p2] (λ ret,
  write_msg ("syslink(" +:+ qs +:+ ", " +:+ qs +:+ ") = %d" +:+ newline) (λ _, [AStr p1; AStr p2; AInt ret])).
Definition mkdir (p1 : string) (p2 : Z) : M (Mon W) Z := BEGIN_MON Int "mkdir" [AStr p1; AInt p2] (λ ret,
  write_msg ("mkdir(" +:+ qs +:+ ", %d) = %d" +:+ newline) (λ _, [AStr p1; AInt p2; AInt ret])).
Definition rmdir (p1 : string) : M (Mon W) Z := BEGIN_MON Int "rmdir" [AStr p1] (λ ret,
  write_msg ("rmdir(" +:+ qs +:+ ") = %d" +:+ newline) (λ _, [AStr p1; AInt ret])).
Definition __xstat (p1 : Z) (p2 : string) (p3 : Z) : M (Mon W) Z :=
  BEGIN_MON Int "__xstat" [AInt p1; AStr p2; AInt p3] (λ ret,
  get_verbose_stat p3 ≫= λ _,
  write_msg ("__xstat(%d, %s, 0x%X %s) = %d" +:+ newline)
    (λ x, [AInt p1; AStr p2; AInt p3; AStr (stat_buff x); AInt ret])).
Definition __lxstat (p1 : Z) (p2 : string) (p3 : Z) : M (Mon W) Z :=
  BEGIN_MON Int "__lxstat" [AInt p1; AStr p2; AInt p3] (λ ret,
  get_verbose_stat p3 ≫= λ _,
  write_msg ("__lxstat(%d, %s, 0x%X %s) = %d" +:+ newline)
    (λ x, [AInt p1; AStr p2; AInt p3; AStr (stat_buff x); AInt ret])).
Definition fputs_unlocked (p1 p2 : Z) : M (Mon W) Z :=
  BEGIN_MON Int "fputs_unlocked" [AInt p1; AInt p2] (λ ret,
  get_file_name p2 ≫= λ _,
  write_msg ("fputs_unlocked(0x%X, %s) = %d" +:+ newline) (λ x, [AInt p1; AStr (filename x); AInt ret])).
Definition fflush (p1 : Z) : M (Mon W) Z := BEGIN_MON Int "fflush" [AInt p1] (λ ret,
  get_file_name p1 ≫= λ _,
  write_msg ("fflush(%s) = %d" +:+ newline) (λ x, [AStr (filename x); AInt ret])).

End with_fuel.
End fsmon.
