(* ===== verification/FsmonLog.v ===== *)
(** * fsmon: what the monitor changes and what it logs

    With a complete C library and a log that can be opened, a monitored call
    does what the real function does and adds one line to the log.  The lines
    are compared with one abstract form: the name, the arguments between
    parentheses, and the result. *)
From S2P Require Import Prelude Libc Fsmon.

(** The library is complete and the log can always be appended to. *)
Class CompleteLib (W : Type) `{RealLib W} : Prop := {
  libc_opens (w : W) : dlopen_libc w = true;
  libc_has (w : W) f : dlsym_libc w f = true;
  log_opens name text (w : W) : is_Some (log_append name text w) }.

(** The types the C library declares for the results of the functions fsmon.c
    calls, its own name for each. *)
Definition libc_type (func : string) : ctype :=
  if bool_decide (func ∈ ["opendir"; "readdir"; "fopen"; "fgets"]) then Ptr
  else if bool_decide (func ∈ ["read"; "write"; "pwrite"; "readlink"]) then Ssize
  else if bool_decide (func ∈ ["fread"; "fwrite"; "fwrite_unlocked"]) then Size
  else Int.

(** What a function returns is a value of the type it declares. *)
Class TypedLib (W : Type) `{RealLib W} : Prop :=
  real_typed func args (w : W) :
    cast (libc_type func) (fst (real func args w)) = fst (real func args w).

(** ** The form of a line *)

Inductive shown : Type :=
  | Quoted (s : string)
  | Bare (s : string)
  | Dec (z : Z)         (** as an [int] *)
  | Hex (z : Z).        (** its low 32 bits *)

Definition render (x : shown) (rest : string) : string :=
  match x with
  | Quoted s => dq +:+ (s +:+ (dq +:+ rest))
  | Bare s => s +:+ rest
  | Dec z => signed_text (sint 32 z) +:+ rest
  | Hex z => "0x" +:+ (to_digits true 16 (z mod 2 ^ 32) +:+ rest)
  end.
Fixpoint render_list (xs : list shown) (rest : string) : string :=
  match xs with
  | [] => rest
  | [x] => render x rest
  | x :: xs => render x (", " +:+ render_list xs rest)
  end.
Definition log_line (label : string) (args : list shown) (ret : shown) : string :=
  label +:+ ("(" +:+ render_list args (") = " +:+ render ret newline)).

(** The text of a line, computed from its format. *)
Ltac line_text := unfold format; cbn; reflexivity.

Section log.
Context {W : Type} `{CompleteLib W} `{!TypedLib W}.
Implicit Types (s : Mon W) (w : W).

(** Where a message goes. *)
Definition emit (text : string) (w : W) : W :=
  match getenv w "MONITOR_OUTPUT" with
  | Some log_name => default w (log_append log_name text w)
  | None => err_write text w
  end.

(** The name the monitor gives to a descriptor. *)
Definition fd_path (fd : Z) : string := default "" (format "/proc/self/fd/%d" [AInt fd]).
Definition fd_name (w : W) (fd : Z) : option string :=
  if fd =? 1 then Some "<STDOUT>"
  else if fd =? 2 then Some "<STDERR>"
  else String.substring 0 127 <$> real_readlink w (fd_path fd).

Definition with_filename (t : string) (x : Statics) : Statics :=
  MkStatics t (buff1 x) (buff2 x) (stat_buff x).

(** ** The helpers, computed *)

Lemma load_ok fuel f s : load_function (S fuel) f s = Ret (true, s).
Proof.
  cbn [load_function]. unfold get, mbind, M_bind. by rewrite libc_opens, libc_has.
Qed.
Lemma load_bind {A} fuel f (k : bool → M (Mon W) A) s : (load_function (S fuel) f ≫= k) s = k true s.
Proof. by rewrite (bind_Ret _ _ _ _ _ (load_ok fuel f s)). Qed.

Lemma text_of_ok msg args s t : format msg (args (statics s)) = Some t → text_of msg args s = Ret (t, s).
Proof. intros E. unfold text_of. rewrite get_bind, E. done. Qed.

Lemma write_msg_ok fuel msg args s t :
  format msg (args (statics s)) = Some t →
  write_msg (S fuel) msg args s = Ret (tt, MkMon (statics s) (emit t (outside s))).
Proof.
  intros E. unfold write_msg, write_msg_with, emit. rewrite get_bind.
  destruct (getenv (outside s) "MONITOR_OUTPUT") as [name|].
  - rewrite load_bind, load_bind. cbn [negb].
    rewrite (bind_Ret _ _ _ _ _ (text_of_ok _ _ _ _ E)), get_bind.
    destruct (log_opens name t (outside s)) as [w ->]. done.
  - by rewrite (bind_Ret _ _ _ _ _ (text_of_ok _ _ _ _ E)).
Qed.

Lemma fd_to_filename_ok fuel fd s name :
  fd_name (outside s) fd = Some name →
  fd_to_filename (S fuel) fd s = Ret (tt, MkMon (with_filename name (statics s)) (outside s)).
Proof.
  unfold fd_name, fd_to_filename, fd_to_filename_with. intros Hn.
  destruct (fd =? 1); [by simplify_eq|]. destruct (fd =? 2); [by simplify_eq|].
  rewrite (bind_Ret (read_init (format "/proc/self/fd/%d" [AInt fd])) _ s (fd_path fd) s eq_refl).
  rewrite load_bind. cbn [negb]. rewrite get_bind.
  destruct (real_readlink (outside s) (fd_path fd)) as [target|]; [|done]. by simplify_eq/=.
Qed.

Lemma get_file_name_ok fuel fp fd s name :
  fileno (outside s) fp = Some fd → fd_name (outside s) fd = Some name →
  get_file_name (S fuel) fp s = Ret (tt, MkMon (with_filename name (statics s)) (outside s)).
Proof.
  intros Hf Hn. unfold get_file_name, get_file_name_with. rewrite get_bind, Hf.
  by apply fd_to_filename_ok.
Qed.

Lemma call_as_ok RT func args s ret w :
  real func args (outside s) = (ret, w) → call_as RT func args s = Ret (cast RT ret, MkMon (statics s) w).
Proof. intros E. unfold call_as, call_real, mbind, M_bind. by rewrite E. Qed.

Lemma begin_mon_ok fuel RT func args body s ret w :
  real func args (outside s) = (ret, w) →
  BEGIN_MON (S fuel) RT func args body s
  = (body (cast RT ret) ≫= λ _, mret (cast RT ret)) (MkMon (statics s) w).
Proof.
  intros E. unfold BEGIN_MON. rewrite load_bind. cbn [negb]. by rewrite (bind_Ret _ _ _ _ _ (call_as_ok _ _ _ _ _ _ E)).
Qed.

(** A body that only writes a message, and one that first looks a name up. *)
Lemma message_body fuel msg args s (ret : Z) t :
  format msg (args (statics s)) = Some t →
  (write_msg (S fuel) msg args ≫= λ _, mret ret) s = Ret (ret, MkMon (statics s) (emit t (outside s))).
Proof. intros E. by rewrite (bind_Ret _ _ _ _ _ (write_msg_ok _ _ _ _ _ E)). Qed.

Lemma named_body fuel (lookup : M (Mon W) unit) msg args s (ret : Z) name t :
  lookup s = Ret (tt, MkMon (with_filename name (statics s)) (outside s)) →
  format msg (args (with_filename name (statics s))) = Some t →
  ((lookup ≫= λ _, write_msg (S fuel) msg args) ≫= λ _, mret ret) s
  = Ret (ret, MkMon (with_filename name (statics s)) (emit t (outside s))).
Proof.
  intros El E. rewrite bind_assoc_M, (bind_Ret _ _ _ _ _ El).
  by rewrite (message_body _ _ _ (MkMon (with_filename name (statics s)) (outside s)) _ _ E).
Qed.

(** ** The monitored functions, as a table *)

(** The type declared for the result, the real function and its arguments, the
    monitored call, the descriptor whose name it logs, and the line. *)
Record monitored : Type := Monitored {
  mn_type : ctype;
  mn_func : string;
  mn_args : list arg;
  mn_run : M (Mon W) Z;
  mn_fd : option (W → option Z);
  mn_line : string → Z → string }.

Definition plain RT func args run (line : Z → string) : monitored :=
  Monitored RT func args run None (λ _, line).
Definition stream RT func args run fp line : monitored :=
  Monitored RT func args run (Some (λ w, fileno w fp)) line.

Definition monitors (fuel : nat) (i j k l : Z) (p q : string) : list monitored :=
  [plain Ptr "opendir" [AStr p] (opendir fuel p) (λ r, log_line "opendir" [Quoted p] (Hex r));
   plain Int "creat" [AStr p; AInt i] (creat fuel p i) (λ r, log_line "creat" [Quoted p; Dec i] (Dec r));
   plain Int "open" [AStr p; AInt i] (open fuel p i) (λ r, log_line "open" [Quoted p; Dec i] (Dec r));
   Monitored Int "read" [AInt i; AInt j; AInt k] (read fuel i j k) (Some (λ _, Some i))
     (λ n r, log_line "read" [Bare n; Hex j; Dec k] (Dec r));
   plain Int "write" [AInt i; AInt j; AInt k] (write fuel i j k)
     (λ r, log_line "write" [Dec i; Hex j; Dec k] (Dec r));
   plain Int "dup" [AInt i] (dup fuel i) (λ r, log_line "dup" [Dec i] (Dec r));
   plain Int "dup2" [AInt i; AInt j] (dup2 fuel i j) (λ r, log_line "dup2" [Dec i; Dec j] (Dec r));
   plain Int "close" [AInt i] (close fuel i) (λ r, log_line "close" [Dec i] (Dec r));
   plain Int "lstat" [AStr p; AInt i] (lstat fuel p i) (λ r, log_line "lstat" [Quoted p; Hex i] (Dec r));
   plain Int "stat" [AStr p; AInt i] (stat fuel p i) (λ r, log_line "stat" [Quoted p; Hex i] (Dec r));
   plain Ssize "pwrite" [AInt i; AInt j; AInt k; AInt l] (pwrite fuel i j k l)
     (λ r, log_line "pwrite" [Dec i; Hex j; Dec k; Dec l] (Dec r));
   plain Ptr "fopen" [AStr p; AStr q] (fopen fuel p q) (λ r, log_line "fopen" [Quoted p; Quoted q] (Hex r));
   stream Size "fread" [AInt i; AInt j; AInt k; AInt l] (fread fuel i j k l) l
     (λ n r, log_line "pwrite" [Hex i; Dec j; Dec k; Bare n] (Dec r));      (* sic *)
   stream Size "fwrite" [AInt i; AInt j; AInt k; AInt l] (fwrite fuel i j k l) l
     (λ n r, log_line "fwrite" [Hex i; Dec j; Dec k; Bare n] (Dec r));
   stream Size "fwrite_unlocked" [AInt i; AInt j; AInt k; AInt l] (fwrite_unlocked fuel i j k l) l
     (λ n r, log_line "fwrite_unlocked" [Hex i; Dec j; Dec k; Bare n] (Dec r));
   plain Int "chdir" [AStr p] (chdir fuel p) (λ r, log_line "chdir" [Quoted p] (Dec r));
   plain Int "chown" [AStr p; AInt i; AInt j] (chown fuel p i j)
     (λ r, log_line "chown" [Quoted p; Dec i; Dec j] (Dec r));
   plain Int "chmod" [AStr p; AInt i] (chmod fuel p i) (λ r, log_line "chmod" [Bare p; Dec i] (Dec r));
   plain Int "remove" [AStr p] (remove fuel p) (λ r, log_line "remove" [Quoted p] (Dec r));
   plain Int "rename" [AStr p; AStr q] (rename fuel p q) (λ r, log_line "rename" [Quoted p; Quoted q] (Dec r));
   plain Int "link" [AStr p; AStr q] (link fuel p q) (λ r, log_line "link" [Quoted p; Quoted q] (Dec r));
   plain Int "unlink" [AStr p] (unlink fuel p) (λ r, log_line "unlink" [Quoted p] (Dec r));
   plain Int "symlink" [AStr p; AStr q] (symlink fuel p q)
     (λ r, log_line "syslink" [Quoted p; Quoted q] (Dec r));                (* sic *)
   plain Int "mkdir" [AStr p; AInt i] (mkdir fuel p i) (λ r, log_line "mkdir" [Quoted p; Dec i] (Dec r));
   plain Int "rmdir" [AStr p] (rmdir fuel p) (λ r, log_line "rmdir" [Quoted p] (Dec r));
   stream Int "fputs_unlocked" [AInt i; AInt j] (fputs_unlocked fuel i j) j
     (λ n r, log_line "fputs_unlocked" [Hex i; Bare n] (Dec r));
   stream Int "fflush" [AInt i] (fflush fuel i) i (λ n r, log_line "fflush" [Bare n] (Dec r))].

(** The name that is logged exists: the descriptor is open and its link can be
    read. *)
Definition names (m : monitored) w (name : string) : Prop :=
  match mn_fd m with
  | None => True
  | Some f => ∃ fd, f w = Some fd ∧ fd_name w fd = Some name
  end.

(** The real call; a body that logs the line of the goal, with a name or
    without. *)
Ltac mon_call Hr := etransitivity; [apply (begin_mon_ok _ _ _ _ _ _ _ _ Hr)|]; cbv beta.
Ltac log_plain :=
  match goal with
  | |- _ ?s = Ret (_, MkMon _ (emit ?t _)) => apply (message_body _ _ _ s _ t)
  end.
Ltac log_named name :=
  match goal with
  | |- _ ?s = Ret (_, MkMon _ (emit ?t _)) => apply (named_body _ _ _ _ s _ name t)
  end.


(** ** Names *)

Lemma substring_length n m (s : string) : (String.length (String.substring n m s) ≤ m)%nat.
Proof.
  revert n m. induction s as [|c s IH]; intros [|n] [|m]; cbn [String.substring String.length]; try lia.
  - specialize (IH 0%nat m). lia.
  - apply (IH n).
  - apply (IH n (S m)).
Qed.

Lemma fd_to_filename_spec fuel fd s :
  fd_to_filename (S fuel) fd s =
    match fd_name (outside s) fd with
    | Some name => Ret (tt, MkMon (with_filename name (statics s)) (outside s))
    | None => Undef OutOfBounds
    end ∧
  ∀ name, fd_name (outside s) fd = Some name → (String.length name ≤ 127)%nat.
Proof.
  split.
  - destruct (fd_name (outside s) fd) as [name|] eqn:E; [by apply fd_to_filename_ok|].
    unfold fd_name, fd_to_filename, fd_to_filename_with in *.
    destruct (fd =? 1); [done|]. destruct (fd =? 2); [done|].
    rewrite (bind_Ret (read_init (format "/proc/self/fd/%d" [AInt fd])) _ s (fd_path fd) s eq_refl).
    rewrite load_bind. cbn [negb]. rewrite get_bind.
    by destruct (real_readlink (outside s) (fd_path fd)).
  - unfold fd_name. intros name.
    destruct (fd =? 1); [intros [= <-]; simpl; lia|]. destruct (fd =? 2); [intros [= <-]; simpl; lia|].
    destruct (real_readlink _ _) as [target|]; [|done]. intros [= <-]. apply substring_length.
Qed.

(** C25. [fd_to_filename] gives the standard streams their own names and any
    other descriptor the target of its link in /proc, cut to 127 characters, so
    that the 128-byte buffer is never overrun; but for a descriptor without a
    link, such as one that was never open, it writes before the buffer. *)
Theorem fd_to_filename_names fuel fd s :
  fd_to_filename (S fuel) fd s =
    match fd_name (outside s) fd with
    | Some name => Ret (tt, MkMon (with_filename name (statics s)) (outside s))
    | None => Undef OutOfBounds
    end ∧
  ∀ name, fd_name (outside s) fd = Some name → (String.length name ≤ 127)%nat.
Proof. apply fd_to_filename_spec. Qed.

(** C26. [fclose] logs the name its stream had, since it asks before the stream
    is closed.  [closedir] asks afterwards: it uses a directory stream that is
    no longer there. *)
Theorem names_at_close fuel fp dp fd name s ret w :
  fileno (outside s) fp = Some fd → fd_name (outside s) fd = Some name →
  real "fclose" [AInt fp] (outside s) = (ret, w) →
  dirfd (snd (real "closedir" [AInt dp] (outside s))) dp = None →
  fclose (S fuel) fp s =
    Ret (cast Int ret,
      MkMon (with_filename name (statics s)) (emit (log_line "fclose" [Quoted name] (Dec (cast Int ret))) w)) ∧
  closedir (S fuel) dp s = Undef InvalidAccess.
Proof.
  intros Hf Hn Hr Hd. split.
  - unfold fclose. rewrite load_bind, (bind_Ret _ _ _ _ _ (get_file_name_ok _ _ _ _ _ Hf Hn)). cbn [negb].
    rewrite (bind_Ret _ _ _ _ _ (call_as_ok Int "fclose" _ (MkMon _ (outside s)) _ _ Hr)).
    log_plain. line_text.
  - destruct (real "closedir" [AInt dp] (outside s)) as [r w'] eqn:E.
    etransitivity; [apply (begin_mon_ok _ _ _ _ _ _ _ _ E)|]. cbv beta.
    unfold get_dir_name. rewrite !bind_assoc_M, get_bind. cbn [outside].
    simpl in Hd. rewrite Hd. done.
Qed.

(** ** The text of a stat *)

Definition stat_text (st_mode st_size : Z) : string :=
  "{type=" +:+ (stat_type st_mode +:+ (", mode=" +:+ (signed_text (sint 32 st_mode) +:+
  (", size=" +:+ (signed_text (sint 64 st_size) +:+ "}"))))).

Lemma stat_format t m z :
  format "{type=%s, mode=%d, size=%ld}" [AStr t; AInt m; AInt z]
  = Some ("{type=" +:+ (t +:+ (", mode=" +:+ (signed_text (sint 32 m) +:+
          (", size=" +:+ (signed_text (sint 64 z) +:+ "}")))))).
Proof. lazy -[signed_text to_digits sint Z.modulo Z.pow]. reflexivity. Qed.

Lemma stat_type_length st_mode : (String.length (stat_type st_mode) ≤ 16)%nat.
Proof. unfold stat_type. repeat case_match; simpl; lia. Qed.

Lemma get_verbose_stat_ok p s st_mode st_size :
  stat_of (outside s) p = Some (st_mode, st_size) → 0 ≤ st_mode < 2 ^ 16 → 0 ≤ st_size < 2 ^ 63 →
  get_verbose_stat p s =
    Ret (tt, MkMon (MkStatics (filename (statics s)) (buff1 (statics s)) (buff2 (statics s))
                      (stat_text st_mode st_size)) (outside s)) ∧
  (String.length (stat_text st_mode st_size) ≤ 61)%nat.
Proof.
  intros E Hm Hz.
  assert (String.length (stat_text st_mode st_size) ≤ 61)%nat as Hlen.
  { unfold stat_text. rewrite !string_app_length. rewrite !sint_id by lia.
    pose proof (stat_type_length st_mode).
    pose proof (signed_text_length st_mode 5 ltac:(lia) ltac:(simpl; lia)).
    pose proof (signed_text_length st_size 19 ltac:(lia) ltac:(simpl; lia)).
    cbn [String.length]. lia. }
  split; [|done]. unfold get_verbose_stat. rewrite get_bind, E, read_Some_bind. cbv beta iota zeta.
  rewrite (bind_Ret _ _ _ (stat_text st_mode st_size) s).
  2: { by rewrite stat_format. }
  destruct (Nat.leb_spec 64 (String.length (stat_text st_mode st_size))); [lia|]. done.
Qed.

(** C27. [__xstat] logs type, mode and size of the file, of at most 61
    characters, so that [buff] with its 64 holds them whatever the file is; but
    when the real call leaves the structure unfilled, it is read all the same. *)
Theorem xstat_logs fuel ver path p s ret w :
  real "__xstat" [AInt ver; AStr path; AInt p] (outside s) = (ret, w) →
  match stat_of w p with
  | Some (st_mode, st_size) =>
      0 ≤ st_mode < 2 ^ 16 → 0 ≤ st_size < 2 ^ 63 →
      (String.length (stat_text st_mode st_size) ≤ 61)%nat ∧
      ∃ x, __xstat (S fuel) ver path p s =
        Ret (cast Int ret, MkMon x (emit ("__xstat(" +:+ render_list [Dec ver; Bare path; Hex p]
          (" " +:+ (stat_text st_mode st_size +:+ (") = " +:+ render (Dec (cast Int ret)) newline)))) w))
  | None => __xstat (S fuel) ver path p s = Undef Uninit
  end.
Proof.
  intros Hr. destruct (stat_of w p) as [[st_mode st_size]|] eqn:E.
  - intros Hm Hz.
    destruct (get_verbose_stat_ok p (MkMon (statics s) w) _ _ E Hm Hz) as [Hg Hlen].
    split; [done|]. eexists. mon_call Hr. rewrite bind_assoc_M, (bind_Ret _ _ _ _ _ Hg).
    log_plain. line_text.
  - mon_call Hr. unfold get_verbose_stat. rewrite !bind_assoc_M, get_bind. cbn [outside]. by rewrite E.
Qed.
End log.
