(* ===== verification/FsmonText.v ===== *)
(** * fsmon: the escaped newline

    [convert_to_verbose_newline] keeps the text it escapes in a static buffer
    that is never cleared. *)
From S2P Require Import Prelude Libc Fsmon FsmonLog.

(** ** C strings in an array *)

Definition no_nul (t : string) : bool := all_chars (λ c, negb (bool_decide (c = nul))) t.

Lemma list_ascii_app s t :
  String.list_ascii_of_string (s +:+ t) = String.list_ascii_of_string s ++ String.list_ascii_of_string t.
Proof.
  induction s as [|c s IH]; [done|].
  change (c :: String.list_ascii_of_string (s +:+ t) = c :: String.list_ascii_of_string s ++ String.list_ascii_of_string t).
  by rewrite IH.
Qed.
Lemma length_list_ascii s : length (String.list_ascii_of_string s) = String.length s.
Proof. induction s as [|c s IH]; [done|]. simpl. by rewrite IH. Qed.

Lemma cstr_app t b :
  no_nul t = true → cstr (String.list_ascii_of_string t ++ b) = (λ r, t +:+ r) <$> cstr b.
Proof.
  induction t as [|c t IH]; intros Ht.
  - simpl. by destruct (cstr b).
  - unfold no_nul in Ht. cbn [all_chars] in Ht. apply andb_true_iff in Ht as [Hc Ht].
    cbn [String.list_ascii_of_string app cstr]. apply negb_true_iff in Hc. rewrite Hc, IH by done.
    by destruct (cstr b).
Qed.

Lemma substring_whole n s : (String.length s ≤ n)%nat → String.substring 0 n s = s.
Proof.
  revert n. induction s as [|c s IH]; intros [|n] Hn; try done; [cbn in Hn; lia|].
  cbn [String.substring]. rewrite IH; [done|]. cbn [String.length] in Hn. lia.
Qed.

Lemma get_newline t : String.get (String.length t) (t +:+ newline) = Some (chr 10).
Proof. induction t as [|c t IH]; [done|]. exact IH. Qed.

(** The end of a text, from a position on. *)
Definition drop_text (n : nat) (t : string) : string :=
  String.string_of_list_ascii (drop n (String.list_ascii_of_string t)).

Lemma drop_text_no_nul n t : no_nul t = true → no_nul (drop_text n t) = true.
Proof.
  revert n. induction t as [|c t IH]; intros n Ht; [by destruct n|].
  unfold no_nul in Ht. cbn [all_chars] in Ht. apply andb_true_iff in Ht as [Hc Ht].
  destruct n as [|n]; [|by apply IH].
  unfold drop_text. rewrite drop_0, String.string_of_list_ascii_of_string.
  unfold no_nul. cbn [all_chars]. by rewrite Hc, Ht.
Qed.
Lemma drop_text_list n t : String.list_ascii_of_string (drop_text n t) = drop n (String.list_ascii_of_string t).
Proof. unfold drop_text. apply String.list_ascii_of_string_of_list_ascii. Qed.

Section text.
Context {W : Type} `{CompleteLib W}.
Implicit Types (s : Mon W).

Definition escaped (t : string) : string := t +:+ String (chr 92) "n".

Definition with_buffers b1 b2 s : Mon W :=
  MkMon (MkStatics (filename (statics s)) b1 b2 (stat_buff (statics s))) (outside s).

(** The buffer gets the new text in front of what it held. *)
Lemma convert_newline t tail s :
  no_nul t = true → (String.length t ≤ 128)%nat →
  cstr (drop (String.length t) (buff1 (statics s))) = Some tail →
  (String.length t + String.length tail ≤ 129)%nat →
  convert_to_verbose_newline (Some (t +:+ newline)) s =
    Ret (λ x, AStr (buff2 x),
         with_buffers (String.list_ascii_of_string t ++ drop (String.length t) (buff1 (statics s)))
           (escaped (t +:+ tail)) s).
Proof.
  intros Ht Hlen Htail Hfit. unfold convert_to_verbose_newline.
  assert (String.length (t +:+ newline) - 1 = String.length t)%nat as ->.
  { rewrite string_app_length. cbn. lia. }
  rewrite get_newline, bool_decide_eq_true_2 by done. rewrite get_bind.
  destruct (Nat.ltb_spec 128 (String.length t)); [lia|].
  rewrite list_ascii_app, <-length_list_ascii, take_app_length, length_list_ascii.
  rewrite cstr_app, Htail by done. cbn [fmap option_fmap option_map].
  unfold set_statics, modify, mbind, M_bind, mret, M_ret. cbn [statics outside].
  unfold with_buffers, escaped. rewrite substring_whole; [done|].
  rewrite !string_app_length. cbn. lia.
Qed.

Lemma cstr_zeros n : (0 < n)%nat → cstr (replicate n nul) = Some EmptyString.
Proof. destruct n; [lia|]. intros _. cbn [replicate cstr]. by rewrite bool_decide_eq_true_2. Qed.

Lemma cstr_full t b : no_nul t = true → cstr b = None → cstr (String.list_ascii_of_string t ++ b) = None.
Proof. intros Ht Hb. by rewrite cstr_app, Hb. Qed.

(** C28. [convert_to_verbose_newline] from the fresh buffer shows the text with
    its newline escaped.  The buffer is not cleared and the copy is not
    terminated: a shorter text converted next is shown with the end of the
    longer one behind it.  A text of 128 characters or more before its newline
    leaves the buffer. *)
Theorem verbose_newline t u v s :
  buff1 (statics s) = replicate 128 nul →
  no_nul t = true → no_nul u = true → no_nul v = true →
  (String.length u ≤ String.length t ≤ 127)%nat → (128 ≤ String.length v)%nat →
  ∃ s1 s2,
    convert_to_verbose_newline (Some (t +:+ newline)) s = Ret (λ x, AStr (buff2 x), s1) ∧
    buff2 (statics s1) = escaped t ∧
    convert_to_verbose_newline (Some (u +:+ newline)) s1 = Ret (λ x, AStr (buff2 x), s2) ∧
    buff2 (statics s2) = escaped (u +:+ drop_text (String.length u) t) ∧
    convert_to_verbose_newline (Some (v +:+ newline)) s = Undef OutOfBounds.
Proof.
  intros Hfresh Ht Hu Hv Hlen Hlong.
  eexists _, _. split_and!.
  - apply (convert_newline t EmptyString); [done|lia| |cbn; lia].
    rewrite Hfresh, drop_replicate. apply cstr_zeros. lia.
  - cbn [with_buffers statics buff2]. by rewrite string_app_nil_r.
  - apply (convert_newline u (drop_text (String.length u) t)); [done|lia| |].
    + cbn [with_buffers statics buff1]. rewrite Hfresh, drop_replicate.
      rewrite drop_app_le by (rewrite length_list_ascii; lia).
      rewrite <-drop_text_list, cstr_app by by apply drop_text_no_nul.
      rewrite cstr_zeros by lia. simpl. by rewrite string_app_nil_r.
    + rewrite <-(length_list_ascii (drop_text _ _)), drop_text_list, length_drop, length_list_ascii. lia.
  - done.
  - unfold convert_to_verbose_newline.
    assert (String.length (v +:+ newline) - 1 = String.length v)%nat as ->.
    { rewrite string_app_length. cbn. lia. }
    rewrite get_newline, bool_decide_eq_true_2 by done. rewrite get_bind.
    destruct (Nat.ltb_spec 128 (String.length v)); [done|].
    rewrite list_ascii_app, <-length_list_ascii, take_app_length, Hfresh, drop_replicate, length_list_ascii.
    rewrite cstr_app by done. by replace (128 - String.length v)%nat with 0%nat by lia.
Qed.
End text.
