(* ===== verification/FsmonCalls.v ===== *)
(** * fsmon: every call of the library

    The calls a program can make, the function of the C library behind each,
    and what the program gets instead when fsmon.so is preloaded.  A call, the
    variadic ones included, changes nothing but the log; what the program sees
    of it differs for read, write and open, which fsmon.c declares with other
    types than the library. *)
From S2P Require Import Prelude Libc Fsmon FsmonLog.

(** A call of the C library: the 37 functions fsmon.c defines, and the others. *)
Inductive libcall : Type :=
  | Closedir (p : Z)
  | Opendir (path : string)
  | Readdir (p : Z)
  | Creat (path : string) (i : Z)
  | Open (path : string) (i : Z) (mode : option Z)   (** [open] is variadic *)
  | Read (i j k : Z)
  | Write (i j k : Z)
  | Dup (i : Z)
  | Dup2 (i j : Z)
  | Close (i : Z)
  | Lstat (path : string) (i : Z)
  | Stat (path : string) (i : Z)
  | Pwrite (i j k l : Z)
  | Fopen (path mode : string)
  | Fclose (p : Z)
  | Fread (i j k l : Z)
  | Fwrite (i j k l : Z)
  | Fwrite_unlocked (i j k l : Z)
  | Fgetc (p : Z)
  | Fgets (i j k : Z)
  | Fscanf (p : Z) (fmt : string) (vs : list arg)
  | Fprintf (p : Z) (fmt : string) (vs : list arg)
  | Chdir (path : string)
  | Chown (path : string) (i j : Z)
  | Chmod (path : string) (i : Z)
  | Remove (path : string)
  | Rename (path path2 : string)
  | Link (path path2 : string)
  | Unlink (path : string)
  | Readlink (path : string) (i j : Z)
  | Symlink (path path2 : string)
  | Mkdir (path : string) (i : Z)
  | Rmdir (path : string)
  | Xstat (i : Z) (path : string) (j : Z)
  | Lxstat (i : Z) (path : string) (j : Z)
  | Fputs_unlocked (i j : Z)
  | Fflush (p : Z)
  | Other (func : string) (args : list arg).

Definition option_list {A} (o : option A) : list A := match o with Some a => [a] | None => [] end.

(** The function of the C library behind a call.  The variadic functions are
    their [v] variants, with the variable arguments as a list. *)
Definition real_of (c : libcall) : string * list arg :=
  match c with
  | Closedir p => ("closedir", [AInt p])
  | Opendir path => ("opendir", [AStr path])
  | Readdir p => ("readdir", [AInt p])
  | Creat path i => ("creat", [AStr path; AInt i])
  | Open path i mode => ("open", AStr path :: AInt i :: (AInt <$> option_list mode))
  | Read i j k => ("read", [AInt i; AInt j; AInt k])
  | Write i j k => ("write", [AInt i; AInt j; AInt k])
  | Dup i => ("dup", [AInt i])
  | Dup2 i j => ("dup2", [AInt i; AInt j])
  | Close i => ("close", [AInt i])
  | Lstat path i => ("lstat", [AStr path; AInt i])
  | Stat path i => ("stat", [AStr path; AInt i])
  | Pwrite i j k l => ("pwrite", [AInt i; AInt j; AInt k; AInt l])
  | Fopen path mode => ("fopen", [AStr path; AStr mode])
  | Fclose p => ("fclose", [AInt p])
  | Fread i j k l => ("fread", [AInt i; AInt j; AInt k; AInt l])
  | Fwrite i j k l => ("fwrite", [AInt i; AInt j; AInt k; AInt l])
  | Fwrite_unlocked i j k l => ("fwrite_unlocked", [AInt i; AInt j; AInt k; AInt l])
  | Fgetc p => ("fgetc", [AInt p])
  | Fgets i j k => ("fgets", [AInt i; AInt j; AInt k])
  | Fscanf p fmt vs => ("vfscanf", AInt p :: AStr fmt :: vs)
  | Fprintf p fmt vs => ("vfprintf", AInt p :: AStr fmt :: vs)
  | Chdir path => ("chdir", [AStr path])
  | Chown path i j => ("chown", [AStr path; AInt i; AInt j])
  | Chmod path i => ("chmod", [AStr path; AInt i])
  | Remove path => ("remove", [AStr path])
  | Rename path path2 => ("rename", [AStr path; AStr path2])
  | Link path path2 => ("link", [AStr path; AStr path2])
  | Unlink path => ("unlink", [AStr path])
  | Readlink path i j => ("readlink", [AStr path; AInt i; AInt j])
  | Symlink path path2 => ("symlink", [AStr path; AStr path2])
  | Mkdir path i => ("mkdir", [AStr path; AInt i])
  | Rmdir path => ("rmdir", [AStr path])
  | Xstat i path j => ("__xstat", [AInt i; AStr path; AInt j])
  | Lxstat i path j => ("__lxstat", [AInt i; AStr path; AInt j])
  | Fputs_unlocked i j => ("fputs_unlocked", [AInt i; AInt j])
  | Fflush p => ("fflush", [AInt p])
  | Other func args => (func, args)
  end.

(** The call fsmon.c makes of it: [open] has two parameters there. *)
Definition seen_of (c : libcall) : string * list arg :=
  match c with
  | Open path i _ => ("open", [AStr path; AInt i])
  | c => real_of c
  end.

(** What a caller that expects an [ssize_t] finds when the function it reaches
    returns an [int]: the calling convention fixes the low 32 bits only. *)
Class IntAbi : Type := {
  as_long : Z → Z;
  as_long_low r : sint 32 (as_long r) = sint 32 r }.

Section calls.
Context {W : Type} `{CompleteLib W} `{!TypedLib W} `{IntAbi}.
Implicit Types (s : Mon W).

(** The result a program sees of a monitored call that really gave [r]. *)
Definition seen_result (c : libcall) (r : Z) : Z :=
  match c with Read _ _ _ | Write _ _ _ => as_long (cast Int r) | _ => r end.

(** A program that keeps the result in an [int] sees the real one. *)
Lemma seen_result_low c r : sint 32 (seen_result c r) = sint 32 r.
Proof. destruct c; try done; cbn [seen_result]; rewrite as_long_low; apply (cast_cast Int). Qed.

(** What the program gets when fsmon.so is preloaded: it was compiled against
    the library's declarations. *)
Definition monitored_call (fuel : nat) (c : libcall) : M (Mon W) Z :=
  match c with
  | Closedir p => closedir fuel p
  | Opendir path => opendir fuel path
  | Readdir p => readdir fuel p
  | Creat path i => creat fuel path i
  | Open path i _ => open fuel path i
  | Read i j k => ret ← read fuel i j k; mret (as_long ret)
  | Write i j k => ret ← write fuel i j k; mret (as_long ret)
  | Dup i => dup fuel i
  | Dup2 i j => dup2 fuel i j
  | Close i => close fuel i
  | Lstat path i => lstat fuel path i
  | Stat path i => stat fuel path i
  | Pwrite i j k l => pwrite fuel i j k l
  | Fopen path mode => fopen fuel path mode
  | Fclose p => fclose fuel p
  | Fread i j k l => fread fuel i j k l
  | Fwrite i j k l => fwrite fuel i j k l
  | Fwrite_unlocked i j k l => fwrite_unlocked fuel i j k l
  | Fgetc p => fgetc fuel p
  | Fgets i j k => fgets fuel i j k
  | Fscanf p fmt vs => fscanf fuel p fmt vs
  | Fprintf p fmt vs => fprintf fuel p fmt vs
  | Chdir path => chdir fuel path
  | Chown path i j => chown fuel path i j
  | Chmod path i => chmod fuel path i
  | Remove path => remove fuel path
  | Rename path path2 => rename fuel path path2
  | Link path path2 => link fuel path path2
  | Unlink path => unlink fuel path
  | Readlink path i j => readlink fuel path i j
  | Symlink path path2 => symlink fuel path path2
  | Mkdir path i => mkdir fuel path i
  | Rmdir path => rmdir fuel path
  | Xstat i path j => __xstat fuel i path j
  | Lxstat i path j => __lxstat fuel i path j
  | Fputs_unlocked i j => fputs_unlocked fuel i j
  | Fflush p => fflush fuel p
  | Other func args => call_real func args
  end.

(** ** Every monitored function changes nothing but the log *)

(** A computation that leaves the world alone, and one that adds at most one
    entry to the log. *)
Abbreviation silent := (frame (S := Mon W) (X := W) outside).
Definition logs_once {A} (m : M (Mon W) A) : Prop :=
  ∀ s a s', m s = Ret (a, s') →
    outside s' = outside s ∨ ∃ text, outside s' = emit text (outside s).

Lemma silent_statics f : silent (set_statics f).
Proof. intros s b s' E. by injection E as <- <-. Qed.
Lemma silent_load fuel f : silent (load_function (S fuel) f).
Proof. intros s a s' E. rewrite load_ok in E. by injection E as <- <-. Qed.
Lemma silent_fd_to_filename fuel fd : silent (fd_to_filename (S fuel) fd).
Proof.
  intros s a s' E. rewrite (proj1 (fd_to_filename_spec fuel fd s)) in E.
  destruct (fd_name (outside s) fd); [by injection E as <- <-|done].
Qed.
#[local] Hint Resolve silent_statics silent_fd_to_filename : frame.
Lemma silent_ptr p : silent (string_at_ptr p).
Proof. unfold string_at_ptr. frame. Qed.
Lemma silent_get_file_name fuel fp : silent (get_file_name (S fuel) fp).
Proof. unfold get_file_name. frame. apply silent_fd_to_filename. Qed.
Lemma silent_get_dir_name fuel dp : silent (get_dir_name (S fuel) dp).
Proof. unfold get_dir_name. frame. Qed.
Lemma silent_convert o : silent (convert_to_verbose_newline o).
Proof. unfold convert_to_verbose_newline. frame. Qed.
Lemma silent_stat p : silent (get_verbose_stat p).
Proof. unfold get_verbose_stat. frame. Qed.
#[local] Hint Resolve silent_load silent_ptr silent_get_file_name silent_get_dir_name silent_convert silent_stat : frame.

Lemma silent_logs {A} (m : M (Mon W) A) : silent m → logs_once m.
Proof. intros Hm s a s' E. left. by apply Hm in E. Qed.
Lemma silent_then_logs {A B} (m : M (Mon W) A) (f : A → M (Mon W) B) :
  silent m → (∀ a, logs_once (f a)) → logs_once (m ≫= f).
Proof. intros Hm Hf s b s' (a & s1 & E & E1)%bind_inv. apply Hf in E1. by rewrite (Hm _ _ _ E) in E1. Qed.
Lemma logs_then_silent {A B} (m : M (Mon W) A) (f : A → M (Mon W) B) :
  logs_once m → (∀ a, silent (f a)) → logs_once (m ≫= f).
Proof. intros Hm Hf s b s' (a & s1 & E & E1)%bind_inv. apply Hm in E. by rewrite (Hf a _ _ _ E1). Qed.

Lemma logs_write_msg fuel msg args : logs_once (write_msg (S fuel) msg args).
Proof.
  intros s a s' E. destruct (format msg (args (statics s))) as [t|] eqn:Et.
  - rewrite (write_msg_ok _ _ _ _ _ Et) in E. injection E as <- <-. right. by exists t.
  - exfalso. unfold write_msg, write_msg_with in E. rewrite get_bind in E.
    assert (text_of msg args s = Undef BadFormat) as Eu by (unfold text_of; by rewrite get_bind, Et).
    destruct (getenv (outside s) "MONITOR_OUTPUT").
    + rewrite load_bind, load_bind in E. cbn [negb] in E. by rewrite (bind_Undef _ _ _ _ Eu) in E.
    + by rewrite (bind_Undef _ _ _ _ Eu) in E.
Qed.

(** What a monitored call must be: the real call, its result through [conv],
    and at most one entry of the log. *)
Definition transparent (conv : Z → Z) (func : string) (args : list arg) (m : M (Mon W) Z) : Prop :=
  ∀ s r s', m s = Ret (r, s') →
    let '(ret, w) := real func args (outside s) in
    r = conv ret ∧ (outside s' = w ∨ ∃ text, outside s' = emit text w).

Lemma call_as_transparent RT func args (body : Z → M (Mon W) unit) :
  (∀ ret, logs_once (body ret)) →
  transparent (cast RT) func args (ret ← call_as RT func args; body ret ≫= λ _, mret ret).
Proof.
  intros Hb s r s' (ret & s1 & E & E1)%bind_inv.
  destruct (real func args (outside s)) as [r' w] eqn:Hr. rewrite (call_as_ok _ _ _ _ _ _ Hr) in E.
  injection E as <- <-. apply bind_inv in E1 as (u & s2 & E1 & E2). injection E2 as <- <-.
  split; [done|]. by apply Hb in E1.
Qed.

Lemma silent_then_transparent {A} conv func args (m : M (Mon W) A) (f : A → M (Mon W) Z) :
  silent m → (∀ a, transparent conv func args (f a)) → transparent conv func args (m ≫= f).
Proof.
  intros Hm Hf s r s' (a & s1 & E & E1)%bind_inv. apply Hf in E1. by rewrite (Hm _ _ _ E) in E1.
Qed.

Lemma transparent_undef conv func args u : transparent conv func args (undef u).
Proof. done. Qed.

(** Where the declared type is the library's the result is the same. *)
Lemma transparent_typed func args m :
  transparent (cast (libc_type func)) func args m → transparent id func args m.
Proof.
  intros Hm s r s' E. apply Hm in E. pose proof (real_typed func args (outside s)) as Ht.
  destruct (real func args (outside s)) as [ret w]. cbn in Ht. by rewrite Ht in E.
Qed.

(** The caller's view of an [int]. *)
Lemma transparent_seen func args m :
  transparent (cast Int) func args m → transparent (λ r, as_long (cast Int r)) func args (r ← m; mret (as_long r)).
Proof.
  intros Hm s r s' (r1 & s1 & E & E1)%bind_inv. injection E1 as <- <-. apply Hm in E.
  destruct (real func args (outside s)) as [ret w]. by destruct E as [-> ?].
Qed.

Lemma begin_mon_transparent fuel RT func args body :
  (∀ ret, logs_once (body ret)) → transparent (cast RT) func args (BEGIN_MON (S fuel) RT func args body).
Proof.
  intros Hb. apply silent_then_transparent; [apply silent_load|].
  intros [|]; cbn [negb]; [by apply call_as_transparent|apply transparent_undef].
Qed.

(** The body of a monitored function: lookups, then one message. *)
Ltac logs_body :=
  cbv beta;
  match goal with
  | |- logs_once (write_msg _ _ _) => apply logs_write_msg
  | |- logs_once (mret _) => apply silent_logs, frame_ret
  | |- logs_once (_ ≫= _) => apply silent_then_logs; [solve [auto with frame nocore] | intros ?; logs_body]
  | |- logs_once _ => case_match; logs_body
  end.

Lemma fclose_transparent fuel p : transparent (cast Int) "fclose" [AInt p] (fclose (S fuel) p).
Proof.
  apply silent_then_transparent; [apply silent_load|]. intros old.
  apply silent_then_transparent; [apply silent_get_file_name|]. intros _.
  destruct old; cbn [negb]; [|apply transparent_undef].
  apply call_as_transparent. intros ret. logs_body.
Qed.

Lemma variadic_transparent fuel func args stream fmt msg (margs : Z → (Statics → arg) → Statics → list arg) :
  transparent (cast Int) func args
    (ret ← call_as Int func args;
     get_file_name (S fuel) stream ≫= λ _,
     v ← convert_to_verbose_newline (Some fmt);
     write_msg (S fuel) msg (margs ret v) ≫= λ _, mret ret).
Proof.
  intros s r s' E.
  apply (call_as_transparent Int func args (λ ret,
    get_file_name (S fuel) stream ≫= λ _,
    v ← convert_to_verbose_newline (Some fmt); write_msg (S fuel) msg (margs ret v))).
  - intros ret. logs_body.
  - rewrite <-E. unfold mbind, M_bind. destruct (call_as Int func args s) as [[ret s1]| | | | |]; try done.
    destruct (get_file_name (S fuel) stream s1) as [[[] s2]| | | | |]; try done.
    destruct (convert_to_verbose_newline (Some fmt) s2) as [[v s3]| | | | |]; done.
Qed.

(** Each of the 37 functions fsmon.c defines is transparent, whatever its
    arguments: when it returns, it returns what the program sees of the real
    function's result, the real function was called once, first, and with the
    arguments it is declared to have, and what it left has changed by at most
    one entry of the log. *)
Theorem every_monitored_transparent fuel c :
  transparent (seen_result c) (fst (seen_of c)) (snd (seen_of c)) (monitored_call (S fuel) c).
Proof.
  destruct c; cbn [seen_of real_of monitored_call fst snd].
  all: try (apply transparent_typed, begin_mon_transparent; intros ret; logs_body).
  all: try (apply transparent_seen, begin_mon_transparent; intros ret; logs_body).
  - apply transparent_typed, fclose_transparent.
  - apply transparent_typed, (variadic_transparent _ _ _ _ _ _ (λ ret v x, [AStr (filename x); v x; AInt ret])).
  - apply transparent_typed, (variadic_transparent _ _ _ _ _ _ (λ ret v x, [AStr (filename x); v x; AInt ret])).
  - intros s r s' E. unfold call_real in E. destruct (real func args (outside s)) as [ret w].
    injection E as <- <-. split; [done|by left].
Qed.
End calls.
