(* ===== verification/FsmonClient.v ===== *)
(** * fsmon: programs under the monitor

    A program that calls the C library is an interaction tree: its events are
    the calls and what it reads and writes of its own memory.  The same tree
    runs on the library alone, with fsmon.so in front of it, and on the library
    as fsmon.so shows it, where read and write return an int and open takes no
    mode.  A monitored run is a run on the library as shown; where nothing is
    lost by that, it gives the same result as the run on the library alone, and
    the worlds differ in the log only.  The programs of hw2/testcases are such
    trees. *)
From ITree Require Import ITree.
From S2P Require Import Prelude Libc Fsmon FsmonLog FsmonText FsmonCalls.

(** ** Programs *)

Inductive libE : Type → Type :=
  | Call (c : libcall) : libE Z
  | DName (p : Z) : libE string              (** [p->d_name] *)
  | Load (p : Z) : libE Z                    (** a variable of the program *)
  | Store (p v : Z) : libE unit.

#[export] Instance itree_ret E : MRet (itree E) := λ A a, go (RetF a).
#[export] Instance itree_bind E : MBind (itree E) := λ A B f t, ITree.bind t f.

Definition call (c : libcall) : itree libE Z := ITree.trigger (Call c).

(** [while(cond);] *)
Definition while_ (cond : itree libE bool) : itree libE unit :=
  ITree.iter (λ _ : unit, b ← cond; mret (if b : bool then inl tt else inr tt)) tt.
(** [for(i = 0; i < n; i++) body] *)
Definition for_ (n : Z) (body : itree libE unit) : itree libE unit :=
  ITree.iter (λ i : Z, if i <? n then body ≫= λ _, mret (inl (i + 1)) else mret (inr tt)) 0.

(** ** Running a program *)

Section run.
Context {S : Type} {E : Type → Type} (h : ∀ T, E T → M S T).

(** The events of the program, by a handler; [fuel] bounds the steps. *)
Fixpoint run {A} (fuel : nat) (t : itree E A) : M S A :=
  match fuel with
  | O => no_fuel
  | Datatypes.S fuel =>
      match observe t with
      | RetF a => mret a
      | TauF t => run fuel t
      | VisF e k => x ← h _ e; run fuel (k x)
      end
  end.

(** The program ends, after some number of steps, with this result and state. *)
Definition yields {A} (t : itree E A) (s : S) (a : A) (s' : S) : Prop :=
  ∃ fuel, run fuel t s = Ret (a, s').

Lemma run_mono {A} fuel fuel' (t : itree E A) s :
  (fuel ≤ fuel')%nat → run fuel t s ≠ NoFuel → run fuel' t s = run fuel t s.
Proof.
  revert fuel' t s. induction fuel as [|fuel IH]; intros [|fuel'] t s Hle; try (done || lia).
  cbn [run]. destruct (observe t) as [a|t'|X e k]; [done|apply IH; lia|].
  unfold mbind, M_bind. destruct (h X e s) as [[x s1]| | | | |]; try done. apply IH. lia.
Qed.

(** A program has one result. *)
Lemma yields_det {A} (t : itree E A) s a s1 b s2 : yields t s a s1 → yields t s b s2 → a = b ∧ s1 = s2.
Proof.
  intros [n En] [m Em]. destruct (Nat.le_ge_cases n m) as [Hle|Hle].
  - rewrite (run_mono _ _ _ _ Hle), En in Em; [by simplify_eq|by rewrite En].
  - rewrite (run_mono _ _ _ _ Hle), Em in En; [by simplify_eq|by rewrite Em].
Qed.
End run.

(** Two handlers that agree, event by event, up to a relation of their states. *)
Section simulation.
Context {S1 S2 : Type} {E : Type → Type} (h1 : ∀ T, E T → M S1 T) (h2 : ∀ T, E T → M S2 T) (R : S1 → S2 → Prop).
Hypothesis event_simulates : ∀ T (e : E T) s1 s2 x s1',
  R s1 s2 → h1 T e s1 = Ret (x, s1') → ∃ s2', h2 T e s2 = Ret (x, s2') ∧ R s1' s2'.

Lemma run_simulates {A} (t : itree E A) s1 s2 a s1' :
  R s1 s2 → yields h1 t s1 a s1' → ∃ s2', yields h2 t s2 a s2' ∧ R s1' s2'.
Proof.
  intros HR [fuel Hrun]. revert t s1 s2 HR Hrun.
  induction fuel as [|fuel IH]; intros t s1 s2 HR Hrun; [done|]. cbn [run] in Hrun.
  destruct (observe t) as [b|t'|X e k] eqn:Et.
  - injection Hrun as -> ->. exists s2. split; [|done]. exists 1%nat. cbn [run]. by rewrite Et.
  - destruct (IH _ _ _ HR Hrun) as (s2' & [n Hn] & HR'). exists s2'. split; [|done].
    exists (S n). cbn [run]. by rewrite Et.
  - apply bind_inv in Hrun as (x & s3 & Ee & Hrun).
    destruct (event_simulates _ _ _ _ _ _ HR Ee) as (s4 & Ee' & HR').
    destruct (IH _ _ _ HR' Hrun) as (s2' & [n Hn] & HR''). exists s2'. split; [|done].
    exists (S n). cbn [run]. by rewrite Et, (bind_Ret _ _ _ _ _ Ee').
Qed.
End simulation.

(** ** The library below a program *)

(** open(2): the mode is read if O_CREAT or O_TMPFILE is among the flags, and
    ignored otherwise. *)
Definition needs_mode (flags : Z) : bool := Z.testbit flags 6 || Z.testbit flags 22.

(** What fsmon.c and the program see of a world does not depend on the log:
    the program cannot name it. *)
Class ClientLib (W : Type) `{RealLib W} : Type := {
  load : W → Z → option Z;                 (* None: not initialised *)
  store : Z → Z → W → W;
  same : relation W;
  same_equiv :: Equivalence same;
  emit_same text w : same (emit text w) w;
  open_mode_ignored path flags mode w : needs_mode flags = false →
    real "open" [AStr path; AInt flags; AInt mode] w = real "open" [AStr path; AInt flags] w;
  real_same func args :: Proper (same ==> prod_relation (=) same) (real func args);
  readlink_same :: Proper (same ==> (=) ==> (=)) real_readlink;
  fileno_same :: Proper (same ==> (=) ==> (=)) fileno;
  dirfd_same :: Proper (same ==> (=) ==> (=)) dirfd;
  d_name_same :: Proper (same ==> (=) ==> (=)) d_name;
  c_string_same :: Proper (same ==> (=) ==> (=)) c_string;
  stat_of_same :: Proper (same ==> (=) ==> (=)) stat_of;
  load_same :: Proper (same ==> (=) ==> (=)) load;
  store_same p v :: Proper (same ==> same) (store p v) }.

Section client.
Context {W : Type} `{CompleteLib W} `{!TypedLib W} `{!ClientLib W} `{IntAbi}.
Implicit Types (s : Mon W) (w : W).

(** A call of the real library. *)
Definition direct_call (c : libcall) : M W Z := λ w,
  let '(r, w') := real (fst (real_of c)) (snd (real_of c)) w in Ret (r, w').

(** The call fsmon.c makes instead, and its result as the program gets it. *)
Definition seen_call (c : libcall) : M W Z := λ w,
  let '(r, w') := real (fst (seen_of c)) (snd (seen_of c)) w in Ret (seen_result c r, w').

(** The events of a program, its calls answered by [f]. *)
Definition answering (f : libcall → M W Z) (T : Type) (e : libE T) : M W T :=
  match e in libE T return M W T with
  | Call c => f c
  | DName p => gets (λ w, d_name w p)
  | Load p => w ← get; read_init (load w p)
  | Store p v => modify (store p v)
  end.

(** On the library alone; on the library as fsmon.so shows it. *)
Definition direct : ∀ T, libE T → M W T := answering direct_call.
Definition seen : ∀ T, libE T → M W T := answering seen_call.

(** fsmon.so shows this call, that really gave [r], as it is. *)
Definition kept (c : libcall) (r : Z) : bool :=
  match c with
  | Read _ _ _ | Write _ _ _ => as_long (cast Int r) =? r
  | Open _ flags (Some _) => negb (needs_mode flags)
  | _ => true
  end.

(** The library alone, stopped at a call that fsmon.so does not show as it is. *)
Definition lossless_call (c : libcall) : M W Z :=
  r ← direct_call c; if kept c r then mret r else undef InvalidAccess.
Definition lossless : ∀ T, libE T → M W T := answering lossless_call.

(** The events of a program that runs with fsmon.so preloaded. *)
Definition preloaded (fuel : nat) (T : Type) (e : libE T) : M (Mon W) T :=
  match e in libE T return M (Mon W) T with
  | Call c => monitored_call fuel c
  | DName p => gets (λ s, d_name (outside s) p)
  | Load p => s ← get; read_init (load (outside s) p)
  | Store p v => modify (λ s, MkMon (statics s) (store p v (outside s)))
  end.

Definition agree s w : Prop := same (outside s) w.

Lemma monitored_sound fuel T (e : libE T) s w x s' :
  agree s w → preloaded (S fuel) T e s = Ret (x, s') →
  ∃ w', seen T e w = Ret (x, w') ∧ agree s' w'.
Proof.
  unfold agree. intros Hs E. destruct e as [c|p|p|p v]; cbn [preloaded seen answering] in *.
  - apply every_monitored_transparent in E. unfold seen, answering, seen_call.
    pose proof (real_same (fst (seen_of c)) (snd (seen_of c)) _ _ Hs) as Hr.
    destruct (real _ _ (outside s)) as [r1 w1], (real _ _ w) as [r2 w2].
    destruct Hr as [Hr Hw]. cbn in Hr, Hw. destruct E as [-> Hout]. subst r2.
    exists w2. split; [done|]. destruct Hout as [->|[text ->]]; [done|]. by rewrite emit_same.
  - injection E as <- <-. exists w. split; [|done].
    unfold seen, answering, gets. by rewrite (d_name_same _ _ Hs p p eq_refl).
  - rewrite get_bind in E. unfold seen, answering. rewrite get_bind, <-(load_same _ _ Hs p p eq_refl).
    destruct (load (outside s) p); [|done]. injection E as <- <-. by exists w.
  - injection E as <- <-. eexists. split; [done|]. cbn. by rewrite Hs.
Qed.

(** A program whose calls one library answers as another ends there as well. *)
Lemma answering_le {A} (f g : libcall → M W Z) (t : itree libE A) w v w' :
  (∀ c w r w', f c w = Ret (r, w') → g c w = Ret (r, w')) →
  yields (answering f) t w v w' → yields (answering g) t w v w'.
Proof.
  intros Hfg Hy. destruct (run_simulates (answering f) (answering g) (=)) with (t := t) (s1 := w) (s2 := w)
    (a := v) (s1' := w') as (w2 & Hg & ->); [|done|done|done].
  intros T e w1 _ x w1' <- E. exists w1'. split; [|done]. destruct e; [by apply Hfg|done..].
Qed.

Lemma kept_seen c w r w' : direct_call c w = Ret (r, w') → kept c r = true → seen_call c w = Ret (r, w').
Proof.
  unfold direct_call, seen_call. intros E Hk. destruct c as [| | | |path flags [mode|]| | | | | | | | | | | | | | |
    | | | | | | | | | | | | | | | | | |]; cbn [seen_of seen_result kept] in *; try exact E.
  - cbn [real_of fst snd option_list fmap list_fmap app] in *.
    by rewrite <-(open_mode_ignored path flags mode) by (by apply negb_true_iff).
  - destruct (real _ _ w) as [r1 w1]. injection E as -> ->. by apply Z.eqb_eq in Hk as ->.
  - destruct (real _ _ w) as [r1 w1]. injection E as -> ->. by apply Z.eqb_eq in Hk as ->.
Qed.

Lemma lossless_inv c w r w' :
  lossless_call c w = Ret (r, w') → direct_call c w = Ret (r, w') ∧ kept c r = true.
Proof.
  intros (r1 & w1 & E & E1)%bind_inv. destruct (kept c r1) eqn:Hk; [|done]. by injection E1 as <- <-.
Qed.

Lemma lossless_direct {A} (t : itree libE A) w v w' : yields lossless t w v w' → yields direct t w v w'.
Proof. apply answering_le. by intros c w1 r w1' [E _]%lossless_inv. Qed.
Lemma lossless_seen {A} (t : itree libE A) w v w' : yields lossless t w v w' → yields seen t w v w'.
Proof. apply answering_le. intros c w1 r w1' [E Hk]%lossless_inv. by apply kept_seen. Qed.


(** ** When the monitor lets the program end *)

Definition is_some {A} (o : option A) : bool := match o with Some _ => true | None => false end.
Definition named_fd w (fd : Z) : bool := is_some (fd_name w fd).
Definition named_stream w (p : Z) : bool := match fileno w p with Some fd => named_fd w fd | None => false end.
Definition named_dir w (p : Z) : bool := match dirfd w p with Some fd => named_fd w fd | None => false end.

(** A text [convert_to_verbose_newline] can take: not empty, and at most 127
    characters before a last newline. *)
Definition escapable (t : string) : bool :=
  match String.get (String.length t - 1) t with
  | None => false
  | Some c => negb (bool_decide (c = chr 10)) || (String.length t <=? 128)%nat
  end.

Definition stat_fits w (p : Z) : bool :=
  match stat_of w p with
  | Some (m, z) => (String.length (stat_text m z) <? 64)%nat
  | None => false
  end.

(** The monitor can log a call: what it looks up is there in the world [w']
    the call left, or, by fclose, in the world [w] before it. *)
Definition loggable (c : libcall) w (ret : Z) w' : bool :=
  match c with
  | Closedir p => named_dir w' p
  | Readdir p => (ret =? 0) || named_dir w' p
  | Read i _ _ => named_fd w' i
  | Fclose p => named_stream w p
  | Fread _ _ _ l | Fwrite _ _ _ l | Fwrite_unlocked _ _ _ l => named_stream w' l
  | Fgetc p | Fflush p => named_stream w' p
  | Fputs_unlocked _ p => named_stream w' p
  | Fgets _ _ p =>
      named_stream w' p && ((ret =? 0) || match c_string w' ret with Some t => escapable t | None => false end)
  | Fscanf p fmt _ | Fprintf p fmt _ => named_stream w' p && escapable fmt
  | Readlink _ i _ => (i =? 0) || is_some (c_string w' i)
  | Xstat _ _ p | Lxstat _ _ p => stat_fits w' p
  | _ => true
  end.

(** The library alone, stopped at a call that cannot be logged or that fsmon.so
    does not show as it is. *)
Definition careful_call (c : libcall) : M W Z :=
  w ← get; r ← lossless_call c; w' ← get; if loggable c w r w' then mret r else undef InvalidAccess.
Definition careful : ∀ T, libE T → M W T := answering careful_call.

(** The last character of [buff1] is never written. *)
Definition terminated s : Prop := buff1 (statics s) !! 127%nat = Some nul.

Lemma fd_name_same w w' fd : same w w' → fd_name w fd = fd_name w' fd.
Proof. intros Hw. unfold fd_name. by rewrite Hw. Qed.

#[export] Instance named_fd_same : Proper (same ==> (=) ==> (=)) named_fd.
Proof. intros w w' Hw fd _ <-. unfold named_fd. by rewrite (fd_name_same _ _ _ Hw). Qed.
#[export] Instance named_stream_same : Proper (same ==> (=) ==> (=)) named_stream.
Proof. intros w w' Hw p _ <-. unfold named_stream. rewrite (fileno_same _ _ Hw p p eq_refl). case_match; [by rewrite Hw|done]. Qed.
#[export] Instance named_dir_same : Proper (same ==> (=) ==> (=)) named_dir.
Proof. intros w w' Hw p _ <-. unfold named_dir. rewrite (dirfd_same _ _ Hw p p eq_refl). case_match; [by rewrite Hw|done]. Qed.
#[export] Instance stat_fits_same : Proper (same ==> (=) ==> (=)) stat_fits.
Proof. intros w w' Hw p _ <-. unfold stat_fits. by rewrite (stat_of_same _ _ Hw p p eq_refl). Qed.
#[export] Instance loggable_same c : Proper (same ==> (=) ==> same ==> (=)) (loggable c).
Proof.
  intros w1 w2 Hw ret _ <- w1' w2' Hw'. destruct c; cbn [loggable]; try done.
  all: by rewrite ?Hw, ?Hw'.
Qed.

(** A body that ends, having changed nothing but the log. *)
Definition settled (body : M (Mon W) unit) s : Prop :=
  wp body (λ _ s', terminated s' ∧ same (outside s') (outside s)) s.

(** A lookup that ends: the world is as it was. *)
Definition looks_up {A} (m : M (Mon W) A) (P : A → Prop) s : Prop :=
  wp m (λ a s', P a ∧ terminated s' ∧ outside s' = outside s) s.

Lemma settled_msg fuel msg args s :
  terminated s → is_Some (format msg (args (statics s))) → settled (write_msg (S fuel) msg args) s.
Proof.
  intros Ht [t E]. eapply wp_intro; [by apply write_msg_ok|]. split; [done|]. apply emit_same.
Qed.
Lemma settled_ret s : terminated s → settled (mret tt) s.
Proof. intros Ht. apply wp_ret. by split. Qed.
Lemma settled_lookup {A} (m : M (Mon W) A) P (f : A → M (Mon W) unit) s :
  looks_up m P s →
  (∀ a s', P a → terminated s' → outside s' = outside s → settled (f a) s') → settled (m ≫= f) s.
Proof.
  intros Hm Hf. apply wp_bind. eapply wp_mono; [exact Hm|]. intros a s' (Ha & Ht & E).
  rewrite <-E. by apply Hf.
Qed.

Lemma look_get s : terminated s → looks_up get (λ a, a = s) s.
Proof. intros Ht. by apply wp_get. Qed.
Lemma look_fd fuel fd s :
  terminated s → named_fd (outside s) fd = true → looks_up (fd_to_filename (S fuel) fd) (λ _, True) s.
Proof.
  intros Ht Hn. unfold named_fd in Hn. destruct (fd_name (outside s) fd) as [name|] eqn:E; [|done].
  eapply wp_intro; [by apply fd_to_filename_ok|]. done.
Qed.
Lemma look_stream fuel p s :
  terminated s → named_stream (outside s) p = true → looks_up (get_file_name (S fuel) p) (λ _, True) s.
Proof.
  intros Ht Hn. unfold named_stream, named_fd in Hn. destruct (fileno (outside s) p) as [fd|] eqn:Ef; [|done].
  destruct (fd_name (outside s) fd) as [name|] eqn:E; [|done].
  eapply wp_intro; [by eapply get_file_name_ok|]. done.
Qed.
Lemma look_dir fuel p s :
  terminated s → named_dir (outside s) p = true → looks_up (get_dir_name (S fuel) p) (λ _, True) s.
Proof.
  intros Ht Hn. unfold looks_up, wp, get_dir_name. rewrite get_bind. unfold named_dir in Hn.
  destruct (dirfd (outside s) p) as [fd|]; [|done]. by apply look_fd.
Qed.
Lemma look_ptr p s :
  terminated s → (p =? 0) || is_some (c_string (outside s) p) = true →
  looks_up (string_at_ptr p) (λ o, o = if p =? 0 then None else c_string (outside s) p) s.
Proof.
  intros Ht Hp. unfold looks_up, wp, string_at_ptr. destruct (p =? 0); [done|]. rewrite get_bind.
  by destruct (c_string (outside s) p).
Qed.
Lemma look_stat p s :
  terminated s → stat_fits (outside s) p = true → looks_up (get_verbose_stat p) (λ _, True) s.
Proof.
  intros Ht Hf. unfold stat_fits in Hf. unfold looks_up, wp, get_verbose_stat. rewrite get_bind.
  destruct (stat_of (outside s) p) as [[m z]|]; [|done]. rewrite read_Some_bind. cbv beta iota.
  rewrite stat_format. fold (stat_text m z). rewrite read_Some_bind.
  apply Nat.ltb_lt in Hf. rewrite (proj2 (Nat.leb_gt _ _)) by done. done.
Qed.

Lemma cstr_nul b k : b !! k = Some nul → is_Some (cstr b).
Proof.
  revert k. induction b as [|c b IH]; intros k Hk; [done|]. cbn [cstr].
  destruct (bool_decide_reflect (c = nul)) as [|Hc]; [by eexists|]. destruct k as [|k]; [by injection Hk|].
  destruct (IH k Hk) as [t ->]. by eexists.
Qed.

Lemma look_convert o s :
  terminated s → match o with Some t => escapable t | None => true end = true →
  looks_up (convert_to_verbose_newline o) (λ v, ∀ x, ∃ t, v x = AStr t) s.
Proof.
  intros Ht Ho. unfold looks_up, wp, convert_to_verbose_newline. destruct o as [f|]; [|split_and!; [intros x; by eexists|done..]].
  unfold escapable in Ho. set (n := (String.length f - 1)%nat) in *.
  destruct (String.get n f) as [c|]; [|done].
  destruct (bool_decide (c = chr 10)); [|split_and!; [intros x; by eexists|done..]]. simpl in Ho. rewrite get_bind.
  apply Nat.leb_le in Ho. rewrite (proj2 (Nat.ltb_ge 128 n)) by lia.
  assert ((take n (String.list_ascii_of_string f) ++ drop n (buff1 (statics s))) !! 127%nat = Some nul) as Hb.
  { rewrite lookup_app_r; rewrite length_take, length_list_ascii; [|lia].
    rewrite lookup_drop. rewrite <-Ht. f_equal. lia. }
  destruct (cstr_nul _ _ Hb) as [t ->]. split_and!; [intros x; by eexists|exact Hb|done].
Qed.

(** ** Every call can be logged, or says why not *)

Lemma begin_mon_returns fuel RT func args body s ret w :
  real func args (outside s) = (ret, w) → settled (body (cast RT ret)) (MkMon (statics s) w) →
  wp (BEGIN_MON (S fuel) RT func args body) (λ r s', r = cast RT ret ∧ terminated s' ∧ same (outside s') w) s.
Proof.
  intros Hr Hb. unfold wp. rewrite (begin_mon_ok _ _ _ _ _ _ _ _ Hr).
  apply (wp_bind (body (cast RT ret))). eapply wp_mono; [exact Hb|]. intros [] s' Hs'. by apply wp_ret.
Qed.

Lemma variadic_returns fuel func args stream fmt msg (margs : Z → (Statics → arg) → Statics → list arg) s ret w :
  terminated s → real func args (outside s) = (ret, w) → named_stream w stream && escapable fmt = true →
  (∀ v s', (∃ t, v (statics s') = AStr t) → is_Some (format msg (margs (cast Int ret) v (statics s')))) →
  wp (ret ← call_as Int func args;
      get_file_name (S fuel) stream ≫= λ _,
      v ← convert_to_verbose_newline (Some fmt);
      write_msg (S fuel) msg (margs ret v) ≫= λ _, mret ret)
    (λ r s', r = cast Int ret ∧ terminated s' ∧ same (outside s') w) s.
Proof.
  intros Ht Hr [Hn He]%andb_true_iff Hfmt.
  apply wp_bind. eapply wp_intro; [by apply call_as_ok|].
  apply wp_bind. eapply wp_mono; [by apply look_stream|]. intros [] s1 (_ & Ht1 & Ew1).
  apply wp_bind. eapply wp_mono; [by apply look_convert|]. intros v s2 (Hv & Ht2 & Ew2).
  apply wp_bind. eapply wp_mono; [apply settled_msg; [done|]; by apply Hfmt|].
  intros [] s' [Ht' Hs']. apply wp_ret. split; [done|]. split; [done|]. by rewrite Hs', Ew2, Ew1.
Qed.

(** Lookups, one after the other, and a message. *)
Ltac message :=
  match goal with
  | |- settled (write_msg _ _ _) _ => apply settled_msg; [done|]; eexists; line_text
  end.
Ltac simple_lookup :=
  first [by apply look_get | by apply look_fd | by apply look_stream | by apply look_dir | by apply look_stat].
Ltac settle :=
  first
    [ message
    | apply settled_ret; done
    | eapply settled_lookup; [simple_lookup | intros ? ? ? ? ?; settle]
    | case_match; settle ].

Lemma readdir_settled fuel p ret s w :
  terminated s → (ret =? 0) || named_dir w p = true → outside s = w →
  settled (if negb (ret =? 0)
           then get_dir_name (S fuel) p ≫= λ _, s0 ← get;
                write_msg (S fuel) ("readdir(" +:+ qs +:+ ") = %s" +:+ newline)
                  (λ x, [AStr (filename x); AStr (d_name (outside s0) ret)])
           else mret tt) s.
Proof. intros Ht Hl <-. destruct (ret =? 0); cbn [negb]; [by apply settled_ret|]. settle. Qed.

Lemma fclose_returns fuel p s ret w :
  terminated s → real "fclose" [AInt p] (outside s) = (ret, w) → named_stream (outside s) p = true →
  wp (fclose (S fuel) p) (λ r s', r = cast Int ret ∧ terminated s' ∧ same (outside s') w) s.
Proof.
  intros Ht Hr Hl. unfold wp, fclose. rewrite load_bind.
  apply (wp_bind (get_file_name (S fuel) p)). eapply wp_mono; [by apply look_stream|].
  intros [] s1 (_ & Ht1 & E). cbn [negb].
  apply wp_bind. eapply wp_intro; [apply call_as_ok; by rewrite E|].
  apply wp_bind. eapply wp_mono; [apply settled_msg; [done|]; eexists; line_text|].
  intros [] s' Hs'. by apply wp_ret.
Qed.

Lemma fgets_settled fuel i j k ret s w :
  terminated s → outside s = w →
  named_stream w k && ((ret =? 0) || match c_string w ret with Some t => escapable t | None => false end) = true →
  settled (t ← string_at_ptr ret;
           get_file_name (S fuel) k ≫= λ _,
           v ← convert_to_verbose_newline t;
           write_msg (S fuel) ("fgets(0x%X, %d, %s) = " +:+ qs +:+ newline)
             (λ x, [AInt i; AInt j; AStr (filename x); v x])) s.
Proof.
  intros Ht <- [Hn Hs]%andb_true_iff. eapply settled_lookup.
  { apply look_ptr; [done|]. destruct (ret =? 0); [done|]. by destruct (c_string _ _). }
  intros o s1 -> Ht1 E1. eapply settled_lookup; [apply (look_stream fuel k); [done|by rewrite E1]|].
  intros _ s2 _ Ht2 E2. eapply settled_lookup.
  { apply look_convert; [done|]. destruct (ret =? 0); [done|]. by destruct (c_string _ _). }
  intros v s3 Hv Ht3 _. destruct (Hv (statics s3)) as [t Et].
  apply settled_msg; [done|]. rewrite Et. eexists. line_text.
Qed.

Lemma readlink_settled fuel path i j ret s w :
  terminated s → outside s = w → (i =? 0) || is_some (c_string w i) = true →
  settled (t ← string_at_ptr i;
           write_msg (S fuel) ("readlink(" +:+ qs +:+ ", " +:+ qs +:+ ", %d) = %d" +:+ newline)
             (λ _, [AStr path; AStr (default "(null)" t); AInt j; AInt ret])) s.
Proof.
  intros Ht <- Hl. eapply settled_lookup; [by apply look_ptr|]. intros o s1 -> Ht1 _. message.
Qed.

Lemma call_returns fuel c s ret w :
  terminated s → real (fst (seen_of c)) (snd (seen_of c)) (outside s) = (ret, w) →
  loggable c (outside s) ret w = true →
  wp (monitored_call (S fuel) c) (λ r s', r = seen_result c ret ∧ terminated s' ∧ same (outside s') w) s.
Proof.
  intros Ht Hr Hl. pose proof (real_typed (fst (seen_of c)) (snd (seen_of c)) (outside s)) as Hty.
  rewrite Hr in Hty. cbn [fst] in Hty.
  destruct c; cbn [seen_of real_of seen_result monitored_call fst snd loggable] in *.
  all: try match type of Hty with cast (libc_type ?f) _ = _ =>
    let t := eval vm_compute in (libc_type f) in change (libc_type f) with t in Hty end.
  all: try (eapply wp_mono; [apply (begin_mon_returns _ _ _ _ _ _ _ _ Hr); cbv beta
           |intros ? ? (-> & ? & ?); split_and!; [exact Hty|done..]]).
  all: try settle.
  - rewrite Hty. by apply (readdir_settled _ _ _ _ w).
  - apply wp_bind. eapply wp_mono; [apply (begin_mon_returns _ _ _ _ _ _ _ _ Hr); cbv beta; settle|].
    intros r s' (-> & ? & ?). by apply wp_ret.
  - apply wp_bind. eapply wp_mono; [apply (begin_mon_returns _ _ _ _ _ _ _ _ Hr); cbv beta; settle|].
    intros r s' (-> & ? & ?). by apply wp_ret.
  - eapply wp_mono; [by apply fclose_returns|]. intros r s' (-> & ? & ?). by rewrite Hty.
  - rewrite Hty. by apply (fgets_settled _ _ _ _ _ _ w).
  - eapply wp_mono.
    { apply (variadic_returns _ _ _ _ _ _ (λ ret v x, [AStr (filename x); v x; AInt ret]) _ _ _ Ht Hr Hl).
      intros v s' [t Et]. rewrite Et. eexists. line_text. }
    intros r s' (-> & ? & ?). by rewrite Hty.
  - eapply wp_mono.
    { apply (variadic_returns _ _ _ _ _ _ (λ ret v x, [AStr (filename x); v x; AInt ret]) _ _ _ Ht Hr Hl).
      intros v s' [t Et]. rewrite Et. eexists. line_text. }
    intros r s' (-> & ? & ?). by rewrite Hty.
  - by apply (readlink_settled _ _ _ _ _ _ w).
  - unfold wp, call_real. rewrite Hr. split_and!; done.
Qed.

Lemma careful_inv c w r w' :
  careful_call c w = Ret (r, w') → lossless_call c w = Ret (r, w') ∧ loggable c w r w' = true.
Proof.
  unfold careful_call. rewrite get_bind. intros (r1 & w1 & E & E1)%bind_inv. rewrite get_bind in E1.
  destruct (loggable c w r1 w1) eqn:Hl; [|done]. by injection E1 as <- <-.
Qed.

Lemma careful_complete fuel T (e : libE T) w s x w' :
  terminated s ∧ same (outside s) w → careful T e w = Ret (x, w') →
  ∃ s', preloaded (S fuel) T e s = Ret (x, s') ∧ terminated s' ∧ same (outside s') w'.
Proof.
  intros [Ht Hs] E. destruct e as [c|p|p|p v]; cbn [preloaded].
  - apply careful_inv in E as [[E Hk]%lossless_inv Hl]. pose proof (kept_seen _ _ _ _ E Hk) as Es.
    unfold seen_call in Es. pose proof (real_same (fst (seen_of c)) (snd (seen_of c)) _ _ Hs) as Hr.
    destruct (real _ _ w) as [r2 w2], (real _ _ (outside s)) as [r1 w1] eqn:Er.
    destruct Hr as [Hr Hw]. cbn in Hr, Hw. subst r2. injection Es as Ex ->.
    assert (loggable c (outside s) r1 w1 = true) as Hl1.
    { rewrite Hs, Hw, <-Hl. destruct c; cbn [seen_result loggable] in *; try done; by rewrite Ex. }
    pose proof (call_returns fuel c s r1 w1 Ht Er Hl1) as Hc.
    apply wp_returns in Hc as (r & s' & Em & -> & Ht' & Hs'). exists s'. rewrite <-Ex. split_and!; [done..|].
    by rewrite Hs'.
  - injection E as <- <-. exists s. split; [|done]. unfold gets. by rewrite (d_name_same _ _ Hs p p eq_refl).
  - unfold careful, answering in E. rewrite get_bind in E. rewrite get_bind, (load_same _ _ Hs p p eq_refl).
    destruct (load w p); [|done]. injection E as <- <-. by exists s.
  - injection E as <- <-. eexists. split; [done|]. cbn. split; [done|]. by rewrite Hs.
Qed.

End client.
