(* ===== verification/FsmonProgs.v ===== *)
(** * fsmon: the programs of hw2/testcases

    Each program is a tree of library calls.  The addresses of its variables
    and of its string literals, and the standard streams, are arguments. *)
From ITree Require Import ITree.
From S2P Require Import Prelude Libc Fsmon FsmonCalls FsmonClient.

Section programs.
Context (lit : string → Z) (stdin stdout : Z) (buf st value lineptr linelen : Z).

(** [perror(x); exit(-1);] *)
Definition errquit (x : string) : itree libE Z :=
  call (Other "perror" [AStr x]) ≫= λ _, mret (-1).

Definition FILENAME1 : string := "./test1.txt".
Definition FILENAME2 : string := "./test2.txt".
Definition DIRNAME : string := "./dir1".

Definition file_main : itree libE Z :=
  fd ← call (Creat FILENAME1 0x1a4);                        (* 0644 *)
  call (Chdir "./././") ≫= λ _,
  if fd <? 0 then errquit "creat"
  else
    call (Write fd (lit "ABCD") 4) ≫= λ _,
    call (Other "lseek" [AInt fd; AInt 4096; AInt 0]) ≫= λ _,
    call (Write fd (lit "EFGH") 4) ≫= λ _,
    call (Pwrite fd (lit "IJKL") 4 8192) ≫= λ _,
    call (Close fd) ≫= λ _,
    fd ← call (Open FILENAME1 0 None);
    if fd <? 0 then errquit "open"
    else
      fd2 ← call (Dup fd);
      fd3 ← call (Dup2 fd 1000);
      call (Read fd2 buf 16) ≫= λ _,
      call (Other "pread" [AInt fd3; AInt buf; AInt 16; AInt 8192]) ≫= λ _,
      call (Close fd) ≫= λ _,
      call (Stat FILENAME1 st) ≫= λ _,
      call (Chown FILENAME1 0 0) ≫= λ _,
      call (Chmod FILENAME1 0x180) ≫= λ _,                  (* 0600 *)
      call (Lstat FILENAME1 st) ≫= λ _,
      call (Rename FILENAME1 FILENAME2) ≫= λ _,
      call (Link FILENAME2 FILENAME1) ≫= λ _,
      call (Unlink FILENAME2) ≫= λ _,
      call (Symlink FILENAME1 FILENAME2) ≫= λ _,
      call (Readlink FILENAME2 buf 16) ≫= λ _,
      call (Mkdir DIRNAME 0x1ff) ≫= λ _,                    (* 0777 *)
      call (Lstat DIRNAME st) ≫= λ _,
      call (Rmdir DIRNAME) ≫= λ _,
      call (Unlink FILENAME1) ≫= λ _,
      call (Remove FILENAME2) ≫= λ _,
      mret 0.

Definition dir_main : itree libE Z :=
  dir ← call (Opendir ".");
  if dir =? 0 then mret (-1)                                    (* exit(-1) *)
  else
    while_ (d ← call (Readdir dir);
            if d =? 0 then mret false
            else
              name ← ITree.trigger (DName d);
              call (Other "printf" [AStr ("%s" +:+ newline); AStr name]) ≫= λ _, mret true) ≫= λ _,
    call (Closedir dir) ≫= λ _, mret 0.

Definition TESTFILE : string := "test1.txt".
Definition EOF : Z := -1.

(** The end of [stdio_main]: three times the file is opened, read to its end
    and closed. *)
Definition reading (cond : Z → itree libE bool) (rest : itree libE Z) : itree libE Z :=
  fp ← call (Fopen TESTFILE "rt");
  if fp =? 0 then errquit "fopen"
  else while_ (cond fp) ≫= λ _, call (Fclose fp) ≫= λ _, rest.

Definition stdio_main : itree libE Z :=
  t ← call (Other "time" [AInt 0]);
  p ← call (Other "getpid" []);
  call (Other "srand" [AInt (Z.lxor t p)]) ≫= λ _,
  fp ← call (Fopen TESTFILE "wt");
  if fp =? 0 then errquit "fopen"
  else
    for_ 10 (r ← call (Other "rand" []);
             call (Fprintf fp ("%d" +:+ newline) [AInt (Z.rem r 100)]) ≫= λ _, mret tt) ≫= λ _,
    call (Fclose fp) ≫= λ _,
    reading (λ fp, c ← call (Fgetc fp); mret (negb (c =? EOF)))
    (reading (λ fp, p ← call (Fgets buf 16 fp); mret (negb (p =? 0)))
    (reading (λ fp, n ← call (Fscanf fp "%d" [AInt value]); mret (0 <? n))
    (call (Unlink TESTFILE) ≫= λ _, mret 0))).

Definition getline_main : itree libE Z :=
  ITree.trigger (Store lineptr 0) ≫= λ _,
  ITree.trigger (Store linelen 0) ≫= λ _,
  fp ← call (Fopen "/etc/passwd" "rt");
  if fp =? 0 then mret (-1)
  else
    while_ (rlen ← call (Other "getline" [AInt lineptr; AInt linelen; AInt fp]);
            if rlen <? 0 then mret false
            else
              (if 0 <? rlen
               then p ← ITree.trigger (Load lineptr); call (Fwrite p 1 rlen stdout)
               else mret 0) ≫= λ _, mret true) ≫= λ _,
    p ← ITree.trigger (Load lineptr);
    (if p =? 0 then mret 0 else call (Other "free" [AInt p])) ≫= λ _,
    call (Fclose fp) ≫= λ _,
    mret 0.

Definition fscanf_main : itree libE Z :=
  call (Fprintf stdout "Value: " []) ≫= λ _,
  call (Fscanf stdin "%d" [AInt value]) ≫= λ _,
  v ← ITree.trigger (Load value);
  call (Fprintf stdout ("Value [%d]" +:+ newline) [AInt v]) ≫= λ _,
  mret 0.
End programs.
