(* ===== verification/FsmonExamples.v ===== *)
(** * fsmon on a concrete library

    A library that keeps its open streams, the links of /proc/self/fd and what
    was appended to log files.  The theorems about the monitor are applied to
    it, and a short program is run under the monitor. *)
From ITree Require Import ITree.
From S2P Require Import Prelude Libc Fsmon FsmonLog FsmonText FsmonCalls FsmonClient FsmonProgs.

Record lib : Type := Lib {
  lb_files : list (string * string); lb_err : string;
  lb_env : option string; lb_links : gmap string string; lb_streams : gmap Z Z }.

Definition lib_real (func : string) (args : list arg) (w : lib) : Z * lib :=
  match args with
  | [AInt p] =>
      if bool_decide (func = "fclose") || bool_decide (func = "closedir")
      then (0, Lib (lb_files w) (lb_err w) (lb_env w) (lb_links w) (delete p (lb_streams w)))
      else (3, w)
  | _ => (3, w)
  end.

#[export] Instance lib_library : RealLib lib := {
  getenv w name := if bool_decide (name = "MONITOR_OUTPUT") then lb_env w else None;
  dlopen_libc w := true;
  dlsym_libc w name := true;
  real := lib_real;
  real_readlink w p := lb_links w !! p;
  fileno w p := lb_streams w !! p;
  dirfd w p := lb_streams w !! p;
  d_name w p := "notes";
  c_string w p := Some ("alpha" +:+ newline);
  stat_of w p := if p =? 0 then None else Some (0x81a4, 2500);
  log_append name text w :=
    Some (Lib (lb_files w ++ [(name, text)]) (lb_err w) (lb_env w) (lb_links w) (lb_streams w));
  err_write text w := Lib (lb_files w) (lb_err w +:+ text) (lb_env w) (lb_links w) (lb_streams w);
  stderr_stream := 102 }.

#[export] Instance lib_typed : TypedLib lib.
Proof.
  intros func args w. assert (∀ t, cast t 0 = 0 ∧ cast t 3 = 3) as Hc by (by intros []).
  cbn [real lib_library]. unfold lib_real. repeat case_match; apply Hc.
Qed.

#[export] Instance lib_complete : CompleteLib lib.
Proof. split; [done|done|]. intros name text w. by eexists. Qed.

Definition fresh : Statics := MkStatics "" (replicate 128 nul) "" "".
Definition w0 : lib := Lib [] "" (Some "log") {[ fd_path 3 := "/tmp/a" ]} {[ 50 := 3; 60 := 3; 102 := 2 ]}.
Definition m0 : Mon lib := MkMon fresh w0.


Lemma fd_to_filename_names_witness :
  fd_to_filename 1 3 m0 = Ret (tt, MkMon (with_filename "/tmp/a" fresh) w0) ∧
  fd_to_filename 1 9 m0 = Undef OutOfBounds ∧
  ∀ name, fd_name w0 3 = Some name → (String.length name ≤ 127)%nat.
Proof.
  split; [|split].
  - exact (proj1 (fd_to_filename_names 0 3 m0)).
  - exact (proj1 (fd_to_filename_names 0 9 m0)).
  - exact (proj2 (fd_to_filename_names 0 3 m0)).
Defined.

Lemma names_at_close_witness :
  (∃ w, lib_real "fclose" [AInt 50] w0 = (0, w) ∧
     fclose 1 50 m0 = Ret (0, MkMon (with_filename "/tmp/a" fresh)
                               (emit (log_line "fclose" [Quoted "/tmp/a"] (Dec 0)) w))) ∧
  closedir 1 60 m0 = Undef InvalidAccess.
Proof.
  destruct (names_at_close 0 50 60 3 "/tmp/a" m0 0 (snd (lib_real "fclose" [AInt 50] w0))) as [Hf Hd];
    [reflexivity..|].
  split; [|exact Hd]. eexists. split; [reflexivity|exact Hf].
Defined.

Lemma xstat_logs_witness :
  (String.length (stat_text 0x81a4 2500) ≤ 61)%nat ∧
  (∃ x, __xstat 1 1 "/tmp/a" 7 m0 =
     Ret (3, MkMon x (emit ("__xstat(" +:+ render_list [Dec 1; Bare "/tmp/a"; Hex 7]
       (" " +:+ (stat_text 0x81a4 2500 +:+ (") = " +:+ render (Dec 3) newline)))) w0))) ∧
  __xstat 1 1 "/tmp/b" 0 m0 = Undef Uninit.
Proof.
  assert (∀ p q, lib_real "__xstat" [AInt 1; AStr p; AInt q] w0 = (3, w0)) as Hr by reflexivity.
  assert (0 ≤ 0x81a4 < 2 ^ 16) as Hm by lia. assert (0 ≤ 2500 < 2 ^ 63) as Hz by lia.
  pose proof (xstat_logs 0 1 "/tmp/a" 7 m0 3 w0) as Ha.
  pose proof (xstat_logs 0 1 "/tmp/b" 0 m0 3 w0) as Hb.
  destruct (Ha (Hr _ _) Hm Hz) as [Hlen Hx].
  split; [exact Hlen|]. split; [exact Hx|]. exact (Hb (Hr _ _)).
Defined.

Lemma verbose_newline_witness :
  ∃ s1 s2,
    convert_to_verbose_newline (Some ("longer line" +:+ newline)) m0 = Ret (λ x, AStr (buff2 x), s1) ∧
    buff2 (statics s1) = escaped "longer line" ∧
    convert_to_verbose_newline (Some ("short" +:+ newline)) s1 = Ret (λ x, AStr (buff2 x), s2) ∧
    buff2 (statics s2) = escaped ("short" +:+ drop_text 5 "longer line") ∧
    convert_to_verbose_newline (Some (repeat_char 130 "a" +:+ newline)) m0 = Undef OutOfBounds.
Proof.
  apply (verbose_newline "longer line" "short" (repeat_char 130 "a") m0); try reflexivity; simpl; lia.
Defined.

Example ex_stale : "short" +:+ drop_text 5 "longer line" = "shortr line".
Proof. reflexivity. Qed.

(** A file is written and closed: two lines of the log. *)
Example ex_monitored :
  match (fwrite 2 0x10 1 5 50 ≫= λ _, fclose 2 50) m0 with
  | Ret (0, s) => snd <$> lb_files (outside s)
  | _ => []
  end = ["fwrite(0x10, 1, 5, /tmp/a) = 3" +:+ newline;
         "fclose(" +:+ dq +:+ "/tmp/a" +:+ dq +:+ ") = 0" +:+ newline].
Proof. vm_compute. reflexivity. Qed.

(** ** The programs of hw2/testcases *)

(** A library whose calls return the results of a script, in the type of each
    function; [fscanf] stores 42 in the variables it is given. *)
Record scripted : Type := Scripted {
  sc_results : list Z; sc_dirs : list Z; sc_vars : gmap Z Z; sc_log : list string; sc_err : string }.

Definition sc_key (w : scripted) : list Z * list Z * gmap Z Z := (sc_results w, sc_dirs w, sc_vars w).
Definition sc_set (k : list Z * list Z * gmap Z Z) (w : scripted) : scripted :=
  Scripted k.1.1 k.1.2 k.2 (sc_log w) (sc_err w).

Definition sc_step (func : string) (args : list arg) (k : list Z * list Z * gmap Z Z)
  : Z * (list Z * list Z * gmap Z Z) :=
  let '(results, dirs, vars) := k in
  let r := cast (libc_type func) (default (-1) (head results)) in
  let dirs := if bool_decide (func = "opendir") then r :: dirs
              else if bool_decide (func = "closedir") then [] else dirs in
  let vars := match args with
              | [AInt _; AStr _; AInt p] => if bool_decide (func = "vfscanf") then <[p := 42]> vars else vars
              | _ => vars
              end in
  (r, (tail results, dirs, vars)).
Definition sc_real (func : string) (args : list arg) (w : scripted) : Z * scripted :=
  let '(r, k) := sc_step func args (sc_key w) in (r, sc_set k w).

#[export] Instance scripted_library : RealLib scripted := {
  getenv w name := if bool_decide (name = "MONITOR_OUTPUT") then Some "log" else None;
  dlopen_libc w := true;
  dlsym_libc w name := true;
  real := sc_real;
  real_readlink w p := Some "/tmp/test1.txt";
  fileno w p := Some p;
  dirfd w p := if bool_decide (p ∈ sc_dirs w) then Some p else None;
  d_name w p := "notes";
  c_string w p := Some ("alpha" +:+ newline);
  stat_of w p := None;
  log_append name text w := Some (Scripted (sc_results w) (sc_dirs w) (sc_vars w) (sc_log w ++ [text]) (sc_err w));
  err_write text w := Scripted (sc_results w) (sc_dirs w) (sc_vars w) (sc_log w) (sc_err w +:+ text);
  stderr_stream := 102 }.

#[export] Instance scripted_typed : TypedLib scripted.
Proof. intros func args w. cbn. apply cast_cast. Qed.

(** The upper half of the register is zero, as after a 32-bit move. *)
#[export] Program Instance zero_extended : IntAbi := {| as_long r := r mod 2 ^ 32 |}.
Next Obligation. intros r. unfold sint. by rewrite Z.mod_mod. Qed.

#[export] Instance scripted_complete : CompleteLib scripted.
Proof. split; [done|done|]. intros name text w. by eexists. Qed.

#[export] Program Instance scripted_client : ClientLib scripted := {|
  load w p := sc_vars w !! p;
  store p v w := sc_set (sc_results w, sc_dirs w, <[p := v]> (sc_vars w)) w;
  same := λ w w', sc_key w = sc_key w' |}.
Next Obligation. split; [by intros w|by intros w w'|]. intros w1 w2 w3. congruence. Qed.
Next Obligation. done. Qed.
Next Obligation. done. Qed.
Next Obligation.
  intros func args w w' E. cbn [real scripted_library]. unfold sc_real. rewrite E.
  destruct (sc_step func args (sc_key w')) as [r [[rs ds] vs]]. by split.
Qed.
Next Obligation. intros w w' E p _ <-. cbn. injection E as _ Ed _. by rewrite Ed. Qed.
Next Obligation. intros w w' E p _ <-. injection E as _ _ Ev. by rewrite Ev. Qed.
Next Obligation. intros p v w w' E. unfold sc_key in *. cbn. congruence. Qed.

Definition sc_start (results : list Z) : Mon scripted := MkMon fresh (Scripted results [] ∅ [] "").

(** What a program leaves, by its result. *)
Definition ends {S A} (o : outcome (A * S)) : option (A * S) := match o with Ret x => Some x | _ => None end.

Definition ex_file : itree libE Z := file_main (λ _, 0x601000) 0x7ffe00 0x7ffe20.
Definition ex_file_results : list Z :=
  [3; 0; 4; 4096; 4; 4; 0; 3; 4; 1000; 16; 16; 0; 0; 0; 0; 0; 0; 0; 0; 0; 12; 0; 0; 0; 0; 0].
Definition ex_file_end : Mon scripted :=
  match run (preloaded 1) 100 ex_file (sc_start ex_file_results) with Ret (_, s) => s | _ => sc_start [] end.

(** The log of the run: a line per call, but for lseek and pread. *)
Example ex_file_log :
  take 9 (sc_log (outside ex_file_end)) = (λ t, t +:+ newline) <$>
    ["creat(" +:+ dq +:+ "./test1.txt" +:+ dq +:+ ", 420) = 3";
     "chdir(" +:+ dq +:+ "./././" +:+ dq +:+ ") = 0";
     "write(3, 0x601000, 4) = 4";
     "write(3, 0x601000, 4) = 4";
     "pwrite(3, 0x601000, 4, 8192) = 4";
     "close(3) = 0";
     "open(" +:+ dq +:+ "./test1.txt" +:+ dq +:+ ", 0) = 3";
     "dup(3) = 4";
     "dup2(3, 1000) = 1000"] ∧
  length (sc_log (outside ex_file_end)) = 25%nat.
Proof. vm_compute. done. Qed.

Definition ex_file_direct : scripted :=
  match run lossless 100 ex_file (outside (sc_start ex_file_results)) with
  | Ret (_, w) => w | _ => outside (sc_start [])
  end.


(** What the monitor does not show as it is: an error of read, and the mode of
    a file that is created. *)
Example ex_read_error :
  fst <$> ends (run direct 9 (call (Read 3 16 8)) (outside (sc_start [-1]))) = Some (-1) ∧
  fst <$> ends (run (preloaded 1) 9 (call (Read 3 16 8)) (sc_start [-1])) = Some 4294967295.
Proof. vm_compute. done. Qed.
Example ex_open_mode :
  real_of (Open "a" 0x41 (Some 0x180)) = ("open", [AStr "a"; AInt 0x41; AInt 0x180]) ∧
  seen_of (Open "a" 0x41 (Some 0x180)) = ("open", [AStr "a"; AInt 0x41]).
Proof. done. Qed.

(** fopen, ten lines, fclose; the end of the file at once, three times. *)
Definition ex_stdio : itree libE Z := stdio_main 0x7ffe00 0x7ffe24.
Definition ex_stdio_results : list Z :=
  [1000; 42; 0; 50] ++ concat (repeat [137; 3] 10) ++ [0] ++
  [50; 55; -1; 0] ++ [50; 0x7ffe00; 0; 0] ++ [50; 1; -1; 0] ++ [0].
Definition ex_stdio_end : scripted :=
  match run careful 200 ex_stdio (outside (sc_start ex_stdio_results)) with Ret (_, w) => w | _ => outside (sc_start []) end.


(** Without the monitor the directory is listed; with it, closedir asks for the
    descriptor of a stream that is gone. *)
Example ex_dir :
  fst <$> ends (run direct 100 dir_main (outside (sc_start [5; 7; 6; 8; 6; 0; 0]))) = Some 0 ∧
  run (preloaded 1) 100 dir_main (sc_start [5; 7; 6; 8; 6; 0; 0]) = Undef InvalidAccess.
Proof. vm_compute. done. Qed.

Example ex_getline :
  (λ x, (fst x, sc_log (outside (snd x)))) <$>
    ends (run (preloaded 1) 100 (getline_main 1 0x7ffe30 0x7ffe38) (sc_start [50; 6; 6; 0; -1; 0]))
  = Some (0, (λ t, t +:+ newline) <$>
      ["fopen(" +:+ dq +:+ "/etc/passwd" +:+ dq +:+ ", " +:+ dq +:+ "rt" +:+ dq +:+ ") = 0x32";
       "fwrite(0x0, 1, 6, <STDOUT>) = 6";
       "fclose(" +:+ dq +:+ "/tmp/test1.txt" +:+ dq +:+ ") = 0"]).
Proof. vm_compute. done. Qed.

Example ex_fscanf :
  (λ x, (fst x, sc_log (outside (snd x)))) <$>
    ends (run (preloaded 1) 100 (fscanf_main 0 1 0x7ffe24) (sc_start [7; 1; 11]))
  = Some (0, (λ t, t +:+ newline) <$>
      ["fprintf(<STDOUT>, " +:+ dq +:+ "Value: " +:+ dq +:+ ", ...) = 7";
       "fscanf(/tmp/test1.txt, " +:+ dq +:+ "%d" +:+ dq +:+ ", ...) = 1";
       "fprintf(<STDOUT>, " +:+ dq +:+ "Value [%d]" +:+ String (chr 92) "n" +:+ dq +:+ ", ...) = 11"]).
Proof. vm_compute. done. Qed.
