(* ===== verification/Netstat.v ===== *)
(** * netstat: the socket listing of hw1

    hw1_utils.h parses the lines of /proc/net and prints an entry; main.cpp
    collects the entries, finds the process that owns each socket, filters them
    and prints two lists.  /proc is outside the program and may change between
    two looks at it: the class [ProcFs] answers by the number of the call.  So
    does what an uninitialised part of an object holds, where the program
    reads it. *)
From S2P Require Import Prelude Libc.

Class ProcFs : Type := {
  net_lines : nat → string → option (list string);     (* a file, read with getline *)
  dir_entries : nat → string → option (list string);   (* a directory; None: opendir failed *)
  link_target : nat → string → option string;          (* None: readlink failed *)
  first_line : nat → string → option (option string);  (* None: fopen failed; Some None: no line *)
  getopt_long : list string → list (Z * Z);            (* results before -1, with option_index *)
  operand_of : list string → option string;            (* argv[optind] afterwards *)
  inet_ntop6 : list Z → string;
  port_high : nat → Z;                                 (* the upper half of [port] *)
  addr6_rest : nat → list Z }.                         (* the last 12 bytes of [bin_addr] *)

(** [struct connection_entry]; a field that was not filled is [None]. *)
Record connection_entry : Type := Entry {
  ip_proto : string;
  local_addr : option string; local_port : option string;
  remote_addr : option string; remote_port : option string;
  pid : option Z; inode : option Z }.

Record Net : Type := MkNet {
  all_connections : list connection_entry; output : list string; now : nat }.

Section netstat.
Context `{ProcFs}.

(** A look at the outside. *)
Definition tick {A} (f : nat → A) : M Net A := λ s,
  Ret (f (now s), MkNet (all_connections s) (output s) (S (now s))).
Definition print (fmt : string) (args : list arg) : M Net unit :=
  match format fmt args with
  | Some t => modify (λ s, MkNet (all_connections s) (output s ++ [t]) (now s))
  | None => undef BadFormat
  end.
Definition set_connections (l : list connection_entry) : M Net unit :=
  modify (λ s, MkNet l (output s) (now s)).

(** A C string in a buffer of [n] bytes. *)
Definition fits (n : nat) (t : string) : M Net string :=
  if (n <=? String.length t)%nat then undef OutOfBounds else mret t.

(** ** hw1_utils.h *)

(** [sscanf(pair, "%x:%x", &a, &b)]: what each conversion stored. *)
Definition scan_pair (pair : string) : option Z * option Z :=
  match scan_num_rest 16 pair with
  | None => (None, None)
  | Some (v, rest) =>
      (Some (wrap32 (strtoull_value v)),
       match rest with
       | String c rest => if bool_decide (c = ":"%char) then scan_x rest else None
       | EmptyString => None
       end)
  end.

(** [inet_ntop(AF_INET, ...)] of the four bytes of a word in memory. *)
Definition inet_ntop4 (w : Z) : string :=
  default "" (format "%d.%d.%d.%d" [AInt (byte_of w 0); AInt (byte_of w 1); AInt (byte_of w 2); AInt (byte_of w 3)]).

(** Only the first four bytes of the address and the lower half of the port are
    written by [sscanf]. *)
Definition parse_addr_port_pair (pair : string) (is_ipv6 : bool) : M Net (string * string) :=
  let '(a, p) := scan_pair pair in
  a ← read_init a;
  addr ← (if is_ipv6
          then rest ← tick addr6_rest; mret (inet_ntop6 ([byte_of a 0; byte_of a 1; byte_of a 2; byte_of a 3] ++ rest))
          else mret (inet_ntop4 a));
  low ← read_init p;
  high ← tick port_high;
  let port := wrap64 (high * 2 ^ 32 + low) in
  port_str ← (if port =? 0 then mret "*" else t ← read_init (format "%d" [AInt port]); fits 8 t);
  mret (addr, port_str).

Definition with_local (a p : string) (e : connection_entry) : connection_entry :=
  Entry (ip_proto e) (Some a) (Some p) (remote_addr e) (remote_port e) (pid e) (inode e).
Definition with_remote (a p : string) (e : connection_entry) : connection_entry :=
  Entry (ip_proto e) (local_addr e) (local_port e) (Some a) (Some p) (pid e) (inode e).
Definition with_inode (i : Z) (e : connection_entry) : connection_entry :=
  Entry (ip_proto e) (local_addr e) (local_port e) (remote_addr e) (remote_port e) (pid e) (Some i).
Definition with_pid (i : Z) (e : connection_entry) : connection_entry :=
  Entry (ip_proto e) (local_addr e) (local_port e) (remote_addr e) (remote_port e) (Some i) (inode e).

(** One token; [count] is its number. *)
Definition parse_token (is_ipv6 : bool) (count : nat) (token : string) (entry : connection_entry)
  : M Net connection_entry :=
  match count with
  | 1%nat => '(a, p) ← parse_addr_port_pair token is_ipv6; mret (with_local a p entry)
  | 2%nat => '(a, p) ← parse_addr_port_pair token is_ipv6; mret (with_remote a p entry)
  | 9%nat => mret (match scan_d token with Some i => with_inode i entry | None => entry end)
  | _ => mret entry
  end.
Fixpoint parse_tokens (is_ipv6 : bool) (count : nat) (tokens : list string) (entry : connection_entry)
  : M Net connection_entry :=
  match tokens with
  | [] => mret entry
  | token :: tokens =>
      if String.prefix newline token then parse_tokens is_ipv6 count tokens entry
      else
        entry ← parse_token is_ipv6 count token entry;
        parse_tokens is_ipv6 (S count) tokens entry
  end.
Definition parse_line (line : string) (entry : connection_entry) (is_ipv6 : bool) : M Net connection_entry :=
  parse_tokens is_ipv6 0 (strtok_all line " ") entry.

(** The string at the head of a buffer, up to its first zero byte. *)
Fixpoint before_nul (t : string) : string :=
  match t with
  | EmptyString => EmptyString
  | String c t => if bool_decide (c = chr 0) then EmptyString else String c (before_nul t)
  end.
Fixpoint skip_chars (n : nat) (t : string) : string :=
  match n, t with
  | S n, String _ t => skip_chars n t
  | _, _ => t
  end.

(** [fopen("/proc/<pid>/cmdline")] and [getline] into a fresh [cmdline]. *)
Definition read_cmdline (p : Z) : M Net string :=
  proc_path ← read_init (format "/proc/%d/cmdline" [AInt p]);
  r ← tick (λ t, first_line t proc_path);
  line ← deref r;                  (* a null stream *)
  read_init line.                  (* the buffer of a failed getline *)

Definition print_entry (entry : connection_entry) : M Net unit :=
  la ← read_init (local_addr entry);
  lp ← read_init (local_port entry);
  local_end ← fits 32 (la +:+ ":" +:+ lp);
  ra ← read_init (remote_addr entry);
  rp ← read_init (remote_port entry);
  remote_end ← fits 32 (ra +:+ ":" +:+ rp);
  p ← read_init (pid entry);
  cmdline ← read_cmdline p;
  program ← read_init (fst <$> scan_s (before_nul cmdline));
  program_path ← fits 32 program;
  let k := (String.length program_path + 1)%nat in
  if (String.length cmdline <? k)%nat then undef OutOfBounds
  else
    print ("%-7s%-25s%-25s%d/%s %s" +:+ newline)
      [AStr (ip_proto entry); AStr local_end; AStr remote_end; AInt p;
       AStr (after_last_slash program_path); AStr (before_nul (skip_chars k cmdline))].

(** ** main.cpp *)

(** The lines of a file of /proc/net; the first is a heading. *)
Fixpoint add_lines (protocol : string) (is_ipv6 : bool) (line_num : nat) (lines : list string) : M Net unit :=
  match lines with
  | [] => mret tt
  | line :: lines =>
      (if (line_num =? 1)%nat then mret tt
       else
         entry ← parse_line line (Entry protocol None None None None None None) is_ipv6;
         modify (λ s, MkNet (all_connections s ++ [entry]) (output s) (now s))) ≫= λ _,
      add_lines protocol is_ipv6 (S line_num) lines
  end.
Definition parse_protocol (protocol : string) : M Net unit :=
  proto_file_name ← fits 32 ("/proc/net/" +:+ protocol);
  let is_ipv6 := bool_decide (protocol = "tcp6") || bool_decide (protocol = "udp6") in
  r ← tick (λ t, net_lines t proto_file_name);
  lines ← deref r;
  add_lines protocol is_ipv6 1 lines.

(** The [switch] over the results of [getopt_long]; [None] is the [return 0]. *)
Fixpoint read_options (results : list (Z * Z)) (tcp udp : bool) : option (bool * bool) :=
  match results with
  | [] => Some (tcp, udp)
  | (c, option_index) :: results =>
      if c =? 0 then read_options results (tcp || (option_index =? 0)) (udp || (option_index =? 1))
      else if c =? 116 then read_options results true udp
      else if c =? 117 then read_options results tcp true
      else None
  end.

(** [strncmp(t, lit, strlen(lit)) == 0] on a text that is not terminated:
    [None] when the comparison runs off its end. *)
Fixpoint starts_with (lit t : string) : option bool :=
  match lit, t with
  | EmptyString, _ => Some true
  | String c lit, String d t => if bool_decide (c = d) then starts_with lit t else Some false
  | String _ _, EmptyString => None
  end.
(** [sscanf(buffer, "socket:[%d]", &inode)] on such a text. *)
Definition socket_inode (target : string) : option Z :=
  if String.prefix "socket:[" target then
    match scan_num_rest 10 (skip_chars 8 target) with
    | Some (v, String _ _) => Some (sint 32 (strtoll_value v))
    | _ => None
    end
  else None.

(** The first entry with the inode gets the process. *)
Fixpoint set_owner (i p : Z) (l : list connection_entry) : M Net (list connection_entry) :=
  match l with
  | [] => mret []
  | e :: l =>
      j ← read_init (inode e);
      if j =? i then mret (with_pid p e :: l) else l ← set_owner i p l; mret (e :: l)
  end.

(** One entry of /proc/<d_name>/fd. *)
Definition scan_fd (d_name fd_dir name : string) : M Net unit :=
  if String.prefix "." name then mret tt
  else
    r ← tick (λ t, link_target t (fd_dir +:+ "/" +:+ name));
    target ← read_init r;                       (* readlink failed: the fresh buffer *)
    is_socket ← read_init (starts_with "socket" target);
    if (is_socket : bool) then
      i ← read_init (socket_inode target);
      p ← read_init (scan_d d_name);
      s ← get;
      l ← set_owner i p (all_connections s);
      set_connections l
    else mret tt.
Fixpoint scan_fds (d_name fd_dir : string) (names : list string) : M Net unit :=
  match names with
  | [] => mret tt
  | name :: names => scan_fd d_name fd_dir name ≫= λ _, scan_fds d_name fd_dir names
  end.

Definition starts_digit (t : string) : bool :=
  match t with String c _ => isdigit c | EmptyString => false end.
(** One entry of /proc. *)
Definition scan_process (d_name : string) : M Net unit :=
  if starts_digit d_name then
    fd_dir ← fits 32 ("/proc/" +:+ d_name +:+ "/fd");
    r ← tick (λ t, dir_entries t fd_dir);
    names ← deref r;                            (* readdir of a null pointer *)
    scan_fds d_name fd_dir names
  else mret tt.
Fixpoint scan_processes (names : list string) : M Net unit :=
  match names with
  | [] => mret tt
  | name :: names => scan_process name ≫= λ _, scan_processes names
  end.

(** [strstr(t, p) != NULL] *)
Fixpoint contains (p t : string) : bool :=
  String.prefix p t || match t with String _ t => contains p t | EmptyString => false end.

(** The two loops that fill [tcp_entries] and [udp_entries]. *)
Fixpoint select_entries (proto filter : string) (l : list connection_entry) : M Net (list connection_entry) :=
  match l with
  | [] => mret []
  | entry :: l =>
      if String.prefix proto (ip_proto entry) then
        p ← read_init (pid entry);
        cmdline ← read_cmdline p;
        if contains filter (before_nul cmdline)
        then l ← select_entries proto filter l; mret (entry :: l)
        else select_entries proto filter l
      else select_entries proto filter l
  end.

Fixpoint print_entries (l : list connection_entry) : M Net unit :=
  match l with
  | [] => mret tt
  | entry :: l => print_entry entry ≫= λ _, print_entries l
  end.
Definition print_list (title : string) (l : list connection_entry) : M Net unit :=
  match l with
  | [] => mret tt
  | _ =>
      print (title +:+ newline) [] ≫= λ _,
      print ("%-7s%-25s%-25s%s" +:+ newline)
        [AStr "Proto"; AStr "Local Address"; AStr "Foreign Address"; AStr "PID/Program name and arguments"]
      ≫= λ _, print_entries l
  end.

(** The conditions on the two options. *)
Definition wants_tcp (tcp udp : bool) : bool := negb (negb tcp && udp).
Definition wants_udp (tcp udp : bool) : bool := negb (tcp && negb udp).

(** From the files of /proc/net to the owners. *)
Definition collect : M Net unit :=
  parse_protocol "tcp" ≫= λ _, parse_protocol "tcp6" ≫= λ _,
  parse_protocol "udp" ≫= λ _, parse_protocol "udp6" ≫= λ _,
  r ← tick (λ t, dir_entries t "/proc");
  names ← deref r;
  scan_processes names.

(** The selection and the two lists. *)
Definition report (tcp udp : bool) (filter : string) : M Net unit :=
  s ← get;
  tcp_entries ← (if wants_tcp tcp udp then select_entries "tcp" filter (all_connections s) else mret []);
  udp_entries ← (if wants_udp tcp udp then select_entries "udp" filter (all_connections s) else mret []);
  print_list "List of TCP connections:" tcp_entries ≫= λ _,
  (match tcp_entries, udp_entries with
   | _ :: _, _ :: _ => print newline []
   | _, _ => mret tt
   end) ≫= λ _,
  print_list "List of UDP connections:" udp_entries.

Definition main (argv : list string) : M Net Z :=
  match read_options (getopt_long argv) false false with
  | None => mret 0
  | Some (tcp, udp) =>
      filter ← fits 64 (default "" (operand_of argv));
      collect ≫= λ _,
      report tcp udp filter ≫= λ _, mret 0
  end.
End netstat.
