(* ===== verification/NetstatParse.v ===== *)
(** * netstat: reading the lines of /proc/net

    The kernel prints a socket as two address:port pairs in hexadecimal and its
    inode in decimal.  Rendering the sockets and parsing the text gives them
    back for IPv4; for IPv6 the address is lost. *)
From S2P Require Import Prelude Libc Netstat.

(** ** Numerals followed by more text *)

Lemma hex_digit_val c : is_hex c = true → ∃ d, digit_val c = Some d ∧ (d <? 16) = true.
Proof.
  intros Hc. pose proof (starts_hex (String c EmptyString) ltac:(done)) as Hst.
  cbn [all_chars starts_with_digit] in Hst. rewrite Hc in Hst. specialize (Hst eq_refl).
  destruct (digit_val c) as [d|]; [by exists d|done].
Qed.

(** One digit after [acc]. *)
Lemma eat_digit c :
  is_hex c = true → ∃ d, ∀ acc s, eat_digits 16 acc (String c s) = eat_digits 16 (acc * 16 + d) s.
Proof.
  intros (d & Hd & Hlt)%hex_digit_val. exists d. intros acc s. cbn [eat_digits]. by rewrite Hd, Hlt.
Qed.

Lemma eat_digits_acc acc s :
  all_chars is_hex s = true →
  eat_digits 16 acc s = (acc * 16 ^ Z.of_nat (String.length s) + fst (eat_digits 16 0 s), EmptyString).
Proof.
  assert (∀ acc s, all_chars is_hex s = true →
    snd (eat_digits 16 acc s) = EmptyString ∧
    fst (eat_digits 16 acc s) = acc * 16 ^ Z.of_nat (String.length s) + fst (eat_digits 16 0 s)) as Hall.
  { clear. intros acc s. revert acc. induction s as [|c s IH]; intros acc Hs.
    - simpl. split; [done|]. lia.
    - cbn [all_chars] in Hs. apply andb_true_iff in Hs as [Hc Hs].
      destruct (eat_digit c Hc) as [d Hd]. rewrite !Hd. cbn [String.length].
      destruct (IH (acc * 16 + d) Hs) as [-> ->]. split; [done|].
      rewrite (proj2 (IH (0 * 16 + d) Hs)), Nat2Z.inj_succ, Z.pow_succ_r by lia. lia. }
  intros Hs. destruct (Hall acc s Hs) as [E1 E2].
  destruct (eat_digits 16 acc s) as [v r]. simpl in *. by subst.
Qed.

(** Digits are read up to the first character that is none. *)
Lemma eat_digits_stop acc s c t :
  all_chars is_hex s = true → is_hex c = false →
  eat_digits 16 acc (s +:+ String c t) = (fst (eat_digits 16 acc s), String c t).
Proof.
  intros Hs Hc. revert acc. induction s as [|x s IH]; intros acc.
  - change (EmptyString +:+ String c t) with (String c t). cbn [eat_digits].
    unfold is_hex in Hc. apply bool_decide_eq_false in Hc.
    destruct (digit_val c) as [d|]; [by destruct Hc; eexists|done].
  - cbn [all_chars] in Hs. apply andb_true_iff in Hs as [Hx Hs].
    change (String x s +:+ String c t) with (String x (s +:+ String c t)).
    destruct (eat_digit x Hx) as [d Hd]. rewrite !Hd. by apply IH.
Qed.

Lemma eat_digits_app acc t r :
  all_chars is_hex t = true → fst (eat_digits 16 acc (t +:+ r)) = fst (eat_digits 16 (fst (eat_digits 16 acc t)) r).
Proof.
  revert acc. induction t as [|c t IH]; intros acc Ht; [done|].
  cbn [all_chars] in Ht. apply andb_true_iff in Ht as [Hc Ht].
  change (String c t +:+ r) with (String c (t +:+ r)).
  destruct (eat_digit c Hc) as [d Hd]. rewrite !Hd. by apply IH.
Qed.

Lemma scan_num_rest_stop s c t :
  s ≠ EmptyString → all_chars is_hex s = true → is_hex c = false → c ≠ "x"%char → c ≠ "X"%char →
  scan_num_rest 16 (s +:+ String c t) = Some (false, fst (eat_digits 16 0 s), String c t).
Proof.
  intros Hne Hs Hc Hx HX. unfold scan_num_rest.
  destruct s as [|a s]; [done|]. pose proof Hs as Hs'. cbn [all_chars] in Hs.
  apply andb_true_iff in Hs as [Ha Hs].
  assert (eat_sign (skip_space (String a s +:+ String c t)) = (false, String a s +:+ String c t)) as ->.
  { change (String a s +:+ String c t) with (String a (s +:+ String c t)). cbn [skip_space].
    rewrite is_hex_not_space by done. cbn [eat_sign].
    by rewrite !bool_decide_eq_false_2 by (by apply is_hex_ne). }
  assert (eat_0x 16 (String a s +:+ String c t) = None) as ->.
  { destruct s as [|b s].
    - change (String a EmptyString +:+ String c t) with (String a (String c t)). cbn.
      rewrite !(bool_decide_eq_false_2 (c = _)) by done. by rewrite andb_false_r.
    - cbn [all_chars] in Hs. apply andb_true_iff in Hs as [Hb _].
      change (String a (String b s) +:+ String c t) with (String a (String b (s +:+ String c t))). cbn.
      rewrite !(bool_decide_eq_false_2 (b = _)) by (by apply is_hex_ne). by rewrite andb_false_r. }
  assert (starts_with_digit 16 (String a s +:+ String c t) = true) as ->.
  { by apply (starts_hex (String a s)). }
  by rewrite eat_digits_stop.
Qed.

(** ** The kernel's text *)

(** ["%08X"] and ["%04X"] *)
Definition hex_upper (width : nat) (n : Z) : string :=
  pad (Directive false true width false) true (to_digits true 16 n).

Lemma hex_upper_eq k n :
  hex_upper k n = repeat_char (k - String.length (to_digits true 16 n)) "0" +:+ to_digits true 16 n.
Proof. done. Qed.
Lemma hex_upper_hex k n : 0 ≤ n → all_chars is_hex (hex_upper k n) = true.
Proof. intros Hn. rewrite hex_upper_eq. by rewrite all_chars_app, zeros_hex, to_digits_hex by lia. Qed.
Lemma hex_upper_nonempty k n : hex_upper k n ≠ EmptyString.
Proof.
  rewrite hex_upper_eq. destruct (_ - _)%nat; [|done]. apply to_digits_nonempty.
Qed.
Lemma eat_hex_upper k n : 0 ≤ n < 2 ^ 64 → eat_digits 16 0 (hex_upper k n) = (n, EmptyString).
Proof. intros Hn. rewrite hex_upper_eq, eat_zeros. by apply eat_to_digits. Qed.

Lemma repeat_char_length k c : String.length (repeat_char k c) = k.
Proof. induction k as [|k IH]; [done|]. cbn [repeat_char String.length]. by rewrite IH. Qed.
Lemma hex_upper_length k n :
  (0 < k)%nat → 0 ≤ n < 16 ^ Z.of_nat k → String.length (hex_upper k n) = k.
Proof.
  intros Hk Hn. rewrite hex_upper_eq, string_app_length, repeat_char_length.
  assert (String.length (to_digits true 16 n) ≤ k)%nat; [|lia].
  unfold to_digits. pose proof (length_digits_from (up := true) 64 16 n EmptyString k ltac:(lia) Hn Hk) as Hl.
  change (String.length EmptyString) with 0%nat in Hl. lia.
Qed.

Definition kernel_pair (addr port : Z) : string := hex_upper 8 addr +:+ ":" +:+ hex_upper 4 port.

Lemma scan_x_hex_upper k n : 0 ≤ n < 2 ^ 32 → scan_x (hex_upper k n) = Some n.
Proof.
  intros Hn. unfold scan_x.
  rewrite scan_num_hex by (apply hex_upper_nonempty || (apply hex_upper_hex; lia)).
  rewrite eat_hex_upper by lia. simpl. destruct (Z.leb_spec (2 ^ 64) n); [lia|].
  f_equal. by apply wrap32_small.
Qed.

(** A numeral, the colon and the port. *)
Lemma scan_pair_text s port :
  s ≠ EmptyString → all_chars is_hex s = true → 0 ≤ port < 2 ^ 16 →
  scan_pair (s +:+ ":" +:+ hex_upper 4 port)
  = (Some (wrap32 (strtoull_value (false, fst (eat_digits 16 0 s)))), Some port).
Proof.
  intros Hne Hs Hp. unfold scan_pair.
  change (":" +:+ hex_upper 4 port) with (String ":" (hex_upper 4 port)).
  rewrite scan_num_rest_stop by done. rewrite bool_decide_eq_true_2 by done.
  by rewrite scan_x_hex_upper by lia.
Qed.

(** ** An address and a port *)

(** The word of memory that holds four bytes. *)
Definition le_word (b0 b1 b2 b3 : Z) : Z := bytes_word [b0; b1; b2; b3].

Lemma le_word_range b0 b1 b2 b3 :
  0 ≤ b0 < 256 → 0 ≤ b1 < 256 → 0 ≤ b2 < 256 → 0 ≤ b3 < 256 → 0 ≤ le_word b0 b1 b2 b3 < 2 ^ 32.
Proof. intros. unfold le_word, bytes_word. cbn [foldr]. lia. Qed.

Lemma le_word_bytes b0 b1 b2 b3 :
  0 ≤ b0 < 256 → 0 ≤ b1 < 256 → 0 ≤ b2 < 256 → 0 ≤ b3 < 256 →
  byte_of (le_word b0 b1 b2 b3) <$> [0; 1; 2; 3] = [b0; b1; b2; b3].
Proof.
  intros. unfold le_word, bytes_word, byte_of. cbn [foldr fmap list_fmap].
  change 255 with (Z.ones 8). rewrite !Z.land_ones, !Z.shiftr_div_pow2 by lia.
  repeat f_equal; Z.to_euclidean_division_equations; lia.
Qed.

Definition dotted (b0 b1 b2 b3 : Z) : string :=
  signed_text b0 +:+ ("." +:+ (signed_text b1 +:+ ("." +:+ (signed_text b2 +:+ ("." +:+ signed_text b3))))).

Lemma format_dotted a b c d :
  format "%d.%d.%d.%d" [AInt a; AInt b; AInt c; AInt d]
  = Some (signed_text (sint 32 a) +:+ ("." +:+ (signed_text (sint 32 b) +:+ ("." +:+
      (signed_text (sint 32 c) +:+ ("." +:+ (signed_text (sint 32 d) +:+ EmptyString))))))).
Proof. lazy -[signed_text to_digits sint Z.modulo Z.pow]. reflexivity. Qed.
Lemma format_d a : format "%d" [AInt a] = Some (signed_text (sint 32 a)).
Proof.
  assert (format "%d" [AInt a] = Some (signed_text (sint 32 a) +:+ EmptyString)) as ->.
  { lazy -[signed_text to_digits sint Z.modulo Z.pow]. reflexivity. }
  by rewrite string_app_nil_r.
Qed.

Lemma inet_ntop4_word b0 b1 b2 b3 :
  0 ≤ b0 < 256 → 0 ≤ b1 < 256 → 0 ≤ b2 < 256 → 0 ≤ b3 < 256 →
  inet_ntop4 (le_word b0 b1 b2 b3) = dotted b0 b1 b2 b3.
Proof.
  intros H0 H1 H2 H3. unfold inet_ntop4.
  pose proof (le_word_bytes b0 b1 b2 b3 H0 H1 H2 H3) as E. cbn [fmap list_fmap] in E.
  injection E as E0 E1 E2 E3. rewrite E0, E1, E2, E3, format_dotted. cbn [default from_option].
  rewrite !sint_id by lia. unfold dotted. by rewrite string_app_nil_r.
Qed.

(** The port as text: [high] is what the upper half of the variable held. *)
Definition port_text (high port : Z) : string :=
  if (high mod 2 ^ 32 =? 0) && (port =? 0) then "*" else signed_text port.

Section parse.
Context `{ProcFs}.
Implicit Types (s : Net).

Definition ticked s : Net := MkNet (all_connections s) (output s) (S (now s)).

Lemma tick_bind {A B} (f : nat → A) (k : A → M Net B) s : (tick f ≫= k) s = k (f (now s)) (ticked s).
Proof. done. Qed.

Lemma port_str_ok high port s :
  0 ≤ port < 2 ^ 16 →
  (if wrap64 (high * 2 ^ 32 + port) =? 0 then mret "*"
   else t ← read_init (format "%d" [AInt (wrap64 (high * 2 ^ 32 + port))]); fits 8 t) s
  = Ret (port_text high port, s).
Proof.
  intros Hp. unfold port_text.
  pose proof (Z.mod_pos_bound high (2 ^ 32) ltac:(lia)) as Hh.
  assert (wrap64 (high * 2 ^ 32 + port) = high mod 2 ^ 32 * 2 ^ 32 + port) as ->.
  { unfold wrap64. Z.to_euclidean_division_equations. nia. }
  assert ((t ← read_init (format "%d" [AInt (high mod 2 ^ 32 * 2 ^ 32 + port)]); fits 8 t) s
          = Ret (signed_text port, s)) as Hnum.
  { rewrite format_d. unfold read_init. rewrite ret_bind.
    assert (sint 32 (high mod 2 ^ 32 * 2 ^ 32 + port) = port) as ->.
    { unfold sint. rewrite Z.add_comm, Z.mod_add, Z.mod_small by lia.
      rewrite (proj2 (Z.ltb_lt _ _)) by lia. done. }
    unfold fits. pose proof (signed_text_length port 5 ltac:(lia) ltac:(simpl; lia)).
    destruct (Nat.leb_spec 8 (String.length (signed_text port))); [lia|done]. }
  destruct (Z.eqb_spec (high mod 2 ^ 32) 0), (Z.eqb_spec port 0),
    (Z.eqb_spec (high mod 2 ^ 32 * 2 ^ 32 + port) 0); cbn [andb]; done || lia.
Qed.

Lemma parse_pair_ok s (t : string) port (is_ipv6 : bool) (a : Z) (addr : string) :
  t ≠ EmptyString → all_chars is_hex t = true → 0 ≤ port < 2 ^ 16 →
  a = wrap32 (strtoull_value (false, fst (eat_digits 16 0 t))) →
  addr = (if is_ipv6 then inet_ntop6 ((map (byte_of a) [0; 1; 2; 3]) ++ addr6_rest (now s)) else inet_ntop4 a) →
  parse_addr_port_pair (t +:+ ":" +:+ hex_upper 4 port) is_ipv6 s
  = Ret ((addr, port_text (port_high (if is_ipv6 then S (now s) else now s)) port),
         if is_ipv6 then ticked (ticked s) else ticked s).
Proof.
  intros Hne Ht Hp -> ->. unfold parse_addr_port_pair. rewrite scan_pair_text by done.
  cbv beta iota zeta. rewrite read_Some_bind. destruct is_ipv6.
  - rewrite bind_assoc_M, tick_bind, ret_bind, read_Some_bind, tick_bind.
    by rewrite (bind_Ret _ _ _ _ _ (port_str_ok _ _ _ Hp)).
  - rewrite ret_bind, read_Some_bind, tick_bind.
    by rewrite (bind_Ret _ _ _ _ _ (port_str_ok _ _ _ Hp)).
Qed.

Lemma strtoull_word t : 0 ≤ t < 2 ^ 32 → wrap32 (strtoull_value (false, t)) = t.
Proof. intros Ht. unfold strtoull_value. rewrite (proj2 (Z.leb_gt _ _)) by lia. by apply wrap32_small. Qed.

(** An IPv4 address and port come back as the dotted quad and the decimal port. *)
Lemma parse_pair_word b0 b1 b2 b3 port s :
  0 ≤ b0 < 256 → 0 ≤ b1 < 256 → 0 ≤ b2 < 256 → 0 ≤ b3 < 256 → 0 ≤ port < 2 ^ 16 →
  parse_addr_port_pair (kernel_pair (le_word b0 b1 b2 b3) port) false s
  = Ret ((dotted b0 b1 b2 b3, port_text (port_high (now s)) port), ticked s).
Proof.
  intros H0 H1 H2 H3 Hp. pose proof (le_word_range b0 b1 b2 b3 H0 H1 H2 H3) as Hw.
  apply (parse_pair_ok s _ port false (le_word b0 b1 b2 b3)); [apply hex_upper_nonempty|by apply hex_upper_hex; lia|done| |].
  - rewrite eat_hex_upper by lia. by rewrite strtoull_word.
  - by rewrite inet_ntop4_word.
Qed.

(** ** IPv6 *)

(** The kernel prints an IPv6 address as its four words. *)
Definition kernel_addr6 (w0 w1 w2 w3 : Z) : string :=
  hex_upper 8 w0 +:+ hex_upper 8 w1 +:+ hex_upper 8 w2 +:+ hex_upper 8 w3.

Lemma eat_app_word acc w r :
  0 ≤ w < 2 ^ 32 →
  fst (eat_digits 16 acc (hex_upper 8 w +:+ r)) = fst (eat_digits 16 (acc * 2 ^ 32 + w) r).
Proof.
  intros Hw. rewrite eat_digits_app by (apply hex_upper_hex; lia).
  rewrite (eat_digits_acc acc) by (apply hex_upper_hex; lia). cbn [fst].
  by rewrite eat_hex_upper, hex_upper_length by lia.
Qed.

Lemma kernel_addr6_hex w0 w1 w2 w3 :
  0 ≤ w0 → 0 ≤ w1 → 0 ≤ w2 → 0 ≤ w3 → all_chars is_hex (kernel_addr6 w0 w1 w2 w3) = true.
Proof. intros. unfold kernel_addr6. by rewrite !all_chars_app, !hex_upper_hex. Qed.

Lemma kernel_addr6_value w0 w1 w2 w3 :
  0 ≤ w0 < 2 ^ 32 → 0 ≤ w1 < 2 ^ 32 → 0 ≤ w2 < 2 ^ 32 → 0 ≤ w3 < 2 ^ 32 →
  fst (eat_digits 16 0 (kernel_addr6 w0 w1 w2 w3)) = ((w0 * 2 ^ 32 + w1) * 2 ^ 32 + w2) * 2 ^ 32 + w3.
Proof.
  intros. unfold kernel_addr6.
  rewrite !eat_app_word by done.
  rewrite eat_digits_acc by (apply hex_upper_hex; lia). cbn [fst].
  rewrite eat_hex_upper, hex_upper_length by lia. change (16 ^ Z.of_nat 8) with (2 ^ 32). cbn [fst]. lia.
Qed.

(** The four bytes [sscanf] leaves of an IPv6 address. *)
Definition lost_bytes (w0 w1 w3 : Z) : list Z :=
  if (w0 =? 0) && (w1 =? 0) then map (byte_of w3) [0; 1; 2; 3] else [255; 255; 255; 255].

Lemma parse_pair_words w0 w1 w2 w3 port s :
  0 ≤ w0 < 2 ^ 32 → 0 ≤ w1 < 2 ^ 32 → 0 ≤ w2 < 2 ^ 32 → 0 ≤ w3 < 2 ^ 32 → 0 ≤ port < 2 ^ 16 →
  parse_addr_port_pair (kernel_addr6 w0 w1 w2 w3 +:+ ":" +:+ hex_upper 4 port) true s
  = Ret ((inet_ntop6 (lost_bytes w0 w1 w3 ++ addr6_rest (now s)),
          port_text (port_high (S (now s))) port), ticked (ticked s)).
Proof.
  intros H0 H1 H2 H3 Hp.
  apply (parse_pair_ok s _ port true
    (if (w0 =? 0) && (w1 =? 0) then w3 else 2 ^ 32 - 1)); [| |done| |].
  - unfold kernel_addr6. pose proof (hex_upper_nonempty 8 w0). by destruct (hex_upper 8 w0).
  - apply kernel_addr6_hex; lia.
  - rewrite kernel_addr6_value by done. unfold strtoull_value.
    destruct (Z.leb_spec (2 ^ 64) (((w0 * 2 ^ 32 + w1) * 2 ^ 32 + w2) * 2 ^ 32 + w3));
      destruct (Z.eqb_spec w0 0), (Z.eqb_spec w1 0); cbn [andb]; try lia; try done.
    subst. unfold wrap32. rewrite !Z.mul_0_l, !Z.add_0_l, Z.add_comm, Z.mod_add, Z.mod_small by lia. done.
  - unfold lost_bytes. by destruct ((w0 =? 0) && (w1 =? 0)).
Qed.

(** An IPv6 address does not survive: [sscanf] stores one 32-bit word, which
    is all ones unless the first half of the address is zero and the last word
    of the address then; the other twelve bytes are what the stack held.  So
    any two addresses with a first half that is not zero print alike. *)
Theorem parse_pair_ipv6_lost w0 w1 w2 w3 port s :
  0 ≤ w0 < 2 ^ 32 → 0 ≤ w1 < 2 ^ 32 → 0 ≤ w2 < 2 ^ 32 → 0 ≤ w3 < 2 ^ 32 → 0 ≤ port < 2 ^ 16 →
  parse_addr_port_pair (kernel_addr6 w0 w1 w2 w3 +:+ ":" +:+ hex_upper 4 port) true s
  = Ret ((inet_ntop6 ((if (w0 =? 0) && (w1 =? 0) then map (byte_of w3) [0; 1; 2; 3] else [255; 255; 255; 255])
                        ++ addr6_rest (now s)),
          port_text (port_high (S (now s))) port), ticked (ticked s)).
Proof. apply parse_pair_words. Qed.
End parse.
