(* ===== verification/NetstatLines.v ===== *)
(** * netstat: reading the files of /proc/net

    A file of /proc/net is a heading and one line for every socket.  Rendering
    the sockets of a system as the kernel does and reading the file gives one
    entry for every socket, in order.  An IPv6 socket keeps its ports and its
    inode; its addresses are lost. *)
From S2P Require Import Prelude Libc Netstat NetstatParse.

(** ** The text of a line *)

Definition token_ok (t : string) : bool :=
  negb (bool_decide (t = EmptyString)) && no_delim " " t.
(** A field is preceded by a blank and [fst f] more. *)
Fixpoint fields (l : list (nat * string)) : string :=
  match l with
  | [] => EmptyString
  | (k, t) :: l => String " " (repeat_char k " " +:+ (t +:+ fields l))
  end.
Definition fields_ok (l : list (nat * string)) : bool := forallb (λ f, token_ok f.2) l.

Lemma strtok_end t : token_ok t = true → strtok_all t " " = [t].
Proof.
  intros [Hne%negb_true_iff%bool_decide_eq_false Ht]%andb_true_iff. unfold strtok_all.
  rewrite <-(string_app_nil_r t) at 1. rewrite strtok_from_app by done. cbn.
  by rewrite bool_decide_eq_false_2.
Qed.

Lemma strtok_fields_after t l :
  token_ok t = true → fields_ok l = true → strtok_all (t +:+ fields l) " " = t :: map snd l.
Proof.
  intros Ht Hl. revert t Ht. induction l as [|[k u] l IH]; intros t Ht.
  - cbn [fields map]. rewrite string_app_nil_r. by apply strtok_end.
  - cbn [fields_ok forallb] in Hl. apply andb_true_iff in Hl as [Hu Hl].
    pose proof Ht as [Hne%negb_true_iff%bool_decide_eq_false Hd]%andb_true_iff.
    cbn [fields map]. rewrite strtok_token by done. rewrite strtok_spaces by done.
    by rewrite IH.
Qed.

(** ** Sockets *)

(** What the kernel prints for a socket; the other fields are any text. *)
Inductive address : Type :=
  | V4 (b0 b1 b2 b3 : Z)     (** the four bytes *)
  | V6 (w0 w1 w2 w3 : Z).    (** the four words, as they lie in memory *)
Definition is_v6 (a : address) : bool := match a with V4 _ _ _ _ => false | V6 _ _ _ _ => true end.

Record socket : Type := Socket {
  sk_local : address; sk_lport : Z;
  sk_remote : address; sk_rport : Z;
  sk_inode : Z;
  sk_indent : nat;                   (* the blanks before the number of the line *)
  sk_number : string;
  sk_middle : list (nat * string);   (* state, queues, timers, uid, timeout *)
  sk_tail : list (nat * string) }.   (* the rest, with the newline *)

Definition addr_ok (a : address) : Prop :=
  match a with
  | V4 b0 b1 b2 b3 => 0 ≤ b0 < 256 ∧ 0 ≤ b1 < 256 ∧ 0 ≤ b2 < 256 ∧ 0 ≤ b3 < 256
  | V6 w0 w1 w2 w3 => 0 ≤ w0 < 2 ^ 32 ∧ 0 ≤ w1 < 2 ^ 32 ∧ 0 ≤ w2 < 2 ^ 32 ∧ 0 ≤ w3 < 2 ^ 32
  end.
Definition addr_hex (a : address) : string :=
  match a with
  | V4 b0 b1 b2 b3 => hex_upper 8 (le_word b0 b1 b2 b3)
  | V6 w0 w1 w2 w3 => kernel_addr6 w0 w1 w2 w3
  end.
Definition kernel_end (a : address) (port : Z) : string := addr_hex a +:+ ":" +:+ hex_upper 4 port.

Definition sock_fields (k : socket) : list (nat * string) :=
  [(0%nat, kernel_end (sk_local k) (sk_lport k)); (0%nat, kernel_end (sk_remote k) (sk_rport k))]
  ++ sk_middle k ++ [(0%nat, to_digits false 10 (sk_inode k))] ++ sk_tail k.
Definition kernel_line (k : socket) : string :=
  repeat_char (sk_indent k) " " +:+ (sk_number k +:+ fields (sock_fields k)).

Definition plain_token (t : string) : bool := token_ok t && negb (String.prefix newline t).

(** A socket of the files of IPv4 or, when [v6], of IPv6. *)
Record socket_ok (v6 : bool) (k : socket) : Prop := {
  so_local : addr_ok (sk_local k) ∧ is_v6 (sk_local k) = v6; so_lport : 0 ≤ sk_lport k < 2 ^ 16;
  so_remote : addr_ok (sk_remote k) ∧ is_v6 (sk_remote k) = v6; so_rport : 0 ≤ sk_rport k < 2 ^ 16;
  so_inode : 0 ≤ sk_inode k < 2 ^ 31;
  so_number : plain_token (sk_number k) = true;
  so_middle : length (sk_middle k) = 6%nat ∧ forallb (λ f, plain_token f.2) (sk_middle k) = true;
  so_tail : fields_ok (sk_tail k) = true }.

(** ** A line becomes its tokens *)

Lemma all_chars_impl (P Q : ascii → bool) s :
  (∀ c, P c = true → Q c = true) → all_chars P s = true → all_chars Q s = true.
Proof.
  intros HPQ. induction s as [|c s IH]; [done|]. cbn [all_chars].
  intros [Hc Hs]%andb_true_iff. by rewrite HPQ, IH.
Qed.

Lemma hex_token t : t ≠ EmptyString → all_chars is_hex t = true → token_ok t = true.
Proof.
  intros Hne Ht. unfold token_ok. rewrite bool_decide_eq_false_2 by done. cbn [negb andb].
  by apply no_delim_hex.
Qed.

(** A numeral does not start a line of its own. *)
Lemma hex_no_newline t u :
  t ≠ EmptyString → all_chars is_hex t = true → String.prefix newline (t +:+ u) = false.
Proof.
  destruct t as [|c t]; [done|]. intros _ [Hc _]%andb_true_iff.
  change (String c t +:+ u) with (String c (t +:+ u)). unfold newline. cbn [String.prefix].
  destruct (ascii_dec (chr 10) c) as [<-|]; [|done]. by vm_compute in Hc.
Qed.

Lemma addr_hex_ok a :
  addr_ok a → addr_hex a ≠ EmptyString ∧ all_chars is_hex (addr_hex a) = true.
Proof.
  destruct a as [b0 b1 b2 b3|w0 w1 w2 w3]; intros (H0 & H1 & H2 & H3); cbn [addr_hex].
  - split; [apply hex_upper_nonempty|]. apply hex_upper_hex. by apply le_word_range.
  - split; [|apply kernel_addr6_hex; lia].
    unfold kernel_addr6. pose proof (hex_upper_nonempty 8 w0). by destruct (hex_upper 8 w0).
Qed.

Lemma kernel_end_token a p :
  addr_ok a → 0 ≤ p → plain_token (kernel_end a p) = true.
Proof.
  intros [Hne Ha]%addr_hex_ok Hp. unfold plain_token, kernel_end.
  rewrite hex_no_newline by done.
  unfold token_ok. rewrite bool_decide_eq_false_2 by (by destruct (addr_hex a)).
  rewrite !no_delim_app, (no_delim_hex _ (addr_hex a)), (no_delim_hex _ (hex_upper 4 p))
    by (done || by apply hex_upper_hex). done.
Qed.
Lemma digits_token n : 0 ≤ n → plain_token (to_digits false 10 n) = true.
Proof.
  intros Hn. unfold plain_token.
  rewrite hex_token by (apply to_digits_nonempty || (apply to_digits_hex; lia)).
  pose proof (hex_no_newline (to_digits false 10 n) EmptyString (to_digits_nonempty _ _)
    (to_digits_hex 10 n ltac:(lia) Hn)) as E.
  rewrite string_app_nil_r in E. by rewrite E.
Qed.

Lemma plain_fields_ok l : forallb (λ f : nat * string, plain_token f.2) l = true → fields_ok l = true.
Proof.
  unfold fields_ok. induction l as [|f l IH]; [done|]. cbn [forallb].
  intros [[Hf _]%andb_true_iff Hl]%andb_true_iff. by rewrite Hf, IH.
Qed.

Lemma fields_ok_app l l' : fields_ok (l ++ l') = fields_ok l && fields_ok l'.
Proof. apply forallb_app. Qed.

Lemma sock_fields_ok v6 k : socket_ok v6 k → fields_ok (sock_fields k) = true.
Proof.
  intros [[Hl _] ? [Hr _] ? ? ? ?].
  unfold sock_fields. rewrite !fields_ok_app, so_tail0, (plain_fields_ok (sk_middle k)) by naive_solver.
  assert (∀ t, plain_token t = true → token_ok t = true) as Hp by (by intros t [? _]%andb_true_iff).
  cbn [fields_ok forallb snd].
  rewrite !Hp by first [apply kernel_end_token; [done|lia]|apply digits_token; lia]. done.
Qed.

Lemma strtok_line v6 k :
  socket_ok v6 k → strtok_all (kernel_line k) " " = sk_number k :: map snd (sock_fields k).
Proof.
  intros Hk. unfold kernel_line. rewrite strtok_spaces by done. apply strtok_fields_after.
  - by pose proof (so_number _ _ Hk) as [? _]%andb_true_iff.
  - by apply (sock_fields_ok v6).
Qed.

(** ** The entry of a line *)

Section lines.
Context `{ProcFs}.
Implicit Types (s : Net).

Lemma parse_skipped is6 count ts (e : connection_entry) s :
  (∀ i t, ts !! i = Some t → String.prefix newline t = false ∧
     (count + i ≠ 1 ∧ count + i ≠ 2 ∧ count + i ≠ 9)%nat) →
  ∀ rest, parse_tokens is6 count (ts ++ rest) e s = parse_tokens is6 (count + length ts) rest e s.
Proof.
  revert count. induction ts as [|t ts IH]; intros count Hts rest.
  - cbn [app length]. by rewrite Nat.add_0_r.
  - destruct (Hts 0%nat t) as (Hn & H1 & H2 & H9); [done|]. rewrite Nat.add_0_r in *.
    cbn [app parse_tokens length]. rewrite Hn.
    assert (parse_token is6 count t e = mret e) as ->.
    { unfold parse_token. by do 10 (destruct count as [|count]; [done|]). }
    rewrite ret_bind, IH.
    + f_equal. lia.
    + intros i u Hu. destruct (Hts (S i) u Hu) as (? & ? & ? & ?). split_and!; [done|lia..].
Qed.

(** After the inode nothing is read. *)
Lemma parse_rest is6 count ts (e : connection_entry) s :
  (9 < count)%nat → parse_tokens is6 count ts e s = Ret (e, s).
Proof.
  revert count. induction ts as [|t ts IH]; intros count Hc; [done|].
  cbn [parse_tokens]. destruct (String.prefix newline t); [by apply IH|].
  assert (parse_token is6 count t e = mret e) as ->.
  { unfold parse_token. by do 10 (destruct count as [|count]; [lia|]). }
  rewrite ret_bind. apply IH. lia.
Qed.

Lemma parse_token_read is6 count t ts (e : connection_entry) s :
  plain_token t = true →
  parse_tokens is6 count (t :: ts) e s = (parse_token is6 count t e ≫= parse_tokens is6 (S count) ts) s.
Proof. intros [_ Hn%negb_true_iff]%andb_true_iff. cbn [parse_tokens]. by rewrite Hn. Qed.

Definition ticks (n : nat) s : Net := MkNet (all_connections s) (output s) (n + now s).

(** *** The entry a socket becomes *)

(** The looks an address costs. *)
Definition addr_looks (v6 : bool) : nat := if v6 then 2%nat else 1%nat.

(** The address as it is printed when the program looks at it at time [t]; of
    an IPv6 address four bytes are read, and the rest is what the stack held
    then. *)
Definition addr_text (t : nat) (a : address) : string :=
  match a with
  | V4 b0 b1 b2 b3 => dotted b0 b1 b2 b3
  | V6 w0 w1 w2 w3 => inet_ntop6 (lost_bytes w0 w1 w3 ++ addr6_rest t)
  end.
(** The port of that address: port 0 is a star if the upper half of the
    variable [port], that is never written, held zero. *)
Definition port_at (t : nat) (a : address) (port : Z) : string :=
  port_text (port_high (if is_v6 a then S t else t)) port.

Definition remote_look (t : nat) (k : socket) : nat := (addr_looks (is_v6 (sk_local k)) + t)%nat.
Definition sock_entry (protocol : string) (t : nat) (k : socket) : connection_entry :=
  Entry protocol (Some (addr_text t (sk_local k))) (Some (port_at t (sk_local k) (sk_lport k)))
    (Some (addr_text (remote_look t k) (sk_remote k)))
    (Some (port_at (remote_look t k) (sk_remote k) (sk_rport k))) None (Some (sk_inode k)).

(** The lines of a file and when they are looked at, from time [t] on. *)
Fixpoint timed_lines (t : nat) (l : list socket) : list (nat * socket) :=
  match l with
  | [] => []
  | k :: l => (t, k) :: timed_lines (2 * addr_looks (is_v6 (sk_local k)) + t) l
  end.
Definition file_entries (protocol : string) (t : nat) (l : list socket) : list connection_entry :=
  map (λ tk, sock_entry protocol tk.1 tk.2) (timed_lines t l).

Lemma parse_end v6 a port s :
  addr_ok a ∧ is_v6 a = v6 → 0 ≤ port < 2 ^ 16 →
  parse_addr_port_pair (kernel_end a port) v6 s
  = Ret ((addr_text (now s) a, port_at (now s) a port), ticks (addr_looks v6) s).
Proof.
  intros [Ha <-]. revert Ha. destruct a as [b0 b1 b2 b3|w0 w1 w2 w3]; intros (?&?&?&?) Hp; unfold kernel_end; cbn [addr_hex is_v6 addr_text].
  - pose proof (parse_pair_word b0 b1 b2 b3 port s) as E. unfold kernel_pair in E.
    by rewrite E.
  - by rewrite parse_pair_words.
Qed.

Lemma scan_d_digits n : 0 ≤ n < 2 ^ 31 → scan_d (to_digits false 10 n) = Some n.
Proof.
  intros Hn. unfold scan_d. rewrite scan_num_digits by lia. cbn.
  rewrite Z.min_r by lia. f_equal. apply sint_id; lia.
Qed.

Lemma parse_kernel_line v6 protocol k s :
  socket_ok v6 k →
  parse_line (kernel_line k) (Entry protocol None None None None None None) v6 s
  = Ret (sock_entry protocol (now s) k, ticks (2 * addr_looks v6) s).
Proof.
  intros Hk. unfold parse_line. rewrite (strtok_line v6) by done. destruct Hk as [Hl ? Hr ? ? ? ? ?].
  unfold sock_entry, remote_look. rewrite (proj2 Hl).
  unfold sock_fields. rewrite !map_app. cbn [map snd app].
  rewrite parse_token_read by done. cbn [parse_token]. rewrite ret_bind.
  rewrite parse_token_read by (apply kernel_end_token; [apply Hl|lia]). cbn [parse_token].
  rewrite bind_assoc_M, (bind_Ret _ _ _ _ _ (parse_end _ _ _ _ Hl so_lport0)), ret_bind.
  rewrite parse_token_read by (apply kernel_end_token; [apply Hr|lia]). cbn [parse_token].
  rewrite bind_assoc_M, (bind_Ret _ _ _ _ _ (parse_end _ _ _ _ Hr so_rport0)), ret_bind.
  rewrite parse_skipped; cycle 1.
  { intros i t (f & -> & Hf)%list_lookup_fmap_Some. pose proof (lookup_lt_Some _ _ _ Hf).
    destruct so_middle0 as [Hlen Hm]. rewrite forallb_forall in Hm.
    specialize (Hm f (proj1 (list_elem_of_In _ _) (list_elem_of_lookup_2 _ _ _ Hf))).
    apply andb_true_iff in Hm as [_ Hn%negb_true_iff]. split_and!; [done|lia..]. }
  rewrite length_map, (proj1 so_middle0). cbn [Nat.add].
  rewrite parse_token_read by (apply digits_token; lia). cbn [parse_token].
  rewrite scan_d_digits, ret_bind, parse_rest by lia.
  unfold ticks. cbn. do 3 f_equal. lia.
Qed.

(** ** A file *)

Definition add_entries (l : list connection_entry) (n : nat) s : Net :=
  MkNet (all_connections s ++ l) (output s) (n + now s).

Lemma add_kernel_lines v6 protocol n l s :
  (1 < n)%nat → Forall (socket_ok v6) l →
  add_lines protocol v6 n (map kernel_line l) s
  = Ret (tt, add_entries (file_entries protocol (now s) l) (2 * addr_looks v6 * length l) s).
Proof.
  intros Hn Hl. revert n Hn s. induction Hl as [|k l Hk Hl IH]; intros n Hn s.
  - cbn [map add_lines length]. rewrite Nat.mul_0_r. unfold add_entries. rewrite app_nil_r. by destruct s.
  - cbn [map add_lines]. rewrite (proj2 (Nat.eqb_neq n 1)) by lia.
    rewrite bind_assoc_M, (bind_Ret _ _ _ _ _ (parse_kernel_line _ _ _ _ Hk)).
    rewrite modify_bind, IH by lia.
    unfold file_entries. cbn [timed_lines map fst snd]. rewrite (proj2 (so_local _ _ Hk)).
    unfold add_entries, ticks. cbn [all_connections output now length].
    do 3 f_equal; [by rewrite <-app_assoc|lia].
Qed.

(** The files are tcp, udp and, for IPv6, tcp6 and udp6. *)
Definition v6_file (protocol : string) : bool := bool_decide (protocol = "tcp6") || bool_decide (protocol = "udp6").

Lemma parse_kernel_file (protocol : string) heading l s :
  (String.length protocol < 22)%nat →
  net_lines (now s) ("/proc/net/" +:+ protocol) = Some (heading :: map kernel_line l) →
  Forall (socket_ok (v6_file protocol)) l →
  parse_protocol protocol s
  = Ret (tt, add_entries (file_entries protocol (S (now s)) l) (S (2 * addr_looks (v6_file protocol) * length l)) s).
Proof.
  intros Hlen Hf Hl. unfold parse_protocol.
  assert (fits 32 ("/proc/net/" +:+ protocol) = mret ("/proc/net/" +:+ protocol)) as ->.
  { unfold fits. rewrite string_app_length. change (String.length "/proc/net/") with 10%nat.
    by rewrite (proj2 (Nat.leb_gt _ _)) by lia. }
  rewrite ret_bind. cbv zeta. rewrite tick_bind, Hf. unfold deref. rewrite ret_bind. cbn [add_lines].
  change (bool_decide (protocol = "tcp6") || bool_decide (protocol = "udp6")) with (v6_file protocol).
  change ((1 =? 1)%nat) with true. cbv iota. rewrite ret_bind, add_kernel_lines by (done || lia).
  unfold add_entries, ticked. cbn [all_connections output now]. do 3 f_equal. lia.
Qed.
End lines.
