(* ===== verification/NetstatOwner.v ===== *)
(** * netstat: the owners of the sockets

    main goes through the descriptors of every process of /proc; a link to a
    socket gives the process to the first entry with that inode.  The scan is
    the fold of an assignment over the pairs (inode, process), and with
    distinct inodes every entry ends with the last process that holds it. *)
From S2P Require Import Prelude Libc Netstat NetstatParse NetstatLines.

(** ** A table of processes, as /proc shows it *)

Inductive link : Type :=
  | LSocket (inode : Z)
  | LOther (text : string).
Definition link_text (k : link) : string :=
  match k with
  | LSocket i => "socket:[" +:+ (to_digits false 10 i +:+ "]")
  | LOther t => t
  end.
Definition link_ok (k : link) : Prop :=
  match k with
  | LSocket i => 0 ≤ i < 2 ^ 31
  | LOther t => starts_with "socket" t = Some false
  end.

Record process : Type := Process { pr_pid : Z; pr_fds : list (string * link) }.
(** The entries of /proc: the directories of the processes and other names. *)
Inductive proc_entry : Type :=
  | PProc (p : process)
  | POther (name : string).
Definition proc_name (e : proc_entry) : string :=
  match e with PProc p => to_digits false 10 (pr_pid p) | POther name => name end.
Definition fd_dir (p : process) : string := "/proc/" +:+ to_digits false 10 (pr_pid p) +:+ "/fd".
Definition fd_names (p : process) : list string := ["."; ".."] ++ map fst (pr_fds p).

(** Every look at the process finds the same directory and links. *)
Record sees_process `{ProcFs} (p : process) : Prop := {
  sp_pid : 0 ≤ pr_pid p < 2 ^ 31;
  sp_dir : ∀ t, dir_entries t (fd_dir p) = Some (fd_names p);
  sp_links : ∀ t, Forall (λ '(name, k), String.prefix "." name = false ∧ link_ok k ∧
               link_target t (fd_dir p +:+ "/" +:+ name) = Some (link_text k)) (pr_fds p) }.
Definition sees_entry `{ProcFs} (e : proc_entry) : Prop :=
  match e with PProc p => sees_process p | POther name => starts_digit name = false end.

(** ** The assignments *)

Definition assign (l : list connection_entry) (o : Z * Z) : list connection_entry :=
  match list_find (λ e, inode e = Some o.1) l with
  | Some (k, e) => <[k := with_pid o.2 e]> l
  | None => l
  end.
(** The sockets a process holds. *)
Definition held (p : process) : list Z :=
  omap (λ f : string * link, match f.2 with LSocket i => Some i | LOther _ => None end) (pr_fds p).
Definition entry_owners (e : proc_entry) : list (Z * Z) :=
  match e with PProc p => map (λ i, (i, pr_pid p)) (held p) | POther _ => [] end.
Definition owners (l : list proc_entry) : list (Z * Z) := flat_map entry_owners l.

(** What the scan leaves of one entry: the last process that holds it. *)
Definition owner (os : list (Z * Z)) (i : Z) : option Z :=
  snd <$> last (filter (λ o : Z * Z, o.1 = i) os).
Definition owned_by (os : list (Z * Z)) (e : connection_entry) : connection_entry :=
  match inode e ≫= owner os with Some p => with_pid p e | None => e end.

Lemma with_pid_pid p q e : with_pid p (with_pid q e) = with_pid p e.
Proof. done. Qed.
Lemma inode_owned os e : inode (owned_by os e) = inode e.
Proof. unfold owned_by. by destruct (inode e ≫= owner os). Qed.

Lemma owner_snoc os o i : owner (os ++ [o]) i = if decide (o.1 = i) then Some o.2 else owner os i.
Proof.
  unfold owner. rewrite filter_app. cbn [filter list_filter]. case_decide; [by rewrite last_snoc|by rewrite app_nil_r].
Qed.

Lemma owned_by_snoc os i p e :
  owned_by (os ++ [(i, p)]) e = if decide (inode e = Some i) then with_pid p e else owned_by os e.
Proof.
  unfold owned_by. destruct (inode e) as [j|] eqn:Hj; cbn; [|done]. rewrite owner_snoc. cbn.
  destruct (decide (i = j)) as [->|]; [by rewrite decide_True|].
  rewrite decide_False by congruence. done.
Qed.

(** With distinct inodes the first entry with the inode is the only one. *)
Lemma assign_map i p l :
  NoDup (omap inode l) →
  assign l (i, p) = map (λ e, if decide (inode e = Some i) then with_pid p e else e) l.
Proof.
  unfold assign. cbn [fst snd]. induction l as [|e l IH]; intros Hnd; [done|].
  cbn [list_find map]. destruct (decide (inode e = Some i)) as [Hi|Hi].
  - cbn. f_equal. cbn in Hnd. rewrite Hi in Hnd. apply NoDup_cons in Hnd as [Hni _].
    symmetry. rewrite <-(map_id l) at 2. apply map_ext_in. intros e' He'.
    rewrite decide_False; [done|]. intros Hi'. apply Hni, list_elem_of_omap.
    exists e'. split; [by apply list_elem_of_In|done].
  - rewrite <-IH.
    + destruct (list_find _ l) as [[k x]|]; done.
    + cbn in Hnd. destruct (inode e); [by apply NoDup_cons in Hnd as [_ Hnd]|done].
Qed.

Lemma omap_inode_owned os l : omap inode (map (owned_by os) l) = omap inode l.
Proof. induction l as [|e l IH]; [done|]. cbn. rewrite inode_owned. cbn in IH. by rewrite IH. Qed.

Lemma assigns_owned l os : NoDup (omap inode l) → foldl assign l os = map (owned_by os) l.
Proof.
  intros Hnd. induction os as [|[i p] os IH] using rev_ind.
  - cbn. rewrite <-(map_id l) at 1. apply map_ext. intros e. unfold owned_by. by destruct (inode e).
  - rewrite foldl_app. cbn [foldl]. rewrite IH, assign_map by (by rewrite omap_inode_owned).
    rewrite map_map. apply map_ext. intros e. rewrite owned_by_snoc, inode_owned.
    case_decide; [|done]. unfold owned_by. by destruct (inode e ≫= owner os).
Qed.

(** ** The code *)

Definition has_inode (e : connection_entry) : Prop := is_Some (inode e).

Lemma Forall_assign l o : Forall has_inode l → Forall has_inode (assign l o).
Proof.
  intros Hl. unfold assign. destruct (list_find _ l) as [[k e]|] eqn:E; [|done].
  apply Forall_insert; [done|]. apply list_find_Some in E as (He & _ & _).
  by apply (proj1 (Forall_lookup _ _) Hl k e) in He.
Qed.

Lemma Forall_assigns l os : Forall has_inode l → Forall has_inode (foldl assign l os).
Proof.
  revert l. induction os as [|o os IH]; intros l Hl; [done|]. by apply IH, Forall_assign.
Qed.

Section scan.
Context `{ProcFs}.
Implicit Types (s : Net).

Lemma set_owner_assign i p l s : Forall has_inode l → set_owner i p l s = Ret (assign l (i, p), s).
Proof.
  unfold assign. induction 1 as [|e l [j Hj] Hl IH]; [done|].
  cbn [set_owner list_find fst snd]. rewrite Hj, read_Some_bind. cbn [fst snd] in IH.
  destruct (Z.eqb_spec j i) as [->|Hne].
  - rewrite decide_True by done. done.
  - rewrite decide_False by congruence. rewrite (bind_Ret _ _ _ _ _ IH).
    by destruct (list_find _ l) as [[k x]|].
Qed.

(** The search of main for the entry of a socket is the update of the first
    entry with that inode, and changes nothing when there is none. *)
Theorem set_owner_first i p l s :
  Forall has_inode l →
  set_owner i p l s = Ret (match list_find (λ e, inode e = Some i) l with
                           | Some (k, e) => <[k := with_pid p e]> l
                           | None => l
                           end, s).
Proof. apply set_owner_assign. Qed.

Lemma prefix_app p t : String.prefix p (p +:+ t) = true.
Proof.
  induction p as [|c p IH]; [by destruct t|]. change (String c p +:+ t) with (String c (p +:+ t)).
  cbn [String.prefix]. by destruct (ascii_dec c c).
Qed.

Definition with_owners (os : list (Z * Z)) (n : nat) s : Net :=
  MkNet (foldl assign (all_connections s) os) (output s) (n + now s).

Lemma digits_from_acc fuel up b n acc :
  digits_from fuel up b n acc = digits_from fuel up b n EmptyString +:+ acc.
Proof.
  revert n acc. induction fuel as [|fuel IH]; intros n acc; [done|]. cbn [digits_from].
  destruct (n <? b); [done|]. rewrite IH, (IH _ (String _ EmptyString)), <-string_app_assoc. done.
Qed.

Lemma socket_inode_text i :
  0 ≤ i < 2 ^ 31 → socket_inode (link_text (LSocket i)) = Some i.
Proof.
  intros Hi. unfold socket_inode. cbn [link_text].
  rewrite prefix_app. cbn iota.
  change (skip_chars 8 _) with (to_digits false 10 i +:+ "]").
  unfold scan_num_rest. pose proof (to_digits_nonempty (up := false) 10 i) as Hne.
  pose proof (to_digits_hex (up := false) 10 i ltac:(lia) ltac:(lia)) as Hh.
  pose proof (starts_to_digits (up := false) 10 i ltac:(lia) ltac:(lia)) as Hst.
  assert (eat_digits 10 0 (to_digits false 10 i +:+ "]") = (i, "]")) as Heat.
  { unfold to_digits. rewrite <-digits_from_acc, eat_digits_from by (simpl; lia). done. }
  destruct (to_digits false 10 i) as [|c t]; [done|].
  change (String c t +:+ "]") with (String c (t +:+ "]")) in *.
  cbn [all_chars] in Hh. apply andb_true_iff in Hh as [Hc _].
  cbn [skip_space]. rewrite is_hex_not_space by done. cbn [eat_sign].
  rewrite !bool_decide_eq_false_2 by (by apply is_hex_ne).
  assert (eat_0x 10 (String c (t +:+ "]")) = None) as -> by (by destruct t).
  cbn [starts_with_digit] in *. rewrite Hst, Heat. cbn.
  rewrite Z.min_r by lia. f_equal. apply sint_id; lia.
Qed.

(** One descriptor assigns what it holds. *)
Definition link_owner (p : Z) (k : link) : list (Z * Z) :=
  match k with LSocket i => [(i, p)] | LOther _ => [] end.

Lemma scan_fd_owner p dir name k s :
  0 ≤ p < 2 ^ 31 → String.prefix "." name = false → link_ok k →
  link_target (now s) (dir +:+ "/" +:+ name) = Some (link_text k) →
  Forall has_inode (all_connections s) →
  scan_fd (to_digits false 10 p) dir name s = Ret (tt, with_owners (link_owner p k) 1 s).
Proof.
  intros Hp Hn Hk Hl Hi. unfold scan_fd. rewrite Hn, tick_bind, Hl, read_Some_bind.
  destruct k as [i|t].
  - assert (starts_with "socket" (link_text (LSocket i)) = Some true) as -> by done.
    rewrite read_Some_bind. cbv iota. rewrite socket_inode_text, read_Some_bind by done.
    rewrite scan_d_digits, read_Some_bind, get_bind by done.
    by rewrite (bind_Ret _ _ _ _ _ (set_owner_assign i p _ _ Hi)).
  - cbn [link_ok link_text] in *. by rewrite Hk, read_Some_bind.
Qed.

Lemma with_owners_app os os' n n' s :
  with_owners os' n' (with_owners os n s) = with_owners (os ++ os') (n' + n) s.
Proof. unfold with_owners. cbn. by rewrite foldl_app, Nat.add_assoc. Qed.

Lemma scan_fds_owners p dir fds s :
  0 ≤ p < 2 ^ 31 →
  (∀ t, Forall (λ '(name, k), String.prefix "." name = false ∧ link_ok k ∧
     link_target t (dir +:+ "/" +:+ name) = Some (link_text k)) fds) →
  Forall has_inode (all_connections s) →
  scan_fds (to_digits false 10 p) dir (map fst fds) s
  = Ret (tt, with_owners (flat_map (λ f, link_owner p f.2) fds) (length fds) s).
Proof.
  intros Hp. revert s. induction fds as [|[name k] fds IH]; intros s Hf Hi.
  - unfold with_owners. by destruct s.
  - pose proof (Hf (now s)) as [(Hn & Hk & Hl) _]%Forall_cons.
    cbn [map fst scan_fds flat_map length].
    rewrite (bind_Ret _ _ _ _ _ (scan_fd_owner p dir name k s Hp Hn Hk Hl Hi)).
    rewrite IH.
    + rewrite with_owners_app. cbn [snd]. by rewrite Nat.add_1_r.
    + intros t. by specialize (Hf t) as [_ Hf]%Forall_cons.
    + by apply Forall_assigns.
Qed.

Lemma to_digits_digit n : 0 ≤ n < 2 ^ 31 → starts_digit (to_digits false 10 n) = true.
Proof.
  intros Hn. pose proof (starts_to_digits (up := false) 10 n ltac:(lia) ltac:(lia)) as Hst.
  destruct (to_digits false 10 n) as [|c t]; [done|]. cbn [starts_with_digit starts_digit] in *.
  assert (match digit_val c with Some d => negb (d <? 10) || isdigit c | None => true end = true) as Hall.
  { clear Hst. revert c. apply ascii_ind_N. by vm_compute. }
  destruct (digit_val c) as [d|]; [|done]. by rewrite Hst in Hall.
Qed.

Lemma held_owners p : flat_map (λ f, link_owner (pr_pid p) f.2) (pr_fds p) = map (λ i, (i, pr_pid p)) (held p).
Proof.
  unfold held. induction (pr_fds p) as [|[n [i|t]] fds IH]; [done|..]; cbn; by rewrite IH.
Qed.

(** How often the scan looks at /proc. *)
Definition looks (e : proc_entry) : nat :=
  match e with PProc p => S (length (pr_fds p)) | POther _ => 0 end.

Lemma scan_process_opens p s :
  0 ≤ pr_pid p < 2 ^ 31 →
  scan_process (proc_name (PProc p)) s
  = (deref (dir_entries (now s) (fd_dir p)) ≫= scan_fds (to_digits false 10 (pr_pid p)) (fd_dir p)) (ticked s).
Proof.
  intros Hp. unfold scan_process. cbn [proc_name]. rewrite to_digits_digit by done.
  fold (fd_dir p). unfold fits.
  assert ((32 <=? String.length (fd_dir p))%nat = false) as ->.
  { apply Nat.leb_gt. unfold fd_dir. rewrite !string_app_length.
    pose proof (length_digits_from (up := false) 64 10 (pr_pid p) EmptyString 10
      ltac:(lia) ltac:(simpl; lia) ltac:(lia)) as Hlen.
    change (String.length EmptyString) with 0%nat in Hlen. unfold to_digits.
    change (String.length "/proc/") with 6%nat. change (String.length "/fd") with 3%nat. lia. }
  by rewrite ret_bind, tick_bind.
Qed.

Lemma scan_process_owners e s :
  sees_entry e → Forall has_inode (all_connections s) →
  scan_process (proc_name e) s = Ret (tt, with_owners (entry_owners e) (looks e) s).
Proof.
  intros He Hi. destruct e as [p|name]; cbn [sees_entry] in He.
  - destruct He as [Hp Hd Hl]. rewrite scan_process_opens, Hd by done. unfold deref.
    rewrite ret_bind. cbn [fd_names app scan_fds]. unfold scan_fd at 1 2.
    change (String.prefix "." ".") with true. change (String.prefix "." "..") with true. cbv iota.
    rewrite !ret_bind, scan_fds_owners by done. unfold ticked, with_owners. cbn.
    rewrite held_owners. do 3 f_equal. lia.
  - unfold scan_process. cbn [proc_name]. rewrite He. unfold with_owners. by destruct s.
Qed.

Lemma scan_processes_app l l' s :
  scan_processes (l ++ l') s = (scan_processes l ≫= λ _, scan_processes l') s.
Proof.
  revert s. induction l as [|n l IH]; intros s; [done|]. cbn [app scan_processes].
  rewrite bind_assoc_M. unfold mbind, M_bind in *. by destruct (scan_process n s) as [[[] s']| | | | |].
Qed.

Lemma scan_processes_foldl l s :
  Forall sees_entry l → Forall has_inode (all_connections s) →
  scan_processes (map proc_name l) s
  = Ret (tt, with_owners (owners l) (sum_list_with looks l) s).
Proof.
  intros Hl. revert s. induction Hl as [|e l He Hl IH]; intros s Hi.
  - unfold with_owners. by destruct s.
  - cbn [map scan_processes]. rewrite (bind_Ret _ _ _ _ _ (scan_process_owners e s He Hi)).
    rewrite IH by (by apply Forall_assigns). rewrite with_owners_app. cbn.
    do 3 f_equal. lia.
Qed.

Definition owned (os : list (Z * Z)) (n : nat) s : Net :=
  MkNet (map (owned_by os) (all_connections s)) (output s) (n + now s).

(** C24. When the entries have distinct inodes, the scan of /proc gives every
    entry the last process, in the order of /proc, one of whose descriptors is
    the socket with that inode, leaves the entries no process holds without
    one, and changes nothing else. *)
Theorem scan_processes_owners l s :
  Forall sees_entry l → Forall has_inode (all_connections s) →
  NoDup (omap inode (all_connections s)) →
  scan_processes (map proc_name l) s = Ret (tt, owned (owners l) (sum_list_with looks l) s).
Proof.
  intros Hl Hi Hnd. rewrite scan_processes_foldl by done. unfold with_owners, owned.
  by rewrite assigns_owned.
Qed.

(** A process whose descriptors cannot be listed, as those of another user's
    process, stops the program after any processes that could be read: a null
    directory is read. *)
Theorem unreadable_process_fatal l p fds rest s :
  Forall sees_entry l → Forall has_inode (all_connections s) →
  0 ≤ p < 2 ^ 31 → (∀ t, dir_entries t (fd_dir (Process p fds)) = None) →
  scan_processes (map proc_name l ++ proc_name (PProc (Process p fds)) :: rest) s = Undef NullDeref.
Proof.
  intros Hl Hi Hp Hd. rewrite scan_processes_app, (bind_Ret _ _ _ _ _ (scan_processes_foldl l s Hl Hi)).
  cbn [scan_processes]. apply bind_Undef. rewrite scan_process_opens by done. cbn [pr_pid].
  by rewrite Hd.
Qed.
End scan.
