(* ===== verification/NetstatMain.v ===== *)
(** * netstat: the selection, the lists and main

    The loops that select entries are a filter over the table, a row is the
    text of its fields, and on a system whose sockets are IPv4 and all have an
    owner, main prints the listing [listing] defines from the system alone. *)
From S2P Require Import Prelude Libc Netstat NetstatParse NetstatLines NetstatOwner.

(** ** Command lines *)

Definition nul : ascii := chr 0.
(** /proc/<pid>/cmdline: the words, each with a zero byte after it. *)
Record command : Type := Command { prog : string; args : list string }.
Fixpoint args_text (l : list string) : string :=
  match l with [] => EmptyString | a :: l => a +:+ String nul (args_text l) end.
Definition cmd_text (c : command) : string := prog c +:+ String nul (args_text (args c)).
Definition no_nul (t : string) : bool := all_chars (λ c, negb (bool_decide (c = nul))) t.
Record command_ok (c : command) : Prop := {
  co_word : is_word (prog c) = true; co_nul : no_nul (prog c) = true;
  co_fits : (String.length (prog c) < 32)%nat;
  co_args : forallb no_nul (args c) = true }.

Lemma before_nul_end t u : no_nul t = true → before_nul (t +:+ String nul u) = t.
Proof.
  induction t as [|c t IH]; [done|]. intros [Hc%negb_true_iff Ht]%andb_true_iff.
  change (String c t +:+ String nul u) with (String c (t +:+ String nul u)). cbn [before_nul].
  unfold nul in *. by rewrite Hc, IH.
Qed.
Lemma skip_chars_app t u : skip_chars (String.length t) (t +:+ u) = u.
Proof. induction t as [|c t IH]; [by destruct u|]. apply IH. Qed.
Lemma skip_chars_S n t : skip_chars (n + 1) t = skip_chars 1 (skip_chars n t).
Proof.
  revert t. induction n as [|n IH]; intros t; [done|]. destruct t as [|c t]; [done|]. apply IH.
Qed.
(** The words after the program: the first of them, if there is one. *)
Definition first_arg (c : command) : string := default EmptyString (head (args c)).

Lemma before_nul_args l : forallb no_nul l = true → before_nul (args_text l) = default EmptyString (head l).
Proof. destruct l as [|a l]; [done|]. intros [Ha _]%andb_true_iff. by apply before_nul_end. Qed.

Lemma scan_s_all w : is_word w = true → scan_s w = Some (w, EmptyString).
Proof.
  intros Hw. pose proof Hw as [Hne%negb_true_iff%bool_decide_eq_false Hc]%andb_true_iff.
  unfold scan_s. assert (skip_space w = w) as ->.
  { destruct w as [|c w]; [done|]. apply andb_true_iff in Hc as [Hc%negb_true_iff _].
    cbn [skip_space]. by rewrite Hc. }
  pose proof (take_word_app w EmptyString Hc) as E. rewrite string_app_nil_r in E. cbn in E.
  rewrite E, string_app_nil_r. by rewrite bool_decide_eq_false_2.
Qed.

(** ** The search for the filter *)

Lemma prefix_inv p t : String.prefix p t = true → ∃ u, t = p +:+ u.
Proof.
  revert t. induction p as [|c p IH]; intros t Ht; [by exists t|].
  destruct t as [|d t]; [done|]. cbn [String.prefix] in Ht.
  destruct (ascii_dec c d) as [<-|]; [|done]. destruct (IH t Ht) as [u ->]. by exists u.
Qed.

(** [strstr] finds exactly the texts that occur. *)
Lemma contains_iff p t : contains p t = true ↔ ∃ u v, t = u +:+ (p +:+ v).
Proof.
  split.
  - induction t as [|c t IH]; cbn [contains]; intros [Hp|Ht]%orb_true_iff; try done.
    + destruct (prefix_inv _ _ Hp) as [v E]. by exists EmptyString, v.
    + destruct (prefix_inv _ _ Hp) as [v E]. by exists EmptyString, v.
    + destruct (IH Ht) as (u & v & ->). by exists (String c u), v.
  - intros (u & v & ->). induction u as [|c u IH].
    + change (EmptyString +:+ (p +:+ v)) with (p +:+ v).
      destruct (p +:+ v) as [|c t] eqn:E; cbn [contains]; rewrite <-E, prefix_app; done.
    + change (String c u +:+ (p +:+ v)) with (String c (u +:+ (p +:+ v))). cbn [contains].
      rewrite IH. by rewrite orb_true_r.
Qed.

(** ** The options *)

(** A listing is shown unless only the other one is asked for. *)
Lemma wants_tcp_eq t u : wants_tcp t u = t || negb u.
Proof. by destruct t, u. Qed.
Lemma wants_udp_eq t u : wants_udp t u = u || negb t.
Proof. by destruct t, u. Qed.

Definition means_tcp (r : Z * Z) : bool := (r.1 =? 116) || (r.1 =? 0) && (r.2 =? 0).
Definition means_udp (r : Z * Z) : bool := (r.1 =? 117) || (r.1 =? 0) && (r.2 =? 1).
Definition known_option (r : Z * Z) : bool := (r.1 =? 0) || (r.1 =? 116) || (r.1 =? 117).

Lemma read_options_from l t u :
  read_options l t u
  = if forallb known_option l then Some (t || existsb means_tcp l, u || existsb means_udp l) else None.
Proof.
  revert t u. induction l as [|[c i] l IH]; intros t u; cbn [read_options forallb existsb].
  - by rewrite !orb_false_r.
  - unfold known_option at 1, means_tcp at 1, means_udp at 1. cbn [fst snd].
    destruct (Z.eqb_spec c 0), (Z.eqb_spec c 116), (Z.eqb_spec c 117); try lia; cbn [andb orb];
      [| | |done]; rewrite IH; by rewrite ?orb_assoc, ?orb_true_r, ?orb_true_l.
Qed.

(** C40. Whatever the order and the number of the options, the TCP listing is
    asked for by one of -t and --tcp and the UDP listing by one of -u and --udp;
    with an unknown option the program ends; a listing is shown when it is asked
    for or the other one is not. *)
Theorem options_independent l :
  (λ o, (wants_tcp o.1 o.2, wants_udp o.1 o.2)) <$> read_options l false false
  = if forallb known_option l
    then Some (existsb means_tcp l || negb (existsb means_udp l),
               existsb means_udp l || negb (existsb means_tcp l))
    else None.
Proof.
  rewrite read_options_from. cbn [orb]. destruct (forallb known_option l); [|done].
  cbn. by rewrite wants_tcp_eq, wants_udp_eq.
Qed.

(** ** The rows *)

Definition column (width : nat) (t : string) : string := t +:+ repeat_char (width - String.length t) " ".
Definition row (proto local remote : string) (p : Z) (c : command) : string :=
  column 7 proto +:+ (column 25 local +:+ (column 25 remote +:+ (signed_text p +:+ ("/" +:+
    (after_last_slash (prog c) +:+ (" " +:+ (first_arg c +:+ newline))))))).
Definition heading : string :=
  column 7 "Proto" +:+ (column 25 "Local Address" +:+ (column 25 "Foreign Address" +:+
    ("PID/Program name and arguments" +:+ newline))).

Lemma format_row a b c p d e :
  format ("%-7s%-25s%-25s%d/%s %s" +:+ newline) [AStr a; AStr b; AStr c; AInt p; AStr d; AStr e]
  = Some (column 7 a +:+ (column 25 b +:+ (column 25 c +:+ (signed_text (sint 32 p) +:+ ("/" +:+
      (d +:+ (" " +:+ (e +:+ newline)))))))).
Proof. lazy -[signed_text to_digits sint Z.modulo Z.pow]. reflexivity. Qed.
Lemma format_heading :
  format ("%-7s%-25s%-25s%s" +:+ newline)
    [AStr "Proto"; AStr "Local Address"; AStr "Foreign Address"; AStr "PID/Program name and arguments"]
  = Some heading.
Proof. reflexivity. Qed.

Definition cmd_path (p : Z) : string := "/proc/" +:+ (signed_text p +:+ "/cmdline").
Lemma format_cmd_path p : 0 ≤ p < 2 ^ 31 → format "/proc/%d/cmdline" [AInt p] = Some (cmd_path p).
Proof.
  intros Hp. assert (format "/proc/%d/cmdline" [AInt p] = Some (cmd_path (sint 32 p))) as ->.
  { lazy -[signed_text to_digits sint Z.modulo Z.pow]. reflexivity. }
  by rewrite sint_id by lia.
Qed.

Section netstat_main.
Context `{ProcFs} (cmd : Z → command).
Implicit Types (s : Net) (l : list connection_entry).

(** The process runs [cmd p], at every look. *)
Record runs (p : Z) : Prop := {
  ru_pid : 0 ≤ p < 2 ^ 31;
  ru_ok : command_ok (cmd p);
  ru_line : ∀ t, first_line t (cmd_path p) = Some (Some (cmd_text (cmd p))) }.
(** An entry with an owner that runs. *)
Definition ready (e : connection_entry) : Prop := ∃ p, pid e = Some p ∧ runs p.

Lemma read_cmdline_ok p s : runs p → read_cmdline p s = Ret (cmd_text (cmd p), ticked s).
Proof.
  intros [Hp _ Hl]. unfold read_cmdline. rewrite format_cmd_path by done.
  rewrite read_Some_bind, tick_bind, Hl. done.
Qed.

(** ** The selection *)

Definition of_proto (proto : string) (e : connection_entry) : bool := String.prefix proto (ip_proto e).
Definition selected (proto filter : string) (e : connection_entry) : bool :=
  of_proto proto e
  && match pid e with Some p => contains filter (prog (cmd p)) | None => false end.

Lemma ticks_add n m s : ticks n (ticks m s) = ticks (n + m) s.
Proof. unfold ticks. cbn. by rewrite Nat.add_assoc. Qed.
Lemma ticks_0 s : ticks 0 s = s.
Proof. by destruct s. Qed.

Lemma select_one proto filter e l s p :
  of_proto proto e = true → pid e = Some p → runs p →
  select_entries proto filter (e :: l) s
  = ((l' ← select_entries proto filter l; mret (if contains filter (prog (cmd p)) then e :: l' else l'))
       (ticks 1 s)).
Proof.
  intros Hp Hpid Hr. cbn [select_entries]. unfold of_proto in Hp. rewrite Hp, Hpid, read_Some_bind.
  rewrite (bind_Ret _ _ _ _ _ (read_cmdline_ok p s Hr)). unfold cmd_text.
  rewrite before_nul_end by apply Hr. destruct (contains _ _); [done|].
  unfold mbind, M_bind. by destruct (select_entries proto filter l _) as [[l' s']| | | | |].
Qed.

Lemma select_app proto filter l1 l2 s :
  Forall (λ e, of_proto proto e = true → ready e) l1 →
  select_entries proto filter (l1 ++ l2) s
  = ((l' ← select_entries proto filter l2; mret (List.filter (selected proto filter) l1 ++ l'))
       (ticks (length (List.filter (of_proto proto) l1)) s)).
Proof.
  intros Hl. revert s. induction Hl as [|e l1 He Hl IH]; intros s.
  - cbn [app List.filter length]. rewrite ticks_0. unfold mbind, M_bind.
    by destruct (select_entries proto filter l2 s) as [[l' s']| | | | |].
  - cbn [app List.filter]. unfold selected at 1. destruct (of_proto proto e) eqn:Hp.
    + destruct (He eq_refl) as (p & Hpid & Hr). rewrite Hpid. cbn [andb].
      rewrite (select_one _ _ _ _ _ p) by done. cbn [length].
      unfold mbind, M_bind in *. rewrite IH, ticks_add, Nat.add_1_r.
      destruct (select_entries _ _ _ _) as [[l' s']| | | | |]; [|done..].
      by destruct (contains _ _).
    + cbn [andb]. cbn [select_entries]. unfold of_proto in Hp. rewrite Hp. apply IH.
Qed.

Lemma select_filter proto filter l s :
  Forall (λ e, of_proto proto e = true → ready e) l →
  select_entries proto filter l s
  = Ret (List.filter (selected proto filter) l, ticks (length (List.filter (of_proto proto) l)) s).
Proof.
  intros Hl. rewrite <-(app_nil_r l) at 1. rewrite select_app by done.
  cbn [select_entries]. by rewrite ret_bind, app_nil_r.
Qed.

(** ** One row *)

Definition end_text (addr port : option string) : string :=
  default EmptyString addr +:+ (":" +:+ default EmptyString port).
Definition entry_row (e : connection_entry) : string :=
  let p := default 0 (pid e) in
  row (ip_proto e) (end_text (local_addr e) (local_port e)) (end_text (remote_addr e) (remote_port e)) p (cmd p).
(** The four texts are there and the ends fit their buffers. *)
Record printable (e : connection_entry) : Prop := {
  pr_local : is_Some (local_addr e) ∧ is_Some (local_port e);
  pr_remote : is_Some (remote_addr e) ∧ is_Some (remote_port e);
  pr_local_fits : (String.length (end_text (local_addr e) (local_port e)) < 32)%nat;
  pr_remote_fits : (String.length (end_text (remote_addr e) (remote_port e)) < 32)%nat }.

Lemma fits_ok n (t : string) s : (String.length t < n)%nat → fits n t s = Ret (t, s).
Proof. intros Hn. unfold fits. by rewrite (proj2 (Nat.leb_gt _ _)). Qed.

Definition printed (l : list string) s : Net := MkNet (all_connections s) (output s ++ l) (now s).

Lemma print_text fmt args t s : format fmt args = Some t → print fmt args s = Ret (tt, printed [t] s).
Proof. intros E. unfold print. by rewrite E. Qed.

Lemma print_entry_row e s :
  ready e → printable e → print_entry e s = Ret (tt, printed [entry_row e] (ticks 1 s)).
Proof.
  intros (p & Hpid & Hr) [[[la Hla] [lp Hlp]] [[ra Hra] [rp Hrp]] Hlf Hrf].
  unfold print_entry, entry_row. rewrite Hla, Hlp, Hra, Hrp, Hpid in *. cbn [default from_option] in *.
  rewrite !read_Some_bind, (bind_Ret _ _ _ _ _ (fits_ok 32 _ s Hlf)).
  rewrite !read_Some_bind, (bind_Ret _ _ _ _ _ (fits_ok 32 _ s Hrf)).
  rewrite read_Some_bind, (bind_Ret _ _ _ _ _ (read_cmdline_ok p s Hr)).
  destruct (ru_ok _ Hr) as [Hw Hn Hf Ha]. unfold cmd_text. rewrite before_nul_end by done.
  rewrite scan_s_all by done. cbn [fmap option_fmap option_map fst]. rewrite read_Some_bind.
  rewrite (bind_Ret _ _ _ _ _ (fits_ok 32 _ _ Hf)). cbv zeta.
  rewrite string_app_length. cbn [String.length].
  rewrite (proj2 (Nat.ltb_ge _ _)) by lia. rewrite skip_chars_S, skip_chars_app. cbn [skip_chars].
  rewrite before_nul_args by done.
  rewrite (print_text _ _ _ _ (format_row _ _ _ _ _ _)). by rewrite sint_id by (destruct Hr; lia).
Qed.

Lemma printed_printed r r' n s : printed r' (ticks n (printed r s)) = printed (r ++ r') (ticks n s).
Proof. unfold printed. cbn. by rewrite <-app_assoc. Qed.
Lemma printed_nil s : printed [] s = s.
Proof. unfold printed. rewrite app_nil_r. by destruct s. Qed.

Lemma print_entries_rows l s :
  Forall (λ e, ready e ∧ printable e) l →
  print_entries l s = Ret (tt, printed (map entry_row l) (ticks (length l) s)).
Proof.
  intros Hl. revert s. induction Hl as [|e l [Hr Hp] Hl IH]; intros s.
  - cbn [print_entries map length]. by rewrite printed_nil, ticks_0.
  - cbn [print_entries]. rewrite (bind_Ret _ _ _ _ _ (print_entry_row e s Hr Hp)), IH.
    rewrite printed_printed, ticks_add. cbn [map length app]. by rewrite Nat.add_1_r.
Qed.

(** A list with its title, nothing when it is empty. *)
Definition block (title : string) (rows : list string) : list string :=
  match rows with [] => [] | _ => [title +:+ newline; heading] ++ rows end.
Definition between (a b : list string) : list string :=
  match a, b with _ :: _, _ :: _ => [newline] | _, _ => [] end.

Lemma print_list_block title l s :
  format (title +:+ newline) [] = Some (title +:+ newline) →
  Forall (λ e, ready e ∧ printable e) l →
  print_list title l s = Ret (tt, printed (block title (map entry_row l)) (ticks (length l) s)).
Proof.
  intros Ht Hl. unfold print_list. destruct l as [|e l].
  - by rewrite ticks_0, printed_nil.
  - rewrite (bind_Ret _ _ _ _ _ (print_text _ _ _ s Ht)), (bind_Ret _ _ _ _ _ (print_text _ _ _ _ format_heading)).
    rewrite print_entries_rows by done. by rewrite !printed_printed.
Qed.

Definition tcp_title : string := "List of TCP connections:".
Definition udp_title : string := "List of UDP connections:".

(** The rows of the entries of one protocol. *)
Definition shown (want : bool) (proto filter : string) l : list string :=
  if want then map entry_row (List.filter (selected proto filter) l) else [].
Definition blocks_of (tcp_rows udp_rows : list string) : list string :=
  block tcp_title tcp_rows ++ between tcp_rows udp_rows ++ block udp_title udp_rows.

Lemma selected_ready proto filter l :
  Forall (λ e, of_proto proto e = true → ready e ∧ printable e) l →
  Forall (λ e, ready e ∧ printable e) (List.filter (selected proto filter) l).
Proof.
  rewrite !Forall_forall. intros Hl e He. apply list_elem_of_In, filter_In in He as [He Hs].
  apply andb_true_iff in Hs as [Hs _]. apply Hl; [by apply list_elem_of_In|done].
Qed.

Lemma choose_ok (want : bool) proto filter l s :
  Forall (λ e, of_proto proto e = true → ready e ∧ printable e) l →
  ∃ l' n, (if want then select_entries proto filter l else mret []) s = Ret (l', ticks n s)
    ∧ Forall (λ e, ready e ∧ printable e) l' ∧ map entry_row l' = shown want proto filter l.
Proof.
  intros Hl. destruct want.
  - rewrite select_filter by (eapply Forall_impl; [exact Hl|]; naive_solver).
    eexists _, _. split_and!; [done|by apply selected_ready|done].
  - exists [], 0%nat. rewrite ticks_0. by split_and!.
Qed.

Lemma report_lists tcp udp filter s :
  Forall (λ e, of_proto "tcp" e = true → ready e ∧ printable e) (all_connections s) →
  Forall (λ e, of_proto "udp" e = true → ready e ∧ printable e) (all_connections s) →
  ∃ n, report tcp udp filter s
    = Ret (tt, printed (blocks_of (shown (wants_tcp tcp udp) "tcp" filter (all_connections s))
                                  (shown (wants_udp tcp udp) "udp" filter (all_connections s))) (ticks n s)).
Proof.
  intros Ht Hu. unfold report. rewrite get_bind.
  destruct (choose_ok (wants_tcp tcp udp) "tcp" filter _ s Ht) as (lt & nt & Et & Flt & Rt).
  rewrite (bind_Ret _ _ _ _ _ Et).
  destruct (choose_ok (wants_udp tcp udp) "udp" filter _ (ticks nt s) Hu) as (lu & nu & Eu & Flu & Ru).
  rewrite (bind_Ret _ _ _ _ _ Eu), <-Rt, <-Ru.
  rewrite (bind_Ret _ _ _ _ _ (print_list_block tcp_title lt _ eq_refl Flt)).
  assert (∀ s', (match lt, lu with _ :: _, _ :: _ => print newline [] | _, _ => mret tt end) s'
            = Ret (tt, printed (between (map entry_row lt) (map entry_row lu)) s')) as Eb.
  { intros s'. destruct lt, lu; cbn [map between]; by rewrite ?printed_nil. }
  rewrite (bind_Ret _ _ _ _ _ (Eb _)), (print_list_block udp_title lu _ eq_refl Flu).
  eexists. unfold blocks_of, printed, ticks. cbn. rewrite <-!app_assoc, !Nat.add_assoc. reflexivity.
Qed.

(** The loops that fill the two lists are a filter: of the entries of the
    protocol they take, in order, those whose owner's program name contains the
    filter, and look once at every entry of the protocol. *)
Theorem select_entries_filter proto filter l s :
  Forall (λ e, of_proto proto e = true → ready e) l →
  select_entries proto filter l s
  = Ret (List.filter (selected proto filter) l, ticks (length (List.filter (of_proto proto) l)) s).
Proof. apply select_filter. Qed.

(** A socket of the protocol without an owner, as one that is being closed,
    stops the program before anything is printed: its process id is read and
    was never written. *)
Theorem unowned_entry_fatal proto filter l1 e l2 s :
  Forall (λ e, of_proto proto e = true → ready e) l1 →
  of_proto proto e = true → pid e = None →
  select_entries proto filter (l1 ++ e :: l2) s = Undef Uninit.
Proof.
  intros Hl He Hpid. rewrite select_app by done. apply bind_Undef.
  cbn [select_entries]. unfold of_proto in He. by rewrite He, Hpid.
Qed.
(** An end of 32 characters or more, as an IPv6 address with its port can be,
    does not fit its buffer. *)
Theorem long_end_overflows e la lp s :
  local_addr e = Some la → local_port e = Some lp →
  (32 ≤ String.length (la +:+ (":" +:+ lp)))%nat →
  print_entry e s = Undef OutOfBounds.
Proof.
  intros Hla Hlp Hlen. unfold print_entry. rewrite Hla, Hlp, !read_Some_bind.
  apply bind_Undef. unfold fits. by rewrite (proj2 (Nat.leb_le _ _)) by done.
Qed.
End netstat_main.
