(* ===== verification/NetstatSystem.v ===== *)
(** * netstat: the whole program on a system

    A system is its sockets, its processes and what they run.  What main
    prints on it is computed by [listing] from these and, because the code
    prints memory it never wrote, from what the stack holds at each look. *)
From S2P Require Import Prelude Libc Netstat NetstatParse NetstatLines NetstatOwner NetstatMain.

Record system : Type := System {
  sys_tcp : list socket; sys_tcp6 : list socket; sys_udp : list socket; sys_udp6 : list socket;
  sys_procs : list proc_entry; sys_cmd : Z → command }.

(** The files of /proc/net in the order they are read. *)
Definition tables (y : system) : list (string * list socket) :=
  [("tcp", sys_tcp y); ("tcp6", sys_tcp6 y); ("udp", sys_udp y); ("udp6", sys_udp6 y)].
Definition sockets (y : system) : list socket := flat_map snd (tables y).

Definition sys_owner (y : system) (k : socket) : option Z := owner (owners (sys_procs y)) (sk_inode k).

Section system.
Context `{ProcFs}.
Implicit Types (s : Net) (y : system).

(** ** The listing *)

(** The files, their lines with the times they are looked at; the first file
    is opened at time [t]. *)
Definition table_time (x : string * list socket) : nat := S (2 * addr_looks (v6_file x.1) * length x.2).
Fixpoint timed (t : nat) (xs : list (string * list socket)) : list (string * list (nat * socket)) :=
  match xs with
  | [] => []
  | x :: xs => (x.1, timed_lines (S t) x.2) :: timed (table_time x + t) xs
  end.
Definition looked y (t : nat) : list (string * list (nat * socket)) := timed t (tables y).

Definition socket_end (t : nat) (a : address) (port : Z) : string := addr_text t a +:+ (":" +:+ port_at t a port).
Definition socket_row y (filter : string) (proto : string) (tk : nat * socket) : list string :=
  let '(t, k) := tk in
  match sys_owner y k with
  | Some p =>
      if contains filter (prog (sys_cmd y p)) then
        [row proto (socket_end t (sk_local k) (sk_lport k)) (socket_end (remote_look t k) (sk_remote k) (sk_rport k))
           p (sys_cmd y p)]
      else []
  | None => []
  end.
(** The rows of the tables of one protocol, IPv4 and then IPv6. *)
Definition proto_rows y (t : nat) (filter proto : string) : list string :=
  flat_map (λ x, flat_map (socket_row y filter x.1) x.2)
    (List.filter (λ x : string * list (nat * socket), String.prefix proto x.1) (looked y t)).
(** The listing of a program that starts at time [t]. *)
Definition listing y (t : nat) (tcp udp : bool) (filter : string) : list string :=
  blocks_of (if tcp || negb udp then proto_rows y t filter "tcp" else [])
            (if udp || negb tcp then proto_rows y t filter "udp" else []).

(** Whatever the stack holds, the texts of the addresses leave room for a colon
    and a port in the 32 bytes of an end. *)
Definition ends_fit (k : socket) : Prop := ∀ t,
  (String.length (addr_text t (sk_local k)) < 26)%nat ∧ (String.length (addr_text t (sk_remote k)) < 26)%nat.

(** The system seen through /proc, the same at every look.  Every socket has
    its own inode and a process that holds it, and the text of an IPv6 address
    fits the buffer of an end. *)
Record sees_system y : Prop := {
  ss_files proto l : In (proto, l) (tables y) →
    ∀ t, ∃ h, net_lines t ("/proc/net/" +:+ proto) = Some (h :: map kernel_line l);
  ss_proc : ∀ t, dir_entries t "/proc" = Some (map proc_name (sys_procs y));
  ss_entries : Forall sees_entry (sys_procs y);
  ss_sockets proto l : In (proto, l) (tables y) → Forall (socket_ok (v6_file proto)) l;
  ss_inodes : NoDup (map sk_inode (sockets y));
  ss_owned : Forall (λ k, ∃ p, sys_owner y k = Some p ∧ runs (sys_cmd y) p) (sockets y);
  ss_fit : Forall ends_fit (sys_tcp6 y ++ sys_udp6 y) }.

(** ** The table after the scan *)

Definition table_entries (x : string * list (nat * socket)) : list connection_entry :=
  map (λ tk, sock_entry x.1 tk.1 tk.2) x.2.
Definition sys_entries y (t : nat) : list connection_entry := flat_map table_entries (looked y t).

Lemma timed_lines_snd t l : map snd (timed_lines t l) = l.
Proof. revert t. induction l as [|k l IH]; intros t; [done|]. cbn [timed_lines map snd]. by rewrite IH. Qed.

Lemma sys_entries_inodes y t : omap inode (sys_entries y t) = map sk_inode (sockets y).
Proof.
  unfold sys_entries, sockets, looked. generalize (tables y) as l, t. induction l as [|[proto ks] l IH]; intros t0; [done|].
  cbn [flat_map timed snd fst]. rewrite omap_app, map_app, IH. f_equal. unfold table_entries. cbn [fst snd].
  rewrite <-(timed_lines_snd (S t0) ks) at 2. generalize (timed_lines (S t0) ks).
  intros ts. induction ts as [|tk ts IHts]; [done|]. cbn. cbn in IHts. by rewrite IHts.
Qed.
Lemma sys_entries_has y t : Forall has_inode (sys_entries y t).
Proof.
  unfold sys_entries. generalize (looked y t) as l. induction l as [|[proto ks] l IH]; [constructor|].
  apply Forall_app_2; [|exact IH]. apply Forall_map, Forall_true. intros k. by eexists.
Qed.

Lemma parse_table y proto l s :
  sees_system y → In (proto, l) (tables y) →
  parse_protocol proto s
  = Ret (tt, add_entries (file_entries proto (S (now s)) l) (table_time (proto, l)) s).
Proof.
  intros Hy Hin. destruct (ss_files y Hy proto l Hin (now s)) as [h Hh].
  apply (parse_kernel_file proto h); [|exact Hh|exact (ss_sockets y Hy proto l Hin)].
  cbn in Hin. destruct Hin as [E|[E|[E|[E|[]]]]]; injection E as <- <-; simpl; lia.
Qed.

Lemma add_entries_twice l1 l2 n m s : add_entries l2 m (add_entries l1 n s) = add_entries (l1 ++ l2) (m + n) s.
Proof. unfold add_entries. cbn. rewrite <-app_assoc. f_equal. lia. Qed.

Lemma parse_tables y s :
  sees_system y →
  ∃ n, (parse_protocol "tcp" ≫= λ _, parse_protocol "tcp6" ≫= λ _,
        parse_protocol "udp" ≫= λ _, parse_protocol "udp6") s
       = Ret (tt, add_entries (sys_entries y (now s)) n s).
Proof.
  intros Hy. pose proof (λ proto l s Hin, parse_table y proto l s Hy Hin) as Hf.
  rewrite (bind_Ret _ _ _ _ _ (Hf "tcp" (sys_tcp y) s (or_introl eq_refl))).
  erewrite bind_Ret by (apply (Hf "tcp6" (sys_tcp6 y)); cbn; auto).
  erewrite bind_Ret by (apply (Hf "udp" (sys_udp y)); cbn; auto).
  rewrite (Hf "udp6" (sys_udp6 y)) by (cbn; auto). rewrite !add_entries_twice.
  eexists. unfold sys_entries, looked, table_entries, file_entries, add_entries.
  cbn [flat_map tables timed fst snd all_connections output now].
  rewrite !app_nil_r.
  match goal with |- Ret (_, MkNet ?a _ _) = Ret (_, MkNet ?b _ _) =>
    assert (a = b) as -> by (rewrite <-!Nat.add_assoc; reflexivity) end.
  reflexivity.
Qed.

(** One entry for every socket, in the order of the files,
    with the process that holds it. *)
Lemma collect_table y s :
  sees_system y → all_connections s = [] →
  ∃ n, collect s
    = Ret (tt, MkNet (map (owned_by (owners (sys_procs y))) (sys_entries y (now s))) (output s) n).
Proof.
  intros Hy He. destruct (parse_tables y s Hy) as [n E].
  set (s1 := add_entries (sys_entries y (now s)) n s) in *.
  assert (collect s = (r ← tick (λ t, dir_entries t "/proc"); names ← deref r; scan_processes names) s1) as ->.
  { rewrite <-(bind_Ret _ (λ _, r ← tick (λ t, dir_entries t "/proc"); names ← deref r; scan_processes names) _ _ _ E).
    unfold collect. rewrite !bind_assoc_M. unfold mbind, M_bind.
    destruct (parse_protocol "tcp" s) as [[[] s2]| | | | |]; [|done..].
    destruct (parse_protocol "tcp6" s2) as [[[] s3]| | | | |]; [|done..].
    by destruct (parse_protocol "udp" s3) as [[[] s4]| | | | |]. }
  rewrite tick_bind, (ss_proc y Hy). unfold deref. rewrite ret_bind.
  assert (all_connections (ticked s1) = sys_entries y (now s)) as Hs1.
  { unfold s1, add_entries, ticked. cbn. by rewrite He. }
  rewrite scan_processes_foldl; [|apply Hy|rewrite Hs1; apply sys_entries_has].
  unfold with_owners. rewrite Hs1, assigns_owned; [eauto|].
  rewrite sys_entries_inodes. apply Hy.
Qed.

(** ** Entries and sockets *)

Lemma owned_sock_entry y proto t k p :
  sys_owner y k = Some p →
  owned_by (owners (sys_procs y)) (sock_entry proto t k) = with_pid p (sock_entry proto t k).
Proof. unfold owned_by, sys_owner. cbn. by intros ->. Qed.

Lemma port_at_length t a port : 0 ≤ port < 2 ^ 16 → (String.length (port_at t a port) ≤ 5)%nat.
Proof.
  intros Hp. unfold port_at, port_text. destruct (_ && _); [simpl; lia|].
  apply signed_text_length; [lia|]. simpl. lia.
Qed.
Lemma dotted_length b0 b1 b2 b3 :
  addr_ok (V4 b0 b1 b2 b3) → (String.length (dotted b0 b1 b2 b3) ≤ 15)%nat.
Proof.
  intros (H0 & H1 & H2 & H3). unfold dotted.
  rewrite !string_app_length. change (String.length ".") with 1%nat.
  assert (∀ x, 0 ≤ x < 256 → (String.length (signed_text x) ≤ 3)%nat) as Hl.
  { intros x Hx. apply signed_text_length; [lia|]. simpl. lia. }
  pose proof (Hl _ H0). pose proof (Hl _ H1). pose proof (Hl _ H2). pose proof (Hl _ H3). lia.
Qed.
Lemma socket_end_length t a port :
  (String.length (addr_text t a) < 26)%nat → 0 ≤ port < 2 ^ 16 → (String.length (socket_end t a port) < 32)%nat.
Proof.
  intros Ha Hp. unfold socket_end. rewrite !string_app_length. change (String.length ":") with 1%nat.
  pose proof (port_at_length t a port Hp). lia.
Qed.
(** The text of an IPv4 address always fits. *)
Lemma v4_fits k : socket_ok false k → ends_fit k.
Proof.
  intros [[Hl Hl4] _ [Hr Hr4] _ _ _ _ _] t.
  assert (∀ a, addr_ok a → is_v6 a = false → (String.length (addr_text t a) < 26)%nat) as Hf; [|by split; apply Hf].
  intros [b0 b1 b2 b3|] Ha; [|done]. intros _. cbn [addr_text]. pose proof (dotted_length _ _ _ _ Ha). lia.
Qed.

Lemma tables_fit y t : sees_system y → In t (tables y) → Forall ends_fit t.2.
Proof.
  intros Hy Hin. pose proof (ss_fit y Hy) as [Hf6 Hfu]%Forall_app.
  assert (∀ proto l, In (proto, l) (tables y) → v6_file proto = false → Forall ends_fit l) as H4.
  { intros proto l Hl Hv. pose proof (ss_sockets y Hy proto l Hl) as Hk. rewrite Hv in Hk.
    eapply Forall_impl; [exact Hk|]. apply v4_fits. }
  cbn in Hin. destruct Hin as [<-|[<-|[<-|[<-|[]]]]]; cbn [snd]; try done.
  - apply (H4 "tcp"); [by left|done].
  - apply (H4 "udp"); [by right; right; left|done].
Qed.

Lemma sock_entry_printable v6 proto t k p :
  socket_ok v6 k → ends_fit k → printable (with_pid p (sock_entry proto t k)).
Proof.
  intros [] Hf. split; [split; eexists; reflexivity..| |]; apply socket_end_length; [apply Hf|done|apply Hf|done].
Qed.

(** ** Rows *)

Definition has_owner y (k : socket) : Prop := ∃ p, sys_owner y k = Some p ∧ runs (sys_cmd y) p.

(** Every line that was looked at is one of a table. *)
Lemma looked_in y t x tk :
  In x (looked y t) → In tk x.2 → ∃ l, In (x.1, l) (tables y) ∧ In tk.2 l.
Proof.
  unfold looked. generalize (tables y) as l, t. induction l as [|[proto ks] l IH]; intros t0; [done|].
  cbn [timed fst snd]. intros [<-|Hx] Hk.
  - exists ks. split; [by left|]. cbn [snd] in Hk. apply (in_map snd) in Hk. by rewrite timed_lines_snd in Hk.
  - destruct (IH _ Hx Hk) as (l' & Hl & Hk'). exists l'. split; [by right|done].
Qed.

Lemma looked_ok y t x tk :
  sees_system y → In x (looked y t) → In tk x.2 →
  has_owner y tk.2 ∧ ends_fit tk.2 ∧ socket_ok (v6_file x.1) tk.2.
Proof.
  intros Hy Hx Hk. destruct (looked_in y t x tk Hx Hk) as (l & Hin & Hkl).
  pose proof (ss_owned y Hy) as Ho. rewrite Forall_forall in Ho.
  pose proof (tables_fit y (x.1, l) Hy Hin) as Hf. pose proof (ss_sockets y Hy x.1 l Hin) as Hs.
  rewrite Forall_forall in Hf, Hs. split_and!.
  - apply Ho, list_elem_of_In, in_flat_map. by exists (x.1, l).
  - by apply Hf, list_elem_of_In.
  - by apply Hs, list_elem_of_In.
Qed.

Lemma table_rows y proto filter x :
  (∀ tk, In tk x.2 → has_owner y tk.2) →
  map (entry_row (sys_cmd y)) (List.filter (selected (sys_cmd y) proto filter)
    (map (owned_by (owners (sys_procs y))) (table_entries x)))
  = if String.prefix proto x.1 then flat_map (socket_row y filter x.1) x.2 else [].
Proof.
  destruct x as [q l]. unfold table_entries. cbn [fst snd].
  induction l as [|[t k] l IH]; intros Hl; [by destruct (String.prefix _ _)|].
  destruct (Hl (t, k)) as (p & Ho & Hr); [by left|]. specialize (IH (λ tk Hin, Hl tk (or_intror Hin))).
  cbn [map List.filter flat_map fst snd] in *. rewrite (owned_sock_entry y q t k p Ho).
  unfold selected at 1, of_proto. cbn [ip_proto pid with_pid sock_entry].
  destruct (String.prefix proto q); cbn [andb]; [|exact IH].
  unfold socket_row at 1. rewrite Ho. destruct (contains _ _); cbn [map app]; by rewrite IH.
Qed.

Lemma sys_rows y t proto filter :
  sees_system y →
  map (entry_row (sys_cmd y)) (List.filter (selected (sys_cmd y) proto filter)
    (map (owned_by (owners (sys_procs y))) (sys_entries y t))) = proto_rows y t filter proto.
Proof.
  intros Hy. unfold sys_entries, proto_rows.
  assert (∀ x, In x (looked y t) → ∀ tk, In tk x.2 → has_owner y tk.2) as Ho.
  { intros x Hx tk Hk. by apply (looked_ok y t x). }
  revert Ho. generalize (looked y t) as l. induction l as [|x l IH]; intros Ho; [done|].
  cbn [flat_map List.filter]. rewrite !map_app, List.filter_app, map_app, table_rows, IH; [| |naive_solver].
  - by destruct (String.prefix proto x.1).
  - intros x' Hx'. apply Ho. by right.
Qed.

Lemma sys_printable y t :
  sees_system y →
  Forall (λ e, ready (sys_cmd y) e ∧ printable e) (map (owned_by (owners (sys_procs y))) (sys_entries y t)).
Proof.
  intros Hy. apply Forall_map, Forall_forall. intros e He.
  apply list_elem_of_In, in_flat_map in He as (x & Hin & ([t0 k] & <- & Hk)%in_map_iff).
  destruct (looked_ok y t x (t0, k) Hy Hin Hk) as ((p & Hp & Hr) & Hf & Hs). cbn [fst snd] in *.
  rewrite (owned_sock_entry y x.1 t0 k p Hp). split; [by exists p|]. by eapply sock_entry_printable.
Qed.

(** C8. On a system whose sockets, IPv4 and IPv6, all have an owner, main ends with
    0 and prints exactly the listing: for each protocol asked for, the title, the
    heading and a row for every socket whose owner's program contains the
    filter, IPv4 first, and a blank line between two lists.  An IPv6 address is
    printed from the four bytes that were read and the twelve the stack held at
    that look, port 0 as a star or a 0 by the half of [port] that is never
    written.  The system: /proc and the descriptors of every process in it can
    be read, inodes are distinct, program names have at most 31 characters and
    the texts of IPv6 addresses at most 25. *)
Theorem main_lists y argv tcp udp s :
  sees_system y → all_connections s = [] →
  read_options (getopt_long argv) false false = Some (tcp, udp) →
  (String.length (default EmptyString (operand_of argv)) < 64)%nat →
  ∃ s', main argv s = Ret (0, s')
    ∧ output s' = output s ++ listing y (now s) tcp udp (default EmptyString (operand_of argv)).
Proof.
  intros Hy He Ho Hf. unfold main. rewrite Ho.
  rewrite (bind_Ret _ _ _ _ _ (fits_ok 64 _ s Hf)).
  destruct (collect_table y s Hy He) as [n E]. rewrite (bind_Ret _ _ _ _ _ E).
  set (s1 := MkNet _ _ _). set (filter := default _ _).
  assert (∀ proto, Forall (λ e, of_proto proto e = true → ready (sys_cmd y) e ∧ printable e) (all_connections s1)) as Hp.
  { intros proto. eapply Forall_impl; [by apply sys_printable|]. intros e Hpe _. exact Hpe. }
  destruct (report_lists (sys_cmd y) tcp udp filter s1 (Hp _) (Hp _)) as [m Em].
  rewrite (bind_Ret _ _ _ _ _ Em). eexists. split; [done|].
  unfold printed, listing. cbn [output ticks]. f_equal.
  unfold s1, shown. cbn [all_connections]. by rewrite !sys_rows, wants_tcp_eq, wants_udp_eq.
Qed.
End system.
