(* ===== verification/NetstatExamples.v ===== *)
(** * netstat on a concrete system

    A system with an ssh server, a web server and a DHCP client, seen through
    /proc.  The theorems are applied to it, and main is run. *)
From S2P Require Import Prelude Libc Netstat NetstatParse NetstatLines NetstatOwner NetstatMain NetstatSystem.

Definition middle : list (nat * string) :=
  [(0, "0A"); (0, "00000000:00000000"); (0, "00:00000000"); (0, "00000000"); (4, "0"); (7, "0")]%nat.
Definition rest_of_line : list (nat * string) :=
  [(0, "1"); (0, "0000000000000000"); (0, "100"); (20, newline)]%nat.
Definition sock (n : string) (a : Z * Z * Z * Z) (p i : Z) : socket :=
  let '(b0, b1, b2, b3) := a in Socket (V4 b0 b1 b2 b3) p (V4 0 0 0 0) 0 i 3 n middle rest_of_line.
Definition sock6 (n : string) (a b : address) (p q i : Z) : socket :=
  Socket a p b q i 3 n middle rest_of_line.

Definition sshd : process := Process 42 [("0", LOther "/dev/null"); ("3", LSocket 1000)].
Definition dhcpcd : process := Process 7 [("5", LSocket 2000)].
Definition httpd : process := Process 99 [("4", LSocket 3000); ("6", LSocket 4000); ("7", LSocket 5000)].
Definition box : system := System
  [sock "0:" (0, 0, 0, 0) 22 1000; sock "1:" (127, 0, 0, 1) 8080 3000]
  [sock6 "0:" (V6 0 0 0 0) (V6 0 0 0 0) 80 0 4000;
   sock6 "1:" (V6 0xb80d0120 0 0 0x01000000) (V6 0xb80d0120 0x1000 0 0x02000000) 80 5555 5000]
  [sock "5:" (192, 168, 1, 17) 68 2000]
  []
  [POther "cpuinfo"; PProc dhcpcd; PProc sshd; PProc httpd]
  (λ p, if p =? 42 then Command "/usr/sbin/sshd" ["-D"]
        else if p =? 7 then Command "dhcpcd" []
        else Command "/opt/httpd" ["-k"; "start"]).

Definition table (rows : list (string * list string)) (key : string) : option (list string) :=
  snd <$> (snd <$> list_find (λ r : string * list string, r.1 = key) rows).

(** /proc of the system; [extra] is what the looks besides find. *)
Definition box_fs (extra : list (string * list string)) : ProcFs := {|
  net_lines := λ _, table [("/proc/net/tcp", "  sl  local_address" :: map kernel_line (sys_tcp box));
                           ("/proc/net/tcp6", "  sl" :: map kernel_line (sys_tcp6 box)); ("/proc/net/udp6", ["  sl"]);
                           ("/proc/net/udp", "   sl  local_address" :: map kernel_line (sys_udp box))];
  dir_entries := λ _, table ([("/proc", map proc_name (sys_procs box)); (fd_dir sshd, fd_names sshd);
                              (fd_dir dhcpcd, fd_names dhcpcd); (fd_dir httpd, fd_names httpd)] ++ extra);
  link_target := λ _ path, table
    [("/proc/42/fd/0", ["/dev/null"]); ("/proc/42/fd/3", [link_text (LSocket 1000)]);
     ("/proc/7/fd/5", [link_text (LSocket 2000)]); ("/proc/99/fd/4", [link_text (LSocket 3000)]);
     ("/proc/99/fd/6", [link_text (LSocket 4000)]); ("/proc/99/fd/7", [link_text (LSocket 5000)])] path ≫= head;
  first_line := λ _ path, head <$> table
    (map (λ p, (cmd_path p, [cmd_text (sys_cmd box p)])) [42; 7; 99]) path;
  getopt_long := λ argv, if bool_decide (argv = ["-t"]) then [(116, 0)] else [];
  operand_of := λ _, None;
  inet_ntop6 := λ b, if bool_decide (b = replicate 16 0) then "::" else "ffff:ffff::";
  port_high := λ t, if (t =? 4)%nat then 7 else 0;
  addr6_rest := λ _, replicate 12 0 |}.
#[local] Instance box_net : ProcFs := box_fs [].

Definition start : Net := MkNet [] [] 0.

Example ex_line :
  kernel_line (sock "0:" (127, 0, 0, 1) 22 1000)
  = "   0: 0100007F:0016 00000000:0000 0A 00000000:00000000 00:00000000 00000000     0        0 1000 1 0000000000000000 100                     " +:+ newline.
Proof. by vm_compute. Qed.
Example ex_main : match main [] start with Ret (r, s) => Some (r, output s) | _ => None end =
  Some (0, map (λ t, t +:+ newline)
    ["List of TCP connections:";
     "Proto  Local Address            Foreign Address          PID/Program name and arguments";
     "tcp    0.0.0.0:22               0.0.0.0:*                42/sshd -D";
     "tcp    127.0.0.1:8080           0.0.0.0:0                99/httpd -k";
     "tcp6   :::80                    :::*                     99/httpd -k";
     "tcp6   ffff:ffff:::80           ffff:ffff:::5555         99/httpd -k";
     "";
     "List of UDP connections:";
     "Proto  Local Address            Foreign Address          PID/Program name and arguments";
     "udp    192.168.1.17:68          0.0.0.0:*                7/dhcpcd "]).
Proof. vm_compute. done. Qed.

(** ** The theorems applied *)

Lemma parse_pair_ipv6_lost_witness :
  parse_addr_port_pair (kernel_addr6 0xb80d0120 0 0 0x01000000 +:+ ":" +:+ hex_upper 4 443) true start
  = Ret ((inet_ntop6 ([255; 255; 255; 255] ++ replicate 12 0), "443"), MkNet [] [] 2).
Proof.
  refine (eq_trans (parse_pair_ipv6_lost 0xb80d0120 0 0 0x01000000 443 start _ _ _ _ _) _); [done..|].
  by vm_compute.
Defined.

Definition unowned (i : Z) : connection_entry := sock_entry "tcp" 0 (sock "0:" (127, 0, 0, 1) 80 i).

Lemma set_owner_first_witness :
  set_owner 3000 99 [unowned 1000; unowned 3000; unowned 3000] start
  = Ret ([unowned 1000; with_pid 99 (unowned 3000); unowned 3000], start).
Proof.
  apply (set_owner_first 3000 99 [unowned 1000; unowned 3000; unowned 3000] start).
  repeat constructor; by eexists.
Defined.

Lemma box_entries : Forall sees_entry (sys_procs box).
Proof.
  repeat constructor; cbn; try done; try lia; intros t; repeat constructor; try done; cbn; lia.
Qed.

Lemma scan_processes_owners_witness :
  scan_processes (map proc_name (sys_procs box)) (MkNet [unowned 3000; unowned 5] [] 0)
  = Ret (tt, MkNet [with_pid 99 (unowned 3000); unowned 5] [] 9).
Proof.
  apply (scan_processes_owners (sys_procs box) (MkNet [unowned 3000; unowned 5] [] 0)).
  - exact box_entries.
  - repeat constructor; by eexists.
  - compute_done.
Defined.

Lemma unreadable_process_fatal_witness :
  scan_processes ["cpuinfo"; "42"; "1"; "7"] start = Undef NullDeref.
Proof.
  refine (unreadable_process_fatal [POther "cpuinfo"; PProc sshd] 1 [] ["7"] start _ _ _ _).
  - repeat constructor; cbn; try done; try lia; intros t; repeat constructor; try done; cbn; lia.
  - constructor.
  - lia.
  - intros t. reflexivity.
Defined.

Lemma box_runs p : p ∈ [42; 7; 99] → runs (sys_cmd box) p.
Proof.
  intros Hp. repeat (apply elem_of_cons in Hp as [-> | Hp]);
    [split; [lia|split; vm_compute; (done || lia)|done]..|by apply elem_of_nil in Hp].
Qed.

Lemma select_entries_filter_witness :
  select_entries "tcp" "httpd" [with_pid 42 (unowned 1000); with_pid 99 (unowned 3000)] start
  = Ret ([with_pid 99 (unowned 3000)], MkNet [] [] 2).
Proof.
  apply (select_entries_filter (sys_cmd box) "tcp" "httpd" [with_pid 42 (unowned 1000); with_pid 99 (unowned 3000)] start).
  repeat constructor; intros _; [exists 42|exists 99]; (split; [done|apply box_runs; set_solver]).
Defined.

Lemma unowned_entry_fatal_witness :
  select_entries "tcp" EmptyString [with_pid 42 (unowned 1000); unowned 0; with_pid 7 (unowned 5)] start = Undef Uninit.
Proof.
  apply (unowned_entry_fatal (sys_cmd box) "tcp" EmptyString [with_pid 42 (unowned 1000)] (unowned 0) [with_pid 7 (unowned 5)] start).
  - repeat constructor. intros _. exists 42. split; [done|apply box_runs; set_solver].
  - done.
  - done.
Defined.

Lemma long_end_overflows_witness :
  print_entry (Entry "tcp6" (Some "2001:db8:1234:5678:9abc:def0:1234") (Some "443") None None None None) start = Undef OutOfBounds.
Proof.
  apply (long_end_overflows (Entry "tcp6" (Some "2001:db8:1234:5678:9abc:def0:1234") (Some "443") None None None None)
    "2001:db8:1234:5678:9abc:def0:1234" "443"); [done..|]. apply Nat.leb_le. by vm_compute.
Defined.

Lemma box_seen : sees_system box.
Proof.
  split.
  - intros proto l Hin t. cbn [In tables] in Hin.
    destruct Hin as [E|[E|[E|[E|[]]]]]; injection E as <- <-; by eexists.
  - done.
  - exact box_entries.
  - intros proto l Hin. cbn [In tables] in Hin.
    destruct Hin as [E|[E|[E|[E|[]]]]]; injection E as <- <-; repeat constructor; cbn; try lia; done.
  - compute_done.
  - repeat constructor; eexists; (split; [by vm_compute|apply box_runs; set_solver]).
  - repeat constructor; apply Nat.ltb_lt; by vm_compute.
Qed.

Lemma main_lists_witness :
  ∃ s', main ["-t"] start = Ret (0, s') ∧ output s' = [] ++ listing box 0 true false EmptyString.
Proof.
  apply (main_lists (H := box_net) box ["-t"] true false start).
  - exact box_seen.
  - done.
  - done.
  - simpl. lia.
Defined.
